(* ===== verification/_CoqProject ===== *)
-Q . S2P
Prelude.v
CString.v
Getopt.v
RuntimeConfig.v
Wire.v
Crc32.v
Lsb.v
World.v
Stego.v
PngToy.v
StegoCorrect.v
Protocol.v
Net.v
Storage.v
Startup.v
StartupCorrect.v
Inotify.v
PngUtils.v
Job.v
Queue.v
Worker.v
WorkerLogic.v
WorkerQuiet.v
WorkerResult.v
WorkerCorrect.v
ServerState.v
BlockList.v
Handlers.v
ServerLoop.v
ServerSafe.v
ServerCorrect.v
ServerPoll.v
ServerRun.v
System.v
Exchange.v
Threads.v
ThreadsCorrect.v
ServerMain.v
Service.v
ThreadsResult.v
ServerSubmit.v
EndToEnd.v
ThreadsText.v
Client.v
ClientCorrect.v
Conversation.v
Admin.v
AdminCorrect.v
Logger.v
EntryPoint.v
ServerCases.v
ServerDemo.v
ThreadsDemo.v
