(* ===== verification/Prelude.v ===== *)
(** * StegaPNG: a verification library for the server

    StegaPNG hides texts and files in the low bits of PNG images.  Users and
    one administrator talk to a server over a line protocol; the server stores
    what they upload, queues jobs, and worker threads process them.  This
    library models the C sources of the server (src/src/server, src/include) and
    of its two clients (src/src/client, src/src/admin) in Rocq as executable
    functions and proves what they guarantee.

    ** Parts and files

    - [Prelude], [CString], [Wire]: machine integers (a value of [Z] with its
      wrap-around written out), C strings and the calls of the C library that
      the program uses, little-endian fields.
    - [Crc32], [Lsb], [World], [Stego], [PngToy], [StegoCorrect] (stego.c): the
      checksum with its lazily built table, the loops over the low bits, the
      files and the heap of the program, encoding and decoding with every error
      path.  libpng is the class [LibPng] with the laws [LibPngLaws]; [PngToy] is
      an instance that satisfies them, on which the witnesses run.
    - [Protocol] (protocol.c): the parser of requests and a printer.
    - [Net], [Storage], [PngUtils] (net.c, storage.c, png_utils.c): transfers over
      connections whose reads and writes may be partial, interrupted or fail,
      uploads, downloads and paths, metadata.
    - [Job], [Queue] (job.c, queue.c): the jobs and their table in a heap of
      records, the linked list of the queue in a heap of nodes.
    - [Worker] (worker.c): the loop of a worker and the processing of each type
      of job, as trees of atomic actions; [WorkerLogic]: a logic for a worker
      that is alone and a rely-guarantee logic for one among others;
      [WorkerCorrect]: the life of a job; [WorkerQuiet], [WorkerResult]: the
      results of the jobs that hide and that extract, among others.
    - [ServerState], [Handlers], [Inotify], [ServerLoop] (server.c): sessions, block
      list, the handlers of all commands, notifications, accepting, the poll
      array, one iteration of the loop, the cleanup.
    - [Getopt], [RuntimeConfig] (runtime_config.c, main.c): the configuration and
      its sources.
    - [Startup] (server.c, net.c, storage.c): the start of [server_run] and the
      release at its end, with the resources of the kernel; [ServerMain]: the
      whole of [server_run], with its workers from their creation to their joins.
    - [EntryPoint] (main.c): from the arguments to the exit status.
    - [System], [EndToEnd]: the event loop and turns of a worker that nobody
      interrupts; [Threads], [ThreadsCorrect], [ThreadsResult]: the event loop and
      any number of workers with all their interleavings; [ThreadsText]: a request
      from the socket to the download in that program; [Service]: what the
      program promises about jobs, as a specification that it refines.
    - [Client], [ClientCorrect] (client/main.c), [Admin], [AdminCorrect]
      (admin/main.c): the two programs that talk to the server; [Conversation]:
      the client and the server together.
    - [Logger] (logger.c): the log file and its lines.
    - [Exchange], [ServerSubmit], [ServerSafe], [ServerCorrect], [ServerPoll],
      [ServerRun], [ServerCases], [BlockList], [StartupCorrect]: the lemmas and
      theorems about the server; [ServerDemo], [ThreadsDemo]: concrete runs.

    Names follow the sources; constants have the names of
    include/config.h.  A record models a structure, an inductive type an enum.
    Functions over shared state are computations of a small monad: [M] over the
    files and the heap ([World]), [W] over the view of a worker, [Srv] over the
    whole state of the server, [Boot] over what the kernel holds, [Cl] and [Ad]
    over a client and the console of the administrator.  Each has a
    logic of total correctness ([wp], [wpW], [wpS], [wpB], [wpC], [wpA]) in which the proofs are
    carried out; a result [None] of [Srv], [Boot], [Cl] or [Ad] would be undefined behaviour or
    exhausted fuel, and the theorems exclude it.

    ** What fails, and when

    Allocations, calls of stdio and the kernel, reads and writes on sockets and
    libpng may fail at any point, and so may the flush by an [fclose], after any
    number of bytes ([flush]).  The outcomes to come are part of the state
    (lists of booleans, schedules of partial transfers; they succeed once the
    list is exhausted), so that a theorem about all states is a theorem about
    all failures.  What the kernel chooses (descriptors, addresses of
    connections, events) is an argument.

    ** Concurrency

    job.c and queue.c lock a mutex around each function, which is therefore
    one atomic action.  The code of a worker is a tree of such actions [W]: an
    access to a job, a call over the files, an operation of the queue, a write
    to the pipe.  In [Threads] a step of the program ([program_step]) is one
    iteration of the event loop or one action of one worker, so that the
    handlers meet jobs at every point of their processing and several jobs are
    in progress at once.

    The proofs are modular.  [rg] is a rely-guarantee logic: what a worker does
    ([wstep]) and what it needs the others to respect; the class [Rely] is the
    interface between the proof of the code, which is done once
    ([worker_job_rg]), and the other threads, of which there are none in
    [rely_alone] and which are the whole program in [rely_others].  [program_inv]
    keeps for each worker where it is in its code and which job it has in hand.
    For the results [wpR] tracks one job whose files the others leave alone
    ([like], [undisturbed]); the paths of the uploads and results are distinct
    for distinct jobs ([private]), so every other step of the program qualifies
    ([poll_apart], [action_apart]).  That a job reads its own uploads is part of
    what every command guarantees ([submit_step], [own_uploads]) and so holds of
    every job that waits ([reached_owned]).

    A coarser model is kept in [System], where the steps are whole iterations of
    the event loop and whole turns of a worker, with the cancellations of the
    server thread before each access to a job; the theorems that follow the
    bytes of a conversation are stated on it.

    Granularity: an iteration of the event loop is one step, although a worker
    may act between two accesses of a handler to a job; a call over files (an
    encoding, a decoding, reading a text) is one action, since the files of a
    job are touched by no other thread; so is the loop that writes an event of
    16 bytes, which a pipe takes whole.  The pipe has room for what the workers
    write: the write end blocks when 64 KiB of events (4096 of them) wait, which
    the model leaves out.

    A run of the whole program ([server_run], [server_program]) is a relation: the
    loop may end in every state that the threads reach (a signal arrives, or [poll]
    fails), then the queue is stopped, only workers act until all have returned,
    and everything is released.

    ** What the theorems show

    - Hiding and finding: [text_hidden_by_client] follows a text from the command
      line of a client through the server and a worker to the file that the
      client saves; [encode_text_then_decode] and
      [encode_file_then_decode] are the round trips, [decode_sound],
      [decode_corrupted] and [stego_crc32_detects_burst] say what a successful
      decoding and the checksum guarantee, [encode_only_low_bits] and
      [capacity_promise] what happens to the image and when there is room,
      [encode_text_failure_safe] what is left after a failure of any kind.
    - All interleavings of the threads: [text_hidden_by_threads] follows a request
      from the bytes on a socket to the download, [threads_hide] and [threads_roundtrip]
      (the result of a job is right, and a second job finds what the first one
      hid), [threads_safe], [workers_terminate], [threads_refine_service] (the
      program refines an abstract first-in first-out service) and, through the
      specification, [jobs_in_order].
    - Jobs and workers: [job_reachable_inv], [queue_fifo], [worker_job_final],
      [worker_drains_queue], [worker_job_isolated]; with turns [system_safe] and
      [all_jobs_final].
    - The server: [server_runs] (the invariant [srv_inv] and that no job is lost,
      from the initial state on), [command_isolated] (the frame of a command of
      one client), [connection_admitted], [block_effective] (and which connections
      the block list does not stop), [blocklist_refines], [events_attributed].
    - Start-up, configuration and end: [main_config_wf], [config_precedence],
      [start_server_correct], [program_ends] (every run of the program releases
      what it holds, and stopping the workers cannot hang).
    - Input and output: [parse_print], [receive_all_or_nothing],
      [inotify_events_logged].
    - The clients: [client_run_safe], [menu_speaks_protocol].
    - Divergences of the code from what it means to do, for all states:
      [events_misattributed] (a connection that is accepted shifts the events of
      the clients after it), [save_flush_unnoticed] (a failed last flush is
      reported as a success), [png_load_leaks_rows], [refused_size_not_discarded],
      [long_list_unanswered], [config_equals_not_loaded], [menu_ends_or_spins];
      and, on one run, [workers_left_running].

    ** Fuel and bounds

    Loops whose end depends on data take fuel: the transfer loops the number of
    scheduled steps plus the number of bytes (each iteration consumes one), the
    loop over a file one more than its bytes, the decimal digits the binary
    ones, the list of nodes one more than the size of its heap, [worker_main] one
    more than the queued jobs, the client that saves a result one more than the
    bytes that arrive.  Lemmas such as [write_loop_total], [inotify_loop_total],
    [drain_loop_total] and [save_loop_spec] prove that it is enough.  The polls of
    a client are bounded by the code itself; the menu of the console may not
    end, and [menu_ends_or_spins] says when.  The integers are those of Linux on
    x86_64.

    ** Not modelled

    - The messages to the error streams, and the calls of the logger in the
      handlers: output that no decision depends on ([Logger] models what a call
      appends).
    - The Python clients, the REST gateway and the scripts: they use the server
      over its protocol.
    - Interleavings inside a handler of the server (see Granularity).
    - A peer that stays silent with its connection open.  The bytes that a peer
      sends are given, and after them a read finds the end of the stream; in the
      program [read_line] and [read_exact] (net.c) would wait for ever, since no
      socket has a timeout.  This holds of the server, whose event loop then
      waits, and of both clients.  A liveness statement about a connection is
      one about peers that close it after what they send.
    - libpng and libconfig are interfaces; the signal handler is the end of the
      loop, in any state it reaches. *)

From stdpp Require Export base numbers list strings gmap.
From Stdlib Require Export Ascii ZArith Lia.

#[local] Open Scope Z_scope.

(** ** Machine integers

    A C unsigned integer of width [w] is a [Z] in [0, 2^w).  The wrap-around
    of a conversion is written out by [wrap]; [u8], [u16], [u32] and [u64] are
    the widths the program uses ([size_t] and [uint64_t] are both [u64] on the
    Linux x86_64 target of docs/SRS.md).  [to_int] is the conversion to the
    32-bit signed [int]. *)

Definition wrap (w x : Z) : Z := x mod 2 ^ w.

Definition u8 (x : Z) : Z := wrap 8 x.
Definition u16 (x : Z) : Z := wrap 16 x.
Definition u32 (x : Z) : Z := wrap 32 x.
Definition u64 (x : Z) : Z := wrap 64 x.

Definition to_int (x : Z) : Z := (x + 2 ^ 31) mod 2 ^ 32 - 2 ^ 31.

(** [bounded w x]: [x] is a value of the unsigned type of width [w]. *)
Definition bounded (w x : Z) : Prop := 0 <= x < 2 ^ w.

#[export] Instance bounded_dec w x : Decision (bounded w x).
Proof. unfold bounded. apply _. Defined.

(** A byte string of the program: a list of [u8] values. *)
Definition bytes_ok (l : list Z) : Prop := Forall (bounded 8) l.

#[export] Instance bytes_ok_dec l : Decision (bytes_ok l).
Proof. unfold bytes_ok. apply _. Defined.

(** ** Automation *)

Create HintDb cint.

(** Linear arithmetic with [/] and [mod] by constants. *)
Ltac zlia := Z.to_euclidean_division_equations; lia.

(** Closed powers of two are values for [lia]. *)
Ltac pow2 :=
  change (2 ^ 8) with 256 in *; change (2 ^ 16) with 65536 in *;
  change (2 ^ 31) with 2147483648 in *; change (2 ^ 32) with 4294967296 in *;
  change (2 ^ 64) with 18446744073709551616 in *.

(** Unfold the width conversions and decide. *)
Ltac cint_lia :=
  unfold u8, u16, u32, u64, to_int, wrap, bounded in *; pow2; zlia.

(** Case analysis on the boolean and decidable tests of the goal. *)
Ltac case_tests :=
  repeat (case_decide || case_bool_decide || case_match); simplify_eq/=.

(** ** Lemmas on widths and bits *)

Section widths.
Implicit Types w x y : Z.

Lemma wrap_bounded w x : 0 <= w -> bounded w (wrap w x).
Proof. intros Hw. apply Z.mod_pos_bound. lia. Qed.

Lemma wrap_small w x : bounded w x -> wrap w x = x.
Proof. apply Z.mod_small. Qed.

Lemma wrap_testbit w x i :
  0 <= w -> Z.testbit (wrap w x) i = (i <? w) && Z.testbit x i.
Proof.
  intros Hw. unfold wrap. destruct (Z.ltb_spec i w) as [Hlt|Hge]; simpl.
  - destruct (decide (0 <= i)) as [Hi|Hi].
    + by apply Z.mod_pow2_bits_low.
    + rewrite !Z.testbit_neg_r by lia. done.
  - apply Z.mod_pow2_bits_high. lia.
Qed.

(** A non-negative number is below [2^w] when its bits from [w] on are 0. *)
Lemma bounded_testbit w x :
  0 <= w -> 0 <= x -> (forall i, w <= i -> Z.testbit x i = false) -> bounded w x.
Proof.
  intros Hw Hx Hb. split; [done|].
  destruct (decide (x = 0)) as [->|Hne]; [lia|].
  apply Z.log2_lt_pow2; [lia|]. apply Z.nle_gt. intros Hle.
  specialize (Hb _ Hle). rewrite Z.bit_log2 in Hb by lia. done.
Qed.

Lemma testbit_bounded w x i : bounded w x -> w <= i -> Z.testbit x i = false.
Proof.
  intros [Hx0 Hx] Hi. destruct (decide (x = 0)) as [->|Hne]; [apply Z.bits_0|].
  apply Z.bits_above_log2; [done|].
  apply Z.lt_le_trans with w; [|done]. apply Z.log2_lt_pow2; lia.
Qed.

Lemma bounded_lxor w x y : 0 <= w -> bounded w x -> bounded w y -> bounded w (Z.lxor x y).
Proof.
  intros Hw Hx Hy. apply bounded_testbit; [done| |].
  - apply Z.lxor_nonneg. unfold bounded in *. lia.
  - intros i Hi. rewrite Z.lxor_spec, !(testbit_bounded w) by done. done.
Qed.

Lemma bounded_lor w x y : 0 <= w -> bounded w x -> bounded w y -> bounded w (Z.lor x y).
Proof.
  intros Hw Hx Hy. apply bounded_testbit; [done| |].
  - apply Z.lor_nonneg. unfold bounded in *. lia.
  - intros i Hi. rewrite Z.lor_spec, !(testbit_bounded w) by done. done.
Qed.

Lemma bounded_shiftr w x n : 0 <= w -> 0 <= n -> bounded w x -> bounded w (Z.shiftr x n).
Proof.
  intros Hw Hn Hx. apply bounded_testbit; [done| |].
  - apply Z.shiftr_nonneg. unfold bounded in *. lia.
  - intros i Hi. rewrite Z.shiftr_spec by lia. apply (testbit_bounded w); [done|lia].
Qed.

(** Masking with [2^w - 1] is the wrap-around. *)
Lemma land_mask w x : 0 <= w -> Z.land x (Z.ones w) = wrap w x.
Proof. intros. by rewrite Z.land_ones. Qed.
End widths.

#[export] Hint Resolve wrap_bounded bounded_lxor bounded_lor bounded_shiftr : cint.
#[export] Hint Extern 1 (0 <= _) => lia : cint.
#[export] Hint Extern 1 (bounded _ (u8 _)) => apply wrap_bounded : cint.
#[export] Hint Extern 1 (bounded _ (u16 _)) => apply wrap_bounded : cint.
#[export] Hint Extern 1 (bounded _ (u32 _)) => apply wrap_bounded : cint.
#[export] Hint Extern 1 (bounded _ (u64 _)) => apply wrap_bounded : cint.

(** [bitblast_step]: reduce a [testbit] goal of a known operator. *)
Ltac bits :=
  repeat first
    [ rewrite Z.lxor_spec | rewrite Z.lor_spec | rewrite Z.land_spec
    | rewrite Z.shiftr_spec by lia | rewrite Z.shiftl_spec by lia
    | rewrite wrap_testbit by lia ].

(** ** Generic lemmas on lists *)

Section lists.
Context {A : Type}.
Implicit Types l k : list A.

(** Two lists of the same length that agree at every index are equal. *)
Lemma list_eq_nth d l k :
  length l = length k ->
  (forall i, (i < length l)%nat -> nth i l d = nth i k d) -> l = k.
Proof. intros. by apply (nth_ext _ _ d d). Qed.

Lemma take_app_exact l k n : n = length l -> take n (l ++ k) = l.
Proof. intros ->. apply take_app_length. Qed.

Lemma drop_app_exact l k n : n = length l -> drop n (l ++ k) = k.
Proof. intros ->. apply drop_app_length. Qed.
End lists.
