(* ===== verification/CString.v ===== *)
(** * C strings and the standard library calls of the program

    A NUL-terminated [char] array is the [string] of the characters before its
    terminator.  This file models the calls of <string.h>, <stdlib.h> and
    <stdio.h> the program relies on: [strlen], [strcmp], [strncmp] against a
    prefix, [strrchr], [strstr], [strtoull], [strtol], [snprintf] into a
    bounded buffer and the [%d]/[%u]/[%llu] conversions. *)

From S2P Require Export Prelude.
#[local] Open Scope Z_scope.

#[global] Arguments String.append !_ _ / : simpl nomatch.

(** ** Characters and bytes *)

Definition ord (a : ascii) : Z := Z.of_N (N_of_ascii a).
Definition chr (z : Z) : ascii := ascii_of_N (Z.to_N z).

Definition NUL : ascii := chr 0.
Definition NL : ascii := chr 10.

(** The string of one line feed. *)
Definition nl : string := String NL EmptyString.

Lemma ord_bounded a : bounded 8 (ord a).
Proof.
  unfold bounded, ord. pose proof (N_ascii_bounded a). pow2. lia.
Qed.

Lemma chr_ord a : chr (ord a) = a.
Proof. unfold chr, ord. rewrite N2Z.id. apply ascii_N_embedding. Qed.

Lemma ord_chr z : bounded 8 z -> ord (chr z) = z.
Proof.
  unfold bounded, chr, ord. pow2. intros Hz.
  rewrite N_ascii_embedding by lia. lia.
Qed.

Lemma ord_inj a b : ord a = ord b -> a = b.
Proof. intros H. by rewrite <-(chr_ord a), H, chr_ord. Qed.

Fixpoint bytes_of_string (s : string) : list Z :=
  match s with
  | EmptyString => []
  | String a s => ord a :: bytes_of_string s
  end.

Fixpoint string_of_bytes (l : list Z) : string :=
  match l with
  | [] => EmptyString
  | z :: l => String (chr z) (string_of_bytes l)
  end.

(** The C string that starts at the first byte of a buffer: it ends at the
    first NUL. *)
Fixpoint cstr_of_bytes (l : list Z) : string :=
  match l with
  | [] => EmptyString
  | z :: l => if z =? 0 then EmptyString else String (chr z) (cstr_of_bytes l)
  end.

(** No character of a C string is its terminator. *)
Definition no_nul (s : string) : Prop := Forall (fun z => z <> 0) (bytes_of_string s).

#[export] Instance no_nul_dec s : Decision (no_nul s).
Proof. unfold no_nul. apply _. Defined.

(** ** <string.h> *)

Definition strlen (s : string) : Z := Z.of_nat (String.length s).

(** The first [n] characters, and the characters after them. *)
Fixpoint str_take (n : Z) (s : string) : string :=
  match s with
  | EmptyString => EmptyString
  | String a s => if n <=? 0 then EmptyString else String a (str_take (n - 1) s)
  end.

Fixpoint str_drop (n : Z) (s : string) : string :=
  match s with
  | EmptyString => EmptyString
  | String a t => if n <=? 0 then s else str_drop (n - 1) t
  end.

(** [strncmp(s, p, strlen(p)) == 0]: the string after the prefix. *)
Fixpoint strip_prefix (p s : string) : option string :=
  match p, s with
  | EmptyString, _ => Some s
  | String a p, String b s => if decide (a = b) then strip_prefix p s else None
  | String _ _, EmptyString => None
  end.

(** [strrchr(s, c)]: the offset of the last occurrence. *)
Fixpoint strrchr (s : string) (c : ascii) : option Z :=
  match s with
  | EmptyString => None
  | String a s =>
      match strrchr s c with
      | Some k => Some (k + 1)
      | None => if decide (a = c) then Some 0 else None
      end
  end.

(** [strstr(s, p)]: the suffix of [s] that starts at the first occurrence. *)
Fixpoint strstr (s p : string) : option string :=
  match strip_prefix p s with
  | Some _ => Some s
  | None => match s with EmptyString => None | String _ t => strstr t p end
  end.

(** The file name after the last slash of a path (the idiom
    [slash != NULL ? slash + 1 : path]). *)
Definition basename (path : string) : string :=
  match strrchr path "/"%char with
  | Some k => str_drop (k + 1) path
  | None => path
  end.

(** ** <stdio.h> *)

(** [snprintf(buf, size, "%s", s)] with [size > 0]: what the buffer holds. *)
Definition snprintf_s (size : Z) (s : string) : string := str_take (size - 1) s.

(** [%llu], [%zu], [%u], [%d]: decimal digits, the most significant first. *)
Fixpoint dec_digits (fuel : nat) (n : Z) (acc : string) : string :=
  match fuel with
  | O => acc
  | S fuel =>
      let acc := String (chr (48 + n mod 10)) acc in
      if n <? 10 then acc else dec_digits fuel (n / 10) acc
  end.

(** [log2 n + 1] binary digits bound the number of decimal digits. *)
Definition print_u (n : Z) : string := dec_digits (S (Z.to_nat (Z.log2 n))) n EmptyString.

Definition print_d (n : Z) : string :=
  if n <? 0 then String "-" (print_u (- n)) else print_u n.

(** ** <stdlib.h> *)

Definition is_digit (a : ascii) : bool := (48 <=? ord a) && (ord a <=? 57).
Definition is_space (a : ascii) : bool := (ord a =? 32) || ((9 <=? ord a) && (ord a <=? 13)).

Fixpoint skip_space (s : string) : string :=
  match s with
  | String a t => if is_space a then skip_space t else s
  | EmptyString => s
  end.

Fixpoint parse_digits (acc : Z) (s : string) : Z * string :=
  match s with
  | String a t => if is_digit a then parse_digits (acc * 10 + (ord a - 48)) t else (acc, s)
  | EmptyString => (acc, s)
  end.

Definition head_is_digit (s : string) : bool :=
  match s with String a _ => is_digit a | EmptyString => false end.

(** The optional sign of [strtol] and [strtoull]. *)
Definition parse_sign (s : string) : bool * string :=
  match s with
  | String "-" t => (true, t)
  | String "+" t => (false, t)
  | _ => (false, s)
  end.

(** The result of a conversion: its value, the text at [*endptr], whether
    [errno] was set to [ERANGE], and whether any digit was consumed
    ([endptr != nptr]). *)
Record strto := Strto {
  st_value : Z;
  st_end : string;
  st_erange : bool;
  st_any : bool
}.

Definition ULLONG_MAX : Z := 2 ^ 64 - 1.
Definition LONG_MAX : Z := 2 ^ 63 - 1.
Definition LONG_MIN : Z := - 2 ^ 63.

(** [strtoull(s, &end, 10)]: a leading minus negates in unsigned arithmetic. *)
Definition strtoull (s : string) : strto :=
  let (neg, t) := parse_sign (skip_space s) in
  if head_is_digit t then
    let (v, rest) := parse_digits 0 t in
    if v <=? ULLONG_MAX
    then Strto (if neg then u64 (- v) else v) rest false true
    else Strto ULLONG_MAX rest true true
  else Strto 0 s false false.

(** [strtol(s, &end, 10)] with a 64-bit [long]. *)
Definition strtol (s : string) : strto :=
  let (neg, t) := parse_sign (skip_space s) in
  if head_is_digit t then
    let (v, rest) := parse_digits 0 t in
    let w := if neg then - v else v in
    if w <? LONG_MIN then Strto LONG_MIN rest true true
    else if LONG_MAX <? w then Strto LONG_MAX rest true true
    else Strto w rest false true
  else Strto 0 s false false.

(** ** Lemmas: bytes *)

Lemma bytes_of_string_ok s : bytes_ok (bytes_of_string s).
Proof. induction s; constructor; auto using ord_bounded. Qed.

Lemma length_bytes_of_string s : length (bytes_of_string s) = String.length s.
Proof. induction s as [|a s IH]; cbn; rewrite ?IH; done. Qed.

Lemma string_of_bytes_of_string s : string_of_bytes (bytes_of_string s) = s.
Proof. induction s as [|a s IH]; cbn; rewrite ?chr_ord, ?IH; done. Qed.

Lemma bytes_of_string_of_bytes l : bytes_ok l -> bytes_of_string (string_of_bytes l) = l.
Proof. induction 1; simpl; rewrite ?ord_chr by done; congruence. Qed.

Lemma bytes_of_string_app s t :
  bytes_of_string (s +:+ t) = bytes_of_string s ++ bytes_of_string t.
Proof. induction s as [|a s IH]; cbn; rewrite ?IH; done. Qed.

Lemma bytes_of_string_inj s t : bytes_of_string s = bytes_of_string t -> s = t.
Proof.
  intros H. by rewrite <-(string_of_bytes_of_string s), H, string_of_bytes_of_string.
Qed.

(** A string without NUL is read back from a buffer that holds it, a
    terminator and anything else. *)
Lemma cstr_of_bytes_string s l : no_nul s -> cstr_of_bytes (bytes_of_string s ++ 0 :: l) = s.
Proof.
  unfold no_nul. induction s as [|a s IH]; simpl; [done|].
  intros H. inversion_clear H as [|? ? Ha Hs].
  destruct (Z.eqb_spec (ord a) 0); [done|]. by rewrite chr_ord, IH.
Qed.

(** ** Lemmas: lengths and truncation *)

Lemma strlen_nonneg s : 0 <= strlen s.
Proof. unfold strlen. lia. Qed.

Lemma strlen_app s t : strlen (s +:+ t) = strlen s + strlen t.
Proof. unfold strlen. induction s as [|a s IH]; simpl; lia. Qed.

Lemma append_assoc (s t u : string) : (s +:+ t) +:+ u = s +:+ (t +:+ u).
Proof. induction s as [|a s IH]; simpl; [done|]. by rewrite IH. Qed.

Lemma append_nil_r (s : string) : s +:+ EmptyString = s.
Proof. induction s as [|a s IH]; simpl; [done|]. by rewrite IH. Qed.

Lemma strlen_cons a s : strlen (String a s) = 1 + strlen s.
Proof. unfold strlen. simpl. lia. Qed.

Lemma str_take_all n s : strlen s <= n -> str_take n s = s.
Proof.
  revert n. induction s as [|a s IH]; intros n; simpl; [done|].
  rewrite strlen_cons. intros H. pose proof (strlen_nonneg s).
  destruct (Z.leb_spec n 0); [lia|]. rewrite IH by lia. done.
Qed.

Lemma str_take_len n s : strlen (str_take n s) = Z.max 0 (Z.min n (strlen s)).
Proof.
  revert n. induction s as [|a s IH]; intros n; simpl.
  - unfold strlen; simpl; lia.
  - pose proof (strlen_nonneg s). rewrite (strlen_cons a s). destruct (Z.leb_spec n 0).
    + unfold strlen; simpl; lia.
    + rewrite strlen_cons, IH. lia.
Qed.

Lemma snprintf_s_fits size s : strlen s < size -> snprintf_s size s = s.
Proof. intros. apply str_take_all. lia. Qed.

Lemma snprintf_s_len size s : 0 < size -> strlen (snprintf_s size s) < size.
Proof. intros. unfold snprintf_s. rewrite str_take_len. lia. Qed.

Lemma snprintf_s_idemp size s : 0 < size -> snprintf_s size (snprintf_s size s) = snprintf_s size s.
Proof. intros. apply snprintf_s_fits. by apply snprintf_s_len. Qed.

Lemma strip_prefix_app p s : strip_prefix p (p +:+ s) = Some s.
Proof. induction p as [|a p IH]; simpl; [done|]. by rewrite decide_True. Qed.

Lemma strip_prefix_Some p s t : strip_prefix p s = Some t <-> s = p +:+ t.
Proof.
  split.
  - revert s. induction p as [|a p IH]; intros [|b s]; simpl; intros; simplify_eq; try done.
    case_decide; [|done]. simplify_eq. f_equal. by apply IH.
  - intros ->. apply strip_prefix_app.
Qed.

Create Rewrite HintDb cstr.
#[export] Hint Resolve strlen_nonneg bytes_of_string_ok ord_bounded : cint.
#[export] Hint Rewrite strlen_app strlen_cons str_take_len length_bytes_of_string : cstr.

(** ** Lemmas: decimal conversions *)

Lemma is_digit_chr d : 0 <= d < 10 -> is_digit (chr (48 + d)) = true.
Proof.
  intros H. unfold is_digit. rewrite ord_chr by (unfold bounded; pow2; lia). lia.
Qed.

Lemma parse_dec_digits fuel n acc :
  0 <= n < 2 ^ Z.of_nat fuel -> (0 < fuel)%nat ->
  parse_digits 0 (dec_digits fuel n acc) = parse_digits n acc.
Proof.
  revert n acc. induction fuel as [|fuel IH]; intros n acc Hn Hf; [lia|].
  cbn [dec_digits]. assert (Hd : 0 <= n mod 10 < 10) by (apply Z.mod_pos_bound; lia).
  assert (Hc : forall a, parse_digits a (String (chr (48 + n mod 10)) acc)
                         = parse_digits (a * 10 + n mod 10) acc).
  { intros a. cbn [parse_digits]. rewrite is_digit_chr by done.
    rewrite ord_chr by (unfold bounded; pow2; lia). f_equal. lia. }
  destruct (Z.ltb_spec n 10).
  - rewrite Hc. f_equal. rewrite Z.mod_small; lia.
  - rewrite Nat2Z.inj_succ, Z.pow_succ_r in Hn by lia.
    assert (0 <= n / 10 < 2 ^ Z.of_nat fuel) by zlia.
    destruct fuel as [|fuel]; [simpl in *; lia|].
    rewrite IH by lia. rewrite Hc. f_equal. zlia.
Qed.

Lemma parse_print_u n s :
  0 <= n -> parse_digits 0 (print_u n +:+ s) = parse_digits n s.
Proof.
  intros Hn. unfold print_u.
  assert (Happ : forall f m acc, dec_digits f m acc +:+ s = dec_digits f m (acc +:+ s)).
  { induction f as [|f IH]; intros m acc; simpl; [done|].
    case_match; [done|]. by rewrite IH. }
  rewrite Happ. simpl (_ +:+ s). apply parse_dec_digits; [|lia].
  rewrite Nat2Z.inj_succ, Z2Nat.id by apply Z.log2_nonneg.
  split; [done|]. destruct (decide (n = 0)) as [->|]; [done|].
  apply Z.log2_spec. lia.
Qed.

(** The first digit of a number is a digit: no sign and no space. *)
Lemma dec_digits_head fuel n acc :
  0 <= n -> (0 < fuel)%nat -> head_is_digit (dec_digits fuel n acc) = true.
Proof.
  assert (Hd : forall m a, 0 <= m -> head_is_digit (String (chr (48 + m mod 10)) a) = true).
  { intros m a Hm. simpl. apply is_digit_chr. apply Z.mod_pos_bound. lia. }
  revert n acc. induction fuel as [|fuel IH]; intros n acc Hn Hf; [lia|].
  cbn [dec_digits]. case_match; [by apply Hd|].
  destruct fuel as [|fuel]; [by apply Hd|]. apply IH; [|lia]. apply Z.div_pos; lia.
Qed.

Lemma print_u_head n s : 0 <= n -> head_is_digit (print_u n +:+ s) = true.
Proof.
  intros Hn. unfold print_u.
  pose proof (dec_digits_head (S (Z.to_nat (Z.log2 n))) n EmptyString Hn ltac:(lia)) as H.
  revert H. by case (dec_digits _ _ _).
Qed.

Lemma digit_not_space a : is_digit a = true -> is_space a = false.
Proof. unfold is_digit, is_space. lia. Qed.

Lemma digit_not_sign a t : is_digit a = true -> parse_sign (String a t) = (false, String a t).
Proof.
  intros H. unfold parse_sign.
  destruct (decide (a = "-"%char)) as [->|]; [done|].
  destruct (decide (a = "+"%char)) as [->|]; [done|].
  destruct a as [[] [] [] [] [] [] [] []]; try done.
Qed.

(** [strtoull] reads back what [%llu] prints. *)
Lemma strtoull_print n s :
  bounded 64 n -> head_is_digit s = false ->
  strtoull (print_u n +:+ s) = Strto n s false true.
Proof.
  intros Hn Hs. unfold strtoull. pose proof Hn as [Hn0 Hn1].
  pose proof (print_u_head n s Hn0) as Hh.
  assert (Hp : parse_sign (skip_space (print_u n +:+ s)) = (false, print_u n +:+ s)).
  { revert Hh. destruct (print_u n +:+ s) as [|a t]; simpl; [done|].
    intros Ha. rewrite digit_not_space by done. by apply digit_not_sign. }
  rewrite Hp, Hh, parse_print_u by done.
  assert (Hr : parse_digits n s = (n, s)).
  { destruct s as [|a t]; simpl in *; [done|]. by rewrite Hs. }
  rewrite Hr. destruct (Z.leb_spec n ULLONG_MAX); [done|].
  unfold ULLONG_MAX in *. lia.
Qed.

(** Every result of [strtoull] is a 64-bit unsigned value. *)
Lemma parse_digits_nonneg acc s : 0 <= acc -> 0 <= fst (parse_digits acc s).
Proof.
  revert acc. induction s as [|a s IH]; intros acc Hacc; simpl; [done|].
  destruct (is_digit a) eqn:E; [|done]. apply IH. unfold is_digit in E. lia.
Qed.

Lemma strtoull_bounded s : bounded 64 (st_value (strtoull s)).
Proof.
  unfold strtoull. destruct (parse_sign _) as [neg t]. case_match; [|unfold bounded; simpl; lia].
  pose proof (parse_digits_nonneg 0 t ltac:(lia)) as Hv. destruct (parse_digits 0 t) as [v r].
  simpl in Hv. destruct (Z.leb_spec v ULLONG_MAX); simpl;
    [destruct neg; [apply wrap_bounded; lia|]|]; unfold bounded, ULLONG_MAX in *; lia.
Qed.

#[export] Hint Resolve strtoull_bounded : cint.
