(* ===== verification/Getopt.v ===== *)
(** * Command-line options: [getopt_long] of the GNU C library

    The calls of [getopt_long] over an argument vector return the options in
    order; here they are the list of all of them.  Arguments that are not
    options are skipped (they are permuted to the end), and everything after
    ["--"]; with POSIXLY_CORRECT the first one ends the options.  A long option
    may be shortened to a prefix that only it has; ["?"] is returned for an
    unknown or ambiguous option, a missing argument, and an argument that is
    not allowed. *)

From S2P Require Export CString.

(** An option that was returned and [optarg]. *)
Record option_item := Opt { op_char : ascii; op_arg : option string }.

Record long_option := LongOption { lo_name : string; lo_has_arg : bool; lo_val : ascii }.

Definition bad_option : option_item := Opt "?"%char None.

(** The entry of an option string, and whether it takes an argument. *)
Fixpoint short_option (optstring : string) (c : ascii) : option bool :=
  match optstring with
  | EmptyString => None
  | String o t =>
      if bool_decide (o = c) && negb (bool_decide (c = ":"%char))
      then Some (match t with String ":" _ => true | _ => false end)
      else short_option t c
  end.

(** The text before the first ["="], and that after it. *)
Fixpoint split_equals (s : string) : string * option string :=
  match s with
  | EmptyString => (EmptyString, None)
  | String "=" t => (EmptyString, Some t)
  | String a t => let (name, value) := split_equals t in (String a name, value)
  end.

Definition long_match (opts : list long_option) (name : string) : option long_option :=
  match List.find (fun o => String.eqb (lo_name o) name) opts with
  | Some o => Some o
  | None =>
      match List.filter (fun o => match strip_prefix name (lo_name o) with Some _ => true | None => false end) opts with
      | [o] => Some o
      | _ => None
      end
  end.

(** What one argument gives: its options, and the option that waits for its
    argument, if the next argument of the vector is that. *)
Inductive argument :=
| NotAnOption
| EndOfOptions
| Options (items : list option_item) (wants : option ascii).

Fixpoint short_cluster (optstring s : string) (items : list option_item) : argument :=
  match s with
  | EmptyString => Options items None
  | String c t =>
      match short_option optstring c with
      | None => short_cluster optstring t (items ++ [bad_option])
      | Some false => short_cluster optstring t (items ++ [Opt c None])
      | Some true =>
          if (strlen t =? 0)%Z then Options items (Some c) else Options (items ++ [Opt c (Some t)]) None
      end
  end.

Definition long_argument (opts : list long_option) (s : string) : argument :=
  let (name, value) := split_equals s in
  match long_match opts name with
  | None => Options [bad_option] None
  | Some o =>
      match lo_has_arg o, value with
      | true, Some v => Options [Opt (lo_val o) (Some v)] None
      | true, None => Options [] (Some (lo_val o))
      | false, Some _ => Options [bad_option] None
      | false, None => Options [Opt (lo_val o) None] None
      end
  end.

Definition parse_argument (optstring : string) (opts : list long_option) (a : string) : argument :=
  match a with
  | String "-" (String "-" EmptyString) => EndOfOptions
  | String "-" (String "-" name) => long_argument opts name
  | String "-" (String c t) => short_cluster optstring (String c t) []
  | _ => NotAnOption
  end.

Section getopt.
Context (posixly_correct : bool) (optstring : string) (opts : list long_option).

(** [args] is [argv] without the name of the program. *)
Fixpoint getopt_long (args : list string) : list option_item :=
  match args with
  | [] => []
  | a :: rest =>
      match parse_argument optstring opts a with
      | EndOfOptions => []
      | NotAnOption => if posixly_correct then [] else getopt_long rest
      | Options items None => items ++ getopt_long rest
      | Options items (Some c) =>
          match rest with
          | [] => items ++ [bad_option]
          | v :: rest => items ++ Opt c (Some v) :: getopt_long rest
          end
      end
  end.

(** A short option written as a user does. *)
Definition option_args (o : option_item) : list string :=
  String "-" (String (op_char o) EmptyString) :: match op_arg o with Some v => [v] | None => [] end.

(** An option of the option string, with the argument that it takes. *)
Definition option_known (o : option_item) : Prop :=
  op_char o <> "-"%char /\
  short_option optstring (op_char o) = Some (match op_arg o with Some _ => true | None => false end).

Lemma getopt_printed items : Forall option_known items -> getopt_long (concat (option_args <$> items)) = items.
Proof.
  induction 1 as [|[c v] items [Hc Ho] _ IH]; [done|]. cbn [fmap list_fmap concat option_args op_char op_arg] in *.
  assert (Hp : parse_argument optstring opts (String "-" (String c EmptyString)) =
    match v with Some _ => Options [] (Some c) | None => Options [Opt c None] None end).
  { transitivity (short_cluster optstring (String c EmptyString) []).
    - cbn [parse_argument]. destruct (ascii_dec c "-") as [->|Hne]; [done|].
      destruct c as [[] [] [] [] [] [] [] []]; try reflexivity. done.
    - cbn [short_cluster]. rewrite Ho. by destruct v. }
  unfold option_args at 1. destruct v as [v|]; cbn [op_char op_arg app getopt_long]; rewrite Hp; cbn [app]; by rewrite IH.
Qed.
End getopt.
