(* ===== verification/RuntimeConfig.v ===== *)
(** * Configuration (src/src/server/runtime_config.c, main.c)

    The defaults, the configuration file, the environment and the command line
    are applied in this order.  libconfig is an interface: what its lookups
    return for the settings of a file.  [getenv] is a function; messages to the
    terminal are not modelled. *)

From S2P Require Export Getopt.
#[local] Open Scope Z_scope.

Definition CFG_PATH_MAX : Z := 256.
Definition SERVER_PORT : Z := 9090.
Definition ADMIN_PORT : Z := 9091.
Definition MAX_WORKERS : Z := 8.
Definition DEFAULT_WORKER_COUNT : Z := 3.
Definition MAX_UPLOAD_BYTES : Z := 64 * 1024 * 1024.
Definition LOG_PATH : string := "logs/server.log".
Definition STORAGE_ROOT : string := "storage".
Definition DEFAULT_CONFIG_PATH : string := "config/server.conf".
Definition UNIX_SOCKET_PATH : string := "/tmp/stegapng_user.sock".

Record runtime_config := RuntimeConfig {
  user_port : Z;
  admin_port : Z;
  worker_count : Z;
  log_path : string;
  storage_root : string;
  config_file : string;
  unix_socket_path : string;
  max_upload_bytes : Z
}.

(** Assignments to one member. *)
Definition set_user_port (v : Z) (c : runtime_config) : runtime_config :=
  RuntimeConfig v (admin_port c) (worker_count c) (log_path c) (storage_root c) (config_file c)
    (unix_socket_path c) (max_upload_bytes c).
Definition set_admin_port (v : Z) (c : runtime_config) : runtime_config :=
  RuntimeConfig (user_port c) v (worker_count c) (log_path c) (storage_root c) (config_file c)
    (unix_socket_path c) (max_upload_bytes c).
Definition set_worker_count (v : Z) (c : runtime_config) : runtime_config :=
  RuntimeConfig (user_port c) (admin_port c) v (log_path c) (storage_root c) (config_file c)
    (unix_socket_path c) (max_upload_bytes c).
Definition set_log_path (v : string) (c : runtime_config) : runtime_config :=
  RuntimeConfig (user_port c) (admin_port c) (worker_count c) v (storage_root c) (config_file c)
    (unix_socket_path c) (max_upload_bytes c).
Definition set_storage_root (v : string) (c : runtime_config) : runtime_config :=
  RuntimeConfig (user_port c) (admin_port c) (worker_count c) (log_path c) v (config_file c)
    (unix_socket_path c) (max_upload_bytes c).
Definition set_config_file (v : string) (c : runtime_config) : runtime_config :=
  RuntimeConfig (user_port c) (admin_port c) (worker_count c) (log_path c) (storage_root c) v
    (unix_socket_path c) (max_upload_bytes c).
Definition set_unix_socket_path (v : string) (c : runtime_config) : runtime_config :=
  RuntimeConfig (user_port c) (admin_port c) (worker_count c) (log_path c) (storage_root c) (config_file c)
    v (max_upload_bytes c).
Definition set_max_upload_bytes (v : Z) (c : runtime_config) : runtime_config :=
  RuntimeConfig (user_port c) (admin_port c) (worker_count c) (log_path c) (storage_root c) (config_file c)
    (unix_socket_path c) v.

(** [copy_str] into an array of [CFG_PATH_MAX] characters that holds [dst]. *)
Definition copy_str (dst : string) (src : option string) : string :=
  match src with Some s => snprintf_s CFG_PATH_MAX s | None => dst end.

(** The value is converted to [int] without a check of its range. *)
Definition parse_int_text (text : option string) : option Z :=
  match text with
  | None => None
  | Some text =>
      if strlen text =? 0 then None else
      let r := strtol text in
      if st_erange r || negb (st_any r) || negb (strlen (st_end r) =? 0) then None
      else Some (to_int (st_value r))
  end.

Definition clamp_worker_count (workers : Z) : Z :=
  if workers <? 1 then 1 else if MAX_WORKERS <? workers then MAX_WORKERS else workers.

Definition runtime_config_set_defaults : runtime_config :=
  RuntimeConfig SERVER_PORT ADMIN_PORT DEFAULT_WORKER_COUNT (copy_str EmptyString (Some LOG_PATH))
    (copy_str EmptyString (Some STORAGE_ROOT)) (copy_str EmptyString (Some DEFAULT_CONFIG_PATH))
    (copy_str EmptyString (Some UNIX_SOCKET_PATH)) MAX_UPLOAD_BYTES.

(** ** The configuration file *)

(** What the lookups of libconfig return for a file that was read. *)
Record settings := Settings {
  config_lookup_int : string -> option Z;
  config_lookup_int64 : string -> option Z;
  config_lookup_string : string -> option string
}.

(** [if (lookup) cfg->field = v;] *)
Definition assign {A} (v : option A) (f : A -> runtime_config -> runtime_config) (c : runtime_config)
    : runtime_config :=
  match v with Some v => f v c | None => c end.

Definition MB : Z := 1024 * 1024.

Definition apply_settings (lc : settings) (path : string) (c : runtime_config) : runtime_config :=
  let c := assign (config_lookup_int lc "server.user_port") set_user_port c in
  let c := assign (config_lookup_int lc "server.admin_port") set_admin_port c in
  let c := assign (config_lookup_int lc "server.worker_count") (fun v => set_worker_count (clamp_worker_count v)) c in
  let c := assign (config_lookup_string lc "server.log_path") (fun s c => set_log_path (copy_str (log_path c) (Some s)) c) c in
  let c := assign (config_lookup_string lc "server.storage_root")
             (fun s c => set_storage_root (copy_str (storage_root c) (Some s)) c) c in
  let c := assign (config_lookup_string lc "server.unix_socket_path")
             (fun s c => set_unix_socket_path (copy_str (unix_socket_path c) (Some s)) c) c in
  let c := assign (config_lookup_int64 lc "server.max_upload_mb")
             (fun v c => if 0 <? v then set_max_upload_bytes (u64 (v * MB)) c else c) c in
  set_config_file (copy_str (config_file c) (Some path)) c.

Section startup.
(** [have_libconfig]: the compile-time option; [config_read_file]: the settings
    of a file that libconfig can read. *)
Context (have_libconfig : bool) (config_read_file : string -> option settings) (getenv : string -> option string).

Definition runtime_config_load_file (c : runtime_config) (path : option string) : Z * runtime_config :=
  match path with
  | None => (-1, c)
  | Some path =>
      if strlen path =? 0 then (-1, c) else
      if have_libconfig then
        match config_read_file path with
        | None => (-1, c)
        | Some lc => (0, apply_settings lc path c)
        end
      else (-1, c)
  end.

(** ** The environment *)

Definition parse_int_env (name : string) : option Z :=
  match getenv name with
  | None => None
  | Some value => if strlen value =? 0 then None else parse_int_text (Some value)
  end.

(** A variable that is set and not empty. *)
Definition env_text (name : string) : option string :=
  match getenv name with
  | Some sv => if strlen sv =? 0 then None else Some sv
  | None => None
  end.

Definition runtime_config_apply_env (c : runtime_config) : runtime_config :=
  let c := assign (parse_int_env "STEGA_USER_PORT") set_user_port c in
  let c := assign (parse_int_env "STEGA_ADMIN_PORT") set_admin_port c in
  let c := assign (parse_int_env "STEGA_WORKERS") (fun v => set_worker_count (clamp_worker_count v)) c in
  let c := assign (env_text "STEGA_LOG") (fun s c => set_log_path (copy_str (log_path c) (Some s)) c) c in
  let c := assign (env_text "STEGA_STORAGE") (fun s c => set_storage_root (copy_str (storage_root c) (Some s)) c) c in
  assign (env_text "STEGA_UNIX_SOCKET") (fun s c => set_unix_socket_path (copy_str (unix_socket_path c) (Some s)) c) c.

(** ** Texts *)

Definition STEGA_VERSION : string := "1.0.0".

Definition runtime_config_print_help (prog : string) : string :=
  "StegaPNG server " +:+ STEGA_VERSION +:+ nl +:+
  "Usage: " +:+ prog +:+ " [options]" +:+ nl +:+
  "Options:" +:+ nl +:+
  "  -c, --config FILE        Path to libconfig file (default: " +:+ DEFAULT_CONFIG_PATH +:+ ")" +:+ nl +:+
  "  -p, --port N             User TCP/INET port (default: " +:+ print_d SERVER_PORT +:+ ")" +:+ nl +:+
  "  -a, --admin-port N       Admin TCP/INET port (default: " +:+ print_d ADMIN_PORT +:+ ")" +:+ nl +:+
  "  -u, --unix-socket FILE   UNIX/LOCAL socket path (default: " +:+ UNIX_SOCKET_PATH +:+ ")" +:+ nl +:+
  "  -w, --workers N          Worker thread count 1.." +:+ print_d MAX_WORKERS +:+ " (default: " +:+
    print_d DEFAULT_WORKER_COUNT +:+ ")" +:+ nl +:+
  "  -l, --log FILE           Log file path (default: " +:+ LOG_PATH +:+ ")" +:+ nl +:+
  "  -s, --storage DIR        Storage root (default: " +:+ STORAGE_ROOT +:+ ")" +:+ nl +:+
  "  -h, --help               Show this help and exit" +:+ nl +:+
  "  -V, --version            Print version and exit" +:+ nl +:+
  nl +:+ "Environment variables (override config file, overridden by CLI):" +:+ nl +:+
  "  STEGA_USER_PORT  STEGA_ADMIN_PORT  STEGA_WORKERS" +:+ nl +:+
  "  STEGA_LOG        STEGA_STORAGE     STEGA_CONFIG" +:+ nl +:+
  "  STEGA_UNIX_SOCKET" +:+ nl.

Definition runtime_config_print_version : string :=
  "stegapng-server " +:+ STEGA_VERSION +:+ nl +:+
  (if have_libconfig then "features: libconfig=on" else "features: libconfig=off") +:+ nl.

(** The text that [runtime_config_log_summary] logs. *)
Definition runtime_config_log_summary (c : runtime_config) : string :=
  "Config: user_port=" +:+ print_d (user_port c) +:+ " admin_port=" +:+ print_d (admin_port c) +:+
  " unix_socket=" +:+ unix_socket_path c +:+ " workers=" +:+ print_d (worker_count c) +:+
  " log=" +:+ log_path c +:+ " storage=" +:+ storage_root c +:+
  " max_upload=" +:+ print_u (max_upload_bytes c / MB) +:+ "MB src=" +:+ config_file c.

(** ** The command line *)

Definition long_opts : list long_option :=
  [LongOption "config" true "c"; LongOption "port" true "p"; LongOption "admin-port" true "a";
   LongOption "unix-socket" true "u"; LongOption "workers" true "w"; LongOption "log" true "l";
   LongOption "storage" true "s"; LongOption "help" false "h"; LongOption "version" false "V"].

Definition optstring : string := "c:p:a:u:w:l:s:hV".

(** The loop goes on, or the function returns [rc] with [*should_exit]. *)
Inductive cli_outcome := CliNext (c : runtime_config) | CliReturn (rc should_exit : Z) (c : runtime_config).

Definition cli_int (arg : option string) (f : Z -> runtime_config -> runtime_config) (c : runtime_config) : cli_outcome :=
  match parse_int_text arg with
  | None => CliReturn (-1) 0 c
  | Some parsed => CliNext (f parsed c)
  end.

Definition cli_option (o : option_item) (c : runtime_config) : cli_outcome :=
  let arg := op_arg o in
  match op_char o with
  | "c"%char => CliNext (set_config_file (copy_str (config_file c) arg) c)
  | "p"%char => cli_int arg set_user_port c
  | "a"%char => cli_int arg set_admin_port c
  | "u"%char => CliNext (set_unix_socket_path (copy_str (unix_socket_path c) arg) c)
  | "w"%char => cli_int arg (fun v => set_worker_count (clamp_worker_count v)) c
  | "l"%char => CliNext (set_log_path (copy_str (log_path c) arg) c)
  | "s"%char => CliNext (set_storage_root (copy_str (storage_root c) arg) c)
  | "h"%char => CliReturn 0 1 c
  | "V"%char => CliReturn 0 1 c
  | _ => CliReturn (-1) 1 c
  end.

Fixpoint cli_loop (items : list option_item) (c : runtime_config) : Z * Z * runtime_config :=
  match items with
  | [] => (0, 0, c)
  | o :: items =>
      match cli_option o c with
      | CliNext c => cli_loop items c
      | CliReturn rc should_exit c => (rc, should_exit, c)
      end
  end.

Definition posixly_correct : bool := match getenv "POSIXLY_CORRECT" with Some _ => true | None => false end.

(** The options of an argument vector. *)
Definition cli_items (argv : list string) : list option_item := getopt_long posixly_correct optstring long_opts (tl argv).

Definition runtime_config_apply_cli (c : runtime_config) (argv : list string) : Z * Z * runtime_config :=
  cli_loop (cli_items argv) c.

(** ** Start-up *)

(** The loop of [preparse_config_path] from [argv[1]]. *)
Fixpoint preparse_args (args : list string) : option string :=
  match args with
  | a :: ((v :: _) as rest) =>
      if String.eqb a "-c" || String.eqb a "--config" then Some v else preparse_args rest
  | _ => None
  end.

Definition preparse_config_path (argv : list string) (out : string) : string :=
  match preparse_args (tl argv) with
  | Some v => snprintf_s CFG_PATH_MAX v
  | None =>
      match getenv "STEGA_CONFIG" with
      | Some env_cfg => if strlen env_cfg =? 0 then out else snprintf_s CFG_PATH_MAX env_cfg
      | None => out
      end
  end.

(** [main] up to the start of the logger: it exits, or goes on with a
    configuration. *)
Inductive startup := EXIT_FAILURE | EXIT_SUCCESS | Start (c : runtime_config).

Definition main (argv : list string) : startup :=
  let cfg := runtime_config_set_defaults in
  let cfg_path := preparse_config_path argv (snprintf_s CFG_PATH_MAX (config_file cfg)) in
  let cfg := snd (runtime_config_load_file cfg (Some cfg_path)) in
  let cfg := runtime_config_apply_env cfg in
  let '(rc, should_exit, cfg) := runtime_config_apply_cli cfg argv in
  if rc <? 0 then EXIT_FAILURE else if negb (should_exit =? 0) then EXIT_SUCCESS else Start cfg.

End startup.

(** ** Well-formed configurations *)

(** A value of type [int]. *)
Definition is_int (v : Z) : Prop := - 2 ^ 31 <= v < 2 ^ 31.

Record config_wf (c : runtime_config) : Prop := ConfigWf {
  cw_user : is_int (user_port c);
  cw_admin : is_int (admin_port c);
  cw_workers : 1 <= worker_count c <= MAX_WORKERS;
  cw_log : strlen (log_path c) < CFG_PATH_MAX;
  cw_storage : strlen (storage_root c) < CFG_PATH_MAX;
  cw_file : strlen (config_file c) < CFG_PATH_MAX;
  cw_unix : strlen (unix_socket_path c) < CFG_PATH_MAX;
  cw_upload : bounded 64 (max_upload_bytes c)
}.

(** [config_lookup_int] stores an [int]. *)
Definition settings_ok (lc : settings) : Prop :=
  forall name v, config_lookup_int lc name = Some v -> is_int v.

Lemma clamp_bounds v : 1 <= clamp_worker_count v <= MAX_WORKERS.
Proof. unfold clamp_worker_count, MAX_WORKERS. repeat case_match; lia. Qed.

Lemma parse_int_text_int text v : parse_int_text text = Some v -> is_int v.
Proof. unfold parse_int_text, is_int. intros H. repeat case_match; simplify_eq. cint_lia. Qed.

Lemma copy_str_fits dst src : strlen dst < CFG_PATH_MAX -> strlen (copy_str dst src) < CFG_PATH_MAX.
Proof. destruct src; [|done]. intros _. by apply snprintf_s_len. Qed.

Create HintDb config.
#[export] Hint Resolve clamp_bounds parse_int_text_int copy_str_fits : config.

Lemma assign_wf {A} (v : option A) f c :
  config_wf c -> (forall x c', v = Some x -> config_wf c' -> config_wf (f x c')) -> config_wf (assign v f c).
Proof. destruct v; simpl; auto. Qed.

Lemma defaults_wf : config_wf runtime_config_set_defaults.
Proof. constructor; vm_compute; first [done | split; congruence]. Qed.

(** An assignment of a proper value keeps a configuration well formed. *)
Section setters.
Context (c : runtime_config) (H : config_wf c).

Lemma set_user_port_wf v : is_int v -> config_wf (set_user_port v c).
Proof. destruct H. by constructor. Qed.
Lemma set_admin_port_wf v : is_int v -> config_wf (set_admin_port v c).
Proof. destruct H. by constructor. Qed.
Lemma set_worker_count_wf v : config_wf (set_worker_count (clamp_worker_count v) c).
Proof. destruct H. constructor; try done. apply clamp_bounds. Qed.
Lemma set_log_path_wf s : config_wf (set_log_path (copy_str (log_path c) s) c).
Proof. destruct H. constructor; try done. by apply copy_str_fits. Qed.
Lemma set_storage_root_wf s : config_wf (set_storage_root (copy_str (storage_root c) s) c).
Proof. destruct H. constructor; try done. by apply copy_str_fits. Qed.
Lemma set_config_file_wf s : config_wf (set_config_file (copy_str (config_file c) s) c).
Proof. destruct H. constructor; try done. by apply copy_str_fits. Qed.
Lemma set_unix_socket_path_wf s : config_wf (set_unix_socket_path (copy_str (unix_socket_path c) s) c).
Proof. destruct H. constructor; try done. by apply copy_str_fits. Qed.
Lemma set_max_upload_bytes_wf v : config_wf (set_max_upload_bytes (u64 v) c).
Proof. destruct H. constructor; try done. unfold max_upload_bytes, set_max_upload_bytes. cint_lia. Qed.
End setters.

#[export] Hint Resolve set_user_port_wf set_admin_port_wf set_worker_count_wf set_log_path_wf set_storage_root_wf
  set_config_file_wf set_unix_socket_path_wf set_max_upload_bytes_wf : config.

Lemma apply_settings_wf lc path c : settings_ok lc -> config_wf c -> config_wf (apply_settings lc path c).
Proof.
  unfold settings_ok. intros Hlc Hc. unfold apply_settings. cbv zeta. apply set_config_file_wf.
  repeat (apply assign_wf; [|intros ? ? ? ?]); eauto with config.
  simpl. case_match; auto with config.
Qed.

Section startup_wf.
Context (have_libconfig : bool) (config_read_file : string -> option settings) (getenv : string -> option string).

Lemma load_file_wf c path :
  (forall p lc, config_read_file p = Some lc -> settings_ok lc) -> config_wf c ->
  config_wf (snd (runtime_config_load_file have_libconfig config_read_file c path)).
Proof. intros Hlc Hc. unfold runtime_config_load_file. repeat case_match; try done. apply apply_settings_wf; eauto. Qed.

Lemma parse_int_env_int name v : parse_int_env getenv name = Some v -> is_int v.
Proof. unfold parse_int_env. intros H. repeat case_match; simplify_eq. by eapply parse_int_text_int. Qed.

Lemma apply_env_wf c : config_wf c -> config_wf (runtime_config_apply_env getenv c).
Proof.
  intros Hc. unfold runtime_config_apply_env. cbv zeta.
  repeat (apply assign_wf; [|intros ? ? ? ?]); eauto using parse_int_env_int with config.
Qed.

(** ** The command line, option by option *)

(** What the option assigns to a member. *)
Definition on_option {A} (ch : ascii) (f : option string -> option A) (o : option_item) : option A :=
  if bool_decide (op_char o = ch) then f (op_arg o) else None.
Definition path_text (s : option string) : option string := snprintf_s CFG_PATH_MAX <$> s.
Definition workers_text (s : option string) : option Z := clamp_worker_count <$> parse_int_text s.

Lemma copy_str_text dst s : copy_str dst s = default dst (path_text s).
Proof. by destruct s. Qed.

Lemma cli_option_fields o c c' :
  cli_option o c = CliNext c' ->
  user_port c' = default (user_port c) (on_option "p" parse_int_text o) /\
  admin_port c' = default (admin_port c) (on_option "a" parse_int_text o) /\
  worker_count c' = default (worker_count c) (on_option "w" workers_text o) /\
  log_path c' = default (log_path c) (on_option "l" path_text o) /\
  storage_root c' = default (storage_root c) (on_option "s" path_text o) /\
  unix_socket_path c' = default (unix_socket_path c) (on_option "u" path_text o) /\
  config_file c' = default (config_file c) (on_option "c" path_text o) /\
  max_upload_bytes c' = max_upload_bytes c.
Proof.
  destruct o as [ch arg]. unfold cli_option, cli_int, on_option, workers_text. cbn [op_char op_arg].
  rewrite !copy_str_text. intros H.
  destruct ch as [[] [] [] [] [] [] [] []]; try discriminate H;
    try (destruct (parse_int_text arg); [|discriminate H]); injection H as <-; by repeat split.
Qed.

Lemma last_omap_cons {A} (f : option_item -> option A) o items d :
  default d (last (omap f (o :: items))) = default (default d (f o)) (last (omap f items)).
Proof.
  cbn [omap list_omap]. destruct (f o) as [v|]; [|done]. rewrite last_cons. by destruct (last _).
Qed.

(** The last option decides. *)
Lemma cli_loop_field {A} (field : runtime_config -> A) (f : option_item -> option A) items c c' :
  (forall o c c', cli_option o c = CliNext c' -> field c' = default (field c) (f o)) ->
  cli_loop items c = (0, 0, c') -> field c' = default (field c) (last (omap f items)).
Proof.
  intros Hf. revert c. induction items as [|o items IH]; intros c; [by intros [= ->]|].
  cbn [cli_loop]. rewrite last_omap_cons. destruct (cli_option o c) as [c1|rc ex c1] eqn:E.
  - intros H. rewrite (IH _ H). by rewrite (Hf _ _ _ E).
  - intros [= -> -> ->]. destruct o as [ch arg]. unfold cli_option, cli_int in E. cbn [op_char op_arg] in E.
    repeat case_match; discriminate E.
Qed.

Lemma cli_option_wf o c :
  config_wf c -> match cli_option o c with CliNext c' | CliReturn _ _ c' => config_wf c' end.
Proof.
  intros Hc. destruct o as [ch arg]. unfold cli_option, cli_int. cbn [op_char op_arg].
  destruct ch as [[] [] [] [] [] [] [] []]; auto with config;
    destruct (parse_int_text arg) eqn:E; eauto with config.
Qed.

Lemma cli_loop_wf items c : config_wf c -> config_wf (snd (cli_loop items c)).
Proof.
  revert c. induction items as [|o items IH]; intros c Hc; [done|]. cbn [cli_loop].
  pose proof (cli_option_wf o c Hc) as H. destruct (cli_option o c); [by apply IH|done].
Qed.

(** ** The properties *)

(** The configuration before the command line is applied. *)
Definition before_cli (argv : list string) : runtime_config :=
  runtime_config_apply_env getenv (snd (runtime_config_load_file have_libconfig config_read_file
    runtime_config_set_defaults (Some (preparse_config_path getenv argv
      (snprintf_s CFG_PATH_MAX (config_file runtime_config_set_defaults)))))).

Lemma main_start argv c :
  main have_libconfig config_read_file getenv argv = Start c ->
  cli_loop (cli_items getenv argv) (before_cli argv) = (0, 0, c).
Proof.
  unfold main. fold (before_cli argv). cbv zeta. unfold runtime_config_apply_cli.
  destruct (cli_loop _ _) as [[rc ex] c'] eqn:E. intros H.
  assert (Hrc : (rc = 0 \/ rc = -1) /\ (ex = 0 \/ ex = 1)).
  { revert E. generalize (before_cli argv). induction (cli_items getenv argv) as [|[ch arg] items IH]; intros c0.
    - intros [= <- <- _]. auto.
    - cbn [cli_loop]. destruct (cli_option _ c0) as [c1|] eqn:E1; [by apply IH|].
      intros [= <- <- _]. unfold cli_option, cli_int in E1. cbn [op_char op_arg] in E1.
      repeat case_match; try discriminate E1; injection E1 as <- <- _; auto. }
  destruct Hrc as [[->| ->] [->| ->]]; simpl in H; congruence.
Qed.

Lemma main_wf argv :
  (forall p lc, config_read_file p = Some lc -> settings_ok lc) ->
  match main have_libconfig config_read_file getenv argv with Start c => config_wf c | _ => True end.
Proof.
  intros Hlc. destruct (main have_libconfig config_read_file getenv argv) as [| |c] eqn:H; [done..|].
  apply main_start in H. assert (Hb : config_wf (before_cli argv)).
  { apply apply_env_wf, load_file_wf; [done|]. apply defaults_wf. }
  pose proof (cli_loop_wf (cli_items getenv argv) _ Hb) as Hc. by rewrite H in Hc.
Qed.

(** C21: a configuration that the server starts with is well formed whatever the
    file, the environment and the arguments are: between 1 and 8 workers (the
    array of threads has 8), ports of type [int], and strings that fit their
    arrays. *)
Theorem main_config_wf argv c :
  (forall p lc, config_read_file p = Some lc -> settings_ok lc) ->
  main have_libconfig config_read_file getenv argv = Start c -> config_wf c.
Proof. intros Hlc H. pose proof (main_wf argv Hlc) as Hw. by rewrite H in Hw. Qed.

(** The settings that [main] loads. *)
Definition loaded (argv : list string) : option settings :=
  let path := preparse_config_path getenv argv (snprintf_s CFG_PATH_MAX (config_file runtime_config_set_defaults)) in
  if strlen path =? 0 then None else if have_libconfig then config_read_file path else None.

(** The first source that gives a value. *)
Fixpoint first_set {A} (l : list (option A)) (d : A) : A :=
  match l with
  | [] => d
  | Some v :: _ => v
  | None :: l => first_set l d
  end.

(** *** The members after each source *)

Lemma assign_same {A B} (field : runtime_config -> B) (v : option A) f c :
  (forall x c, field (f x c) = field c) -> field (assign v f c) = field c.
Proof. intros H. destruct v; [apply H|done]. Qed.

Lemma assign_set {A B} (field : runtime_config -> B) (g : A -> B) (v : option A) f c :
  (forall x c, field (f x c) = g x) -> field (assign v f c) = default (field c) (g <$> v).
Proof. intros H. destruct v; [apply H|done]. Qed.

Ltac field_of field g :=
  repeat first [rewrite (assign_set field g) by done | rewrite (assign_same field) by done].

Lemma apply_env_fields c :
  let b := runtime_config_apply_env getenv c in
  user_port b = default (user_port c) (parse_int_env getenv "STEGA_USER_PORT") /\
  admin_port b = default (admin_port c) (parse_int_env getenv "STEGA_ADMIN_PORT") /\
  worker_count b = default (worker_count c) (clamp_worker_count <$> parse_int_env getenv "STEGA_WORKERS") /\
  log_path b = default (log_path c) (path_text (env_text getenv "STEGA_LOG")) /\
  storage_root b = default (storage_root c) (path_text (env_text getenv "STEGA_STORAGE")) /\
  unix_socket_path b = default (unix_socket_path c) (path_text (env_text getenv "STEGA_UNIX_SOCKET")) /\
  max_upload_bytes b = max_upload_bytes c /\ config_file b = config_file c.
Proof.
  cbv zeta. unfold runtime_config_apply_env, path_text. cbv zeta. split_and!.
  - field_of user_port (@id Z). by rewrite option_fmap_id.
  - field_of admin_port (@id Z). by rewrite option_fmap_id.
  - by field_of worker_count clamp_worker_count.
  - by field_of log_path (snprintf_s CFG_PATH_MAX).
  - by field_of storage_root (snprintf_s CFG_PATH_MAX).
  - by field_of unix_socket_path (snprintf_s CFG_PATH_MAX).
  - by repeat rewrite (assign_same max_upload_bytes) by done.
  - by repeat rewrite (assign_same config_file) by done.
Qed.

Lemma apply_settings_fields lc path c :
  let b := apply_settings lc path c in
  user_port b = default (user_port c) (config_lookup_int lc "server.user_port") /\
  admin_port b = default (admin_port c) (config_lookup_int lc "server.admin_port") /\
  worker_count b = default (worker_count c) (clamp_worker_count <$> config_lookup_int lc "server.worker_count") /\
  log_path b = default (log_path c) (path_text (config_lookup_string lc "server.log_path")) /\
  storage_root b = default (storage_root c) (path_text (config_lookup_string lc "server.storage_root")) /\
  unix_socket_path b = default (unix_socket_path c) (path_text (config_lookup_string lc "server.unix_socket_path")) /\
  max_upload_bytes b = match config_lookup_int64 lc "server.max_upload_mb" with
                       | Some v => if 0 <? v then u64 (v * MB) else max_upload_bytes c
                       | None => max_upload_bytes c
                       end /\
  config_file b = snprintf_s CFG_PATH_MAX path.
Proof.
  cbv zeta. unfold apply_settings, set_config_file, path_text. cbv zeta.
  cbn [user_port admin_port worker_count log_path storage_root unix_socket_path max_upload_bytes].
  assert (Hup : forall B (field : runtime_config -> B) c, (forall v c, field (set_max_upload_bytes v c) = field c) ->
    field (assign (config_lookup_int64 lc "server.max_upload_mb")
      (fun v c => if 0 <? v then set_max_upload_bytes (u64 (v * MB)) c else c) c) = field c).
  { intros B field c0 H. apply assign_same. intros x c1. by destruct (0 <? x). }
  split_and!; try (rewrite Hup by done).
  - field_of user_port (@id Z). by rewrite option_fmap_id.
  - field_of admin_port (@id Z). by rewrite option_fmap_id.
  - by field_of worker_count clamp_worker_count.
  - by field_of log_path (snprintf_s CFG_PATH_MAX).
  - by field_of storage_root (snprintf_s CFG_PATH_MAX).
  - by field_of unix_socket_path (snprintf_s CFG_PATH_MAX).
  - unfold assign at 1. destruct (config_lookup_int64 _ _) as [v|]; [destruct (0 <? v); [done|]|];
      by repeat rewrite (assign_same max_upload_bytes) by done.
  - done.
Qed.

(** The path of the file to load. *)
Lemma preparse_eq argv out :
  preparse_config_path getenv argv out =
    first_set [path_text (preparse_args (tl argv)); path_text (env_text getenv "STEGA_CONFIG")] out.
Proof.
  unfold preparse_config_path, env_text. destruct (preparse_args (tl argv)); [done|].
  destruct (getenv "STEGA_CONFIG") as [v|]; [|done]. cbn. by destruct (strlen v =? 0).
Qed.

Lemma preparse_fits argv out :
  strlen out < CFG_PATH_MAX -> strlen (preparse_config_path getenv argv out) < CFG_PATH_MAX.
Proof.
  intros Hout. rewrite preparse_eq. unfold path_text.
  destruct (preparse_args (tl argv)); [by apply snprintf_s_len|]. cbn.
  destruct (env_text getenv _); [by apply snprintf_s_len|done].
Qed.

Lemma before_cli_eq argv :
  before_cli argv = runtime_config_apply_env getenv
    (match loaded argv with
     | Some lc => apply_settings lc (preparse_config_path getenv argv
                    (snprintf_s CFG_PATH_MAX (config_file runtime_config_set_defaults))) runtime_config_set_defaults
     | None => runtime_config_set_defaults
     end).
Proof.
  unfold before_cli, loaded, runtime_config_load_file. f_equal. by repeat case_match.
Qed.

Lemma first_set_default {A} (a b c : option A) d : default (default (default d c) b) a = first_set [a; b; c] d.
Proof. by destruct a, b, c. Qed.

Lemma cli_fields argv c :
  main have_libconfig config_read_file getenv argv = Start c ->
  let given {A} ch (f : option string -> option A) : option A := last (omap (on_option ch f) (cli_items getenv argv)) in
  let b := before_cli argv in
  user_port c = default (user_port b) (given "p"%char parse_int_text) /\
  admin_port c = default (admin_port b) (given "a"%char parse_int_text) /\
  worker_count c = default (worker_count b) (given "w"%char workers_text) /\
  log_path c = default (log_path b) (given "l"%char path_text) /\
  storage_root c = default (storage_root b) (given "s"%char path_text) /\
  unix_socket_path c = default (unix_socket_path b) (given "u"%char path_text) /\
  max_upload_bytes c = max_upload_bytes b /\
  config_file c = default (config_file b) (given "c"%char path_text).
Proof.
  intros H%main_start. cbv zeta.
  assert (Hf := fun A field f Hf => @cli_loop_field A field f _ _ _ Hf H).
  split_and!; try (apply Hf; intros o c1 c2 Ho; apply cli_option_fields in Ho; tauto).
  assert (Hnone : forall items : list option_item, omap (fun _ => @None Z) items = [])
    by (induction items; done).
  rewrite (Hf _ max_upload_bytes (fun _ => None)), Hnone; [done|].
  intros o c1 c2 Ho. apply cli_option_fields in Ho. apply Ho.
Qed.

(** C23: where each member of a configuration that the server starts with comes
    from.  For the ports, the number of workers, the log, the storage and the
    local socket the last option of the command line decides, else the variable of
    the environment if it is set and proper, else the file, else the default; the
    limit on uploads comes from the file only, if it is positive there.  The file
    that is loaded is named by the first argument that is -c or --config and has
    a successor, else by STEGA_CONFIG if it is not empty, else it is the default one;
    the member config_file, which is only reported, is instead what the last
    option -c gives, else the path of the file if it could be read, else the
    default path. *)
Theorem config_precedence argv c :
  main have_libconfig config_read_file getenv argv = Start c ->
  let cli {A} ch (f : option string -> option A) : option A := last (omap (on_option ch f) (cli_items getenv argv)) in
  let file_int name := loaded argv ≫= fun lc => config_lookup_int lc name in
  let file_text name := path_text (loaded argv ≫= fun lc => config_lookup_string lc name) in
  let env_int := parse_int_env getenv in
  let env_path name := path_text (env_text getenv name) in
  let path := first_set [path_text (preparse_args (tl argv)); env_path "STEGA_CONFIG"%string] DEFAULT_CONFIG_PATH in
  loaded argv = (if strlen path =? 0 then None else if have_libconfig then config_read_file path else None) /\
  user_port c = first_set [cli "p"%char parse_int_text; env_int "STEGA_USER_PORT"%string;
                           file_int "server.user_port"%string] SERVER_PORT /\
  admin_port c = first_set [cli "a"%char parse_int_text; env_int "STEGA_ADMIN_PORT"%string;
                            file_int "server.admin_port"%string] ADMIN_PORT /\
  worker_count c = first_set [cli "w"%char workers_text; clamp_worker_count <$> env_int "STEGA_WORKERS"%string;
                              clamp_worker_count <$> file_int "server.worker_count"%string] DEFAULT_WORKER_COUNT /\
  log_path c = first_set [cli "l"%char path_text; env_path "STEGA_LOG"%string; file_text "server.log_path"%string] LOG_PATH /\
  storage_root c = first_set [cli "s"%char path_text; env_path "STEGA_STORAGE"%string;
                              file_text "server.storage_root"%string] STORAGE_ROOT /\
  unix_socket_path c = first_set [cli "u"%char path_text; env_path "STEGA_UNIX_SOCKET"%string;
                                  file_text "server.unix_socket_path"%string] UNIX_SOCKET_PATH /\
  max_upload_bytes c = match loaded argv ≫= fun lc => config_lookup_int64 lc "server.max_upload_mb" with
                       | Some v => if 0 <? v then u64 (v * MB) else MAX_UPLOAD_BYTES
                       | None => MAX_UPLOAD_BYTES
                       end /\
  config_file c = first_set [cli "c"%char path_text; (fun _ => path) <$> loaded argv] DEFAULT_CONFIG_PATH.
Proof.
  intros H. destruct (cli_fields argv c H) as (-> & -> & -> & -> & -> & -> & -> & ->). cbv beta zeta.
  rewrite <-(preparse_eq argv DEFAULT_CONFIG_PATH).
  split; [done|].
  rewrite before_cli_eq. set (c0 := match loaded argv with Some _ => _ | None => _ end).
  destruct (apply_env_fields c0) as (-> & -> & -> & -> & -> & -> & -> & ->). rewrite <-!first_set_default.
  subst c0. destruct (loaded argv) as [lc|]; cbn [mbind option_bind]; [|by split_and!; [..|destruct (last _)]].
  set (path := preparse_config_path _ _ _).
  assert (Hfits : strlen path < CFG_PATH_MAX) by by apply preparse_fits.
  destruct (apply_settings_fields lc path runtime_config_set_defaults) as (-> & -> & -> & -> & -> & -> & -> & ->).
  split_and!; try done. rewrite (snprintf_s_fits _ path) by done. by destruct (last _).
Qed.

(** What an option does to the course of the program: it ends it with failure
    ([false]) or success ([true]), or not. *)
Definition option_ends (o : option_item) : option bool :=
  match op_char o with
  | "p"%char | "a"%char | "w"%char => match parse_int_text (op_arg o) with Some _ => None | None => Some false end
  | "c"%char | "u"%char | "l"%char | "s"%char => None
  | "h"%char | "V"%char => Some true
  | _ => Some false
  end.

Lemma cli_option_ends o c :
  match option_ends o with
  | None => exists c', cli_option o c = CliNext c'
  | Some b => exists rc ex, cli_option o c = CliReturn rc ex c /\ (rc <? 0) = negb b /\ (b = true -> ex = 1)
  end.
Proof.
  destruct o as [ch arg]. unfold cli_option, option_ends, cli_int. cbn [op_char op_arg].
  assert (Hend : forall rc ex b, (rc <? 0) = negb b -> (b = true -> ex = 1) -> exists rc' ex',
    CliReturn rc ex c = CliReturn rc' ex' c /\ (rc' <? 0) = negb b /\ (b = true -> ex' = 1)) by eauto.
  assert (Hgo : forall c1, exists c', CliNext c1 = CliNext c') by eauto.
  destruct (parse_int_text arg); destruct ch as [[] [] [] [] [] [] [] []];
    first [apply Hgo | by apply Hend].
Qed.

(** The first option that is malformed makes the program fail, the first
    request for help or the version ends it with success, whichever comes
    first; without either it starts. *)
Theorem cli_outcome_decided argv :
  match head (omap option_ends (cli_items getenv argv)) with
  | Some false => main have_libconfig config_read_file getenv argv = EXIT_FAILURE
  | Some true => main have_libconfig config_read_file getenv argv = EXIT_SUCCESS
  | None => exists c, main have_libconfig config_read_file getenv argv = Start c
  end.
Proof.
  unfold main. fold (before_cli argv). cbv zeta. unfold runtime_config_apply_cli. generalize (before_cli argv).
  induction (cli_items getenv argv) as [|o items IH]; intros c; [by exists c|].
  cbn [omap list_omap cli_loop]. pose proof (cli_option_ends o c) as H. destruct (option_ends o) as [b|].
  - destruct H as (rc & ex & -> & -> & Hex). cbn [head]. destruct b; [|done]. by rewrite Hex.
  - destruct H as (c' & ->). apply IH.
Qed.

(** [--config=FILE], which getopt_long accepts, only changes the name that is
    reported: the settings of FILE are not loaded, because the scan before the
    parsing looks for the option and its argument as separate words. *)
Theorem config_equals_not_loaded prog v :
  main have_libconfig config_read_file getenv [prog; "--config=" +:+ v] =
    match main have_libconfig config_read_file getenv [prog] with
    | Start c => Start (set_config_file (copy_str (config_file c) (Some v)) c)
    | r => r
    end /\
  preparse_config_path getenv [prog; "--config=" +:+ v] = preparse_config_path getenv [prog] /\
  (forall out, preparse_config_path getenv [prog; "--config"%string; v] out = snprintf_s CFG_PATH_MAX v).
Proof. by split_and!. Qed.
End startup_wf.

(** ** Concrete configurations *)

Definition demo_settings : settings :=
  Settings (fun name => if String.eqb name "server.user_port" then Some 7000 else
                        if String.eqb name "server.worker_count" then Some 99 else None)
           (fun name => if String.eqb name "server.max_upload_mb" then Some 16 else None)
           (fun _ => None).

Definition demo_files (path : string) : option settings :=
  if String.eqb path DEFAULT_CONFIG_PATH then Some demo_settings else None.

Definition demo_env (name : string) : option string :=
  if String.eqb name "STEGA_USER_PORT" then Some "7001"%string else
  if String.eqb name "STEGA_WORKERS" then Some "x"%string else None.

Definition demo_argv : list string := ["server"; "extra"; "-hV"; "--port"; "80"]%string.
Definition demo_argv2 : list string := ["server"; "extra"; "--po"; "4294967376"; "-a81"; "--log=a.log"; "--"; "-x"]%string.

(** Options are found after other arguments, may be abbreviated or clustered,
    and a number that exceeds [int] wraps. *)
Example demo_main :
  main true demo_files demo_env demo_argv = EXIT_SUCCESS /\
  main true demo_files demo_env ["server"; "-p"; "80x"]%string = EXIT_FAILURE /\
  main true demo_files demo_env demo_argv2 =
    Start (RuntimeConfig 80 81 8 "a.log" "storage" "config/server.conf" "/tmp/stegapng_user.sock" (16 * MB)).
Proof. vm_compute. repeat split. Qed.

Lemma demo_settings_ok p lc : demo_files p = Some lc -> settings_ok lc.
Proof.
  unfold demo_files. case_match; [|done]. intros [= <-] name v. cbn [config_lookup_int demo_settings].
  unfold is_int. repeat case_match; intros [= <-]; lia.
Qed.

Lemma main_config_wf_witness : config_wf
  (RuntimeConfig 80 81 8 "a.log" "storage" "config/server.conf" "/tmp/stegapng_user.sock" (16 * MB)).
Proof.
  apply (main_config_wf true demo_files demo_env demo_argv2).
  - exact demo_settings_ok.
  - vm_compute. reflexivity.
Defined.

(** The variable names a file that cannot be read: it is neither loaded nor
    reported; with two options the first file is loaded, the last one reported. *)
Example demo_config_file :
  let env name := if String.eqb name "STEGA_CONFIG" then Some "missing.conf"%string else None in
  let conf argv := match main true demo_files env argv with Start c => Some (user_port c, config_file c) | _ => None end in
  conf ["server"]%string = Some (SERVER_PORT, DEFAULT_CONFIG_PATH) /\
  conf ["server"; "-c"; DEFAULT_CONFIG_PATH; "-c"; "other.conf"]%string = Some (7000, "other.conf"%string).
Proof. vm_compute. split; reflexivity. Qed.

Lemma config_precedence_witness :
  let c := RuntimeConfig 80 81 8 "a.log" "storage" "config/server.conf" "/tmp/stegapng_user.sock" (16 * MB) in
  log_path c = first_set [Some "a.log"%string; None; None] LOG_PATH /\
  config_file c = first_set [None; Some "config/server.conf"%string] DEFAULT_CONFIG_PATH.
Proof.
  intros c. destruct (config_precedence true demo_files demo_env demo_argv2 c)
    as (_ & _ & _ & _ & H & _ & _ & _ & H').
  - vm_compute. reflexivity.
  - split; [exact H|exact H'].
Defined.
