(* ===== verification/Wire.v ===== *)
(** * Structures as bytes

    The program sends a [worker_event_t] through a pipe and reads the
    [inotify_event]s of the kernel as the bytes of the structures: their
    integer fields are in the byte order of the machine, which is little
    endian on x86_64. *)

From S2P Require Export CString.
#[local] Open Scope Z_scope.

(** The [n] bytes of an unsigned field, and the field that bytes hold. *)
Definition le_field (n : nat) (v : Z) : list Z :=
  (fun i => u8 (Z.shiftr v (8 * i))) <$> seqZ 0 (Z.of_nat n).

Fixpoint from_le (bytes : list Z) : Z :=
  match bytes with [] => 0 | b :: bytes => b + Z.shiftl (from_le bytes) 8 end.

(** A signed 32-bit field. *)
Definition signed32 (v : Z) : Z := if 2 ^ 31 <=? v then v - 2 ^ 32 else v.

Lemma le_field_lookup n v i : (i < n)%nat -> le_field n v !! i = Some (u8 (Z.shiftr v (8 * Z.of_nat i))).
Proof.
  intros Hi. unfold le_field. rewrite list_lookup_fmap, lookup_seqZ_lt by lia. reflexivity.
Qed.

Lemma le_field_succ n v : le_field (S n) v = u8 v :: le_field n (Z.shiftr v 8).
Proof.
  apply (list_eq_same_length _ _ (S n)); simpl;
    [unfold le_field; rewrite length_fmap, length_seqZ; lia..|].
  intros i x y Hi. destruct i as [|i].
  - rewrite le_field_lookup by lia. rewrite Z.mul_0_r, Z.shiftr_0_r. simpl. congruence.
  - rewrite le_field_lookup by lia. simpl. rewrite le_field_lookup by lia.
    rewrite Z.shiftr_shiftr by lia. replace (8 + 8 * Z.of_nat i) with (8 * Z.of_nat (S i)) by lia. congruence.
Qed.

Lemma length_le_field n v : length (le_field n v) = n.
Proof. unfold le_field. rewrite length_fmap, length_seqZ. lia. Qed.

Lemma le_field_bytes n v : bytes_ok (le_field n v).
Proof.
  unfold bytes_ok, le_field. apply Forall_fmap, Forall_true. intros i. simpl. by apply wrap_bounded.
Qed.

(** Reading a field back gives its value modulo its width. *)
Lemma from_le_field n v : from_le (le_field n v) = v `mod` 2 ^ (8 * Z.of_nat n).
Proof.
  revert v. induction n as [|n IH]; intros v; [by rewrite Z.mod_1_r|].
  rewrite le_field_succ. cbn [from_le]. rewrite IH. unfold u8, wrap.
  rewrite Z.shiftl_mul_pow2, Z.shiftr_div_pow2 by lia.
  replace (8 * Z.of_nat (S n)) with (8 + 8 * Z.of_nat n) by lia.
  rewrite Z.pow_add_r, (Z.rem_mul_r v) by lia. lia.
Qed.

Lemma from_le_small n v : 0 <= v < 2 ^ (8 * Z.of_nat n) -> from_le (le_field n v) = v.
Proof. intros. rewrite from_le_field. by apply Z.mod_small. Qed.

Lemma signed32_wrap v : -2 ^ 31 <= v < 2 ^ 31 -> signed32 (u32 v) = v.
Proof.
  intros Hv. unfold signed32, u32, wrap. destruct (decide (0 <= v)).
  - rewrite Z.mod_small by lia. destruct (Z.leb_spec (2 ^ 31) v); lia.
  - rewrite <-(Z.mod_add v 1), Z.mod_small by lia. destruct (Z.leb_spec (2 ^ 31) (v + 1 * 2 ^ 32)); lia.
Qed.
