(* ===== verification/Crc32.v ===== *)
(** * CRC-32 of the container (src/src/server/stego.c, lines 14-47)

    The lookup table, its lazy construction behind [g_crc32_table_ready], the
    table-driven checksum [stego_crc32], the bit-by-bit checksum it
    implements, and the error patterns the checksum detects. *)

From S2P Require Import Prelude.
#[local] Open Scope Z_scope.

(** ** The program *)

(** One iteration of the inner loop of [crc32_build_table]. *)
Definition crc32_shift (c : Z) : Z :=
  if Z.odd (Z.land c 1) then Z.lxor 0xEDB88320 (Z.shiftr c 1) else Z.shiftr c 1.

(** The value stored in [g_crc32_table[i]]: eight iterations from [c = i]. *)
Definition crc32_entry (i : Z) : Z := Nat.iter 8 crc32_shift i.

(** The globals [g_crc32_table] and [g_crc32_table_ready]. *)
Record crc_global := CrcGlobal {
  g_crc32_table : list Z;
  g_crc32_table_ready : bool
}.

(** The zero-initialised globals of the program at start-up. *)
Definition crc_global_init : crc_global := CrcGlobal (replicate 256 0) false.

(** [crc32_build_table]: every slot [i] of the table is overwritten. *)
Definition crc32_build_table (g : crc_global) : crc_global :=
  CrcGlobal (crc32_entry <$> seqZ 0 256) (g_crc32_table_ready g).

(** One iteration of the loop of [stego_crc32] over the data. *)
Definition crc32_update (table : list Z) (c b : Z) : Z :=
  Z.lxor (nth (Z.to_nat (Z.land (Z.lxor c b) 0xFF)) table 0) (Z.shiftr c 8).

(** [stego_crc32]: the table is built on the first call; the checksum and the
    globals after the call. *)
Definition stego_crc32 (g : crc_global) (data : list Z) : Z * crc_global :=
  let g' :=
    if negb (g_crc32_table_ready g)
    then CrcGlobal (g_crc32_table (crc32_build_table g)) true
    else g in
  let c := fold_left (crc32_update (g_crc32_table g')) data 0xFFFFFFFF in
  (Z.lxor c 0xFFFFFFFF, g').

(** ** The reference checksum *)

(** CRC-32 bit by bit (IEEE 802.3, reflected): no table. *)
Definition crc_byte (c b : Z) : Z := Nat.iter 8 crc32_shift (Z.lxor c b).

Definition crc32_ref (data : list Z) : Z :=
  Z.lxor (fold_left crc_byte data 0xFFFFFFFF) 0xFFFFFFFF.

(** The globals are consistent: once the flag is set the table is complete. *)
Definition crc_inv (g : crc_global) : Prop :=
  g_crc32_table_ready g = true -> g_crc32_table g = crc32_entry <$> seqZ 0 256.

(** ** The shift register is linear *)

Lemma crc32_shift_alt c :
  crc32_shift c = Z.lxor (if Z.testbit c 0 then 0xEDB88320 else 0) (Z.shiftr c 1).
Proof.
  unfold crc32_shift.
  replace (Z.odd (Z.land c 1)) with (Z.testbit c 0).
  - case_match; [done|by rewrite Z.lxor_0_l].
  - by rewrite <-Z.bit0_odd, Z.land_spec, andb_true_r.
Qed.

Lemma crc32_shift_lxor c d :
  crc32_shift (Z.lxor c d) = Z.lxor (crc32_shift c) (crc32_shift d).
Proof.
  rewrite !crc32_shift_alt, Z.lxor_spec, Z.shiftr_lxor.
  generalize (Z.shiftr c 1) (Z.shiftr d 1). intros x y.
  apply Z.bits_inj'. intros i _.
  destruct (Z.testbit c 0), (Z.testbit d 0); simpl; bits;
    rewrite ?Z.bits_0; generalize (Z.testbit 3988292384 i); intros p;
    destruct p, (Z.testbit x i), (Z.testbit y i); done.
Qed.

Lemma crc32_iter_lxor n c d :
  Nat.iter n crc32_shift (Z.lxor c d) =
  Z.lxor (Nat.iter n crc32_shift c) (Nat.iter n crc32_shift d).
Proof. induction n as [|n IH]; simpl; [done|]. by rewrite IH, crc32_shift_lxor. Qed.

(** Zero bits are shifted out unchanged. *)
Lemma crc32_shift_even x : crc32_shift (Z.shiftl x 1) = x.
Proof.
  rewrite crc32_shift_alt, Z.shiftl_spec_low by lia.
  by rewrite Z.lxor_0_l, Z.shiftr_shiftl_l by lia.
Qed.

Lemma crc32_iter_shiftl n x :
  Nat.iter n crc32_shift (Z.shiftl x (Z.of_nat n)) = x.
Proof.
  revert x. induction n as [|n IH]; intros x; [apply Z.shiftl_0_r|].
  rewrite Nat2Z.inj_succ, <-Nat.add_1_r, Nat.iter_add. simpl.
  rewrite <-Z.add_1_r, <-Z.shiftl_shiftl by lia.
  by rewrite crc32_shift_even.
Qed.

(** The register is injective on 32-bit states: bit 31 of the polynomial
    records the bit shifted out. *)
Lemma crc32_shift_bounded c : bounded 32 c -> bounded 32 (crc32_shift c).
Proof.
  intros Hc. rewrite crc32_shift_alt. apply bounded_lxor; [lia| |auto with cint].
  case_match; unfold bounded; lia.
Qed.

Lemma crc32_shift_zero c : bounded 32 c -> crc32_shift c = 0 -> c = 0.
Proof.
  intros Hc H. rewrite crc32_shift_alt in H.
  assert (Hodd : Z.testbit c 0 = false).
  { apply (f_equal (fun z => Z.testbit z 31)) in H. revert H. bits.
    rewrite (testbit_bounded 32 c (31 + 1)) by (done || lia).
    destruct (Z.testbit c 0); [|done]. discriminate. }
  rewrite Hodd, Z.lxor_0_l in H.
  apply Z.bits_inj'. intros i Hi. rewrite Z.bits_0.
  destruct (decide (i = 0)) as [->|Hne]; [done|].
  apply (f_equal (fun z => Z.testbit z (i - 1))) in H. revert H.
  rewrite Z.shiftr_spec, Z.bits_0 by lia. by rewrite Z.sub_add.
Qed.

Lemma crc32_iter_bounded n c : bounded 32 c -> bounded 32 (Nat.iter n crc32_shift c).
Proof. intros Hc. induction n; simpl; auto using crc32_shift_bounded. Qed.

Lemma crc32_iter_zero n c : bounded 32 c -> Nat.iter n crc32_shift c = 0 -> c = 0.
Proof.
  intros Hc. induction n as [|n IH]; simpl; [done|].
  intros H. apply IH, crc32_shift_zero; [|done]. by apply crc32_iter_bounded.
Qed.

Lemma crc32_iter_inj n c d :
  bounded 32 c -> bounded 32 d ->
  Nat.iter n crc32_shift c = Nat.iter n crc32_shift d -> c = d.
Proof.
  intros Hc Hd H. apply Z.lxor_eq. apply (crc32_iter_zero n).
  - auto with cint.
  - by rewrite crc32_iter_lxor, H, Z.lxor_nilpotent.
Qed.

(** ** The table *)

Lemma crc32_table_lookup i :
  0 <= i < 256 ->
  nth (Z.to_nat i) (crc32_entry <$> seqZ 0 256) 0 = crc32_entry i.
Proof.
  intros Hi. apply nth_lookup_Some. rewrite list_lookup_fmap.
  rewrite lookup_seqZ_lt by lia. simpl. by rewrite Z2Nat.id by lia.
Qed.

(** A state is its low byte plus the rest shifted left. *)
Lemma split_low_byte x : x = Z.lxor (Z.land x 0xFF) (Z.shiftl (Z.shiftr x 8) 8).
Proof.
  change 0xFF with (Z.ones 8). rewrite land_mask by lia.
  apply Z.bits_inj'. intros i Hi. bits.
  destruct (Z.ltb_spec i 8); simpl.
  - by rewrite (Z.testbit_neg_r _ (i - 8)), xorb_false_r by lia.
  - rewrite Z.shiftr_spec by lia. rewrite Z.sub_add. by destruct (Z.testbit x i).
Qed.

(** One table step is eight register shifts. *)
Lemma crc32_update_byte c b :
  bounded 8 b ->
  crc32_update (crc32_entry <$> seqZ 0 256) c b = crc_byte c b.
Proof.
  intros Hb. unfold crc32_update, crc_byte.
  rewrite crc32_table_lookup.
  - rewrite (split_low_byte (Z.lxor c b)) at 2.
    rewrite crc32_iter_lxor, (crc32_iter_shiftl 8). unfold crc32_entry. f_equal.
    apply Z.bits_inj'. intros i Hi. bits.
    rewrite (testbit_bounded 8 b (i + 8)) by (done || lia). by rewrite xorb_false_r.
  - change 0xFF with (Z.ones 8). rewrite land_mask by lia. by apply wrap_bounded.
Qed.

Lemma crc_inv_init : crc_inv crc_global_init.
Proof. done. Qed.

(** The call leaves the globals consistent, and its checksum is the
    reference one, whether or not this call built the table. *)
Lemma stego_crc32_spec g data :
  crc_inv g -> bytes_ok data ->
  fst (stego_crc32 g data) = crc32_ref data /\ crc_inv (snd (stego_crc32 g data)).
Proof.
  intros Hg Hdata. unfold stego_crc32.
  set (g' := if negb (g_crc32_table_ready g) then _ else g).
  assert (Ht : g_crc32_table g' = crc32_entry <$> seqZ 0 256).
  { subst g'. destruct (g_crc32_table_ready g) eqn:E; [by apply Hg|done]. }
  split; [|by intros _]. unfold crc32_ref. simpl. f_equal. rewrite Ht.
  generalize 0xFFFFFFFF. induction Hdata as [|b l Hb _ IH]; intros c; simpl; [done|].
  by rewrite crc32_update_byte, IH.
Qed.

(** ** Error detection *)

(** The bytes of a burst as one little-endian number. *)
Fixpoint le_bytes (l : list Z) : Z :=
  match l with
  | [] => 0
  | b :: l => Z.lxor b (Z.shiftl (le_bytes l) 8)
  end.

Lemma le_bytes_bounded l : bytes_ok l -> bounded (8 * Z.of_nat (length l)) (le_bytes l).
Proof.
  induction 1 as [|b l Hb Hl IH]; simpl; [unfold bounded; simpl; lia|].
  apply bounded_testbit; [lia| |].
  - apply Z.lxor_nonneg. rewrite Z.shiftl_nonneg. unfold bounded in *. lia.
  - intros i Hi. bits. rewrite (testbit_bounded 8 b) by (done || lia).
    by rewrite (testbit_bounded _ _ _ IH) by lia.
Qed.

Lemma le_bytes_inj l k :
  bytes_ok l -> bytes_ok k -> length l = length k -> le_bytes l = le_bytes k -> l = k.
Proof.
  intros Hl. revert k. induction Hl as [|b l Hb Hl IH]; intros [|a k] Hk Hlen; try done.
  inversion_clear Hk as [|? ? Ha Hk']. intros H. simpl in H.
  assert (Hbit : forall i, 0 <= i ->
    xorb (Z.testbit b i) (Z.testbit (le_bytes l) (i - 8)) =
    xorb (Z.testbit a i) (Z.testbit (le_bytes k) (i - 8))).
  { intros i Hi. apply (f_equal (fun z => Z.testbit z i)) in H. revert H. by bits. }
  f_equal.
  - apply Z.bits_inj'. intros i Hi. destruct (decide (i < 8)) as [Hlt|Hge].
    + specialize (Hbit i Hi). rewrite !(Z.testbit_neg_r _ (i - 8)) in Hbit by lia.
      by rewrite !xorb_false_r in Hbit.
    + by rewrite !(testbit_bounded 8) by (done || lia).
  - apply IH; [done|by injection Hlen|]. apply Z.bits_inj'. intros i Hi.
    specialize (Hbit (i + 8) ltac:(lia)).
    rewrite !(testbit_bounded 8 _ (i + 8)) in Hbit by (done || lia).
    rewrite !xorb_false_l in Hbit. by rewrite Z.add_simpl_r in Hbit.
Qed.

(** Running the register over a list of bytes is one long shift. *)
Lemma crc_fold_le l c :
  fold_left crc_byte l c =
  Nat.iter (8 * length l) crc32_shift (Z.lxor c (le_bytes l)).
Proof.
  revert c. induction l as [|b l IH]; intros c; simpl fold_left; [by rewrite Z.lxor_0_r|].
  rewrite IH. unfold crc_byte. simpl le_bytes.
  replace (8 * length (b :: l))%nat with (8 * length l + 8)%nat by (simpl; lia).
  rewrite Nat.iter_add, <-Z.lxor_assoc, (crc32_iter_lxor 8 (Z.lxor c b)).
  by rewrite (crc32_iter_shiftl 8).
Qed.

Lemma crc_fold_bounded l c :
  bytes_ok l -> bounded 32 c -> bounded 32 (fold_left crc_byte l c).
Proof.
  intros Hl. revert c. induction Hl as [|b l Hb _ IH]; intros c Hc; simpl; [done|].
  apply IH. apply crc32_iter_bounded, bounded_lxor; [lia|done|].
  unfold bounded in *. lia.
Qed.

(** The register is injective in its start state and in a burst of at most
    four bytes. *)
Lemma crc_fold_inj l c d :
  bytes_ok l -> bounded 32 c -> bounded 32 d ->
  fold_left crc_byte l c = fold_left crc_byte l d -> c = d.
Proof.
  intros Hl Hc Hd. revert c d Hc Hd.
  induction Hl as [|b l Hb _ IH]; intros c d Hc Hd H; simpl in H; [done|].
  assert (Hb32 : bounded 32 b) by (unfold bounded in *; lia).
  apply IH in H; try (apply crc32_iter_bounded; auto with cint).
  apply crc32_iter_inj in H; auto with cint.
  apply (f_equal (fun z => Z.lxor z b)) in H.
  by rewrite !Z.lxor_assoc, Z.lxor_nilpotent, !Z.lxor_0_r in H.
Qed.

Lemma crc_burst_inj l k c :
  bytes_ok l -> bytes_ok k -> length l = length k -> (length l <= 4)%nat ->
  bounded 32 c -> fold_left crc_byte l c = fold_left crc_byte k c -> l = k.
Proof.
  intros Hl Hk Hlen H4 Hc H. rewrite !crc_fold_le, <-Hlen in H.
  assert (Hlt : forall m, bytes_ok m -> (length m <= 4)%nat -> bounded 32 (le_bytes m)).
  { intros m Hm Hm4. pose proof (le_bytes_bounded m Hm) as [? Hb]. split; [done|].
    eapply Z.lt_le_trans; [exact Hb|]. apply Z.pow_le_mono_r; lia. }
  apply crc32_iter_inj in H; [|auto using Nat.eq_le_incl with cint..].
  2: { apply bounded_lxor; [lia|done|]. apply Hlt; [done|lia]. }
  apply le_bytes_inj; try done.
  apply (f_equal (Z.lxor c)) in H.
  by rewrite <-!Z.lxor_assoc, Z.lxor_nilpotent, !Z.lxor_0_l in H.
Qed.

Lemma crc32_ref_burst p l k s :
  bytes_ok p -> bytes_ok l -> bytes_ok k -> bytes_ok s ->
  length l = length k -> (length l <= 4)%nat -> l <> k ->
  crc32_ref (p ++ l ++ s) <> crc32_ref (p ++ k ++ s).
Proof.
  intros Hp Hl Hk Hs Hlen H4 Hne H. apply Hne. unfold crc32_ref in H.
  apply (f_equal (fun z => Z.lxor z 0xFFFFFFFF)) in H.
  rewrite !Z.lxor_assoc, Z.lxor_nilpotent, !Z.lxor_0_r, !fold_left_app in H.
  assert (Hc : bounded 32 0xFFFFFFFF) by (unfold bounded; lia).
  apply crc_fold_inj in H; [|by auto using crc_fold_bounded..].
  by apply (crc_burst_inj l k (fold_left crc_byte p 0xFFFFFFFF)); auto using crc_fold_bounded.
Qed.

Lemma crc32_ref_bounded data : bytes_ok data -> bounded 32 (crc32_ref data).
Proof.
  intros H. assert (Hc : bounded 32 0xFFFFFFFF) by (unfold bounded; lia).
  unfold crc32_ref. auto using bounded_lxor, crc_fold_bounded with cint.
Qed.

#[export] Hint Resolve crc32_ref_bounded crc_inv_init : cint.

(** ** The properties *)

(** The checksums of a sequence of calls, each starting from the globals the
    previous one left. *)
Fixpoint crc_calls (g : crc_global) (blocks : list (list Z)) : list Z :=
  match blocks with
  | [] => []
  | data :: blocks => let (c, g) := stego_crc32 g data in c :: crc_calls g blocks
  end.

(** From the start of the program, every call of [stego_crc32] returns the
    IEEE 802.3 checksum of its data: the lazily built table is complete when
    it is used, and is never spoiled by a later call. *)
Theorem stego_crc32_history blocks :
  Forall bytes_ok blocks -> crc_calls crc_global_init blocks = crc32_ref <$> blocks.
Proof.
  intros H. pose proof crc_inv_init as Hg. revert Hg. generalize crc_global_init.
  induction H as [|data blocks Hd _ IH]; intros g Hg; [done|].
  rewrite fmap_cons. cbn [crc_calls]. pose proof (stego_crc32_spec g data Hg Hd) as [Hc Hg'].
  destruct (stego_crc32 g data) as [c g']. simpl in Hc, Hg'. subst c. f_equal. by apply IH.
Qed.

(** The check value of CRC-32 (the bytes of "123456789"), on two calls. *)
Lemma stego_crc32_history_witness :
  crc_calls crc_global_init [[49; 50; 51; 52; 53; 54; 55; 56; 57]; []] = [0xCBF43926; 0].
Proof.
  rewrite (stego_crc32_history [[49; 50; 51; 52; 53; 54; 55; 56; 57]; []]).
  - vm_compute. reflexivity.
  - eapply (bool_decide_unpack (Forall bytes_ok _)). vm_compute. exact I.
Defined.

(** C34: two byte strings that differ only inside a window of at most four bytes
    never have the same checksum. *)
Theorem stego_crc32_detects_burst g g' p l k s :
  crc_inv g -> crc_inv g' -> bytes_ok p -> bytes_ok l -> bytes_ok k -> bytes_ok s ->
  length l = length k -> (length l <= 4)%nat -> l <> k ->
  fst (stego_crc32 g (p ++ l ++ s)) <> fst (stego_crc32 g' (p ++ k ++ s)).
Proof.
  intros Hg Hg' Hp Hl Hk Hs Hlen H4 Hne.
  destruct (stego_crc32_spec g (p ++ l ++ s) Hg ltac:(by repeat apply Forall_app_2)) as [-> _].
  destruct (stego_crc32_spec g' (p ++ k ++ s) Hg' ltac:(by repeat apply Forall_app_2)) as [-> _].
  by apply crc32_ref_burst.
Qed.

Lemma stego_crc32_detects_burst_witness :
  fst (stego_crc32 crc_global_init [1; 2; 3]) <> fst (stego_crc32 crc_global_init [1; 7; 3]).
Proof.
  apply (stego_crc32_detects_burst crc_global_init crc_global_init [1] [2] [7] [3]);
    first [exact crc_inv_init | eapply bool_decide_unpack; vm_compute; exact I
          | discriminate | reflexivity | simpl; lia].
Defined.
