(* ===== verification/Lsb.v ===== *)
(** * LSB embedding and extraction (src/src/server/stego.c, lines 276-337)

    The pixel buffer [png_image_buf_t], the capacity computation, and the two
    loops [embed_bits] and [extract_bits], written as the program's nested
    loops over rows and channels; the reference semantics of the two loops on
    the sequence of carrier bits of an image, and their refinement of it. *)

From S2P Require Import Prelude.
#[local] Open Scope Z_scope.

(** ** The program *)

(** [png_image_buf_t]: [rows] is the array of row pointers, each row the
    [width * channels] bytes libpng stores there. *)
Record png_image_buf := PngImage {
  img_width : Z;
  img_height : Z;
  img_bit_depth : Z;
  img_color_type : Z;
  img_channels : Z;
  img_rows : list (list Z)
}.

(** The number of channels that carry data: alpha is excluded. *)
Definition data_channels (channels : Z) : Z := if channels =? 4 then 3 else channels.

Definition image_data_bit_capacity (img : png_image_buf) : Z :=
  let pixels := u64 (img_width img * img_height img) in
  u64 (pixels * data_channels (img_channels img)).

(** [ch_index] is an [int]; C's [%] truncates toward zero. *)
Definition is_data_channel (channels ch_index : Z) : bool :=
  negb ((channels =? 4) && (Z.rem ch_index 4 =? 3)).

(** The bit of [data] at position [bit_index], as a 0/1 byte. *)
Definition data_bit (data : list Z) (bit_index : Z) : Z :=
  u8 (Z.land (Z.shiftr (nth (Z.to_nat (bit_index / 8)) data 0) (bit_index mod 8)) 1).

(** The pixel byte with its low bit replaced. *)
Definition set_lsb (p bit : Z) : Z := u8 (Z.lor (Z.land p 0xFE) bit).

(** The loop [for (x = 0; x < row_len && bit_index < total_bits; x++)] of
    [embed_bits]; [n] is the number of iterations left, [row_len - x]. *)
Fixpoint embed_row (data : list Z) (total_bits channels : Z)
    (n : nat) (x : Z) (row : list Z) (bit_index : Z) : list Z * Z :=
  match n with
  | O => (row, bit_index)
  | S n =>
      if bit_index <? total_bits then
        if negb (is_data_channel channels (to_int x))
        then embed_row data total_bits channels n (x + 1) row bit_index
        else
          let bit := data_bit data bit_index in
          let row := <[Z.to_nat x := set_lsb (nth (Z.to_nat x) row 0) bit]> row in
          embed_row data total_bits channels n (x + 1) row (bit_index + 1)
      else (row, bit_index)
  end.

(** The loop over [y]; [n] is [height - y]. *)
Fixpoint embed_rows (data : list Z) (total_bits width channels : Z)
    (n : nat) (y : Z) (rows : list (list Z)) (bit_index : Z) : list (list Z) :=
  match n with
  | O => rows
  | S n =>
      if bit_index <? total_bits then
        let row_len := u64 (width * channels) in
        let (row, bit_index) :=
          embed_row data total_bits channels (Z.to_nat row_len) 0
                    (nth (Z.to_nat y) rows []) bit_index in
        embed_rows data total_bits width channels n (y + 1)
                   (<[Z.to_nat y := row]> rows) bit_index
      else rows
  end.

Definition embed_bits (img : png_image_buf) (data : list Z) (len_bytes : Z) : png_image_buf :=
  PngImage (img_width img) (img_height img) (img_bit_depth img) (img_color_type img)
    (img_channels img)
    (embed_rows data (u64 (len_bytes * 8)) (img_width img) (img_channels img)
       (Z.to_nat (img_height img)) 0 (img_rows img) 0).

(** [data[bit_index / 8] |= bit << (bit_index % 8)]. *)
Definition or_bit (data : list Z) (bit_index bit : Z) : list Z :=
  let k := Z.to_nat (bit_index / 8) in
  <[k := Z.lor (nth k data 0) (u8 (Z.shiftl bit (bit_index mod 8)))]> data.

Fixpoint extract_row (total_bits channels : Z) (row : list Z)
    (n : nat) (x : Z) (data : list Z) (bit_index : Z) : list Z * Z :=
  match n with
  | O => (data, bit_index)
  | S n =>
      if bit_index <? total_bits then
        if negb (is_data_channel channels (to_int x))
        then extract_row total_bits channels row n (x + 1) data bit_index
        else
          let bit := u8 (Z.land (nth (Z.to_nat x) row 0) 1) in
          extract_row total_bits channels row n (x + 1)
                      (or_bit data bit_index bit) (bit_index + 1)
      else (data, bit_index)
  end.

Fixpoint extract_rows (total_bits width channels : Z) (rows : list (list Z))
    (n : nat) (y : Z) (data : list Z) (bit_index : Z) : list Z :=
  match n with
  | O => data
  | S n =>
      if bit_index <? total_bits then
        let row_len := u64 (width * channels) in
        let (data, bit_index) :=
          extract_row total_bits channels (nth (Z.to_nat y) rows [])
                      (Z.to_nat row_len) 0 data bit_index in
        extract_rows total_bits width channels rows n (y + 1) data bit_index
      else data
  end.

(** [extract_bits]: the output buffer of [len_bytes] bytes, cleared first. *)
Definition extract_bits (img : png_image_buf) (len_bytes : Z) : list Z :=
  extract_rows (u64 (len_bytes * 8)) (img_width img) (img_channels img) (img_rows img)
    (Z.to_nat (img_height img)) 0 (replicate (Z.to_nat len_bytes) 0) 0.

(** ** Well-formed images

    What [png_load_rgb_or_rgba] returns: 8-bit RGB or RGBA rows of full
    length.  libpng's default user limits bound both dimensions by 10^6, far
    below what makes the size computations wrap. *)
Definition PNG_USER_MAX : Z := 1000000.

Record image_wf (img : png_image_buf) : Prop := ImageWf {
  wf_width : 0 < img_width img <= PNG_USER_MAX;
  wf_height : 0 < img_height img <= PNG_USER_MAX;
  wf_channels : img_channels img = 3 \/ img_channels img = 4;
  wf_depth : img_bit_depth img = 8;
  wf_rows : Z.of_nat (length (img_rows img)) = img_height img;
  wf_row : Forall (fun row => Z.of_nat (length row) = img_width img * img_channels img
                              /\ bytes_ok row) (img_rows img)
}.

(** ** Reference semantics: the carrier bits of an image *)

(** The low bits of the data channels of a row, left to right from [x]. *)
Fixpoint row_lsbs (channels x : Z) (row : list Z) : list bool :=
  match row with
  | [] => []
  | p :: row =>
      if is_data_channel channels (to_int x)
      then Z.testbit p 0 :: row_lsbs channels (x + 1) row
      else row_lsbs channels (x + 1) row
  end.

Definition rows_lsbs (channels : Z) (rows : list (list Z)) : list bool :=
  rows ≫= row_lsbs channels 0.

(** Writing a list of bits on the carriers of a row, and of the rows; the
    bits that did not fit are returned. *)
Fixpoint write_row (channels x : Z) (row : list Z) (bs : list bool) : list Z * list bool :=
  match row with
  | [] => ([], bs)
  | p :: row =>
      if is_data_channel channels (to_int x) then
        match bs with
        | [] => (p :: row, [])
        | b :: bs =>
            let (row, bs) := write_row channels (x + 1) row bs in
            (set_lsb p (Z.b2z b) :: row, bs)
        end
      else let (row, bs) := write_row channels (x + 1) row bs in (p :: row, bs)
  end.

Fixpoint write_rows (channels : Z) (rows : list (list Z)) (bs : list bool) : list (list Z) :=
  match rows with
  | [] => []
  | row :: rows =>
      let (row, bs) := write_row channels 0 row bs in row :: write_rows channels rows bs
  end.

(** The bits of a byte string, least significant first. *)
Definition byte_bits (b : Z) : list bool := Z.testbit b <$> seqZ 0 8.
Definition bits_of_bytes (l : list Z) : list bool := l ≫= byte_bits.

#[local] Arguments Nat.mul : simpl never.
#[local] Arguments Z.b2z : simpl never.
#[local] Arguments Z.testbit : simpl never.
#[local] Arguments is_data_channel : simpl never.

(** ** Bits and bytes *)

Lemma length_byte_bits b : length (byte_bits b) = 8%nat.
Proof. done. Qed.

Lemma byte_bits_inj a b : bounded 8 a -> bounded 8 b -> byte_bits a = byte_bits b -> a = b.
Proof.
  intros Ha Hb H. apply Z.bits_inj'. intros i Hi.
  destruct (decide (i < 8)) as [Hlt|Hge].
  - assert (Hl : forall c, byte_bits c !! Z.to_nat i = Some (Z.testbit c i)).
    { intros c. unfold byte_bits. rewrite list_lookup_fmap, lookup_seqZ_lt by lia.
      simpl. by rewrite Z2Nat.id by lia. }
    pose proof (Hl a) as Hla. rewrite H, Hl in Hla. congruence.
  - by rewrite !(testbit_bounded 8) by (done || lia).
Qed.

Lemma length_bits_of_bytes l : length (bits_of_bytes l) = (8 * length l)%nat.
Proof.
  unfold bits_of_bytes. induction l as [|b l IH]; [done|].
  rewrite bind_cons, length_app, IH, length_byte_bits. simpl. lia.
Qed.

Lemma bits_of_bytes_cons b l : bits_of_bytes (b :: l) = byte_bits b ++ bits_of_bytes l.
Proof. done. Qed.

Lemma bits_of_bytes_inj l k :
  bytes_ok l -> bytes_ok k -> bits_of_bytes l = bits_of_bytes k -> l = k.
Proof.
  intros Hl. revert k. induction Hl as [|b l Hb Hl IH]; intros k Hk H.
  - destruct k; [done|]. apply (f_equal length) in H.
    rewrite !length_bits_of_bytes in H. simpl in H. lia.
  - destruct k as [|c k].
    { apply (f_equal length) in H. rewrite !length_bits_of_bytes in H. simpl in H. lia. }
    inversion_clear Hk. rewrite !bits_of_bytes_cons in H.
    apply app_inj_1 in H as [Heq1 Heq2]; [|done].
    f_equal; [by apply byte_bits_inj|by apply IH].
Qed.

Lemma bits_of_bytes_zeros n : bits_of_bytes (replicate n 0) = replicate (8 * n) false.
Proof.
  induction n as [|n IH]; [done|]. rewrite replicate_S, bits_of_bytes_cons, IH.
  replace (8 * S n)%nat with (8 + 8 * n)%nat by lia. by rewrite replicate_add.
Qed.

Lemma lookup_bits_of_bytes l k :
  0 <= k < 8 * Z.of_nat (length l) ->
  bits_of_bytes l !! Z.to_nat k =
  Some (Z.testbit (nth (Z.to_nat (k / 8)) l 0) (k mod 8)).
Proof.
  revert k. induction l as [|b l IH]; intros k Hk; [simpl in Hk; lia|].
  rewrite bits_of_bytes_cons. destruct (decide (k < 8)) as [Hlt|Hge].
  - rewrite lookup_app_l by (rewrite length_byte_bits; lia).
    unfold byte_bits. rewrite list_lookup_fmap, lookup_seqZ_lt by lia. simpl.
    rewrite Z.div_small, Z.mod_small by lia. simpl. by rewrite Z2Nat.id by lia.
  - rewrite lookup_app_r, length_byte_bits by (rewrite length_byte_bits; lia).
    replace (Z.to_nat k - 8)%nat with (Z.to_nat (k - 8)) by lia.
    rewrite IH by (simpl in Hk; lia).
    replace (Z.to_nat (k / 8)) with (S (Z.to_nat ((k - 8) / 8))) by zlia.
    simpl. do 2 f_equal. zlia.
Qed.

Lemma drop_bits_of_bytes l k :
  0 <= k < 8 * Z.of_nat (length l) ->
  drop (Z.to_nat k) (bits_of_bytes l) =
  Z.testbit (nth (Z.to_nat (k / 8)) l 0) (k mod 8)
    :: drop (Z.to_nat (k + 1)) (bits_of_bytes l).
Proof.
  intros Hk. replace (Z.to_nat (k + 1)) with (S (Z.to_nat k)) by lia.
  apply drop_S. by apply lookup_bits_of_bytes.
Qed.

Lemma take_bits_of_bytes n l :
  take (8 * n) (bits_of_bytes l) = bits_of_bytes (take n l).
Proof.
  revert l. induction n as [|n IH]; intros l; [done|].
  destruct l as [|b l]; [by rewrite take_nil|].
  replace (8 * S n)%nat with (length (byte_bits b) + 8 * n)%nat
    by (rewrite length_byte_bits; lia).
  rewrite firstn_cons, !bits_of_bytes_cons, take_app_add. by rewrite IH.
Qed.

(** The data bit as a 0/1 value. *)
Lemma data_bit_b2z data k :
  0 <= k ->
  data_bit data k = Z.b2z (Z.testbit (nth (Z.to_nat (k / 8)) data 0) (k mod 8)).
Proof.
  intros Hk. unfold data_bit, u8. set (v := Z.shiftr _ _).
  assert (Hv : Z.land v 1 = Z.b2z (Z.testbit v 0)).
  { rewrite Z.bit0_mod. apply (Z.land_ones v 1). lia. }
  rewrite Hv, wrap_small
    by (destruct (Z.testbit v 0); unfold bounded, Z.b2z; lia).
  subst v. rewrite Z.shiftr_spec by lia. done.
Qed.

(** ** The carrier byte *)

Lemma set_lsb_testbit p b i :
  bounded 8 p ->
  Z.testbit (set_lsb p (Z.b2z b)) i = if i =? 0 then b else Z.testbit p i.
Proof.
  intros Hp. unfold set_lsb, u8. bits.
  destruct (decide (i < 0)) as [Hneg|Hpos].
  { rewrite !Z.testbit_neg_r by lia. destruct (Z.eqb_spec i 0); [lia|].
    by rewrite andb_comm. }
  destruct (Z.eqb_spec i 0) as [->|Hne].
  - rewrite Z.b2z_bit0. by rewrite andb_false_r.
  - rewrite (testbit_bounded 1 (Z.b2z b)), orb_false_r
      by (lia || (destruct b; unfold bounded, Z.b2z; lia)).
    destruct (Z.ltb_spec i 8) as [Hlt|Hge]; simpl.
    + assert (Hm : Z.testbit 254 i = true).
      { assert (i = 1 \/ i = 2 \/ i = 3 \/ i = 4 \/ i = 5 \/ i = 6 \/ i = 7) as Hi by lia.
        by repeat destruct Hi as [->|Hi]; [..|subst i]. }
      by rewrite Hm, andb_true_r.
    + by rewrite (testbit_bounded 8 p).
Qed.

Lemma set_lsb_bounded p b : bounded 8 (set_lsb p b).
Proof. apply wrap_bounded. lia. Qed.

(** Everything but the low bit is unchanged. *)
Lemma set_lsb_high p b :
  bounded 8 p -> Z.shiftr (set_lsb p (Z.b2z b)) 1 = Z.shiftr p 1.
Proof.
  intros Hp. apply Z.bits_inj'. intros i Hi. bits. rewrite set_lsb_testbit by done.
  destruct (Z.eqb_spec (i + 1) 0); [lia|done].
Qed.

(** ** Reference writes *)

Lemma write_row_nil ch x row : write_row ch x row [] = (row, []).
Proof.
  revert x. induction row as [|p row IH]; intros x; simpl; [done|].
  case_match; [done|]. by rewrite IH.
Qed.

Lemma write_row_length ch x row bs : length (fst (write_row ch x row bs)) = length row.
Proof.
  revert x bs. induction row as [|p row IH]; intros x bs; simpl; [done|].
  case_match; [destruct bs as [|b bs]; [done|]|].
  - specialize (IH (x + 1) bs). destruct (write_row _ _ _ _). simpl in *. lia.
  - specialize (IH (x + 1) bs). destruct (write_row _ _ _ _). simpl in *. lia.
Qed.

(** The bits land on the carriers in order. *)
Lemma write_row_spec ch x row bs :
  bytes_ok row ->
  let n := length (row_lsbs ch x row) in
  row_lsbs ch x (fst (write_row ch x row bs)) =
    take n bs ++ drop (length bs) (row_lsbs ch x row) /\
  snd (write_row ch x row bs) = drop n bs.
Proof.
  intros Hrow. revert x bs. induction Hrow as [|p row Hp Hrow IH]; intros x bs; simpl.
  { by rewrite drop_nil. }
  destruct (is_data_channel ch (to_int x)) eqn:E; [destruct bs as [|b bs]|].
  - simpl. by rewrite E.
  - specialize (IH (x + 1) bs) as [IH1 IH2]. destruct (write_row _ _ _ _) as [r k].
    simpl in *. rewrite E, set_lsb_testbit by done. simpl. by rewrite IH1, IH2.
  - specialize (IH (x + 1) bs) as [IH1 IH2]. destruct (write_row _ _ _ _) as [r k].
    simpl in *. by rewrite E, IH1, IH2.
Qed.

Lemma write_rows_spec ch rows bs :
  Forall bytes_ok rows ->
  rows_lsbs ch (write_rows ch rows bs) =
    take (length (rows_lsbs ch rows)) bs ++ drop (length bs) (rows_lsbs ch rows).
Proof.
  intros Hrows. revert bs. unfold rows_lsbs.
  induction Hrows as [|row rows Hrow _ IH]; intros bs; [simpl; by rewrite drop_nil|].
  simpl write_rows. pose proof (write_row_spec ch 0 row bs Hrow) as [H1 H2].
  destruct (write_row ch 0 row bs) as [r k]. simpl in H1, H2. subst k.
  rewrite !bind_cons, H1, IH, length_app, length_drop.
  set (R := row_lsbs ch 0 row). set (Q := rows ≫= row_lsbs ch 0).
  rewrite drop_app, <-!app_assoc. destruct (Nat.le_ge_cases (length bs) (length R)).
  - rewrite (drop_ge bs), (take_ge bs (length R)), (take_ge bs) by lia.
    rewrite take_nil. replace (length bs - length R)%nat with 0%nat by lia. done.
  - rewrite (drop_ge R) by lia. simpl. rewrite app_assoc. f_equal.
    by rewrite take_take_drop.
Qed.

Lemma write_rows_nil ch rows : write_rows ch rows [] = rows.
Proof. induction rows as [|r rows IH]; simpl; [done|]. by rewrite write_row_nil, IH. Qed.

(** ** The embedding loops refine the reference writes *)

Lemma write_row_rest ch x row bs :
  snd (write_row ch x row bs) = drop (length (row_lsbs ch x row)) bs.
Proof.
  revert x bs. induction row as [|p row IH]; intros x bs; simpl; [done|].
  case_match; [destruct bs as [|b bs]; [done|]|];
    specialize (IH (x + 1) bs); by destruct (write_row _ _ _ _).
Qed.

(** A suffix is determined by its length. *)
Lemma drop_suffix_length {A} (l : list A) m :
  drop (length l - length (drop m l)) l = drop m l.
Proof.
  rewrite length_drop. destruct (Nat.le_ge_cases m (length l)).
  - f_equal. lia.
  - rewrite !drop_ge by lia. done.
Qed.

Section embed.
Variables (data : list Z) (total ch : Z).
Hypothesis Htotal : total = 8 * Z.of_nat (length data).

Let bits_from (bi : Z) : list bool := drop (Z.to_nat bi) (bits_of_bytes data).

Lemma bits_from_total : bits_from total = [].
Proof. unfold bits_from. apply drop_ge. rewrite length_bits_of_bytes. lia. Qed.

Lemma embed_row_refines post pre x bi :
  x = Z.of_nat (length pre) -> 0 <= bi <= total ->
  embed_row data total ch (length post) x (pre ++ post) bi =
  let (r, k) := write_row ch x post (bits_from bi) in (pre ++ r, total - Z.of_nat (length k)).
Proof.
  revert pre x bi. induction post as [|p post IH]; intros pre x bi Hx Hbi; simpl.
  { f_equal. unfold bits_from. rewrite length_drop, length_bits_of_bytes. lia. }
  destruct (Z.ltb_spec bi total) as [Hlt|Hge].
  - assert (Hd : bits_from bi = Z.testbit (nth (Z.to_nat (bi / 8)) data 0) (bi mod 8)
                                  :: bits_from (bi + 1))
      by (apply drop_bits_of_bytes; lia).
    destruct (is_data_channel ch (to_int x)); simpl.
    + rewrite Hd, data_bit_b2z by lia. set (b := Z.testbit _ _).
      rewrite app_nth2, Hx, Nat2Z.id, Nat.sub_diag by lia. simpl nth.
      rewrite insert_app_r_alt by lia.
      rewrite Nat.sub_diag. simpl.
      change (set_lsb p (Z.b2z b) :: post) with ([set_lsb p (Z.b2z b)] ++ post).
      rewrite app_assoc, IH by (rewrite ?length_app; simpl; lia).
      destruct (write_row ch _ post (bits_from (bi + 1))) as [r k].
      by rewrite <-app_assoc.
    + change (p :: post) with ([p] ++ post).
      rewrite app_assoc, IH by (rewrite ?length_app; simpl; lia).
      destruct (write_row ch _ post (bits_from bi)) as [r k].
      by rewrite <-app_assoc.
  - replace bi with total by lia. rewrite bits_from_total, write_row_nil.
    destruct (is_data_channel _ _); simpl; by rewrite Z.sub_0_r.
Qed.

Lemma embed_rows_refines width todo prev y bi :
  y = Z.of_nat (length prev) -> 0 <= bi <= total ->
  Forall (fun row => Z.of_nat (length row) = u64 (width * ch)) todo ->
  embed_rows data total width ch (length todo) y (prev ++ todo) bi =
  prev ++ write_rows ch todo (bits_from bi).
Proof.
  revert prev y bi. induction todo as [|row todo IH]; intros prev y bi Hy Hbi Hall; simpl; [done|].
  inversion_clear Hall as [|? ? Hrow Htodo].
  destruct (Z.ltb_spec bi total) as [Hlt|Hge].
  - rewrite app_nth2, Hy, Nat2Z.id, Nat.sub_diag by lia. simpl nth.
    rewrite <-Hrow, Nat2Z.id.
    pose proof (embed_row_refines row [] 0 bi eq_refl ltac:(lia)) as Hemb.
    simpl in Hemb. rewrite Hemb.
    pose proof (write_row_rest ch 0 row (bits_from bi)) as Hrest.
    destruct (write_row ch 0 row (bits_from bi)) as [r k]. simpl in *.
    rewrite insert_app_r_alt, Nat.sub_diag by lia. simpl.
    change (r :: todo) with ([r] ++ todo).
    rewrite app_assoc, IH; [|rewrite length_app; simpl; lia| |done].
    + rewrite <-app_assoc. simpl. do 3 f_equal.
      rewrite Hrest. unfold bits_from. rewrite drop_drop.
      replace (Z.to_nat _) with
        (length (bits_of_bytes data) - length (drop (Z.to_nat bi + length (row_lsbs ch 0 row))
           (bits_of_bytes data)))%nat
        by (rewrite length_drop, length_bits_of_bytes; lia).
      apply drop_suffix_length.
    + subst k. unfold bits_from. rewrite !length_drop, length_bits_of_bytes. lia.
  - replace bi with total by lia. by rewrite bits_from_total, write_row_nil, write_rows_nil.
Qed.
End embed.

(** ** The extraction loops read the carrier bits *)

Lemma nth_insert {A} (l : list A) i j x d :
  (i < length l)%nat -> nth j (<[i:=x]> l) d = if decide (i = j) then x else nth j l d.
Proof.
  intros Hi. rewrite !nth_lookup. case_decide as Hij.
  - subst. by rewrite list_lookup_insert_eq.
  - by rewrite list_lookup_insert_ne.
Qed.

Lemma or_bit_length d bi bit : length (or_bit d bi bit) = length d.
Proof. apply length_insert. Qed.

Lemma nth_bounded d k : bytes_ok d -> bounded 8 (nth k d 0).
Proof.
  intros Hd. rewrite nth_lookup. destruct (d !! k) as [z|] eqn:E; simpl.
  - by eapply Forall_lookup_1.
  - unfold bounded. lia.
Qed.

Lemma or_bit_bytes_ok d bi bit : bytes_ok d -> bytes_ok (or_bit d bi bit).
Proof.
  intros Hd. apply Forall_insert; [done|].
  apply bounded_lor; [lia|by apply nth_bounded|by apply wrap_bounded].
Qed.

(** Bit [m] of the byte written. *)
Lemma or_bit_testbit old b m k :
  0 <= m < 8 -> 0 <= k < 8 ->
  Z.testbit (Z.lor old (u8 (Z.shiftl (Z.b2z b) m))) k =
  Z.testbit old k || (bool_decide (k = m) && b).
Proof.
  intros Hm Hk. unfold u8. bits. f_equal.
  destruct (Z.ltb_spec k 8); [simpl|lia]. case_bool_decide as Hkm; simpl.
  - subst. rewrite Z.sub_diag. apply Z.b2z_bit0.
  - destruct (decide (k < m)); [by rewrite Z.testbit_neg_r by lia|].
    apply (testbit_bounded 1); [destruct b; unfold bounded, Z.b2z; lia|lia].
Qed.

Lemma or_bit_bits d bi b :
  0 <= bi < 8 * Z.of_nat (length d) ->
  bits_of_bytes d !! Z.to_nat bi = Some false ->
  bits_of_bytes (or_bit d bi (Z.b2z b)) = <[Z.to_nat bi := b]> (bits_of_bytes d).
Proof.
  intros Hbi Hold. apply list_eq_same_length with (n := (8 * length d)%nat).
  { by rewrite length_insert, length_bits_of_bytes. }
  { by rewrite length_bits_of_bytes, or_bit_length. }
  intros i x y Hi Hx Hy.
  replace i with (Z.to_nat (Z.of_nat i)) in Hx by lia.
  rewrite lookup_bits_of_bytes in Hx by (rewrite or_bit_length; lia).
  assert (Hdm : Z.of_nat i = bi <->
                Z.of_nat i / 8 = bi / 8 /\ Z.of_nat i mod 8 = bi mod 8) by zlia.
  assert (Hk : 0 <= Z.of_nat i mod 8 < 8 /\ 0 <= bi mod 8 < 8) by zlia.
  unfold or_bit in Hx. rewrite nth_insert in Hx by zlia.
  destruct (decide (Z.of_nat i = bi)) as [Heq|Hne].
  - rewrite Heq in Hx. rewrite decide_True in Hx by done.
    rewrite or_bit_testbit, bool_decide_true in Hx by (done || lia).
    rewrite lookup_bits_of_bytes in Hold by done. injection Hold as Hold.
    rewrite Hold in Hx. simpl in Hx.
    replace i with (Z.to_nat bi) in Hy by lia.
    rewrite list_lookup_insert_eq in Hy by (rewrite length_bits_of_bytes; lia).
    congruence.
  - rewrite list_lookup_insert_ne in Hy by lia.
    replace i with (Z.to_nat (Z.of_nat i)) in Hy by lia.
    rewrite lookup_bits_of_bytes in Hy by lia.
    case_decide as Hc; [|congruence].
    rewrite or_bit_testbit in Hx by lia.
    rewrite bool_decide_false in Hx by (intros ?; apply Hne, Hdm; split; [zlia|done]).
    simpl in Hx. rewrite orb_false_r, Hc in Hx. congruence.
Qed.

(** Truncating twice to the same length. *)
Lemma take_take_app {A} n (l k : list A) : take n (take n l ++ k) = take n (l ++ k).
Proof.
  destruct (Nat.le_ge_cases (length l) n).
  - by rewrite (take_ge l) by done.
  - rewrite !take_app_le by (rewrite ?length_take; lia). by rewrite take_idemp.
Qed.

Section extract.
Variables (total ch : Z) (len : nat).
Hypothesis Htotal : total = 8 * Z.of_nat len.

(** The buffer holds the bits read so far, then zeros. *)
Definition holds (d : list Z) (got : list bool) : Prop :=
  bytes_ok d /\ length d = len /\ (length got <= 8 * len)%nat /\
  bits_of_bytes d = got ++ replicate (8 * len - length got) false.

Lemma holds_step d got b :
  holds d got -> Z.of_nat (length got) < total ->
  holds (or_bit d (Z.of_nat (length got)) (Z.b2z b)) (got ++ [b]).
Proof.
  intros (Hok & Hlen & _ & Hbits) Hlt. repeat split.
  - by apply or_bit_bytes_ok.
  - by rewrite or_bit_length.
  - rewrite length_app. simpl. lia.
  - assert (Hr : replicate (8 * len - length got) false =
                 false :: replicate (8 * len - length (got ++ [b])) false).
    { rewrite length_app. simpl length.
      by replace (8 * len - length got)%nat with (S (8 * len - (length got + 1)))%nat by lia. }
    rewrite or_bit_bits by (rewrite ?Hbits, ?Hr, ?Nat2Z.id, ?lookup_app_r, ?Nat.sub_diag; try done; lia).
    rewrite Hbits, Nat2Z.id, Hr, insert_app_r_alt, Nat.sub_diag by lia. simpl.
    by rewrite <-app_assoc.
Qed.

Lemma holds_full d got : holds d got -> total <= Z.of_nat (length got) ->
  forall l, take (8 * len) (got ++ l) = got.
Proof. intros (_ & _ & Hle & _) Hge l. apply take_app_exact. lia. Qed.

Lemma extract_row_refines post pre x d got :
  x = Z.of_nat (length pre) -> holds d got ->
  exists d', extract_row total ch (pre ++ post) (length post) x d (Z.of_nat (length got))
    = (d', Z.of_nat (length (take (8 * len) (got ++ row_lsbs ch x post))))
    /\ holds d' (take (8 * len) (got ++ row_lsbs ch x post)).
Proof.
  revert pre x d got. induction post as [|p post IH]; intros pre x d got Hx Hd; simpl.
  { pose proof Hd as (_ & _ & Hle & _). rewrite app_nil_r, take_ge by done. eauto. }
  destruct (Z.ltb_spec (Z.of_nat (length got)) total) as [Hlt|Hge].
  - assert (Hcons : pre ++ p :: post = (pre ++ [p]) ++ post) by by rewrite <-app_assoc.
    assert (Hx' : x + 1 = Z.of_nat (length (pre ++ [p]))) by (rewrite length_app; simpl; lia).
    destruct (is_data_channel ch (to_int x)); simpl; rewrite Hcons.
    + assert (Hbit : u8 (Z.land (nth (Z.to_nat x) ((pre ++ [p]) ++ post) 0) 1)
                     = Z.b2z (Z.testbit p 0)).
      { pose proof (data_bit_b2z [p] 0 ltac:(lia)) as Hb. unfold data_bit in Hb.
        simpl nth in Hb. change (0 mod 8) with 0 in Hb. rewrite Z.shiftr_0_r in Hb. rewrite <-Hb. do 2 f_equal.
        rewrite <-Hcons, app_nth2, Hx, Nat2Z.id, Nat.sub_diag by lia. done. }
      rewrite Hbit.
      replace (Z.of_nat (length got) + 1) with (Z.of_nat (length (got ++ [Z.testbit p 0])))
        by (rewrite length_app; simpl; lia).
      destruct (IH (pre ++ [p]) (x + 1) _ _ Hx' (holds_step _ _ (Z.testbit p 0) Hd Hlt)) as (d' & He & Hd').
      rewrite <-(app_assoc got) in He, Hd'. exists d'. exact (conj He Hd').
    + eauto.
  - rewrite (holds_full d got) by (done || lia). eauto.
Qed.

Lemma extract_rows_refines width todo prev y d got :
  y = Z.of_nat (length prev) -> holds d got ->
  Forall (fun row => Z.of_nat (length row) = u64 (width * ch)) todo ->
  holds (extract_rows total width ch (prev ++ todo) (length todo) y d (Z.of_nat (length got)))
        (take (8 * len) (got ++ rows_lsbs ch todo)).
Proof.
  revert prev y d got. induction todo as [|row todo IH]; intros prev y d got Hy Hd Hall; simpl.
  { pose proof Hd as (_ & _ & Hle & _). by rewrite app_nil_r, take_ge. }
  inversion_clear Hall as [|? ? Hrow Htodo].
  destruct (Z.ltb_spec (Z.of_nat (length got)) total) as [Hlt|Hge].
  - rewrite app_nth2, Hy, Nat2Z.id, Nat.sub_diag by lia. simpl nth.
    rewrite <-Hrow, Nat2Z.id.
    destruct (extract_row_refines row [] 0 d got eq_refl Hd) as (d' & He & Hd').
    simpl in He. rewrite He.
    specialize (IH (prev ++ [row]) (Z.of_nat (length prev) + 1) d' _
                   ltac:(rewrite length_app; simpl; lia) Hd' Htodo).
    rewrite <-app_assoc in IH. simpl in IH. rewrite take_take_app, <-app_assoc in IH.
    exact IH.
  - by rewrite (holds_full d got) by (done || lia).
Qed.
End extract.

(** ** Whole images *)

Lemma to_int_small x : 0 <= x < 2 ^ 31 -> to_int x = x.
Proof. intros Hx. unfold to_int. rewrite Z.mod_small; lia. Qed.

Lemma image_wf_row_len img :
  image_wf img -> u64 (img_width img * img_channels img) = img_width img * img_channels img.
Proof.
  intros [Hw _ Hc _ _ _]. apply wrap_small. unfold bounded, PNG_USER_MAX in *. nia.
Qed.

Lemma image_wf_rows img :
  image_wf img ->
  Forall (fun row => Z.of_nat (length row) = u64 (img_width img * img_channels img)) (img_rows img)
  /\ Forall bytes_ok (img_rows img)
  /\ Z.to_nat (img_height img) = length (img_rows img).
Proof.
  intros Hwf. rewrite image_wf_row_len by done. destruct Hwf as [_ _ _ _ Hr Hrow].
  repeat split; [| |lia]; eapply Forall_impl; try exact Hrow; simpl; tauto.
Qed.

(** The size computation of [image_data_bit_capacity] does not wrap. *)
Lemma capacity_exact img :
  image_wf img ->
  image_data_bit_capacity img = img_width img * img_height img * 3.
Proof.
  intros [Hw Hh Hc _ _ _]. unfold image_data_bit_capacity, data_channels, PNG_USER_MAX in *.
  assert (Hdc : (if img_channels img =? 4 then 3 else img_channels img) = 3)
    by (destruct Hc as [->| ->]; done).
  rewrite Hdc. unfold u64. rewrite !(wrap_small 64); [done| |];
    rewrite ?wrap_small; unfold bounded; nia.
Qed.

Lemma capacity_64 img : image_wf img -> image_data_bit_capacity img < 2 ^ 64.
Proof.
  intros Hwf. rewrite capacity_exact by done. destruct Hwf as [Hw Hh _ _ _ _].
  unfold PNG_USER_MAX in *. nia.
Qed.

(** Every channel of an RGB row carries data. *)
Lemma row_lsbs_length_rgb x row : length (row_lsbs 3 x row) = length row.
Proof. revert x. induction row as [|p row IH]; intros x; simpl; auto. Qed.

(** Three of four channels of an RGBA row do. *)
Lemma rgba_data_channel x i :
  0 <= x -> x mod 4 = 0 -> 0 <= i < 4 -> x + i < 2 ^ 31 ->
  is_data_channel 4 (to_int (x + i)) = negb (i =? 3).
Proof.
  intros Hx Hm Hi Hb. rewrite to_int_small by lia. unfold is_data_channel.
  rewrite Z.rem_mod_nonneg by lia. simpl. f_equal.
  replace ((x + i) mod 4) with i by zlia. done.
Qed.

Lemma row_lsbs_length_rgba w x row :
  length row = (4 * w)%nat -> 0 <= x -> x mod 4 = 0 -> x + Z.of_nat (length row) <= 2 ^ 31 ->
  length (row_lsbs 4 x row) = (3 * w)%nat.
Proof.
  revert x row. induction w as [|w IH]; intros x row Hlen Hx Hm Hb; [by destruct row|].
  destruct row as [|a [|b [|c [|d row]]]]; try (simpl in Hlen; lia).
  simpl length in Hlen, Hb. cbn [row_lsbs].
  replace (x + 1 + 1) with (x + 2) by lia. replace (x + 2 + 1) with (x + 3) by lia.
  rewrite <-(Z.add_0_r x) at 1. rewrite !rgba_data_channel by lia.
  simpl. rewrite IH by zlia. lia.
Qed.

Lemma row_lsbs_length ch w row :
  ch = 3 \/ ch = 4 -> Z.of_nat (length row) = w * ch -> 0 <= w -> w * ch <= 2 ^ 31 ->
  Z.of_nat (length (row_lsbs ch 0 row)) = 3 * w.
Proof.
  intros [->| ->] Hlen Hw Hb.
  - rewrite row_lsbs_length_rgb. lia.
  - rewrite (row_lsbs_length_rgba (Z.to_nat w)) by (try done; lia). lia.
Qed.

Lemma rows_lsbs_length img :
  image_wf img ->
  Z.of_nat (length (rows_lsbs (img_channels img) (img_rows img))) = image_data_bit_capacity img.
Proof.
  intros Hwf. rewrite capacity_exact by done. destruct Hwf as [Hw _ Hc _ Hr Hrow].
  rewrite <-Hr. clear Hr. unfold rows_lsbs, PNG_USER_MAX in *.
  induction Hrow as [|row rows [Hl _] _ IH]; [simpl; lia|].
  rewrite bind_cons, length_app, Nat2Z.inj_add, IH.
  rewrite (row_lsbs_length _ (img_width img)) by (done || nia). simpl length. nia.
Qed.

Lemma embed_bits_rows img data :
  image_wf img -> 8 * Z.of_nat (length data) < 2 ^ 64 ->
  img_rows (embed_bits img data (Z.of_nat (length data))) =
  write_rows (img_channels img) (img_rows img) (bits_of_bytes data).
Proof.
  intros Hwf Hlen. destruct (image_wf_rows img Hwf) as (Hl & _ & Hh). simpl.
  rewrite Hh. unfold u64. rewrite (wrap_small 64) by (unfold bounded; lia).
  pose proof (embed_rows_refines data (Z.of_nat (length data) * 8) (img_channels img)
    ltac:(lia) (img_width img) (img_rows img) [] 0 0 eq_refl ltac:(lia) Hl) as H.
  simpl app in H. rewrite H. done.
Qed.

Lemma extract_bits_spec img len :
  image_wf img -> 0 <= len -> 8 * len < 2 ^ 64 ->
  let lsbs := rows_lsbs (img_channels img) (img_rows img) in
  let got := take (8 * Z.to_nat len) lsbs in
  bytes_ok (extract_bits img len) /\
  Z.of_nat (length (extract_bits img len)) = len /\
  bits_of_bytes (extract_bits img len) =
    got ++ replicate (8 * Z.to_nat len - length got) false.
Proof.
  intros Hwf H0 Hlen. destruct (image_wf_rows img Hwf) as (Hl & _ & Hh). simpl.
  unfold extract_bits. rewrite Hh.
  assert (Hu : u64 (len * 8) = len * 8) by (apply wrap_small; unfold bounded; lia).
  rewrite Hu.
  assert (Hz : holds (Z.to_nat len) (replicate (Z.to_nat len) 0) []).
  { repeat split; [|apply length_replicate|simpl; lia|].
    - apply Forall_replicate. unfold bounded. lia.
    - rewrite bits_of_bytes_zeros. simpl. by rewrite Nat.sub_0_r. }
  pose proof (extract_rows_refines (len * 8) (img_channels img) (Z.to_nat len)
    ltac:(lia) (img_width img) (img_rows img) [] 0 _ [] eq_refl Hz Hl) as (Hok & Hln & _ & Hb).
  simpl app in Hok, Hln, Hb. repeat split; [exact Hok| |exact Hb].
  change (Z.of_nat (length [])) with 0 in Hln. rewrite Hln. lia.
Qed.

(** Reading [n] bytes from an image whose carriers start with [data]. *)
Lemma extract_bits_prefix img data n :
  image_wf img -> bytes_ok data ->
  0 <= n <= Z.of_nat (length data) -> 8 * n < 2 ^ 64 ->
  take (8 * length data) (rows_lsbs (img_channels img) (img_rows img)) = bits_of_bytes data ->
  extract_bits img n = take (Z.to_nat n) data.
Proof.
  intros Hwf Hok Hn Hlen Hpre.
  destruct (extract_bits_spec img n Hwf ltac:(lia) Hlen) as (Hok' & Hl & Hb).
  set (lsbs := rows_lsbs _ _) in *.
  assert (Hgot : take (8 * Z.to_nat n) lsbs = bits_of_bytes (take (Z.to_nat n) data)).
  { rewrite <-take_bits_of_bytes, <-Hpre, take_take. f_equal. lia. }
  apply bits_of_bytes_inj; [done|by apply Forall_take|].
  rewrite Hb, Hgot, length_bits_of_bytes, length_take.
  replace (8 * Z.to_nat n - _)%nat with 0%nat by lia. by rewrite app_nil_r.
Qed.

(** Pixels after a reference write. *)
Lemma write_row_lookup ch x row bs i p :
  bytes_ok row -> row !! i = Some p ->
  exists p', fst (write_row ch x row bs) !! i = Some p' /\ bounded 8 p' /\
    Z.shiftr p' 1 = Z.shiftr p 1 /\
    (is_data_channel ch (to_int (x + Z.of_nat i)) = false -> p' = p).
Proof.
  intros Hrow Hi. assert (Hp : bounded 8 p) by by eapply Forall_lookup_1 in Hi.
  revert x bs i Hi. induction Hrow as [|q row Hq Hrow IH]; intros x [|b bs] i Hi; try done.
  { rewrite write_row_nil. by exists p. }
  cbn [write_row]. destruct i as [|i]; simpl in Hi.
  - simplify_eq. rewrite Z.add_0_r. destruct (is_data_channel ch (to_int x)) eqn:E.
    + destruct (write_row ch (x + 1) row bs). exists (set_lsb p (Z.b2z b)).
      repeat split; try apply set_lsb_bounded; try by apply set_lsb_high. done.
    + destruct (write_row ch (x + 1) row (b :: bs)). by exists p.
  - replace (x + Z.of_nat (S i)) with (x + 1 + Z.of_nat i) by lia.
    destruct (is_data_channel ch (to_int x)) eqn:E.
    + specialize (IH (x + 1) bs i Hi). by destruct (write_row ch (x + 1) row bs).
    + specialize (IH (x + 1) (b :: bs) i Hi). by destruct (write_row ch (x + 1) row (b :: bs)).
Qed.

Lemma write_rows_lookup ch rows bs y row :
  rows !! y = Some row ->
  exists bs', write_rows ch rows bs !! y = Some (fst (write_row ch 0 row bs')).
Proof.
  revert bs y. induction rows as [|r rows IH]; intros bs [|y] Hy; simpl in *; simplify_eq.
  - exists bs. by destruct (write_row ch 0 row bs).
  - destruct (write_row ch 0 r bs) as [r' bs']. eauto.
Qed.

Lemma write_rows_length ch rows bs : length (write_rows ch rows bs) = length rows.
Proof.
  revert bs. induction rows as [|r rows IH]; intros bs; simpl; [done|].
  destruct (write_row ch 0 r bs). simpl. by rewrite IH.
Qed.

Lemma embed_bits_wf img data :
  image_wf img -> 8 * Z.of_nat (length data) < 2 ^ 64 ->
  image_wf (embed_bits img data (Z.of_nat (length data))).
Proof.
  intros Hwf Hlen. pose proof (embed_bits_rows img data Hwf Hlen) as Hrows.
  destruct Hwf as [Hw Hh Hc Hd Hr Hrow]. constructor; try done; rewrite Hrows.
  - by rewrite write_rows_length.
  - apply Forall_lookup_2. intros y row' Hy.
    assert (is_Some (img_rows img !! y)) as [row Hyr].
    { apply lookup_lt_is_Some_2. rewrite <-(write_rows_length (img_channels img) _ (bits_of_bytes data)).
      by eapply lookup_lt_Some. }
    destruct (write_rows_lookup (img_channels img) _ (bits_of_bytes data) _ _ Hyr) as [bs Hbs].
    rewrite Hbs in Hy. simplify_eq.
    destruct (Forall_lookup_1 _ _ _ _ Hrow Hyr) as [Hl Hok]. simpl. split.
    + by rewrite write_row_length.
    + apply Forall_lookup_2. intros i q Hq.
      assert (is_Some (row !! i)) as [p Hp].
      { apply lookup_lt_is_Some_2. rewrite <-(write_row_length (img_channels img) 0 row bs).
        by eapply lookup_lt_Some. }
      destruct (write_row_lookup (img_channels img) 0 row bs i p Hok Hp) as (p' & Hp' & Hb & _).
      congruence.
Qed.

(** Reading back what was embedded, whatever else of the image record
    changed: only the dimensions, the channels and the rows matter. *)
Lemma extract_embedded img img' data :
  image_wf img -> image_wf img' -> bytes_ok data ->
  8 * Z.of_nat (length data) <= image_data_bit_capacity img ->
  img_channels img' = img_channels img ->
  img_rows img' = img_rows (embed_bits img data (Z.of_nat (length data))) ->
  extract_bits img' (Z.of_nat (length data)) = data.
Proof.
  intros Hwf Hwf' Hok Hcap Hch Hrows.
  assert (H64 : 8 * Z.of_nat (length data) < 2 ^ 64) by (pose proof (capacity_64 img Hwf); lia).
  assert (Hbits : (length (bits_of_bytes data) <=
                   length (rows_lsbs (img_channels img) (img_rows img)))%nat).
  { pose proof (rows_lsbs_length img Hwf). rewrite length_bits_of_bytes. lia. }
  rewrite (extract_bits_prefix img' data); try done; try lia; [apply take_ge; lia|].
  destruct (image_wf_rows img Hwf) as (_ & Hrok & _).
  rewrite Hch, Hrows, embed_bits_rows, write_rows_spec by done.
  rewrite (take_ge (bits_of_bytes data)) by done.
  apply take_app_exact. by rewrite length_bits_of_bytes.
Qed.

(** The bytes of an image after embedding. *)
Lemma embed_bits_pixel img data y row i p :
  image_wf img -> 8 * Z.of_nat (length data) < 2 ^ 64 ->
  img_rows img !! y = Some row -> row !! i = Some p ->
  exists row' p', img_rows (embed_bits img data (Z.of_nat (length data))) !! y = Some row' /\
    row' !! i = Some p' /\ bounded 8 p' /\ Z.shiftr p' 1 = Z.shiftr p 1 /\
    (img_channels img = 4 -> Z.of_nat i mod 4 = 3 -> p' = p).
Proof.
  intros Hwf Hlen Hy Hi. rewrite embed_bits_rows by done.
  destruct (write_rows_lookup (img_channels img) _ (bits_of_bytes data) _ _ Hy) as [bs Hbs].
  destruct (Forall_lookup_1 _ _ _ _ (wf_row _ Hwf) Hy) as [Hl Hok].
  destruct (write_row_lookup (img_channels img) 0 row bs i p Hok Hi) as (p' & Hp' & Hb & Hs & Ha).
  exists (fst (write_row (img_channels img) 0 row bs)), p'. split_and!; try done.
  intros H4 Hi3. apply Ha. rewrite H4. apply lookup_lt_Some in Hi.
  destruct Hwf as [Hw _ _ _ _ _]. rewrite H4 in Hl. unfold PNG_USER_MAX in *.
  unfold is_data_channel. rewrite to_int_small, Z.rem_mod_nonneg by lia.
  by rewrite Z.add_0_l, Hi3.
Qed.

(** ** The properties *)

(** The capacity is what it says: none of its computations wraps, it is
    three bits per pixel, and it counts the bytes of the image that are not
    alpha. *)
Theorem capacity_counts_carriers img :
  image_wf img ->
  image_data_bit_capacity img = 3 * (img_width img * img_height img) /\
  image_data_bit_capacity img =
    Z.of_nat (length (rows_lsbs (img_channels img) (img_rows img))) /\
  image_data_bit_capacity img < 2 ^ 64.
Proof.
  intros Hwf. split_and!; [rewrite capacity_exact by done; lia| |by apply capacity_64].
  by rewrite rows_lsbs_length.
Qed.

Definition demo_rgba : png_image_buf :=
  PngImage 3 2 8 6 4 (replicate 2 [1; 2; 3; 255; 4; 5; 6; 255; 7; 8; 9; 255]).

Lemma demo_rgba_wf : image_wf demo_rgba.
Proof.
  constructor; cbn; unfold PNG_USER_MAX; try lia; try (by right).
  repeat constructor; try (cbn; lia); eapply bool_decide_unpack; vm_compute; exact I.
Defined.

Lemma capacity_counts_carriers_witness :
  image_data_bit_capacity demo_rgba = 18 /\
  image_data_bit_capacity demo_rgba = Z.of_nat (length (rows_lsbs 4 (img_rows demo_rgba))) /\
  image_data_bit_capacity demo_rgba < 2 ^ 64.
Proof. apply (capacity_counts_carriers demo_rgba demo_rgba_wf). Defined.

(** The bytes embedded last are the bytes read back, whatever an earlier
    message left on the carriers. *)
Theorem embed_extract_roundtrip img old data :
  image_wf img -> bytes_ok data ->
  8 * Z.of_nat (length old) <= image_data_bit_capacity img ->
  8 * Z.of_nat (length data) <= image_data_bit_capacity img ->
  let img' := embed_bits (embed_bits img old (Z.of_nat (length old))) data (Z.of_nat (length data)) in
  image_wf img' /\ extract_bits img' (Z.of_nat (length data)) = data.
Proof.
  intros Hwf Hok Hold Hdata img'. pose proof (capacity_64 img Hwf) as H64.
  assert (Hwf1 : image_wf (embed_bits img old (Z.of_nat (length old)))) by (apply embed_bits_wf; [done|lia]).
  assert (Hwf2 : image_wf img') by (apply embed_bits_wf; [done|lia]).
  split; [done|]. by apply (extract_embedded (embed_bits img old (Z.of_nat (length old)))).
Qed.

Lemma embed_extract_roundtrip_witness :
  let img' := embed_bits (embed_bits demo_rgba [255; 255] 2) [83; 1] 2 in
  image_wf img' /\ extract_bits img' 2 = [83; 1].
Proof.
  apply (embed_extract_roundtrip demo_rgba [255; 255] [83; 1]).
  - exact demo_rgba_wf.
  - eapply bool_decide_unpack. vm_compute. exact I.
  - vm_compute. discriminate.
  - vm_compute. discriminate.
Defined.
