(* ===== verification/World.v ===== *)
(** * The world of the server's file and image code

    State that the C functions share through the C library: the files, the
    heap blocks and [FILE] handles that are open, the outcome of the
    allocations to come, and the CRC globals.  A function of the program that
    uses them is a computation [M A]; its early returns are the branches of
    the code.  libpng is the interface [LibPng], whose laws [LibPngLaws] are
    the documented behaviour the program relies on. *)

From S2P Require Export CString Crc32 Lsb.
#[local] Open Scope Z_scope.

(** ** State *)

Record world := World {
  w_fs : gmap string (list Z);    (* contents of the regular files *)
  w_denied : gset string;         (* paths [fopen] refuses *)
  w_live : Z;                     (* heap blocks allocated and not freed *)
  w_files : Z;                    (* open [FILE] handles *)
  w_mallocs : list bool;          (* outcome of the next allocations; they
                                     succeed when the list is exhausted *)
  w_io : list bool;               (* outcome of the next fallible stdio calls,
                                     likewise *)
  w_kept : list nat;              (* how much of a stream the next flushes that
                                     fail leave in the file *)
  w_crc : crc_global              (* the globals of stego.c *)
}.

Definition M (A : Type) : Type := world -> A * world.

#[export] Instance M_ret : MRet M := fun A a w => (a, w).
#[export] Instance M_bind : MBind M := fun A B f m w => let (a, w) := m w in f a w.

Definition set_fs (w : world) (fs : gmap string (list Z)) : world :=
  World fs (w_denied w) (w_live w) (w_files w) (w_mallocs w) (w_io w) (w_kept w) (w_crc w).
Definition set_live (w : world) (n : Z) : world :=
  World (w_fs w) (w_denied w) n (w_files w) (w_mallocs w) (w_io w) (w_kept w) (w_crc w).
Definition set_files (w : world) (n : Z) : world :=
  World (w_fs w) (w_denied w) (w_live w) n (w_mallocs w) (w_io w) (w_kept w) (w_crc w).
Definition set_mallocs (w : world) (l : list bool) : world :=
  World (w_fs w) (w_denied w) (w_live w) (w_files w) l (w_io w) (w_kept w) (w_crc w).
Definition set_crc (w : world) (g : crc_global) : world :=
  World (w_fs w) (w_denied w) (w_live w) (w_files w) (w_mallocs w) (w_io w) (w_kept w) g.
Definition set_io (w : world) (l : list bool) : world :=
  World (w_fs w) (w_denied w) (w_live w) (w_files w) (w_mallocs w) l (w_kept w) (w_crc w).
Definition set_kept (w : world) (l : list nat) : world :=
  World (w_fs w) (w_denied w) (w_live w) (w_files w) (w_mallocs w) (w_io w) l (w_crc w).

(** ** The C library *)

(** [malloc], [calloc], [realloc] of a new block and libpng's struct
    constructors: whether the pointer returned is not [NULL]. *)
Definition malloc : M bool := fun w =>
  match w_mallocs w with
  | [] => (true, set_live w (w_live w + 1))
  | true :: l => (true, set_live (set_mallocs w l) (w_live w + 1))
  | false :: l => (false, set_mallocs w l)
  end.

(** [realloc(p, n)] of a live block: the number of blocks does not change. *)
Definition realloc : M bool := fun w =>
  match w_mallocs w with
  | [] => (true, w)
  | ok :: l => (ok, set_mallocs w l)
  end.

(** [free] of [n] live blocks. *)
Definition free (n : Z) : M unit := fun w => (tt, set_live w (w_live w - n)).

(** [fopen(path, "rb")]: the contents read through the handle. *)
Definition fopen_rb (path : string) : M (option (list Z)) := fun w =>
  if decide (path ∈ w_denied w) then (None, w) else
  match w_fs w !! path with
  | Some data => (Some data, set_files w (w_files w + 1))
  | None => (None, w)
  end.

(** [fopen(path, "wb")]: the file is created or truncated. *)
Definition fopen_wb (path : string) : M bool := fun w =>
  if decide (path ∈ w_denied w) then (false, w)
  else (true, set_files (set_fs w (<[path := []]> (w_fs w))) (w_files w + 1)).

(** What was written through the handle of [path]. *)
Definition fwrite_all (path : string) (data : list Z) : M unit := fun w =>
  (tt, set_fs w (<[path := data]> (w_fs w))).

Definition fclose : M unit := fun w => (tt, set_files w (w_files w - 1)).

Definition unlink (path : string) : M unit := fun w =>
  (tt, set_fs w (delete path (w_fs w))).

(** A stdio call that may fail ([fseek], [ftell], [fread] of the bytes that
    are there, [fwrite], a checked [fclose]): whether it succeeded. *)
Definition stdio : M bool := fun w =>
  match w_io w with
  | [] => (true, w)
  | ok :: l => (ok, set_io w l)
  end.

(** The flush by the [fclose] of a stream to which [data] was written: whether
    it succeeded.  When it fails only a beginning of the data is in the file. *)
Definition flush (path : string) (data : list Z) : M bool := fun w =>
  match w_io w with
  | [] => (true, set_fs w (<[path := data]> (w_fs w)))
  | ok :: l => (ok, set_kept (set_io (set_fs w (<[path := if ok then data else take (hd 0%nat (w_kept w)) data]> (w_fs w))) l)
                      (tl (w_kept w)))
  end.

(** What a flush may leave. *)
Definition flushed (w : world) (data kept : list Z) : Prop :=
  kept = data \/ w_io w <> [] /\ exists n, kept = take n data.

(** The checksum of stego.c, with its lazily built table. *)
Definition crc32_of (data : list Z) : M Z := fun w =>
  let (c, g) := stego_crc32 (w_crc w) data in (c, set_crc w g).

(** ** libpng *)

Definition PNG_COLOR_TYPE_GRAY : Z := 0.
Definition PNG_COLOR_TYPE_RGB : Z := 2.
Definition PNG_COLOR_TYPE_PALETTE : Z := 3.
Definition PNG_COLOR_TYPE_GRAY_ALPHA : Z := 4.
Definition PNG_COLOR_TYPE_RGB_ALPHA : Z := 6.

(** What [png_read_info] learns from the header chunks, and what it reports
    after [png_read_update_info]. *)
Record png_info := PngInfo {
  pi_width : Z;
  pi_height : Z;
  pi_bit_depth : Z;
  pi_color_type : Z;
  pi_channels : Z;
  pi_tRNS : bool
}.

(** The input transformations a reader asks for. *)
Inductive png_transform :=
  | png_set_palette_to_rgb
  | png_set_expand_gray_1_2_4_to_8
  | png_set_tRNS_to_alpha
  | png_set_strip_16
  | png_set_gray_to_rgb.

(** libpng as the program calls it.  [None] (or [false]) is an error
    reported with [longjmp]. *)
Class LibPng := {
  png_sig_cmp : list Z -> bool;   (* true: not the signature *)
  png_read_info : list Z -> option png_info;
  png_read_update_info : list Z -> list png_transform -> option png_info;
  png_read_image : list Z -> list png_transform -> option (list (list Z));
  png_read_end : list Z -> bool;
  png_write_stream : png_info -> list (list Z) -> option (list Z)
}.

Class LibPngLaws `(L : LibPng) := {
  (** 8-bit RGB and RGBA images are delivered as full rows of bytes, within
      the default user limits. *)
  png_read_rows data tr i rows :
    png_read_update_info data tr = Some i ->
    png_read_image data tr = Some rows ->
    pi_bit_depth i = 8 -> pi_channels i = 3 \/ pi_channels i = 4 ->
    0 < pi_width i <= PNG_USER_MAX /\ 0 < pi_height i <= PNG_USER_MAX /\
    Z.of_nat (length rows) = pi_height i /\
    Forall (fun row => Z.of_nat (length row) = pi_width i * pi_channels i
                       /\ bytes_ok row) rows;
  (** Transformations do not change the dimensions. *)
  png_update_size data tr i j :
    png_read_info data = Some i -> png_read_update_info data tr = Some j ->
    pi_width j = pi_width i /\ pi_height j = pi_height i;
  (** PNG is lossless: a stream written from 8-bit RGB or RGBA rows reads
      back as the same header and the same rows. *)
  png_write_read i rows data :
    png_write_stream i rows = Some data ->
    pi_bit_depth i = 8 -> pi_tRNS i = false ->
    (pi_channels i = 3 /\ pi_color_type i = PNG_COLOR_TYPE_RGB) \/
    (pi_channels i = 4 /\ pi_color_type i = PNG_COLOR_TYPE_RGB_ALPHA) ->
    0 < pi_width i <= PNG_USER_MAX -> 0 < pi_height i <= PNG_USER_MAX ->
    Z.of_nat (length rows) = pi_height i ->
    Forall (fun row => Z.of_nat (length row) = pi_width i * pi_channels i
                       /\ bytes_ok row) rows ->
    8 <= Z.of_nat (length data) /\ png_sig_cmp (take 8 data) = false /\
    png_read_info data = Some i /\ png_read_update_info data [] = Some i /\
    png_read_image data [] = Some rows /\ png_read_end data = true
}.

(** ** A program logic for [M]

    [wp m Q w]: running [m] from [w] ends in a result and a world that satisfy
    [Q].  [step fs dl df w w'] relates two worlds: the files became [fs], the
    heap grew by [dl] blocks and [df] more handles are open; oracles that
    never fail stay so, and the CRC globals stay consistent. *)

Definition wp {A} (m : M A) (Q : A -> world -> Prop) (w : world) : Prop :=
  let (a, w') := m w in Q a w'.

Record step (fs : gmap string (list Z)) (dl df : Z) (w w' : world) : Prop := Step {
  step_fs : w_fs w' = fs;
  step_live : w_live w' = w_live w + dl;
  step_files : w_files w' = w_files w + df;
  step_denied : w_denied w' = w_denied w;
  step_mallocs : w_mallocs w = [] -> w_mallocs w' = [];
  step_io : w_io w = [] -> w_io w' = [];
  step_crc : crc_inv (w_crc w) -> crc_inv (w_crc w')
}.

Lemma step_refl w : step (w_fs w) 0 0 w w.
Proof. constructor; auto; lia. Qed.

Lemma step_trans fs1 fs2 a b c d w1 w2 w3 :
  step fs1 a b w1 w2 -> step fs2 c d w2 w3 -> step fs2 (a + c) (b + d) w1 w3.
Proof.
  intros [] []. constructor; auto; try congruence; lia.
Qed.

Section wp_rules.
Context {A B : Type}.

Lemma wp_ret (a : A) (Q : A -> world -> Prop) w : Q a w -> wp (mret a) Q w.
Proof. done. Qed.

Lemma wp_bind (m : M A) (f : A -> M B) (Q : B -> world -> Prop) w :
  wp m (fun a => wp (f a) Q) w -> wp (m ≫= f) Q w.
Proof. unfold wp, mbind, M_bind. by destruct (m w). Qed.

Lemma wp_conseq (m : M A) (P Q : A -> world -> Prop) w :
  wp m P w -> (forall a w', P a w' -> Q a w') -> wp m Q w.
Proof. unfold wp. destruct (m w). auto. Qed.

(** A total-correctness statement and a run of the same computation. *)
Lemma wp_run (m : M A) (Q : A -> world -> Prop) w a w' :
  wp m Q w -> m w = (a, w') -> Q a w'.
Proof. unfold wp. intros H E. by rewrite E in H. Qed.
End wp_rules.

Ltac solve_step := constructor; simpl; auto; try discriminate; lia.

Section wp_prims.
Implicit Types (w : world) (path : string).

Lemma wp_malloc w (Q : bool -> world -> Prop) :
  (forall (b : bool) w', step (w_fs w) (if b then 1 else 0) 0 w w' ->
     (w_mallocs w = [] -> b = true) -> Q b w') ->
  wp malloc Q w.
Proof.
  intros HQ. unfold wp, malloc. destruct (w_mallocs w) as [|[] l] eqn:E;
    (apply HQ; [constructor; simpl; auto; rewrite ?E; try done; lia|done]).
Qed.

Lemma wp_realloc w (Q : bool -> world -> Prop) :
  (forall (b : bool) w', step (w_fs w) 0 0 w w' -> (w_mallocs w = [] -> b = true) -> Q b w') ->
  wp realloc Q w.
Proof.
  intros HQ. unfold wp, realloc. destruct (w_mallocs w) as [|b l] eqn:E;
    (apply HQ; [constructor; simpl; auto; rewrite ?E; try done; lia|done]).
Qed.

Lemma wp_stdio w (Q : bool -> world -> Prop) :
  (forall (b : bool) w', step (w_fs w) 0 0 w w' -> (w_io w = [] -> b = true) -> Q b w') ->
  wp stdio Q w.
Proof.
  intros HQ. unfold wp, stdio. destruct (w_io w) as [|b l] eqn:E;
    (apply HQ; [constructor; simpl; auto; rewrite ?E; try done; lia|done]).
Qed.

Lemma wp_flush path data w (Q : bool -> world -> Prop) :
  (forall (b : bool) kept w', step (<[path := kept]> (w_fs w)) 0 0 w w' -> flushed w data kept ->
     (b = true -> kept = data) -> (w_io w = [] -> b = true) -> Q b w') ->
  wp (flush path data) Q w.
Proof.
  intros HQ. unfold wp, flush. destruct (w_io w) as [|b l] eqn:E.
  - apply (HQ true data); [solve_step|by left|done|done].
  - assert (Hs : forall kept w', w' = set_kept (set_io (set_fs w (<[path := kept]> (w_fs w))) l) (tl (w_kept w)) ->
      step (<[path := kept]> (w_fs w)) 0 0 w w').
    { intros kept w' ->. constructor; simpl; auto; rewrite ?E; try done; lia. }
    destruct b.
    + apply (HQ true data); [by apply Hs|by left|done|done].
    + eapply (HQ false); [by apply Hs| |done|done]. right. split; [by rewrite E|by eexists].
Qed.

Lemma wp_free n w (Q : unit -> world -> Prop) :
  (forall w', step (w_fs w) (- n) 0 w w' -> Q tt w') -> wp (free n) Q w.
Proof. intros HQ. apply HQ. solve_step. Qed.

Lemma wp_fclose w (Q : unit -> world -> Prop) :
  (forall w', step (w_fs w) 0 (- 1) w w' -> Q tt w') -> wp fclose Q w.
Proof. intros HQ. apply HQ. solve_step. Qed.

Lemma wp_fopen_rb path w (Q : option (list Z) -> world -> Prop) :
  (forall data w', w_fs w !! path = Some data -> path ∉ w_denied w ->
     step (w_fs w) 0 1 w w' -> Q (Some data) w') ->
  (path ∈ w_denied w \/ w_fs w !! path = None -> Q None w) ->
  wp (fopen_rb path) Q w.
Proof.
  intros HS HN. unfold wp, fopen_rb. case_decide; [auto|].
  destruct (w_fs w !! path) eqn:E; [|auto]. apply HS; [done..|]. solve_step.
Qed.

Lemma wp_fopen_wb path w (Q : bool -> world -> Prop) :
  (forall w', path ∉ w_denied w -> step (<[path := []]> (w_fs w)) 0 1 w w' -> Q true w') ->
  (path ∈ w_denied w -> Q false w) ->
  wp (fopen_wb path) Q w.
Proof.
  intros HT HF. unfold wp, fopen_wb. case_decide; [auto|]. apply HT; [done|]. solve_step.
Qed.

Lemma wp_fwrite_all path data w (Q : unit -> world -> Prop) :
  (forall w', step (<[path := data]> (w_fs w)) 0 0 w w' -> Q tt w') ->
  wp (fwrite_all path data) Q w.
Proof. intros HQ. apply HQ. solve_step. Qed.

Lemma wp_unlink path w (Q : unit -> world -> Prop) :
  (forall w', step (delete path (w_fs w)) 0 0 w w' -> Q tt w') -> wp (unlink path) Q w.
Proof. intros HQ. apply HQ. solve_step. Qed.

Lemma wp_crc32_of data w (Q : Z -> world -> Prop) :
  (forall c w', step (w_fs w) 0 0 w w' ->
     (crc_inv (w_crc w) -> bytes_ok data -> c = crc32_ref data) -> Q c w') ->
  wp (crc32_of data) Q w.
Proof.
  intros HQ. unfold wp, crc32_of. destruct (stego_crc32 (w_crc w) data) as [c g] eqn:E.
  apply HQ.
  - constructor; simpl; auto; try lia. intros Hg. unfold stego_crc32 in E.
    simplify_eq. destruct (g_crc32_table_ready (w_crc w)) eqn:Er; simpl; [done|]. by intros _.
  - intros Hg Hd. pose proof (stego_crc32_spec _ _ Hg Hd) as [H _]. by rewrite E in H.
Qed.
End wp_prims.

(** Keep only the facts about worlds in the context. *)
Ltac keep_steps :=
  repeat match goal with
    | H : ?P |- _ =>
        lazymatch type of P with
        | Prop =>
            lazymatch P with
            | step _ _ _ _ _ => fail
            | _ -> false = true => fail
            | w_mallocs _ = [] => fail
            | w_io _ = [] => fail
            | _ => clear H
            end
        end
    end.

Ltac split_steps := repeat match goal with H : step _ _ _ _ _ |- _ => destruct H end.

(** Compose the [step] hypotheses of the context into the one of the goal. *)
Ltac steps :=
  first
    [ keep_steps; split_steps; constructor; simpl in *; solve [auto 30 | congruence | lia]
    | split_steps; constructor; simpl in *; solve [auto 30 | congruence | lia] ].

(** A path on which an allocation failed although none may fail. *)
Ltac no_malloc_failure :=
  exfalso; keep_steps; split_steps;
  match goal with H : _ -> false = true |- _ => discriminate H; auto 30 end.

(** One symbolic-execution step, chosen by the head of the computation. *)
Ltac wp_step :=
  lazymatch goal with
  | |- wp (mbind _ _) _ _ => apply wp_bind
  | |- wp (mret _) _ _ => apply wp_ret
  | |- wp malloc _ _ => apply wp_malloc; intros ? ? ? ?
  | |- wp realloc _ _ => apply wp_realloc; intros ? ? ? ?
  | |- wp stdio _ _ => apply wp_stdio; intros ? ? ? ?
  | |- wp (flush _ _) _ _ => apply wp_flush; intros ? ? ? ? ? ? ?
  | |- wp (free _) _ _ => apply wp_free; intros ? ?
  | |- wp fclose _ _ => apply wp_fclose; intros ? ?
  | |- wp (fopen_rb _) _ _ => apply wp_fopen_rb; [intros ? ? ? ? ?|intros ?]
  | |- wp (fopen_wb _) _ _ => apply wp_fopen_wb; [intros ? ? ?|intros ?]
  | |- wp (fwrite_all _ _) _ _ => apply wp_fwrite_all; intros ? ?
  | |- wp (unlink _) _ _ => apply wp_unlink; intros ? ?
  | |- wp (crc32_of _) _ _ => apply wp_crc32_of; intros ? ? ? ?
  end;
  cbv beta iota zeta.

Ltac wp_case :=
  cbv beta iota zeta;
  match goal with
  | |- wp (if negb ?b then _ else _) _ _ =>
      first [is_var b; destruct b | destruct b eqn:?]; cbn [negb]
  | |- wp (if ?b then _ else _) _ _ => first [is_var b; destruct b | destruct b eqn:?]
  | |- wp (match ?x with _ => _ end) _ _ => destruct x eqn:?
  end.

(** Run to the end; a test [if negb b] continues in its [b = true] case first. *)
Ltac wp_auto := repeat (wp_step || wp_case); simpl.
