(* ===== verification/Stego.v ===== *)
(** * The steganography module (src/src/server/stego.c, include/stego.h)

    Container format, PNG load and save around libpng, capacity, encoding and
    decoding, as computations over the [world]. *)

From S2P Require Export World.
#[local] Open Scope Z_scope.

(** ** Types of include/stego.h *)

Inductive stego_payload_type := STEGO_PAYLOAD_TEXT | STEGO_PAYLOAD_FILE.

#[export] Instance stego_payload_type_eq_dec : EqDecision stego_payload_type.
Proof. solve_decision. Defined.

Definition payload_type_code (t : stego_payload_type) : Z :=
  match t with STEGO_PAYLOAD_TEXT => 0 | STEGO_PAYLOAD_FILE => 1 end.

Inductive stego_status :=
  | STEGO_OK | STEGO_ERR_OPEN | STEGO_ERR_NOT_PNG | STEGO_ERR_UNSUPPORTED
  | STEGO_ERR_MEMORY | STEGO_ERR_CAPACITY | STEGO_ERR_LIBPNG | STEGO_ERR_MAGIC
  | STEGO_ERR_CRC | STEGO_ERR_IO | STEGO_ERR_ARG.

#[export] Instance stego_status_eq_dec : EqDecision stego_status.
Proof. solve_decision. Defined.

Definition stego_strerror (status : stego_status) : string :=
  match status with
  | STEGO_OK => "ok"
  | STEGO_ERR_OPEN => "cannot open file"
  | STEGO_ERR_NOT_PNG => "not a valid PNG"
  | STEGO_ERR_UNSUPPORTED => "unsupported PNG format"
  | STEGO_ERR_MEMORY => "memory allocation failed"
  | STEGO_ERR_CAPACITY => "payload exceeds image capacity"
  | STEGO_ERR_LIBPNG => "libpng internal error"
  | STEGO_ERR_MAGIC => "no steganography payload found"
  | STEGO_ERR_CRC => "payload integrity check failed"
  | STEGO_ERR_IO => "I/O error"
  | STEGO_ERR_ARG => "invalid argument"
  end.

(** [STEGO_MAGIC], the bytes of "STG1". *)
Definition STEGO_MAGIC : list Z := [83; 84; 71; 49].
Definition STEGO_HEADER_MIN_LEN : Z := 15.

Record stego_capacity := StegoCapacity {
  cap_payload_max_bytes : Z;
  cap_width : Z;
  cap_height : Z;
  cap_channels : Z;
  cap_data_channels : Z
}.

(** [filename] is the C string in the 256-byte array; [data] is [None] for a
    [NULL] pointer. *)
Record stego_extracted := StegoExtracted {
  ex_type : stego_payload_type;
  ex_filename : string;
  ex_data : option (list Z);
  ex_data_len : Z
}.

(** ** Big-endian fields *)

Definition write_be32 (v : Z) : list Z :=
  [u8 (Z.shiftr v 24); u8 (Z.shiftr v 16); u8 (Z.shiftr v 8); u8 v].

Definition byte_at (src : list Z) (i : nat) : Z := nth i src 0.

Definition read_be32 (src : list Z) : Z :=
  Z.lor (Z.lor (Z.lor (u32 (Z.shiftl (byte_at src 0) 24)) (u32 (Z.shiftl (byte_at src 1) 16)))
               (u32 (Z.shiftl (byte_at src 2) 8))) (byte_at src 3).

Definition write_be16 (v : Z) : list Z := [u8 (Z.shiftr v 8); u8 v].

Definition read_be16 (src : list Z) : Z :=
  u16 (Z.lor (u16 (Z.shiftl (byte_at src 0) 8)) (byte_at src 1)).

(** ** The container *)

(** [build_container]: the buffer allocated (its size [total]) and the bytes
    written to it from offset 0 up to [pos]; [None] when [malloc] fails.
    [payload] is [None] for a [NULL] pointer. *)
Definition build_container (type : stego_payload_type) (filename : option string)
    (payload : option (list Z)) (payload_len : Z) : M (option (Z * list Z)) :=
  let fn := match type, filename with
            | STEGO_PAYLOAD_FILE, Some fn => bytes_of_string fn
            | _, _ => []
            end in
  let fn_len := Z.of_nat (length fn) in
  let fn_len := if 255 <? fn_len then 255 else fn_len in
  let total := u64 (4 + 1 + 2 + fn_len + 4 + payload_len + 4) in
  ok ← malloc;
  if negb ok then mret None else
  let buf := STEGO_MAGIC in
  let buf := buf ++ [u8 (payload_type_code type)] in
  let buf := buf ++ write_be16 (u16 fn_len) in
  let buf := if 0 <? fn_len then buf ++ take (Z.to_nat fn_len) fn else buf in
  let buf := buf ++ write_be32 (u32 payload_len) in
  let buf := match payload with
             | Some p => if 0 <? payload_len then buf ++ take (Z.to_nat payload_len) p else buf
             | None => buf
             end in
  crc ← crc32_of buf;
  let buf := buf ++ write_be32 crc in
  mret (Some (total, buf)).

(** ** PNG load and save *)

Section with_png.
Context `{L : LibPng}.

(** The loop [rows[y] = malloc(rowbytes)]: when one fails, the rows already
    allocated are freed. *)
Fixpoint alloc_rows (n : nat) (y : Z) : M bool :=
  match n with
  | O => mret true
  | S n =>
      ok ← malloc;
      if negb ok then _ ← free y; mret false
      else alloc_rows n (y + 1)
  end.

(** [png_destroy_read_struct(&png_ptr, &info_ptr, NULL); fclose(fp)]. *)
Definition destroy_read : M unit := _ ← free 2; fclose.

(** [png_image_buf_free]: the rows and the array of rows. *)
Definition png_image_buf_free (img : png_image_buf) : M unit := free (img_height img + 1).

(** The transformations the reader asks for, in the order of the calls. *)
Definition load_transforms (info : png_info) : list png_transform :=
  (if pi_color_type info =? PNG_COLOR_TYPE_PALETTE then [png_set_palette_to_rgb] else []) ++
  (if (pi_color_type info =? PNG_COLOR_TYPE_GRAY) && (pi_bit_depth info <? 8)
   then [png_set_expand_gray_1_2_4_to_8] else []) ++
  (if pi_tRNS info then [png_set_tRNS_to_alpha] else []) ++
  (if pi_bit_depth info =? 16 then [png_set_strip_16] else []) ++
  (if (pi_color_type info =? PNG_COLOR_TYPE_GRAY)
      || (pi_color_type info =? PNG_COLOR_TYPE_GRAY_ALPHA)
   then [png_set_gray_to_rgb] else []).

(** [png_load_rgb_or_rgba].  An error of libpng jumps to the [setjmp] block:
    it destroys the structs and frees [img], whose [rows] is still [NULL]. *)
Definition png_load_rgb_or_rgba (path : option string) : M (stego_status + png_image_buf) :=
  match path with
  | None => mret (inl STEGO_ERR_ARG)
  | Some path =>
    fp ← fopen_rb path;
    match fp with
    | None => mret (inl STEGO_ERR_OPEN)
    | Some data =>
      if negb (8 <=? Z.of_nat (length data)) then _ ← fclose; mret (inl STEGO_ERR_NOT_PNG)
      else if png_sig_cmp (take 8 data) then _ ← fclose; mret (inl STEGO_ERR_NOT_PNG)
      else
        ok ← malloc;
        if negb ok then _ ← fclose; mret (inl STEGO_ERR_MEMORY) else
        ok ← malloc;
        if negb ok then _ ← free 1; _ ← fclose; mret (inl STEGO_ERR_MEMORY) else
        match png_read_info data with
        | None => _ ← destroy_read; mret (inl STEGO_ERR_LIBPNG)
        | Some info =>
          let tr := load_transforms info in
          match png_read_update_info data tr with
          | None => _ ← destroy_read; mret (inl STEGO_ERR_LIBPNG)
          | Some info' =>
            if negb (pi_bit_depth info' =? 8)
               || (negb (pi_channels info' =? 3) && negb (pi_channels info' =? 4))
            then _ ← destroy_read; mret (inl STEGO_ERR_UNSUPPORTED) else
            ok ← malloc;
            if negb ok then _ ← destroy_read; mret (inl STEGO_ERR_MEMORY) else
            ok ← alloc_rows (Z.to_nat (pi_height info)) 0;
            if negb ok then _ ← free 1; _ ← destroy_read; mret (inl STEGO_ERR_MEMORY) else
            match png_read_image data tr with
            | None => _ ← destroy_read; mret (inl STEGO_ERR_LIBPNG)
            | Some rows =>
              if negb (png_read_end data) then _ ← destroy_read; mret (inl STEGO_ERR_LIBPNG)
              else
                _ ← destroy_read;
                mret (inr (PngImage (pi_width info) (pi_height info) (pi_bit_depth info')
                             (pi_color_type info') (pi_channels info') rows))
            end
          end
        end
    end
  end.

(** [png_save_rgb_or_rgba]: on an error that is noticed the partial file is
    unlinked. *)
Definition png_save_rgb_or_rgba (path : option string) (img : png_image_buf) : M stego_status :=
  match path with
  | None => mret STEGO_ERR_ARG
  | Some path =>
    fp ← fopen_wb path;
    if negb fp then mret STEGO_ERR_OPEN else
    ok ← malloc;
    if negb ok then _ ← fclose; _ ← unlink path; mret STEGO_ERR_MEMORY else
    ok ← malloc;
    if negb ok then _ ← free 1; _ ← fclose; _ ← unlink path; mret STEGO_ERR_MEMORY else
    let out_color_type :=
      if img_channels img =? 4 then PNG_COLOR_TYPE_RGB_ALPHA else PNG_COLOR_TYPE_RGB in
    let ihdr := PngInfo (img_width img) (img_height img) 8 out_color_type
                  (if img_channels img =? 4 then 4 else 3) false in
    match png_write_stream ihdr (img_rows img) with
    | None => _ ← free 2; _ ← fclose; _ ← unlink path; mret STEGO_ERR_LIBPNG
    | Some data =>
        ok ← stdio;                             (* the writes before the last flush *)
        if negb ok then _ ← free 2; _ ← fclose; _ ← unlink path; mret STEGO_ERR_LIBPNG else
        _ ← free 2;
        _ ← flush path data;                    (* the result of fclose is ignored *)
        _ ← fclose;
        mret STEGO_OK
    end
  end.

(** ** Capacity, encoding, decoding *)

Definition stego_get_capacity (png_path : option string) : M (stego_status + stego_capacity) :=
  match png_path with
  | None => mret (inl STEGO_ERR_ARG)
  | Some _ =>
    rc ← png_load_rgb_or_rgba png_path;
    match rc with
    | inl e => mret (inl e)
    | inr img =>
        let bits := image_data_bit_capacity img in
        let total_bytes := bits / 8 in
        let overhead := STEGO_HEADER_MIN_LEN in
        _ ← png_image_buf_free img;
        mret (inr (StegoCapacity
          (if overhead <? total_bytes then total_bytes - overhead else 0)
          (img_width img) (img_height img) (img_channels img)
          (data_channels (img_channels img))))
    end
  end.

Definition encode_common (input_png_path output_png_path : option string)
    (type : stego_payload_type) (filename : option string)
    (payload : option (list Z)) (payload_len : Z) : M stego_status :=
  match input_png_path, output_png_path with
  | None, _ | _, None => mret STEGO_ERR_ARG
  | Some _, Some _ =>
    rc ← png_load_rgb_or_rgba input_png_path;
    match rc with
    | inl e => mret e
    | inr img =>
      container ← build_container type filename payload payload_len;
      match container with
      | None => _ ← png_image_buf_free img; mret STEGO_ERR_MEMORY
      | Some (_, container) =>
        let container_len := Z.of_nat (length container) in
        let needed_bits := u64 (container_len * 8) in
        let avail_bits := image_data_bit_capacity img in
        if avail_bits <? needed_bits then
          _ ← free 1; _ ← png_image_buf_free img; mret STEGO_ERR_CAPACITY
        else
          let img' := embed_bits img container container_len in
          _ ← free 1;
          rc ← png_save_rgb_or_rgba output_png_path img';
          _ ← png_image_buf_free img';
          mret rc
      end
    end
  end.

Definition stego_encode_text (input_png_path output_png_path : option string)
    (text : option (list Z)) (text_len : Z) : M stego_status :=
  match text with
  | None => if 0 <? text_len then mret STEGO_ERR_ARG
            else encode_common input_png_path output_png_path STEGO_PAYLOAD_TEXT None text text_len
  | Some _ => encode_common input_png_path output_png_path STEGO_PAYLOAD_TEXT None text text_len
  end.

(** [stego_encode_file]: the size of the payload file is found with two seeks,
    and its bytes are read into a block of that size. *)
Definition stego_encode_file (input_png_path output_png_path payload_file_path
    store_as_filename : option string) : M stego_status :=
  match payload_file_path with
  | None => mret STEGO_ERR_ARG
  | Some payload_path =>
    fp ← fopen_rb payload_path;
    match fp with
    | None => mret STEGO_ERR_OPEN
    | Some data =>
      ok ← stdio;
      if negb ok then _ ← fclose; mret STEGO_ERR_IO else
      ok ← stdio;
      if negb ok then _ ← fclose; mret STEGO_ERR_IO else
      let size := Z.of_nat (length data) in
      ok ← stdio;
      if negb ok then _ ← fclose; mret STEGO_ERR_IO else
      buf ← malloc;
      if negb buf && (0 <? size) then _ ← fclose; mret STEGO_ERR_MEMORY else
      read_ok ← (if 0 <? size then stdio else mret true);
      if negb read_ok then _ ← free 1; _ ← fclose; mret STEGO_ERR_IO else
      _ ← fclose;
      let fn := match store_as_filename with
                | Some fn => fn
                | None => basename payload_path
                end in
      rc ← encode_common input_png_path output_png_path STEGO_PAYLOAD_FILE (Some fn)
             (if buf then Some data else None) size;
      _ ← free (if buf then 1 else 0);
      mret rc
    end
  end.

(** [stego_decode]: the payload type of a byte read from the image. *)
Definition payload_type_of (type_byte : Z) : option stego_payload_type :=
  if type_byte =? 0 then Some STEGO_PAYLOAD_TEXT
  else if type_byte =? 1 then Some STEGO_PAYLOAD_FILE
  else None.

Definition stego_decode (png_path : option string) : M (stego_status + stego_extracted) :=
  match png_path with
  | None => mret (inl STEGO_ERR_ARG)
  | Some _ =>
    rc ← png_load_rgb_or_rgba png_path;
    match rc with
    | inl e => mret (inl e)
    | inr img =>
      let fail e := _ ← png_image_buf_free img; mret (inl e) in
      let avail_bytes := image_data_bit_capacity img / 8 in
      if avail_bytes <? STEGO_HEADER_MIN_LEN then fail STEGO_ERR_MAGIC else
      let header := extract_bits img 7 in
      if negb (bool_decide (take 4 header = STEGO_MAGIC)) then fail STEGO_ERR_MAGIC else
      match payload_type_of (byte_at header 4) with
      | None => fail STEGO_ERR_MAGIC
      | Some type =>
        let fn_len := read_be16 (drop 5 header) in
        let total_needed := 7 + fn_len + 4 in
        if avail_bytes <? total_needed then fail STEGO_ERR_MAGIC else
        ok ← malloc;
        if negb ok then fail STEGO_ERR_MEMORY else
        let probe := extract_bits img total_needed in
        let payload_len := read_be32 (drop (Z.to_nat (7 + fn_len)) probe) in
        let container_len := 7 + fn_len + 4 + payload_len + 4 in
        if avail_bytes <? container_len then _ ← free 1; fail STEGO_ERR_MAGIC else
        ok ← realloc;
        if negb ok then _ ← free 1; fail STEGO_ERR_MEMORY else
        let buf := extract_bits img container_len in
        _ ← png_image_buf_free img;
        let stored_crc := read_be32 (drop (Z.to_nat (container_len - 4)) buf) in
        calc_crc ← crc32_of (take (Z.to_nat (container_len - 4)) buf);
        if negb (stored_crc =? calc_crc) then _ ← free 1; mret (inl STEGO_ERR_CRC) else
        let filename :=
          if 0 <? fn_len then
            let copy := if fn_len <? 255 then fn_len else 255 in
            cstr_of_bytes (take (Z.to_nat copy) (drop 7 buf))
          else EmptyString in
        if 0 <? payload_len then
          ok ← malloc;
          if negb ok then _ ← free 1; mret (inl STEGO_ERR_MEMORY) else
          let data := take (Z.to_nat payload_len) (drop (Z.to_nat (7 + fn_len + 4)) buf) in
          _ ← free 1;
          mret (inr (StegoExtracted type filename (Some data) payload_len))
        else
          _ ← free 1;
          mret (inr (StegoExtracted type filename None payload_len))
      end
    end
  end.

(** [stego_extracted_free]: [free(NULL)] does nothing. *)
Definition stego_extracted_free (e : stego_extracted) : M stego_extracted :=
  _ ← free (match ex_data e with Some _ => 1 | None => 0 end);
  mret (StegoExtracted (ex_type e) (ex_filename e) None 0).

End with_png.

(** ** Big-endian fields *)

Lemma write_be32_ok v : bytes_ok (write_be32 v).
Proof. unfold write_be32. repeat constructor; apply wrap_bounded; lia. Qed.

Lemma write_be16_ok v : bytes_ok (write_be16 v).
Proof. unfold write_be16. repeat constructor; apply wrap_bounded; lia. Qed.

(** The bit [i] of a byte placed at bit offset [n]. *)
Lemma be_field_bit w b n i :
  0 <= n -> 0 <= w -> bounded 8 b -> n + 8 <= w ->
  Z.testbit (wrap w (Z.shiftl b n)) i = Z.testbit b (i - n).
Proof.
  intros Hn Hw Hb Hle. rewrite wrap_testbit by done.
  destruct (decide (0 <= i)) as [Hi|Hi].
  - rewrite Z.shiftl_spec by done. destruct (Z.ltb_spec i w); [done|].
    symmetry. apply (testbit_bounded 8); [done|lia].
  - rewrite !Z.testbit_neg_r by lia. by rewrite andb_comm.
Qed.

Lemma read_be32_bit a b c d rest i :
  bytes_ok [a; b; c; d] ->
  Z.testbit (read_be32 (a :: b :: c :: d :: rest)) i =
  Z.testbit a (i - 24) || Z.testbit b (i - 16) || Z.testbit c (i - 8) || Z.testbit d i.
Proof.
  intros H. repeat (inversion_clear H as [|? ? ? H']; rename H' into H).
  unfold read_be32, byte_at, u32. cbn [nth]. rewrite !Z.lor_spec.
  by rewrite !be_field_bit by (done || lia).
Qed.

Lemma shifted_byte_bit v n i :
  0 <= n -> Z.testbit (u8 (Z.shiftr v n)) i = (i <? 8) && (0 <=? i) && Z.testbit v (i + n).
Proof.
  intros Hn. unfold u8. rewrite wrap_testbit by lia.
  destruct (Z.leb_spec 0 i) as [Hi|Hi].
  - by rewrite Z.shiftr_spec, andb_true_r by done.
  - rewrite Z.testbit_neg_r by lia. by rewrite !andb_false_r.
Qed.

Ltac byte_cases :=
  repeat match goal with
    | |- context [?x <? ?y] => destruct (Z.ltb_spec x y); try lia
    | |- context [?x <=? ?y] => destruct (Z.leb_spec x y); try lia
    end; simpl.

Lemma read_write_be32 v rest : bounded 32 v -> read_be32 (write_be32 v ++ rest) = v.
Proof.
  intros Hv. apply Z.bits_inj'. intros i Hi. unfold write_be32. simpl app.
  rewrite read_be32_bit by apply write_be32_ok.
  rewrite <-(Z.shiftr_0_r v) at 4. rewrite !shifted_byte_bit by lia.
  rewrite !Z.sub_add, Z.add_0_r.
  destruct (decide (i < 32)) as [Hlt|Hge].
  - byte_cases; rewrite ?orb_false_r; done.
  - rewrite (testbit_bounded 32 v i) by (done || lia). by rewrite !andb_false_r.
Qed.

Lemma read_write_be16 v rest : bounded 16 v -> read_be16 (write_be16 v ++ rest) = v.
Proof.
  intros Hv. apply Z.bits_inj'. intros i Hi. unfold write_be16, read_be16, byte_at, u16.
  cbn [app nth]. rewrite wrap_testbit, Z.lor_spec by lia.
  rewrite be_field_bit by (done || lia || (apply wrap_bounded; lia)).
  rewrite <-(Z.shiftr_0_r v) at 2. rewrite !shifted_byte_bit by lia.
  rewrite Z.sub_add, Z.add_0_r.
  destruct (decide (i < 16)) as [Hlt|Hge].
  - byte_cases; rewrite ?orb_false_r; done.
  - rewrite (testbit_bounded 16 v i) by (done || lia). by rewrite !andb_false_r.
Qed.

(** The bytes of a field are determined by its value. *)
Lemma write_read_be32 src :
  bytes_ok src -> (4 <= length src)%nat -> write_be32 (read_be32 src) = take 4 src.
Proof.
  intros Hok Hlen. destruct src as [|a [|b [|c [|d rest]]]]; try (simpl in Hlen; lia).
  assert (H : bytes_ok [a; b; c; d]) by by apply (Forall_take _ 4 _ Hok).
  simpl take. unfold write_be32. rewrite <-(Z.shiftr_0_r (read_be32 _)) at 4.
  assert (Hf : forall n x, 0 <= n -> bounded 8 x ->
    (forall i, 0 <= i < 8 -> Z.testbit (read_be32 (a :: b :: c :: d :: rest)) (i + n) = Z.testbit x i) ->
    u8 (Z.shiftr (read_be32 (a :: b :: c :: d :: rest)) n) = x).
  { intros n x Hn Hx Hbit. apply Z.bits_inj'. intros i Hi. rewrite shifted_byte_bit by done.
    byte_cases; [by apply Hbit; lia|]. symmetry. by apply (testbit_bounded 8). }
  pose proof H as H'. repeat (inversion_clear H' as [|? ? ? H'']; rename H'' into H').
  f_equal; [|f_equal; [|f_equal; [|f_equal]]]; apply Hf; try done; try lia; intros i Hi;
    rewrite read_be32_bit by done;
    repeat match goal with
    | |- context [Z.testbit ?x ?k] =>
        first [ rewrite (Z.testbit_neg_r x k) by lia
              | rewrite (testbit_bounded 8 x k) by (done || lia) ]
    end; rewrite ?orb_false_r, ?orb_false_l; f_equal; lia.
Qed.

Lemma write_read_be16 src :
  bytes_ok src -> (2 <= length src)%nat -> write_be16 (read_be16 src) = take 2 src.
Proof.
  intros Hok Hlen. destruct src as [|a [|b rest]]; try (simpl in Hlen; lia).
  inversion_clear Hok as [|? ? Ha Hok']. inversion_clear Hok' as [|? ? Hb _].
  assert (Hbit : forall i, Z.testbit (read_be16 (a :: b :: rest)) i =
    (i <? 16) && (Z.testbit a (i - 8) || Z.testbit b i)).
  { intros i. unfold read_be16, byte_at, u16. cbn [nth].
    rewrite wrap_testbit, Z.lor_spec by lia. by rewrite be_field_bit by (done || lia). }
  simpl take. unfold write_be16. rewrite <-(Z.shiftr_0_r (read_be16 _)) at 2.
  f_equal; [|f_equal]; apply Z.bits_inj'; intros i Hi; rewrite shifted_byte_bit, Hbit by lia;
    byte_cases; rewrite ?Z.add_simpl_r, ?Z.add_0_r;
    repeat match goal with
    | |- context [Z.testbit ?x ?k] =>
        first [ rewrite (Z.testbit_neg_r x k) by lia
              | rewrite (testbit_bounded 8 x k) by (done || lia) ]
    end; by rewrite ?orb_false_r.
Qed.

Lemma read_be32_bounded src : bytes_ok src -> bounded 32 (read_be32 src).
Proof.
  intros H. unfold read_be32, byte_at.
  repeat apply bounded_lor; try lia; try (apply wrap_bounded; lia).
  pose proof (nth_bounded src 3 H). unfold bounded in *. lia.
Qed.

Lemma read_be16_bounded src : bounded 16 (read_be16 src).
Proof. apply wrap_bounded. lia. Qed.

#[export] Hint Resolve write_be32_ok write_be16_ok read_be32_bounded read_be16_bounded : cint.

(** ** The container format as a specification

    The name that is stored, the bytes covered by the checksum, and the
    container of docs/SDD.md, section 5.1. *)

Definition stored_name (type : stego_payload_type) (filename : option string) : list Z :=
  match type, filename with
  | STEGO_PAYLOAD_FILE, Some fn => take 255 (bytes_of_string fn)
  | _, _ => []
  end.

Definition container_body (type : stego_payload_type) (name payload : list Z) : list Z :=
  STEGO_MAGIC ++ [payload_type_code type] ++ write_be16 (Z.of_nat (length name)) ++ name ++
  write_be32 (Z.of_nat (length payload)) ++ payload.

Definition container (type : stego_payload_type) (name payload : list Z) : list Z :=
  let body := container_body type name payload in body ++ write_be32 (crc32_ref body).

Lemma container_body_ok type name payload :
  bytes_ok name -> bytes_ok payload -> bytes_ok (container_body type name payload).
Proof.
  intros Hn Hp. unfold container_body, bytes_ok.
  assert (Hm : Forall (bounded 8) STEGO_MAGIC) by (eapply bool_decide_unpack; vm_compute; exact I).
  assert (Ht : Forall (bounded 8) [payload_type_code type])
    by (eapply bool_decide_unpack; destruct type; vm_compute; exact I).
  repeat apply Forall_app_2; auto; [apply write_be16_ok|apply write_be32_ok].
Qed.

Lemma container_ok type name payload :
  bytes_ok name -> bytes_ok payload -> bytes_ok (container type name payload).
Proof. intros. apply Forall_app_2; [by apply container_body_ok|apply write_be32_ok]. Qed.

Lemma container_body_length type name payload :
  length (container_body type name payload) = (11 + length name + length payload)%nat.
Proof. unfold container_body. rewrite !length_app. simpl. lia. Qed.

Lemma container_length type name payload :
  length (container type name payload) = (15 + length name + length payload)%nat.
Proof. unfold container. rewrite length_app, container_body_length. simpl. lia. Qed.

Lemma stored_name_ok type filename : bytes_ok (stored_name type filename).
Proof.
  unfold stored_name. destruct type, filename; try apply Forall_nil_2.
  apply Forall_take, bytes_of_string_ok.
Qed.

Lemma stored_name_length type filename : (length (stored_name type filename) <= 255)%nat.
Proof.
  unfold stored_name. destruct type, filename; simpl; try lia. rewrite length_take. lia.
Qed.

#[export] Hint Resolve container_ok container_body_ok stored_name_ok : cint.

(** ** [build_container] *)

(** The payload argument of a call: its bytes, when it is not [NULL]. *)
Definition payload_arg (payload : option (list Z)) (payload_len : Z) : list Z :=
  match payload with Some p => take (Z.to_nat payload_len) p | None => [] end.

Lemma take_255 l :
  take (Z.to_nat (if 255 <? Z.of_nat (length l) then 255 else Z.of_nat (length l))) l
  = take 255 l :> list Z.
Proof.
  destruct (Z.ltb_spec 255 (Z.of_nat (length l))); [done|].
  rewrite !take_ge by lia. done.
Qed.

Lemma payload_type_code_u8 type : u8 (payload_type_code type) = payload_type_code type.
Proof. by destruct type. Qed.

(** What one call builds: the container of the name and the payload, in a
    block large enough for it. *)
Lemma build_container_spec type filename payload payload_len w :
  crc_inv (w_crc w) -> bytes_ok (payload_arg payload payload_len) ->
  Z.of_nat (length (payload_arg payload payload_len)) = payload_len ->
  payload_len < 2 ^ 32 ->
  wp (build_container type filename payload payload_len) (fun r w' =>
    match r with
    | None => step (w_fs w) 0 0 w w' /\ w_mallocs w <> []
    | Some (total, buf) =>
        step (w_fs w) 1 0 w w' /\ total = Z.of_nat (length buf) /\
        buf = container type (stored_name type filename) (payload_arg payload payload_len)
    end) w.
Proof.
  intros Hcrc Hok Hlen H32. unfold build_container.
  set (fn := match type with STEGO_PAYLOAD_TEXT => [] | _ => _ end).
  assert (Hname : take (Z.to_nat (if 255 <? Z.of_nat (length fn) then 255
                                  else Z.of_nat (length fn))) fn = stored_name type filename).
  { rewrite take_255. subst fn. by destruct type, filename. }
  set (fn_len := if 255 <? _ then _ else _) in *.
  assert (Hfn : fn_len = Z.of_nat (length (stored_name type filename))).
  { rewrite <-Hname, length_take. subst fn_len. destruct (Z.ltb_spec 255 (Z.of_nat (length fn))); lia. }
  pose proof (stored_name_length type filename) as H255.
  apply wp_bind, wp_malloc. intros b w1 Hs1 Hb. simpl.
  destruct b; simpl; [|split; [done|]; intros Hm; by specialize (Hb Hm)].
  apply wp_bind.
  match goal with |- wp (crc32_of ?body) _ _ => assert (Hbody : body =
    container_body type (stored_name type filename) (payload_arg payload payload_len)) end.
  { unfold container_body. rewrite payload_type_code_u8, Hname, Hlen, <-Hfn.
    unfold u16, u32. rewrite !wrap_small by (unfold bounded; lia).
    assert (Hpl : match payload with
                  | Some p => if 0 <? payload_len then take (Z.to_nat payload_len) p else []
                  | None => [] end = payload_arg payload payload_len).
    { unfold payload_arg in *. destruct payload; [|done].
      destruct (Z.ltb_spec 0 payload_len); [done|]. by replace payload_len with 0 by lia. }
    rewrite <-Hpl.
    assert (Hnil : fn_len <= 0 -> stored_name type filename = []).
    { intros. destruct (stored_name type filename); [done|]. simpl in Hfn. lia. }
    destruct (Z.ltb_spec 0 fn_len); destruct payload; try destruct (Z.ltb_spec 0 payload_len);
      rewrite <-?app_assoc, ?app_nil_r; try done; rewrite Hnil by lia; done. }
  rewrite Hbody. clear Hbody.
  apply wp_crc32_of. intros c w2 Hs2 Hc. apply wp_ret.
  assert (Hcv : c = crc32_ref (container_body type (stored_name type filename)
                                 (payload_arg payload payload_len))).
  { apply Hc; [by destruct Hs1; auto|]. apply container_body_ok; [|done]. apply stored_name_ok. }
  split; [steps|]. rewrite Hcv. split; [|done].
  fold (container type (stored_name type filename) (payload_arg payload payload_len)).
  rewrite container_length. unfold u64. rewrite wrap_small by (unfold bounded; lia). lia.
Qed.

(** ** Loading and saving *)

Section png_specs.
Context `{Laws : LibPngLaws}.

Lemma alloc_rows_spec n y w :
  0 <= y ->
  wp (alloc_rows n y) (fun b w' =>
    step (w_fs w) (if b then Z.of_nat n else - y) 0 w w' /\ (w_mallocs w = [] -> b = true)) w.
Proof.
  revert y w. induction n as [|n IH]; intros y w Hy; simpl.
  { apply wp_ret. split; [apply step_refl|done]. }
  apply wp_bind, wp_malloc. intros b w1 Hs Hb. destruct b; simpl.
  - eapply wp_conseq; [apply IH; lia|]. intros b w2 [Hs2 Hb2]. split; [|destruct Hs; auto].
    rewrite (step_fs _ _ _ _ _ Hs) in Hs2. destruct b; steps.
  - apply wp_bind, wp_free. intros w2 Hs2. apply wp_ret.
    split; [steps|]. intros Hm. by specialize (Hb Hm).
Qed.

(** What a load computes when no allocation fails. *)
Definition png_decode (data : list Z) : stego_status + png_image_buf :=
  if negb (8 <=? Z.of_nat (length data)) then inl STEGO_ERR_NOT_PNG
  else if png_sig_cmp (take 8 data) then inl STEGO_ERR_NOT_PNG
  else match png_read_info data with
  | None => inl STEGO_ERR_LIBPNG
  | Some info =>
    match png_read_update_info data (load_transforms info) with
    | None => inl STEGO_ERR_LIBPNG
    | Some info' =>
      if negb (pi_bit_depth info' =? 8)
         || (negb (pi_channels info' =? 3) && negb (pi_channels info' =? 4))
      then inl STEGO_ERR_UNSUPPORTED
      else match png_read_image data (load_transforms info) with
      | None => inl STEGO_ERR_LIBPNG
      | Some rows =>
        if negb (png_read_end data) then inl STEGO_ERR_LIBPNG
        else inr (PngImage (pi_width info) (pi_height info) (pi_bit_depth info')
                    (pi_color_type info') (pi_channels info') rows)
      end
    end
  end.

(** What a load of a path computes when no allocation fails. *)
Definition png_load_result (w : world) (path : option string) : stego_status + png_image_buf :=
  match path with
  | None => inl STEGO_ERR_ARG
  | Some p =>
      if decide (p ∈ w_denied w) then inl STEGO_ERR_OPEN else
      match w_fs w !! p with
      | None => inl STEGO_ERR_OPEN
      | Some data => png_decode data
      end
  end.

(** The errors a load can report. *)
Definition load_error (e : stego_status) : bool :=
  match e with
  | STEGO_ERR_OPEN | STEGO_ERR_NOT_PNG | STEGO_ERR_UNSUPPORTED | STEGO_ERR_MEMORY
  | STEGO_ERR_LIBPNG | STEGO_ERR_ARG => true
  | _ => false
  end.

(** The outcome of a load: a well-formed image that owns [height + 1] blocks,
    or an error.  Only an error of libpng can leave blocks behind, and only a
    failed allocation makes the result differ from [png_load_result]. *)
Definition load_post (path : option string) (w : world)
    (r : stego_status + png_image_buf) (w' : world) : Prop :=
  match r with
  | inr img =>
      image_wf img /\ step (w_fs w) (img_height img + 1) 0 w w' /\
      png_load_result w path = inr img
  | inl e =>
      load_error e = true /\
      exists k, (0 <= k /\ (e <> STEGO_ERR_LIBPNG -> k = 0) /\ step (w_fs w) k 0 w w') /\
      (w_mallocs w = [] -> png_load_result w path = inl e)
  end.

(** Rewrite with the tests recorded on the path. *)
Ltac use_tests :=
  repeat match goal with
    | H : ?x = _ |- context [?x] => rewrite H
    end.

#[local] Arguments png_load_result : simpl never.

Lemma load_readable w p data :
  w_fs w !! p = Some data -> p ∉ w_denied w -> png_load_result w (Some p) = png_decode data.
Proof. intros Hd Hp. unfold png_load_result. rewrite decide_False by done. by rewrite Hd. Qed.

Lemma load_unreadable w p :
  p ∈ w_denied w \/ w_fs w !! p = None -> png_load_result w (Some p) = inl STEGO_ERR_OPEN.
Proof. intros H. unfold png_load_result. case_decide; [done|]. destruct H as [H|H]; [done|]. by rewrite H. Qed.

Ltac load_err k :=
  split; [done|]; exists k; split; [split; [lia|split; [done|first [apply step_refl|steps]]]|];
  intros Hmal;
  first [ no_malloc_failure | done | by apply load_unreadable
        | erewrite load_readable by eassumption; unfold png_decode; use_tests; done ].

Lemma png_load_spec path w : wp (png_load_rgb_or_rgba path) (load_post path w) w.
Proof.
  unfold png_load_rgb_or_rgba, destroy_read.
  destruct path as [path|]; [|wp_step; load_err 0].
  apply wp_bind, wp_fopen_rb; [intros data w1 Hdata Hden Hs1|intros Hno; wp_step; load_err 0].
  wp_case; [|wp_auto; load_err 0]. wp_case; [wp_auto; load_err 0|].
  wp_step. wp_step. wp_case; [|wp_auto; load_err 0].
  wp_step. wp_step. wp_case; [|wp_auto; load_err 0].
  wp_case; [|wp_auto; load_err 0]. wp_case; [|wp_auto; load_err 0].
  wp_case; [wp_auto; load_err 0|]. wp_step. wp_step. wp_case; [|wp_auto; load_err 0].
  apply wp_bind. eapply wp_conseq; [apply alloc_rows_spec; lia|]. intros b w5 [Hs5 Hb5].
  wp_case; [|wp_auto; load_err 0].
  match goal with H1 : png_read_info _ = Some ?i, H2 : png_read_update_info _ _ = Some ?j |- _ =>
    destruct (png_update_size _ _ _ _ H1 H2) as [Hw Hh] end.
  wp_case; [|wp_auto; load_err (Z.of_nat (Z.to_nat (pi_height p)) + 1)].
  wp_case; [|wp_auto; load_err (Z.of_nat (Z.to_nat (pi_height p)) + 1)].
  match goal with H1 : _ || _ = false |- _ =>
    pose proof H1 as Hdc; apply orb_false_iff in Hdc as [Hd Hc] end.
  assert (Hd' : pi_bit_depth p0 = 8) by lia.
  assert (Hc' : pi_channels p0 = 3 \/ pi_channels p0 = 4) by lia.
  match goal with H1 : png_read_image _ _ = Some ?r, H2 : png_read_update_info _ _ = Some ?j |- _ =>
    destruct (png_read_rows _ _ _ _ H2 H1 Hd' Hc') as (Hwb & Hhb & Hl & Hall) end.
  wp_auto. split; [|split; [steps|]].
  - constructor; simpl; rewrite <-?Hw, <-?Hh; auto.
  - erewrite load_readable by eassumption. unfold png_decode. use_tests. done.
Qed.

Lemma png_load_result_wf w path img : png_load_result w path = inr img -> image_wf img.
Proof.
  intros H. pose proof (png_load_spec path (set_mallocs w [])) as Hs. unfold wp in Hs.
  destruct (png_load_rgb_or_rgba _ _) as [[e|img'] w']; simpl in Hs.
  - destruct Hs as (_ & k & _ & Hr). specialize (Hr eq_refl).
    by rewrite (H : png_load_result (set_mallocs w []) path = _) in Hr.
  - destruct Hs as (Hwf & _ & Hr).
    rewrite (H : png_load_result (set_mallocs w []) path = _) in Hr. by simplify_eq.
Qed.

(** The header [png_save_rgb_or_rgba] writes. *)
Definition ihdr_of (img : png_image_buf) : png_info :=
  PngInfo (img_width img) (img_height img) 8
    (if img_channels img =? 4 then PNG_COLOR_TYPE_RGB_ALPHA else PNG_COLOR_TYPE_RGB)
    (if img_channels img =? 4 then 4 else 3) false.

(** The outcome of a save when no allocation and no write fails. *)
Definition save_result (w : world) (path : string) (img : png_image_buf) : stego_status :=
  if decide (path ∈ w_denied w) then STEGO_ERR_OPEN else
  match png_write_stream (ihdr_of img) (img_rows img) with
  | None => STEGO_ERR_LIBPNG
  | Some _ => STEGO_OK
  end.

Definition save_post (path : string) (img : png_image_buf) (w : world)
    (r : stego_status) (w' : world) : Prop :=
  (w_mallocs w = [] -> r = save_result w path img \/
     r = STEGO_ERR_LIBPNG /\ save_result w path img = STEGO_OK /\ w_io w <> []) /\
  match r with
  | STEGO_OK => exists data kept, png_write_stream (ihdr_of img) (img_rows img) = Some data /\
                  flushed w data kept /\ step (<[path := kept]> (w_fs w)) 0 0 w w' /\ path ∉ w_denied w
  | STEGO_ERR_OPEN => step (w_fs w) 0 0 w w'
  | STEGO_ERR_MEMORY | STEGO_ERR_LIBPNG => step (delete path (w_fs w)) 0 0 w w'
  | _ => False
  end.

Lemma delete_created (fs : gmap string (list Z)) p (d : list Z) : delete p (<[p := d]> fs) = delete p fs.
Proof. apply delete_insert_eq. Qed.

Ltac save_err :=
  split_steps; constructor; simpl in *;
  solve [auto 30 | lia | congruence | rewrite <-(delete_created _ _ []); congruence].

Lemma png_save_spec path img w :
  wp (png_save_rgb_or_rgba (Some path) img) (save_post path img w) w.
Proof.
  unfold png_save_rgb_or_rgba, save_post, save_result.
  apply wp_bind, wp_fopen_wb; [intros w1 Hden Hs1|intros Hno; apply wp_ret].
  2: { rewrite decide_True by done. split; [by left|apply step_refl]. }
  rewrite decide_False by done. cbn [negb]. wp_step. wp_step.
  wp_case; [|wp_auto; split; [intros ?; no_malloc_failure|save_err]].
  wp_step. wp_step. wp_case; [|wp_auto; split; [intros ?; no_malloc_failure|save_err]].
  fold (ihdr_of img). wp_case; [|wp_auto; split; [by left|save_err]].
  apply wp_bind, wp_stdio. intros b w4 Hs4 Hb. destruct b; cbn [negb].
  2: { wp_auto. split; [intros _; right; split_and!; [done..|]|save_err].
       intros Hio. revert Hb. match goal with |- (w_io ?x = [] -> _) -> _ => assert (Hx : w_io x = []) by (split_steps; auto 30) end.
       intros Hb. by specialize (Hb Hx). }
  wp_step. wp_step. apply wp_bind, wp_flush. intros b kept w6 Hs6 Hkept _ _. wp_auto. split; [by left|].
  eexists _, kept. split; [done|]. split_and!; [|split_steps; constructor; simpl in *; try solve [auto 30 | lia | congruence]|done].
  - destruct Hkept as [->|[Hne Hn]]; [by left|right]. split; [|done]. intros Hio. apply Hne. clear Hne. split_steps. auto 30.
  - rewrite <-(insert_insert_eq (w_fs w) path kept []). congruence.
Qed.

(** ** Encoding *)

(** What encoding the container [C] returns when no allocation and no write of
    the output fails. *)
Definition encode_result (w : world) (i o : string) (C : list Z) : stego_status :=
  match png_load_result w (Some i) with
  | inl e => e
  | inr img =>
      if image_data_bit_capacity img <? 8 * Z.of_nat (length C) then STEGO_ERR_CAPACITY
      else save_result w o (embed_bits img C (Z.of_nat (length C)))
  end.

Definition encode_returns (w : world) (i o : string) (C : list Z) (rc : stego_status) : Prop :=
  rc = encode_result w i o C \/
  rc = STEGO_ERR_LIBPNG /\ encode_result w i o C = STEGO_OK /\ w_io w <> [].

(** The outcome of an encoding call whose container is [C]. *)
Definition encode_post (i o : string) (C : list Z) (w : world)
    (rc : stego_status) (w' : world) : Prop :=
  exists k fs', 0 <= k /\ (rc <> STEGO_ERR_LIBPNG -> k = 0) /\ step fs' k 0 w w' /\
  (rc <> STEGO_OK -> fs' = w_fs w \/ fs' = delete o (w_fs w)) /\
  (rc = STEGO_OK -> exists img data kept,
     png_load_result w (Some i) = inr img /\
     8 * Z.of_nat (length C) <= image_data_bit_capacity img /\
     png_write_stream (ihdr_of img)
       (img_rows (embed_bits img C (Z.of_nat (length C)))) = Some data /\ flushed w data kept /\
     fs' = <[o := kept]> (w_fs w) /\ o ∉ w_denied w) /\
  (w_mallocs w = [] -> encode_returns w i o C rc).

(** A call that ends with [rc] and leaves the files alone. *)
Lemma encode_post_fail i o C w rc w' k :
  0 <= k -> (rc <> STEGO_ERR_LIBPNG -> k = 0) -> step (w_fs w) k 0 w w' -> rc <> STEGO_OK ->
  (w_mallocs w = [] -> encode_returns w i o C rc) ->
  encode_post i o C w rc w'.
Proof. intros Hk Hk0 Hs Hrc Hcap. exists k, (w_fs w). split_and!; auto. done. Qed.

(** The same when the output was removed. *)
Lemma encode_post_removed i o C w rc w' :
  step (delete o (w_fs w)) 0 0 w w' -> rc <> STEGO_OK ->
  (w_mallocs w = [] -> encode_returns w i o C rc) ->
  encode_post i o C w rc w'.
Proof.
  intros Hs Hrc Hcap. exists 0, (delete o (w_fs w)). split_and!; auto; [lia|done].
Qed.

Lemma encode_common_spec i o type filename payload payload_len w :
  let C := container type (stored_name type filename) (payload_arg payload payload_len) in
  crc_inv (w_crc w) -> bytes_ok (payload_arg payload payload_len) ->
  Z.of_nat (length (payload_arg payload payload_len)) = payload_len ->
  payload_len < 2 ^ 32 ->
  wp (encode_common (Some i) (Some o) type filename payload payload_len) (encode_post i o C w) w.
Proof.
  intros C Hcrc Hok Hlen H32. unfold encode_common, png_image_buf_free.
  assert (HC : 8 * Z.of_nat (length C) < 2 ^ 64).
  { subst C. rewrite container_length. pose proof (stored_name_length type filename). lia. }
  apply wp_bind. eapply wp_conseq; [apply png_load_spec|]. intros [e|img] w1; cbn beta iota.
  { intros (He & k & (Hk & Hk0 & Hs) & Hpure). wp_step.
    apply (encode_post_fail _ _ _ _ _ _ k); auto; [by intros ->|].
    intros Hm. left. unfold encode_result. by rewrite Hpure. }
  intros (Hwf & Hs1 & Hload). apply wp_bind.
  eapply wp_conseq; [apply build_container_spec; try done; by destruct Hs1; auto|].
  intros [[total buf]|] w2; cbn beta iota.
  2: { intros [Hs2 Hm2]. wp_step. wp_step. wp_step.
       apply (encode_post_fail _ _ _ _ _ _ 0); try done; [steps|].
       intros Hm. destruct Hm2. by destruct Hs1; auto. }
  intros (Hs2 & _ & ->). fold C.
  assert (Hu : u64 (Z.of_nat (length C) * 8) = 8 * Z.of_nat (length C))
    by (unfold u64; rewrite wrap_small; unfold bounded; lia).
  cbv zeta. rewrite Hu. wp_case.
  { wp_auto. apply (encode_post_fail _ _ _ _ _ _ 0); try done; [steps|].
    intros _. left. unfold encode_result. rewrite Hload. by use_tests. }
  wp_step. wp_step. wp_step. eapply wp_conseq; [apply png_save_spec|].
  intros rc w4 [Hrc Hsave]. wp_auto.
  assert (Hden' : w_denied w' = w_denied w) by (destruct Hs1, Hs2, H; congruence).
  assert (Hio' : w_io w' <> [] -> w_io w <> []) by (intros Hne Hio; apply Hne; clear Hrc Hsave; split_steps; auto 30).
  assert (Hres : w_mallocs w = [] -> encode_returns w i o C rc).
  { intros Hm. unfold encode_returns, encode_result. rewrite Hload. use_tests.
    assert (Hsv : forall p x, save_result w p x = save_result w' p x) by (intros; unfold save_result; by rewrite Hden').
    rewrite Hsv. destruct Hrc as [Hrc|(-> & Hok' & Hne)]; [destruct Hs1, Hs2, H; auto|by left|right; auto]. }
  assert (Hfs : w_fs w' = w_fs w) by (destruct Hs1, Hs2, H; congruence).
  destruct rc; simpl in Hsave; try done; [| |rewrite Hfs in Hsave..].
  - destruct Hsave as (data & kept & Hdata & Hkept & Hsave & Hden). exists 0, (<[o := kept]> (w_fs w)).
    split_and!; [lia|done|clear Hkept Hio'; steps|done| |exact Hres].
    intros _. exists img, data, kept. split_and!; try done; [lia| |by rewrite <-Hden'].
    destruct Hkept as [->|[Hne Hn]]; [by left|right; auto].
  - apply (encode_post_fail _ _ _ _ _ _ 0); try done. steps.
  - apply encode_post_removed; try done. steps.
  - apply encode_post_removed; try done. steps.
Qed.

(** ** Decoding *)

(** What decoding an image computes when no allocation fails. *)
Definition decode_image (img : png_image_buf) : stego_status + stego_extracted :=
  let avail_bytes := image_data_bit_capacity img / 8 in
  if avail_bytes <? STEGO_HEADER_MIN_LEN then inl STEGO_ERR_MAGIC else
  let header := extract_bits img 7 in
  if negb (bool_decide (take 4 header = STEGO_MAGIC)) then inl STEGO_ERR_MAGIC else
  match payload_type_of (byte_at header 4) with
  | None => inl STEGO_ERR_MAGIC
  | Some type =>
    let fn_len := read_be16 (drop 5 header) in
    if avail_bytes <? 7 + fn_len + 4 then inl STEGO_ERR_MAGIC else
    let probe := extract_bits img (7 + fn_len + 4) in
    let payload_len := read_be32 (drop (Z.to_nat (7 + fn_len)) probe) in
    let container_len := 7 + fn_len + 4 + payload_len + 4 in
    if avail_bytes <? container_len then inl STEGO_ERR_MAGIC else
    let buf := extract_bits img container_len in
    if negb (read_be32 (drop (Z.to_nat (container_len - 4)) buf)
             =? crc32_ref (take (Z.to_nat (container_len - 4)) buf))
    then inl STEGO_ERR_CRC
    else inr (StegoExtracted type
      (if 0 <? fn_len
       then cstr_of_bytes (take (Z.to_nat (if fn_len <? 255 then fn_len else 255)) (drop 7 buf))
       else EmptyString)
      (if 0 <? payload_len
       then Some (take (Z.to_nat payload_len) (drop (Z.to_nat (7 + fn_len + 4)) buf))
       else None)
      payload_len)
  end.

(** The blocks an extracted payload owns. *)
Definition ex_blocks (ex : stego_extracted) : Z :=
  match ex_data ex with Some _ => 1 | None => 0 end.

(** What decoding the file of a path computes when no allocation fails. *)
Definition decode_result (w : world) (path : option string) : stego_status + stego_extracted :=
  match png_load_result w path with
  | inl e => inl e
  | inr img => decode_image img
  end.

Definition decode_post (path : option string) (w : world)
    (r : stego_status + stego_extracted) (w' : world) : Prop :=
  match r with
  | inr ex => step (w_fs w) (ex_blocks ex) 0 w w' /\ decode_result w path = inr ex
  | inl e =>
      exists k, (0 <= k /\ (e <> STEGO_ERR_LIBPNG -> k = 0) /\ step (w_fs w) k 0 w w') /\
      (w_mallocs w = [] -> decode_result w path = inl e)
  end.

Lemma extract_bits_ok img n :
  image_wf img -> 0 <= n -> n <= image_data_bit_capacity img / 8 ->
  bytes_ok (extract_bits img n) /\ Z.of_nat (length (extract_bits img n)) = n.
Proof.
  intros Hwf Hn Hc. assert (8 * n < 2 ^ 64).
  { rewrite capacity_exact in Hc by done. destruct Hwf as [Hw Hh _ _ _ _].
    unfold PNG_USER_MAX in *. assert (img_width img * img_height img <= 1000000 * 1000000) by nia. zlia. }
  destruct (extract_bits_spec img n Hwf Hn ltac:(done)) as (H1 & H2 & _). done.
Qed.

Ltac dec_err :=
  wp_auto; exists 0; split; [split_and!; [lia|done|steps]|];
  intros Hmal;
  first [ no_malloc_failure
        | unfold decode_result; use_tests; unfold decode_image; cbv zeta; use_tests; done ].

Lemma stego_decode_spec path w :
  crc_inv (w_crc w) -> wp (stego_decode path) (decode_post path w) w.
Proof.
  intros Hcrc. unfold stego_decode, png_image_buf_free.
  destruct path as [path|].
  2: { wp_step. exists 0. split; [split_and!; [lia|done|apply step_refl]|done]. }
  apply wp_bind. eapply wp_conseq; [apply png_load_spec|]. intros [e|img] w1; cbn beta iota.
  { intros (He & k & Hs & Hpure). wp_step. exists k. split; [done|].
    intros Hm. unfold decode_result. by rewrite Hpure. }
  intros (Hwf & Hs1 & Hload). cbv zeta.
  wp_case; [dec_err|]. wp_case; [|dec_err]. wp_case; [|dec_err]. wp_case; [dec_err|].
  wp_step. wp_step. wp_case; [|dec_err]. wp_case; [dec_err|].
  wp_step. wp_step. wp_case; [|dec_err].
  wp_step. wp_step. wp_step. apply wp_crc32_of. intros c w5 Hs5 Hc. cbv beta.
  set (cl := 7 + _ + 4 + _ + 4) in *.
  assert (Hcl : 4 <= cl).
  { subst cl. pose proof (read_be16_bounded (drop 5 (extract_bits img 7))).
    match goal with |- context [read_be32 ?x] => assert (bounded 32 (read_be32 x)) end.
    { apply read_be32_bounded, Forall_drop. apply extract_bits_ok; [done| |lia].
      unfold bounded in *. lia. }
    unfold bounded in *. lia. }
  assert (Hcv : c = crc32_ref (take (Z.to_nat (cl - 4)) (extract_bits img cl))).
  { apply Hc; [revert Hcrc; keep_steps; split_steps; auto 30|].
    apply Forall_take. apply extract_bits_ok; [done|lia..]. }
  subst c. subst cl. wp_case; [|dec_err]. wp_case.
  - wp_step. wp_step. wp_case; [|dec_err]. wp_auto. unfold ex_blocks; cbn [ex_data]. split; [steps|].
    unfold decode_result. rewrite Hload. unfold decode_image. cbv zeta. use_tests. done.
  - wp_auto. unfold ex_blocks; cbn [ex_data]. split; [steps|].
    unfold decode_result. rewrite Hload. unfold decode_image. cbv zeta. use_tests. done.
Qed.
End png_specs.

(** ** What an image decodes to *)

Lemma extract_bits_take img n k :
  image_wf img -> 0 <= n <= k -> k <= image_data_bit_capacity img / 8 ->
  extract_bits img n = take (Z.to_nat n) (extract_bits img k).
Proof.
  intros Hwf Hn Hk. destruct (extract_bits_ok img k Hwf ltac:(lia) Hk) as [Hok Hlen].
  assert (H64 : 8 * k < 2 ^ 64).
  { rewrite capacity_exact in Hk by done. destruct Hwf as [Hw Hh _ _ _ _].
    unfold PNG_USER_MAX in *. assert (img_width img * img_height img <= 1000000 * 1000000) by nia. zlia. }
  destruct (extract_bits_spec img k Hwf ltac:(lia) H64) as (_ & _ & Hb).
  pose proof (rows_lsbs_length img Hwf) as Hl. set (lsbs := rows_lsbs _ _) in *.
  apply extract_bits_prefix; [done|done|lia|lia|]. fold lsbs. rewrite Hb.
  assert (Hz : (8 * Z.to_nat k <= length lsbs)%nat) by (revert Hk; zlia).
  rewrite length_take. replace (8 * Z.to_nat k - _)%nat with 0%nat by lia.
  rewrite app_nil_r. f_equal. lia.
Qed.

(** The fields of a container before its payload. *)
Definition container_header (type : stego_payload_type) (name : list Z) (payload_len : Z) : list Z :=
  STEGO_MAGIC ++ [payload_type_code type] ++ write_be16 (Z.of_nat (length name)) ++ name ++
  write_be32 payload_len.

Lemma container_body_header type name payload :
  container_body type name payload =
  container_header type name (Z.of_nat (length payload)) ++ payload.
Proof. unfold container_body, container_header. by rewrite <-!app_assoc. Qed.

Lemma container_header_length type name n : length (container_header type name n) = (11 + length name)%nat.
Proof. unfold container_header. rewrite !length_app. simpl. lia. Qed.

Lemma payload_type_of_code type : payload_type_of (payload_type_code type) = Some type.
Proof. by destruct type. Qed.

Definition extracted (type : stego_payload_type) (name payload : list Z) : stego_extracted :=
  StegoExtracted type (cstr_of_bytes (take 255 name))
    (if 0 <? Z.of_nat (length payload) then Some payload else None)
    (Z.of_nat (length payload)).

(** An image whose carriers start with a header, [n] payload bytes and four
    more bytes decodes to that payload when the last four are its checksum. *)
Lemma decode_image_header img type name payload crc :
  let X := container_header type name (Z.of_nat (length payload)) ++ payload ++ crc in
  image_wf img -> bytes_ok X -> length crc = 4%nat ->
  Z.of_nat (length name) < 2 ^ 16 -> Z.of_nat (length payload) < 2 ^ 32 ->
  8 * Z.of_nat (length X) <= image_data_bit_capacity img ->
  extract_bits img (Z.of_nat (length X)) = X ->
  decode_image img =
  if read_be32 crc =? crc32_ref (container_header type name (Z.of_nat (length payload)) ++ payload)
  then inr (extracted type name payload) else inl STEGO_ERR_CRC.
Proof.
  intros X Hwf Hok Hcrc Hname Hpl Hcap HX.
  assert (HlenX : length X = (15 + length name + length payload)%nat).
  { subst X. rewrite !length_app, container_header_length. lia. }
  assert (Havail : Z.of_nat (length X) <= image_data_bit_capacity img / 8) by zlia.
  assert (Hext : forall n, 0 <= n <= Z.of_nat (length X) ->
    extract_bits img n = take (Z.to_nat n) X).
  { intros n Hn. by rewrite (extract_bits_take img n (Z.of_nat (length X))), HX. }
  unfold decode_image, STEGO_HEADER_MIN_LEN. cbv zeta.
  destruct (Z.ltb_spec (image_data_bit_capacity img / 8) 15); [lia|].
  rewrite (Hext 7) by lia.
  assert (H7 : take (Z.to_nat 7) X =
    STEGO_MAGIC ++ [payload_type_code type] ++ write_be16 (Z.of_nat (length name))).
  { subst X. unfold container_header. rewrite <-!app_assoc, !app_assoc.
    rewrite <-!app_assoc. rewrite (app_assoc STEGO_MAGIC), (app_assoc (STEGO_MAGIC ++ _)).
    rewrite take_app_exact by done. by rewrite <-app_assoc. }
  rewrite H7, take_app_exact, bool_decide_true by done.
  change (byte_at _ 4) with (payload_type_code type).
  rewrite payload_type_of_code. cbn [negb].
  assert (H5 : read_be16 (drop 5 (STEGO_MAGIC ++ [payload_type_code type] ++
                 write_be16 (Z.of_nat (length name)))) = Z.of_nat (length name)).
  { rewrite app_assoc, drop_app_exact by done.
    rewrite <-(app_nil_r (write_be16 _)). apply read_write_be16. unfold bounded. lia. }
  rewrite H5. destruct (Z.ltb_spec (image_data_bit_capacity img / 8) (7 + Z.of_nat (length name) + 4)); [lia|].
  assert (H11 : drop (Z.to_nat (7 + Z.of_nat (length name)))
      (take (Z.to_nat (7 + Z.of_nat (length name) + 4)) X) = write_be32 (Z.of_nat (length payload))).
  { subst X. rewrite take_app_exact by (rewrite container_header_length; lia).
    unfold container_header. rewrite !app_assoc. apply drop_app_exact.
    rewrite !length_app. simpl. lia. }
  rewrite Hext, H11 by lia.
  rewrite <-(app_nil_r (write_be32 (Z.of_nat (length payload)))), read_write_be32
    by (unfold bounded; lia).
  set (cl := 7 + Z.of_nat (length name) + 4 + Z.of_nat (length payload) + 4).
  assert (Hcl : cl = Z.of_nat (length X)) by lia.
  destruct (Z.ltb_spec (image_data_bit_capacity img / 8) cl); [lia|].
  rewrite Hcl, HX.
  assert (Hlen4 : Z.to_nat (Z.of_nat (length X) - 4) =
    length (container_header type name (Z.of_nat (length payload)) ++ payload)).
  { rewrite length_app, container_header_length. lia. }
  rewrite Hlen4. subst X. rewrite app_assoc, drop_app_exact, take_app_exact by done.
  destruct (read_be32 crc =? _); cbn [negb]; [|done].
  unfold extracted. do 2 f_equal.
  - assert (H7d : drop 7 ((container_header type name (Z.of_nat (length payload)) ++ payload) ++ crc)
      = name ++ write_be32 (Z.of_nat (length payload)) ++ payload ++ crc).
    { unfold container_header. rewrite <-!app_assoc.
      rewrite (app_assoc STEGO_MAGIC), (app_assoc (STEGO_MAGIC ++ _)). by apply drop_app_exact. }
    rewrite H7d. destruct (Z.ltb_spec 0 (Z.of_nat (length name))) as [Hpos|Hz].
    + rewrite take_app_le by (destruct (Z.ltb_spec (Z.of_nat (length name)) 255); lia).
      destruct (Z.ltb_spec (Z.of_nat (length name)) 255); [|done].
      by rewrite !take_ge by lia.
    + destruct name; [done|simpl in Hz; lia].
  - destruct (0 <? Z.of_nat (length payload)); [|done]. f_equal.
    rewrite <-app_assoc, drop_app_exact by (rewrite container_header_length; lia).
    by rewrite take_app_exact by lia.
Qed.

(** The container of a payload, read back. *)
Lemma decode_image_container img type name payload :
  let C := container type name payload in
  image_wf img -> bytes_ok name -> bytes_ok payload ->
  Z.of_nat (length name) < 2 ^ 16 -> Z.of_nat (length payload) < 2 ^ 32 ->
  8 * Z.of_nat (length C) <= image_data_bit_capacity img ->
  extract_bits img (Z.of_nat (length C)) = C ->
  decode_image img = inr (extracted type name payload).
Proof.
  intros C Hwf Hn Hp Hnl Hpl Hcap HC.
  assert (HCeq : C = container_header type name (Z.of_nat (length payload)) ++ payload ++
    write_be32 (crc32_ref (container_body type name payload))).
  { subst C. unfold container. by rewrite container_body_header, <-app_assoc. }
  assert (HokC : bytes_ok C) by by apply container_ok.
  rewrite HCeq in HC, Hcap, HokC.
  rewrite (decode_image_header img type name payload _ Hwf HokC ltac:(done) Hnl Hpl Hcap HC).
  rewrite <-container_body_header, <-(app_nil_r (write_be32 _)), read_write_be32.
  - by rewrite Z.eqb_refl.
  - by apply crc32_ref_bounded, container_body_ok.
Qed.

(** Cutting a prefix at an offset. *)
Lemma cut_take {A} n (l : list A) m :
  (n <= m)%nat -> take m l = take n l ++ take (m - n) (drop n l).
Proof.
  intros H. rewrite <-(take_drop n l) at 1. rewrite take_app, take_take, length_take.
  rewrite (Nat.min_r m n) by done. f_equal.
  destruct (Nat.le_ge_cases n (length l)); [by rewrite Nat.min_l by done|].
  rewrite Nat.min_r, drop_ge by done. by rewrite !take_nil.
Qed.

Lemma payload_type_of_inv b type : payload_type_of b = Some type -> b = payload_type_code type.
Proof. unfold payload_type_of. destruct (Z.eqb_spec b 0), (Z.eqb_spec b 1); by intros [= <-]. Qed.

(** A seven-byte header is its magic, its type byte and its length field. *)
Lemma header7_inv h type :
  bytes_ok h -> length h = 7%nat -> take 4 h = STEGO_MAGIC ->
  payload_type_of (byte_at h 4) = Some type ->
  h = STEGO_MAGIC ++ [payload_type_code type] ++ write_be16 (read_be16 (drop 5 h)).
Proof.
  intros Hok Hlen Hm Ht. rewrite write_read_be16; [|by apply Forall_drop|rewrite length_drop; lia].
  rewrite <-Hm, <-(payload_type_of_inv _ _ Ht). unfold byte_at.
  destruct h as [|a [|b [|c [|d [|e [|f [|g [|? ?]]]]]]]]; done.
Qed.

(** Nothing else decodes: a successful decoding read a whole container, with
    its checksum, from the carriers of the image. *)
Lemma decode_image_inv img ex :
  image_wf img -> decode_image img = inr ex ->
  exists type name payload, let C := container type name payload in
    bytes_ok name /\ bytes_ok payload /\
    Z.of_nat (length name) < 2 ^ 16 /\ Z.of_nat (length payload) < 2 ^ 32 /\
    8 * Z.of_nat (length C) <= image_data_bit_capacity img /\
    extract_bits img (Z.of_nat (length C)) = C /\ ex = extracted type name payload.
Proof.
  intros Hwf Hdec. pose proof Hdec as Hdec0. revert Hdec.
  unfold decode_image, STEGO_HEADER_MIN_LEN. cbv zeta.
  set (avail := image_data_bit_capacity img / 8).
  destruct (Z.ltb_spec avail 15) as [|H15]; [done|].
  set (h := extract_bits img 7). case_bool_decide as Hm; [|done]. cbn [negb].
  destruct (payload_type_of (byte_at h 4)) as [type|] eqn:Ht; [|done].
  set (fl := read_be16 (drop 5 h)). destruct (Z.ltb_spec avail (7 + fl + 4)) as [|Hfl]; [done|].
  set (probe := extract_bits img (7 + fl + 4)).
  set (pl := read_be32 (drop (Z.to_nat (7 + fl)) probe)).
  set (cl := 7 + fl + 4 + pl + 4). destruct (Z.ltb_spec avail cl) as [|Hcl]; [done|].
  set (X := extract_bits img cl).
  destruct (Z.eqb_spec (read_be32 (drop (Z.to_nat (cl - 4)) X))
              (crc32_ref (take (Z.to_nat (cl - 4)) X))) as [Hcrc|]; [|done].
  cbn [negb]. intros _.
  assert (Hfb : 0 <= fl < 2 ^ 16) by apply read_be16_bounded.
  destruct (extract_bits_ok img (7 + fl + 4) Hwf ltac:(lia) Hfl) as [Hpok Hplen]. fold probe in Hpok, Hplen.
  assert (Hpb : 0 <= pl < 2 ^ 32) by (apply read_be32_bounded, Forall_drop, Hpok).
  destruct (extract_bits_ok img cl Hwf ltac:(lia) Hcl) as [HokX HlenX]. fold X in HokX, HlenX.
  assert (Hh : h = take 7 X) by (apply (extract_bits_take img 7 cl); [done|lia|done]).
  assert (Hprobe : probe = take (Z.to_nat (7 + fl + 4)) X)
    by (apply extract_bits_take; [done|lia|done]).
  assert (Hh7 := header7_inv h type ltac:(rewrite Hh; by apply Forall_take)
                   ltac:(rewrite Hh, length_take; lia) Hm Ht). fold fl in Hh7.
  set (name := take (Z.to_nat fl) (drop 7 X)).
  set (payload := take (Z.to_nat pl) (drop (Z.to_nat (7 + fl + 4)) X)).
  assert (Hnl : Z.of_nat (length name) = fl) by (subst name; rewrite length_take, length_drop; lia).
  assert (Hpyl : Z.of_nat (length payload) = pl) by (subst payload; rewrite length_take, length_drop; lia).
  assert (Hbe32 : write_be32 pl = take 4 (drop (Z.to_nat (7 + fl)) X)).
  { subst pl. rewrite write_read_be32.
    - rewrite Hprobe, !take_drop_commute, take_take. f_equal. f_equal. lia.
    - by apply Forall_drop.
    - rewrite length_drop. lia. }
  assert (Hbec : write_be32 (crc32_ref (take (Z.to_nat (cl - 4)) X)) = drop (Z.to_nat (cl - 4)) X).
  { rewrite <-Hcrc, write_read_be32.
    - apply take_ge. rewrite length_drop. lia.
    - by apply Forall_drop.
    - rewrite length_drop. lia. }
  assert (Hbody : take (Z.to_nat (cl - 4)) X = container_body type name payload).
  { rewrite container_body_header. unfold container_header. rewrite Hnl, Hpyl, Hbe32.
    rewrite <-!app_assoc, (app_assoc STEGO_MAGIC), (app_assoc (STEGO_MAGIC ++ _)), <-(app_assoc STEGO_MAGIC).
    rewrite <-Hh7, Hh. rewrite (cut_take 7 X (Z.to_nat (cl - 4))) by lia. f_equal.
    rewrite (cut_take (Z.to_nat fl) _ (Z.to_nat (cl - 4) - 7)) by lia. f_equal.
    rewrite drop_drop, (cut_take 4 _ (Z.to_nat (cl - 4) - 7 - Z.to_nat fl)) by lia.
    f_equal; [do 2 f_equal; lia|].
    rewrite drop_drop. subst payload. f_equal; [lia|]. f_equal. lia. }
  assert (HX : X = container type name payload).
  { unfold container. rewrite <-Hbody, Hbec. by rewrite take_drop. }
  assert (HlenC : Z.of_nat (length (container type name payload)) = cl) by by rewrite <-HX.
  exists type, name, payload. cbv zeta. rewrite HlenC. fold X.
  assert (Hcap : 8 * cl <= image_data_bit_capacity img) by (revert Hcl; subst avail; zlia).
  assert (Hnok : bytes_ok name) by (apply Forall_take, Forall_drop, HokX).
  assert (Hpyok : bytes_ok payload) by (apply Forall_take, Forall_drop, HokX).
  split_and!; [done|done|lia|lia|done|done|].
  enough (Heq : decode_image img = inr (extracted type name payload)) by congruence.
  apply decode_image_container; [done..|lia|lia| |]; rewrite HlenC; done.
Qed.
