(* ===== verification/PngToy.v ===== *)
(** * A concrete libpng

    An instance of [LibPng] for a format of uncompressed 8-bit RGB and RGBA
    images: the PNG signature, the width, the height, the number of channels
    and the rows.  It satisfies [LibPngLaws], so the theorems stated over these
    laws can be evaluated on concrete images. *)

From S2P Require Import Stego.
#[local] Open Scope Z_scope.

Definition toy_sig : list Z := [137; 80; 78; 71; 13; 10; 26; 10].

Definition toy_header (i : png_info) : list Z :=
  toy_sig ++ write_be32 (pi_width i) ++ write_be32 (pi_height i) ++ [pi_channels i].

Definition toy_info (w h ch : Z) : png_info :=
  PngInfo w h 8 (if ch =? 4 then PNG_COLOR_TYPE_RGB_ALPHA else PNG_COLOR_TYPE_RGB) ch false.

Fixpoint toy_rows (n : nat) (len : nat) (data : list Z) : list (list Z) :=
  match n with
  | O => []
  | S n => take len data :: toy_rows n len (drop len data)
  end.

(** The fields after the signature. *)
Definition toy_parse (data : list Z) : option (png_info * list (list Z)) :=
  let w := read_be32 (drop 8 data) in
  let h := read_be32 (drop 12 data) in
  let ch := byte_at data 16 in
  let pix := drop 17 data in
  if bool_decide (bytes_ok data) && ((ch =? 3) || (ch =? 4))
     && (0 <? w) && (w <=? PNG_USER_MAX) && (0 <? h) && (h <=? PNG_USER_MAX)
     && (Z.of_nat (length pix) =? h * (w * ch))
  then Some (toy_info w h ch, toy_rows (Z.to_nat h) (Z.to_nat (w * ch)) pix)
  else None.

#[export] Instance png_info_eq_dec : EqDecision png_info.
Proof. solve_decision. Defined.

#[export] Instance toy_png : LibPng := {
  png_sig_cmp s := negb (bool_decide (s = toy_sig));
  png_read_info data := fst <$> toy_parse data;
  png_read_update_info data tr := if tr is [] then fst <$> toy_parse data else None;
  png_read_image data tr := if tr is [] then snd <$> toy_parse data else None;
  png_read_end _ := true;
  png_write_stream i rows :=
    if bool_decide (toy_info (pi_width i) (pi_height i) (pi_channels i) = i)
    then Some (toy_header i ++ concat rows) else None
}.

Lemma toy_parse_Some data i rows :
  toy_parse data = Some (i, rows) ->
  exists w h ch pix, bytes_ok pix /\ (ch = 3 \/ ch = 4) /\ 0 < w <= PNG_USER_MAX /\
    0 < h <= PNG_USER_MAX /\ Z.of_nat (length pix) = h * (w * ch) /\
    i = toy_info w h ch /\ rows = toy_rows (Z.to_nat h) (Z.to_nat (w * ch)) pix.
Proof.
  unfold toy_parse. case_match eqn:E; [|done]. intros [= <- <-].
  rewrite !andb_true_iff, bool_decide_eq_true in E. destruct E as ((((((?&Hch)&?)&?)&?)&?)&?). apply orb_true_iff in Hch.
  exists (read_be32 (drop 8 data)), (read_be32 (drop 12 data)), (byte_at data 16), (drop 17 data).
  split; [by apply Forall_drop|]. split_and!; try done; lia.
Qed.

Lemma toy_rows_shape n len data :
  bytes_ok data -> length data = (n * len)%nat ->
  length (toy_rows n len data) = n /\
  Forall (fun row => length row = len /\ bytes_ok row) (toy_rows n len data).
Proof.
  revert data. induction n as [|n IH]; intros data Hok Hl; simpl; [by split|].
  destruct (IH (drop len data)) as [H1 H2].
  - by apply Forall_drop.
  - rewrite length_drop. lia.
  - split; [lia|]. constructor; [|done]. split; [rewrite length_take; lia|by apply Forall_take].
Qed.

Lemma toy_rows_concat n len rows :
  length rows = n -> Forall (fun row => length row = len) rows ->
  toy_rows n len (concat rows) = rows.
Proof.
  intros <- H. induction H as [|row rows Hl _ IH]; simpl; [done|].
  by rewrite take_app_exact, drop_app_exact, IH by done.
Qed.

Lemma concat_length len (rows : list (list Z)) :
  Forall (fun row => length row = len) rows -> length (concat rows) = (length rows * len)%nat.
Proof. induction 1 as [|row rows Hl _ IH]; simpl; [done|]. rewrite length_app. lia. Qed.

Lemma toy_parse_write w h ch rows :
  (ch = 3 \/ ch = 4) -> 0 < w <= PNG_USER_MAX -> 0 < h <= PNG_USER_MAX ->
  Z.of_nat (length rows) = h ->
  Forall (fun row => Z.of_nat (length row) = w * ch /\ bytes_ok row) rows ->
  toy_parse (toy_header (toy_info w h ch) ++ concat rows) = Some (toy_info w h ch, rows).
Proof.
  intros Hch Hw Hh Hl Hrows. unfold PNG_USER_MAX in *. unfold toy_parse, toy_header.
  cbn [pi_width pi_height pi_channels toy_info]. rewrite <-!app_assoc.
  assert (Hlen : Forall (fun row => length row = Z.to_nat (w * ch)) rows)
    by (eapply Forall_impl; [exact Hrows|]; simpl; intros ? [? _]; lia).
  assert (Hpix : bytes_ok (concat rows)).
  { unfold bytes_ok. rewrite Forall_concat. eapply Forall_impl; [exact Hrows|]. by intros ? [_ ?]. }
  rewrite (drop_app_exact toy_sig) by done. rewrite read_write_be32 by (unfold bounded; lia).
  rewrite (app_assoc toy_sig), (drop_app_exact (toy_sig ++ _)) by done.
  rewrite read_write_be32 by (unfold bounded; lia).
  rewrite (app_assoc (toy_sig ++ _)).
  change (byte_at (((toy_sig ++ write_be32 w) ++ write_be32 h) ++ [ch] ++ concat rows) 16) with ch.
  rewrite (app_assoc (_ ++ write_be32 h)), drop_app_exact by done.
  rewrite toy_rows_concat by (done || lia).
  rewrite bool_decide_true.
  - assert (Hcl : Z.of_nat (length (concat rows)) = h * (w * ch)).
    { rewrite (concat_length _ _ Hlen), <-Hl. destruct Hch as [-> | ->]; lia. }
    rewrite Hcl, Z.eqb_refl. unfold PNG_USER_MAX.
    rewrite !(proj2 (Z.ltb_lt _ _)), !(proj2 (Z.leb_le _ _)) by lia.
    by destruct Hch as [-> | ->].
  - unfold bytes_ok. rewrite !Forall_app. split_and!; try apply write_be32_ok; try done.
    + eapply bool_decide_unpack. vm_compute. exact I.
    + constructor; [|done]. unfold bounded. lia.
Qed.

#[local] Arguments toy_header : simpl never.
#[local] Arguments toy_parse : simpl never.

#[export] Instance toy_png_laws : LibPngLaws toy_png.
Proof.
  constructor; cbn -[toy_header toy_parse app toy_sig take].
  - intros data tr i rows Hi Hr _ _. destruct tr; [|done].
    destruct (toy_parse data) as [[i' rows']|] eqn:E; [|done]. simplify_eq/=.
    apply toy_parse_Some in E as (w & h & ch & pix & Hok & Hch & Hw & Hh & Hl & -> & ->). simpl.
    destruct (toy_rows_shape (Z.to_nat h) (Z.to_nat (w * ch)) pix Hok) as [H1 H2]; [nia|].
    split_and!; [lia..|]. eapply Forall_impl; [exact H2|]. simpl. intros row [Hrl Hro].
    split; [|done]. destruct Hch as [-> | ->]; lia.
  - intros data tr i j Hi Hj. destruct tr; [|done]. by simplify_eq.
  - intros i rows data Hw Hd Ht Hc Hiw Hih Hl Hrows. case_bool_decide as Hi; [|done].
    assert (Hdata : data = toy_header i ++ concat rows) by congruence. clear Hw.
    assert (Hp : toy_parse (toy_header i ++ concat rows) = Some (i, rows)).
    { pose proof (toy_parse_write (pi_width i) (pi_height i) (pi_channels i) rows) as Hp.
      rewrite Hi in Hp. apply Hp; try done. destruct Hc as [[? _]|[? _]]; lia. }
    assert (Hsig : take 8 (toy_header i ++ concat rows) = toy_sig) by reflexivity.
    rewrite Hdata, Hp, Hsig, bool_decide_true by done. split_and!; try done.
    unfold toy_header. rewrite !length_app. simpl. lia.
Qed.
