(* ===== verification/StegoCorrect.v ===== *)
(** * Correctness of the steganography module

    The theorems a caller of src/src/server/stego.c relies on: what an encode
    call leaves behind, that decoding returns what was encoded and nothing
    else, and that no handle or block is lost. *)

From S2P Require Import Stego PngToy.
#[local] Open Scope Z_scope.

#[local] Arguments png_load_result : simpl never.

Section correct.
Context `{Laws : LibPngLaws}.

(** ** Encoding a file *)

(** An encoding call between two steps that leave the files alone. *)
Lemma encode_post_frame i o C w w1 w2 w' rc a :
  step (w_fs w) a 0 w w1 -> encode_post i o C w1 rc w2 -> step (w_fs w2) (- a) 0 w2 w' ->
  encode_post i o C w rc w'.
Proof.
  intros H1 (k & fs' & Hk & Hk0 & Hs & Hf & Hok & Hres) H2.
  assert (Hfs : w_fs w1 = w_fs w) by (by destruct H1).
  assert (Hden : w_denied w1 = w_denied w) by (by destruct H1).
  assert (Hload : png_load_result w1 (Some i) = png_load_result w (Some i))
    by (unfold png_load_result; by rewrite Hfs, Hden).
  assert (Hio : w_io w1 <> [] -> w_io w <> []) by (intros Hne E; apply Hne; by destruct H1; auto).
  exists k, fs'. split_and!; try done.
  - assert (fs' = w_fs w2) by (by destruct Hs). subst. clear -H1 H2 Hs. steps.
  - by rewrite <-Hfs.
  - intros Hrc. destruct (Hok Hrc) as (img & data & kept & ? & ? & ? & Hfl & ? & ?).
    exists img, data, kept. rewrite <-Hden, <-Hfs, <-Hload. split_and!; try done.
    destruct Hfl as [->|[Hne Hn]]; [by left|right; auto].
  - intros Hm. assert (Hm1 : w_mallocs w1 = []) by (by destruct H1; auto). specialize (Hres Hm1).
    unfold encode_returns, encode_result, save_result in *. rewrite <-Hload, <-Hden.
    destruct Hres as [?|(? & ? & ?)]; [by left|right; auto].
Qed.

(** The read of a payload of [n] bytes. *)
Lemma wp_fread n w (Q : bool -> world -> Prop) :
  (forall (b : bool) w', step (w_fs w) 0 0 w w' -> (w_io w = [] -> b = true) -> Q b w') ->
  wp (if 0 <? n then stdio else mret true) Q w.
Proof.
  intros HQ. destruct (0 <? n); [by apply wp_stdio|]. apply HQ; [apply step_refl|done].
Qed.

Definition file_container (name : option string) (path : string) (data : list Z) : list Z :=
  container STEGO_PAYLOAD_FILE
    (stored_name STEGO_PAYLOAD_FILE (Some (default (basename path) name))) data.

Ltac io_err := wp_auto; right; split_and!; [done|intros ?; no_malloc_failure|steps].

Lemma stego_encode_file_spec i o p name data w :
  crc_inv (w_crc w) -> w_fs w !! p = Some data -> p ∉ w_denied w ->
  bytes_ok data -> Z.of_nat (length data) < 2 ^ 32 ->
  wp (stego_encode_file (Some i) (Some o) (Some p) name) (fun rc w' =>
    encode_post i o (file_container name p data) w rc w' \/
    (rc = STEGO_ERR_IO /\ w_io w <> [] /\ step (w_fs w) 0 0 w w')) w.
Proof.
  intros Hcrc Hp Hden Hok H32. unfold stego_encode_file.
  apply wp_bind, wp_fopen_rb; [|intros [?|?]; congruence].
  intros data' w1 Hp' _ Hs1. assert (data' = data) as -> by congruence. cbn beta iota.
  wp_step. wp_step. wp_case; [|io_err]. wp_step. wp_step. wp_case; [|io_err].
  wp_step. wp_step. wp_case; [|io_err]. wp_step. wp_step.
  set (fn := match name with Some _ => _ | None => _ end).
  match goal with |- context [negb ?b && _] => destruct b; cbn [negb andb] end;
    cbn beta iota.
  - wp_step. apply wp_fread. intros b w5 Hs5 Hb5. wp_case; [|io_err].
    wp_step. wp_step. wp_step. eapply wp_conseq.
    { apply encode_common_spec; [by repeat (eapply step_crc; [eassumption|])| | |done];
        simpl payload_arg; rewrite take_ge by lia; done. }
    intros rc w7 Hpost. simpl payload_arg in Hpost. rewrite take_ge in Hpost by lia.
    wp_auto. left. eapply (encode_post_frame _ _ _ _ _ _ _ _ 1); [|exact Hpost|eassumption]; steps.
  - wp_case; [wp_auto; left; apply (encode_post_fail _ _ _ _ _ _ 0); try done;
              [steps|intros ?; no_malloc_failure]|].
    assert (data = []) as -> by (apply nil_length_inv; lia).
    wp_step. wp_step. cbn [negb]. wp_step. wp_step. wp_step. eapply wp_conseq.
    { apply encode_common_spec; [by repeat (eapply step_crc; [eassumption|])|done..]. }
    intros rc w7 Hpost. wp_auto. left.
    eapply (encode_post_frame _ _ _ _ _ _ _ _ 0); [|exact Hpost|eassumption]; steps.
Qed.

(** ** The image an encode call writes *)

(** The same pixels under the header that is written. *)
Definition written_image (img : png_image_buf) : png_image_buf :=
  PngImage (img_width img) (img_height img) 8 (pi_color_type (ihdr_of img))
    (img_channels img) (img_rows img).

Lemma written_image_wf img : image_wf img -> image_wf (written_image img).
Proof. intros []. by constructor. Qed.

Lemma png_decode_written img data :
  image_wf img -> png_write_stream (ihdr_of img) (img_rows img) = Some data ->
  png_decode data = inr (written_image img).
Proof.
  intros Hwf Hw. destruct Hwf as [Hwd Hht Hch Hd Hl Hrow].
  assert (Hci : pi_channels (ihdr_of img) = img_channels img)
    by (unfold ihdr_of; by destruct Hch as [-> | ->]).
  destruct (png_write_read _ _ _ Hw) as (H8 & Hsig & Hi & Hu & Hr & He); try done.
  - unfold ihdr_of. destruct Hch as [-> | ->]; [by left|by right].
  - by rewrite Hci.
  - assert (Htr : load_transforms (ihdr_of img) = []).
    { unfold load_transforms, ihdr_of. by destruct (img_channels img =? 4). }
    unfold png_decode. rewrite (proj2 (Z.leb_le _ _) H8), Hsig, Hi, Htr, Hu, Hr, He. cbn [negb].
    unfold written_image. rewrite Hci.
    destruct Hch as [-> | ->]; done.
Qed.

(** A successful call writes the input image, with the container on its
    carriers; the output file has all of it if the last flush succeeded. *)
Lemma encode_post_OK i o C w w' :
  encode_post i o C w STEGO_OK w' ->
  exists img data kept, png_load_result w (Some i) = inr img /\ image_wf img /\
    8 * Z.of_nat (length C) <= image_data_bit_capacity img /\
    png_decode data = inr (written_image (embed_bits img C (Z.of_nat (length C)))) /\
    flushed w data kept /\ w_fs w' = <[o := kept]> (w_fs w) /\ (o ∉ w_denied w') /\
    (w_io w = [] -> png_load_result w' (Some o) =
      inr (written_image (embed_bits img C (Z.of_nat (length C))))).
Proof.
  intros (k & fs' & _ & Hk & Hs & _ & Hok & _).
  destruct (Hok eq_refl) as (img & data & kept & Hload & Hcap & Hw & Hkept & -> & Hden).
  assert (Hwf := png_load_result_wf _ _ _ Hload).
  assert (H64 : 8 * Z.of_nat (length C) < 2 ^ 64)
    by (pose proof (capacity_64 img Hwf); lia).
  assert (Hdec : png_decode data = inr (written_image (embed_bits img C (Z.of_nat (length C)))))
    by (apply png_decode_written; [by apply embed_bits_wf|done]).
  destruct Hs as [Hfs _ _ Hden' _ _ _].
  exists img, data, kept. rewrite Hden'. split_and!; try done. intros Hio.
  assert (kept = data) as -> by (destruct Hkept as [?|[? _]]; done).
  rewrite (load_readable _ _ data); [done|by rewrite Hfs, lookup_insert_eq|by rewrite Hden'].
Qed.

(** Decoding that file gives back what the container holds. *)
Lemma decode_encoded i o type name payload w w' :
  encode_post i o (container type name payload) w STEGO_OK w' -> w_io w = [] ->
  bytes_ok name -> bytes_ok payload ->
  Z.of_nat (length name) < 2 ^ 16 -> Z.of_nat (length payload) < 2 ^ 32 ->
  decode_result w' (Some o) = inr (extracted type name payload).
Proof.
  intros Hpost Hio Hn Hp Hnl Hpl.
  destruct (encode_post_OK _ _ _ _ _ Hpost) as (img & _ & _ & _ & Hwf & Hcap & _ & _ & _ & _ & Hload).
  specialize (Hload Hio).
  unfold decode_result. rewrite Hload. set (C := container type name payload) in *.
  assert (HC : bytes_ok C) by by apply container_ok.
  assert (H64 : 8 * Z.of_nat (length C) < 2 ^ 64)
    by (pose proof (capacity_64 img Hwf); lia).
  pose proof (written_image_wf _ (embed_bits_wf img C Hwf H64)) as Hwf'.
  apply decode_image_container; try done.
  by apply (extract_embedded img).
Qed.

(** Runs of the two calls. *)
Lemma stego_encode_text_run i o text w :
  crc_inv (w_crc w) -> bytes_ok text -> Z.of_nat (length text) < 2 ^ 32 ->
  exists rc w', stego_encode_text (Some i) (Some o) (Some text) (Z.of_nat (length text)) w = (rc, w') /\
    encode_post i o (container STEGO_PAYLOAD_TEXT [] text) w rc w'.
Proof.
  intros Hcrc Hok H32.
  assert (Harg : payload_arg (Some text) (Z.of_nat (length text)) = text)
    by (simpl; by rewrite take_ge by lia).
  pose proof (encode_common_spec i o STEGO_PAYLOAD_TEXT None (Some text) (Z.of_nat (length text)) w)
    as H. cbv zeta in H. rewrite Harg in H. specialize (H Hcrc Hok eq_refl H32).
  unfold wp in H. cbn [stego_encode_text]. destruct (encode_common _ _ _ _ _ _ w) as [rc w'].
  by exists rc, w'.
Qed.

Lemma stego_decode_run p w :
  crc_inv (w_crc w) ->
  exists r w', stego_decode p w = (r, w') /\ decode_post p w r w' /\
    (w_mallocs w = [] -> r = decode_result w p).
Proof.
  intros Hcrc. pose proof (stego_decode_spec p w Hcrc) as H. unfold wp in H.
  destruct (stego_decode p w) as [r w']. exists r, w'. split_and!; [done|done|].
  intros Hm. destruct r as [e|ex].
  - destruct H as (k & _ & H). by rewrite H.
  - by destruct H as [_ ->].
Qed.

(** With nothing in the way, the call succeeds. *)
Lemma encode_result_OK w i o C img :
  png_load_result w (Some i) = inr img ->
  8 * Z.of_nat (length C) <= image_data_bit_capacity img ->
  o ∉ w_denied w ->
  (forall img', image_wf img' -> png_write_stream (ihdr_of img') (img_rows img') <> None) ->
  encode_result w i o C = STEGO_OK.
Proof.
  intros Hload Hcap Ho Hwrite. unfold encode_result, save_result. rewrite Hload.
  rewrite (proj2 (Z.ltb_ge _ _)) by lia. rewrite decide_False by done.
  assert (Hwf := png_load_result_wf _ _ _ Hload).
  assert (H64 : 8 * Z.of_nat (length C) < 2 ^ 64)
    by (pose proof (capacity_64 img Hwf); lia).
  specialize (Hwrite _ (embed_bits_wf img C Hwf H64)). by case_match.
Qed.

Lemma encode_post_returns i o C w rc w' :
  encode_post i o C w rc w' -> w_mallocs w = [] -> w_io w = [] -> encode_result w i o C = STEGO_OK -> rc = STEGO_OK.
Proof. intros (? & ? & _ & _ & _ & _ & _ & Hres) Hm Hio <-. by destruct (Hres Hm) as [->|(_ & _ & ?)]. Qed.

(** What a successful encoding followed by a decoding returns, and that the
    only block left is the payload of the result. *)
Lemma encode_decode_run i o type name payload w w1 :
  encode_post i o (container type name payload) w STEGO_OK w1 ->
  crc_inv (w_crc w) -> w_mallocs w = [] -> w_io w = [] -> bytes_ok name -> bytes_ok payload ->
  Z.of_nat (length name) < 2 ^ 16 -> Z.of_nat (length payload) < 2 ^ 32 ->
  exists w2, stego_decode (Some o) w1 = (inr (extracted type name payload), w2) /\
    w_fs w2 = w_fs w1 /\ w_files w2 = w_files w /\
    w_live w2 = w_live w + ex_blocks (extracted type name payload).
Proof.
  intros Hpost Hcrc Hm Hio Hn Hp Hnl Hpl.
  pose proof (decode_encoded _ _ _ _ _ _ _ Hpost Hio Hn Hp Hnl Hpl) as Hdec.
  destruct Hpost as (k & fs' & _ & Hk & Hs & _).
  specialize (Hk ltac:(done)). subst k.
  destruct (stego_decode_run (Some o) w1) as (r & w2 & Hrun & Hpost & Hr); [by destruct Hs; auto|].
  rewrite Hr, Hdec in * by (destruct Hs; auto). exists w2. split; [done|].
  destruct Hpost as [Hs2 _]. destruct Hs, Hs2. split_and!; [done|lia|lia].
Qed.

Lemma cstr_of_name fn :
  no_nul fn -> cstr_of_bytes (take 255 (take 255 (bytes_of_string fn))) = str_take 255 fn.
Proof.
  intros Hn. rewrite take_take, Nat.min_id. change 255%nat with (Z.to_nat 255).
  generalize 255. induction fn as [|a fn IH]; intros n; simpl; [by rewrite take_nil|].
  inversion_clear Hn as [|? ? Ha Hfn]. destruct (Z.leb_spec n 0).
  { by replace (Z.to_nat n) with O by lia. }
  replace (Z.to_nat n) with (S (Z.to_nat (n - 1))) by lia. simpl.
  destruct (Z.eqb_spec (ord a) 0); [done|]. by rewrite chr_ord, IH.
Qed.

Lemma stego_get_capacity_spec p w :
  wp (stego_get_capacity p) (fun r w' =>
    match r with
    | inr cap => exists img, png_load_result w p = inr img /\ image_wf img /\
        step (w_fs w) 0 0 w w' /\
        cap_payload_max_bytes cap = Z.max 0 (image_data_bit_capacity img / 8 - 15) /\
        cap_width cap = img_width img /\ cap_height cap = img_height img /\
        cap_channels cap = img_channels img /\ cap_data_channels cap = 3
    | inl e => exists k, 0 <= k /\ (e <> STEGO_ERR_LIBPNG -> k = 0) /\ step (w_fs w) k 0 w w' /\
        (w_mallocs w = [] -> png_load_result w p = inl e)
    end) w.
Proof.
  unfold stego_get_capacity, png_image_buf_free. destruct p as [p|].
  2: { wp_step. exists 0. split_and!; [lia|done|apply step_refl|done]. }
  apply wp_bind. eapply wp_conseq; [apply png_load_spec|]. intros [e|img] w1; cbn beta iota.
  { intros (_ & k & (Hk & Hk0 & Hs) & Hpure). wp_step. by exists k. }
  intros (Hwf & Hs & Hload). cbv zeta. wp_step. wp_step. wp_step.
  exists img. unfold STEGO_HEADER_MIN_LEN, data_channels.
  cbn [cap_payload_max_bytes cap_width cap_height cap_channels cap_data_channels].
  split_and!; try done; [steps| |].
  - destruct (Z.ltb_spec 15 (image_data_bit_capacity img / 8)); lia.
  - destruct (wf_channels _ Hwf) as [-> | ->]; done.
Qed.

(** ** The properties *)

(** C8: a text encoded into an image that can hold it is decoded from the
    output file unchanged, and its block is all that is left allocated. *)
Theorem encode_text_then_decode i o text img w :
  crc_inv (w_crc w) -> w_mallocs w = [] -> w_io w = [] ->
  bytes_ok text -> Z.of_nat (length text) < 2 ^ 32 ->
  png_load_result w (Some i) = inr img ->
  8 * (15 + Z.of_nat (length text)) <= image_data_bit_capacity img ->
  o ∉ w_denied w ->
  (forall img', image_wf img' -> png_write_stream (ihdr_of img') (img_rows img') <> None) ->
  exists w1 w2,
    stego_encode_text (Some i) (Some o) (Some text) (Z.of_nat (length text)) w = (STEGO_OK, w1) /\
    stego_decode (Some o) w1 =
      (inr (StegoExtracted STEGO_PAYLOAD_TEXT EmptyString
              (if 0 <? Z.of_nat (length text) then Some text else None)
              (Z.of_nat (length text))), w2) /\
    w_fs w2 = w_fs w1 /\ w_files w2 = w_files w /\
    w_live w2 = w_live w + (if 0 <? Z.of_nat (length text) then 1 else 0).
Proof.
  intros Hcrc Hm Hio Hok H32 Hload Hcap Ho Hwrite.
  destruct (stego_encode_text_run i o text w Hcrc Hok H32) as (rc & w1 & Hrun & Hpost).
  assert (rc = STEGO_OK) as ->.
  { eapply encode_post_returns; [exact Hpost|done|done|]. eapply encode_result_OK; try done.
    rewrite container_length. simpl. lia. }
  destruct (encode_decode_run _ _ _ _ _ _ _ Hpost Hcrc Hm Hio ltac:(constructor) Hok ltac:(done) H32)
    as (w2 & Hdec & Hfs & Hf & Hl).
  exists w1, w2. split_and!; try done. rewrite Hl. unfold ex_blocks, extracted. cbn [ex_data].
  by destruct (0 <? _).
Qed.

(** C25: a file encoded into an image that can hold it is decoded with its
    contents and the first 255 bytes of the name it was stored under. *)
Theorem encode_file_then_decode i o p name data img w :
  let fn := default (basename p) name in
  crc_inv (w_crc w) -> w_mallocs w = [] -> w_io w = [] ->
  w_fs w !! p = Some data -> p ∉ w_denied w -> no_nul fn ->
  bytes_ok data -> Z.of_nat (length data) < 2 ^ 32 ->
  png_load_result w (Some i) = inr img ->
  8 * (15 + Z.min 255 (strlen fn) + Z.of_nat (length data)) <= image_data_bit_capacity img ->
  o ∉ w_denied w ->
  (forall img', image_wf img' -> png_write_stream (ihdr_of img') (img_rows img') <> None) ->
  exists w1 w2,
    stego_encode_file (Some i) (Some o) (Some p) name w = (STEGO_OK, w1) /\
    stego_decode (Some o) w1 =
      (inr (StegoExtracted STEGO_PAYLOAD_FILE (str_take 255 fn)
              (if 0 <? Z.of_nat (length data) then Some data else None)
              (Z.of_nat (length data))), w2).
Proof.
  intros fn Hcrc Hm Hio Hp Hden Hnul Hok H32 Hload Hcap Ho Hwrite.
  pose proof (stego_encode_file_spec i o p name data w Hcrc Hp Hden Hok H32) as H.
  unfold wp in H. destruct (stego_encode_file _ _ _ _ w) as [rc w1].
  destruct H as [Hpost|(_ & Hne & _)]; [|done].
  pose proof (stored_name_length STEGO_PAYLOAD_FILE (Some fn)) as Hsl.
  pose proof (stored_name_ok STEGO_PAYLOAD_FILE (Some fn)) as Hso.
  unfold file_container in Hpost. fold fn in Hpost.
  assert (rc = STEGO_OK) as ->.
  { eapply encode_post_returns; [exact Hpost|done|done|]. eapply encode_result_OK; try done.
    rewrite container_length. unfold strlen in Hcap.
    simpl stored_name. rewrite length_take, length_bytes_of_string. lia. }
  destruct (encode_decode_run _ _ _ _ _ _ _ Hpost Hcrc Hm Hio Hso Hok ltac:(lia) H32)
    as (w2 & Hdec & _).
  exists w1, w2. split; [done|]. rewrite Hdec. unfold extracted. do 3 f_equal.
  by apply cstr_of_name.
Qed.

(** C9: a decoding that succeeds read, from the first carriers of the image,
    one whole container with its checksum, and returns the fields of that
    container. *)
Theorem decode_sound p w ex w' :
  crc_inv (w_crc w) -> stego_decode p w = (inr ex, w') ->
  exists img type name payload, let C := container type name payload in
    png_load_result w p = inr img /\ bytes_ok name /\ bytes_ok payload /\
    8 * Z.of_nat (length C) <= image_data_bit_capacity img /\
    extract_bits img (Z.of_nat (length C)) = C /\
    ex_type ex = type /\ ex_filename ex = cstr_of_bytes (take 255 name) /\
    ex_data_len ex = Z.of_nat (length payload) /\ default [] (ex_data ex) = payload.
Proof.
  intros Hcrc Hrun. destruct (stego_decode_run p w Hcrc) as (r & w2 & Hrun' & Hpost & _).
  rewrite Hrun in Hrun'. simplify_eq. destruct Hpost as [_ Hres]. unfold decode_result in Hres.
  destruct (png_load_result w p) as [e|img] eqn:Hload; [done|].
  assert (Hwf := png_load_result_wf _ _ _ Hload).
  destruct (decode_image_inv img ex Hwf Hres) as
    (type & name & payload & Hn & Hp & _ & _ & Hcap & Hext & ->).
  exists img, type, name, payload. split_and!; try done. simpl.
  destruct payload; [done|]. by rewrite (proj2 (Z.ltb_lt _ _)) by (simpl; lia).
Qed.

(** C10: up to four consecutive bytes of the payload that changed inside an
    image are always noticed: decoding it reports [STEGO_ERR_CRC]. *)
Theorem decode_corrupted p w img type name pre good bad suf :
  let hdr := container_header type name (Z.of_nat (length (pre ++ good ++ suf))) in
  let crc := write_be32 (crc32_ref (container_body type name (pre ++ good ++ suf))) in
  let X := hdr ++ (pre ++ bad ++ suf) ++ crc in
  crc_inv (w_crc w) -> w_mallocs w = [] -> png_load_result w p = inr img ->
  bytes_ok name -> bytes_ok (pre ++ good ++ suf) -> bytes_ok bad ->
  Z.of_nat (length name) < 2 ^ 16 -> Z.of_nat (length (pre ++ good ++ suf)) < 2 ^ 32 ->
  length bad = length good -> (length good <= 4)%nat -> bad <> good ->
  8 * Z.of_nat (length X) <= image_data_bit_capacity img ->
  extract_bits img (Z.of_nat (length X)) = X ->
  exists w', stego_decode p w = (inl STEGO_ERR_CRC, w') /\
    w_live w' = w_live w /\ w_files w' = w_files w.
Proof.
  intros hdr crc X Hcrc Hm Hload Hn Hpay Hbad Hnl Hpl Hlen H4 Hne Hcap HX.
  assert (Hwf := png_load_result_wf _ _ _ Hload).
  unfold bytes_ok in Hpay. rewrite !Forall_app in Hpay. destruct Hpay as (Hpre & Hgood & Hsuf).
  assert (Hpay : bytes_ok (pre ++ good ++ suf)) by (unfold bytes_ok; rewrite !Forall_app; done).
  assert (Hpay' : bytes_ok (pre ++ bad ++ suf)) by (unfold bytes_ok; rewrite !Forall_app; done).
  assert (Hlen' : length (pre ++ bad ++ suf) = length (pre ++ good ++ suf))
    by (rewrite !length_app; lia).
  assert (Hbody : forall x, container_header type name (Z.of_nat (length (pre ++ good ++ suf))) ++
     pre ++ x ++ suf = (hdr ++ pre) ++ x ++ suf) by (intros; by rewrite <-app_assoc).
  assert (Hhdr : bytes_ok hdr).
  { pose proof (container_body_ok type name _ Hn Hpay) as H.
    rewrite container_body_header in H. by apply Forall_app in H as [H _]. }
  assert (HokX : bytes_ok X).
  { unfold X, bytes_ok. rewrite !Forall_app. split_and!; try done. apply write_be32_ok. }
  assert (Hres : decode_image img = inl STEGO_ERR_CRC).
  { subst X hdr. rewrite <-Hlen' in HokX, Hcap, HX, Hpl.
    rewrite (decode_image_header img type name _ crc Hwf HokX ltac:(done) Hnl Hpl Hcap HX).
    subst crc. rewrite <-(app_nil_r (write_be32 _)), read_write_be32
      by (by apply crc32_ref_bounded, container_body_ok).
    rewrite (proj2 (Z.eqb_neq _ _)); [done|].
    rewrite container_body_header, Hlen', !Hbody.
    apply crc32_ref_burst; try done; try lia; try by auto.
    by apply Forall_app. }
  destruct (stego_decode_run p w Hcrc) as (r & w' & Hrun & Hpost & Hr).
  specialize (Hr Hm). unfold decode_result in Hr. rewrite Hload, Hres in Hr. subst r.
  exists w'. split; [done|]. destruct Hpost as (k & (_ & Hk & Hs) & _).
  specialize (Hk ltac:(done)). destruct Hs. subst. lia.
Qed.

(** C30: the capacity reported for an image is exact: a non-empty text is
    refused for lack of room if and only if it is longer. *)
Theorem capacity_promise p o text cap w w1 rc w2 :
  crc_inv (w_crc w) -> w_mallocs w = [] -> bytes_ok text ->
  0 < Z.of_nat (length text) < 2 ^ 32 ->
  stego_get_capacity (Some p) w = (inr cap, w1) ->
  stego_encode_text (Some p) (Some o) (Some text) (Z.of_nat (length text)) w1 = (rc, w2) ->
  rc = STEGO_ERR_CAPACITY <-> cap_payload_max_bytes cap < Z.of_nat (length text).
Proof.
  intros Hcrc Hm Hok [Hpos H32] Hcap Henc.
  pose proof (wp_run _ _ _ _ _ (stego_get_capacity_spec (Some p) w) Hcap) as H.
  destruct H as (img & Hload & Hwf & Hs & Hmax & _).
  destruct (stego_encode_text_run p o text w1) as (rc' & w' & Hrun & Hpost);
    [by destruct Hs; auto|done|done|].
  rewrite Henc in Hrun. simplify_eq. rewrite Hmax.
  destruct Hpost as (? & ? & _ & _ & _ & _ & _ & Hres). specialize (Hres ltac:(by destruct Hs; auto)).
  assert (Hload' : png_load_result w1 (Some p) = inr img).
  { rewrite <-Hload. unfold png_load_result. by destruct Hs as [-> _ _ -> _ _ _]. }
  unfold encode_returns, encode_result in Hres. rewrite Hload', container_length in Hres. simpl length in Hres.
  destruct (Z.ltb_spec (image_data_bit_capacity img)
              (8 * Z.of_nat (15 + 0 + length text))) as [Hlt|Hge].
  - destruct Hres as [->|(_ & ? & _)]; [|done]. split; [intros _; zlia|done].
  - split; [|intros; exfalso; zlia]. intros ->. exfalso.
    destruct Hres as [Hres|[? _]]; [|done]. unfold save_result in Hres. repeat case_match; done.
Qed.


(** C40: the result of the [fclose] that ends the writing of an image is not
    looked at: when its flush fails after [n] bytes the call reports success
    all the same and leaves only these bytes; with fewer than eight of them the
    file is not even recognised as an image when it is decoded. *)
Theorem save_flush_unnoticed path img data n io w :
  crc_inv (w_crc w) -> w_mallocs w = [] -> path ∉ w_denied w ->
  png_write_stream (ihdr_of img) (img_rows img) = Some data ->
  w_io w = true :: false :: io -> hd 0%nat (w_kept w) = n ->
  exists w', png_save_rgb_or_rgba (Some path) img w = (STEGO_OK, w') /\
    w_fs w' !! path = Some (take n data) /\ w_files w' = w_files w /\ w_live w' = w_live w /\
    ((n < 8)%nat -> exists w'', stego_decode (Some path) w' = (inl STEGO_ERR_NOT_PNG, w'')).
Proof.
  intros Hcrc Hm Hden Hw Hio <-. destruct w as [fs den live files mal io0 kept crc]. cbn in *. subst mal io0.
  set (w' := World (<[path := take (hd 0%nat kept) data]> (<[path := []]> fs)) den (live + 1 + 1 - 2) (files + 1 - 1)
               [] io (tl kept) crc).
  exists w'. assert (Hrun : png_save_rgb_or_rgba (Some path) img
    (World fs den live files [] (true :: false :: io) kept crc) = (STEGO_OK, w')).
  { unfold png_save_rgb_or_rgba, mbind, M_bind, mret, M_ret, fopen_wb, malloc, stdio, free, flush, fclose. cbn -[ihdr_of].
    rewrite decide_False by done. cbn -[ihdr_of]. fold (ihdr_of img). by rewrite Hw. }
  split_and!; [done|apply lookup_insert_eq|cbn; lia|cbn; lia|]. intros Hn.
  destruct (stego_decode_run (Some path) w') as (r & w'' & Hdec & _ & Hr); [exact Hcrc|].
  exists w''. change (stego_decode (Some path) w' = (inl STEGO_ERR_NOT_PNG, w'')).
  rewrite Hdec, (Hr eq_refl). unfold decode_result.
  rewrite (load_readable _ _ (take (hd 0%nat kept) data)); [|apply lookup_insert_eq|done].
  unfold png_decode. rewrite (proj2 (Z.leb_gt _ _)); [done|]. rewrite length_take. lia.
Qed.

(** Decoding changes no file, closes every handle, and owns exactly the
    payload block it returns: freeing the result gives back the whole heap. *)
Theorem decode_no_leak p w r w' :
  crc_inv (w_crc w) -> stego_decode p w = (r, w') ->
  w_fs w' = w_fs w /\ w_files w' = w_files w /\
  match r with
  | inr ex => w_live (snd (stego_extracted_free ex w')) = w_live w
  | inl STEGO_ERR_LIBPNG => w_live w <= w_live w'
  | inl _ => w_live w' = w_live w
  end.
Proof.
  intros Hcrc Hrun. destruct (stego_decode_run p w Hcrc) as (r' & w1 & Hrun' & Hpost & _).
  rewrite Hrun in Hrun'. simplify_eq. destruct r' as [e|ex].
  - destruct Hpost as (k & (Hk & Hk0 & Hs) & _). destruct Hs as [Hfs Hl Hf _ _ _ _].
    split_and!; [done|lia|]. destruct e; (rewrite Hl, Hk0 by done; lia) || lia.
  - destruct Hpost as [Hs _]. destruct Hs as [Hfs Hl Hf _ _ _ _].
    split_and!; [done|lia|]. unfold stego_extracted_free, ex_blocks in *. simpl. lia.
Qed.

(** C32: encoding is invisible: the image that a successful call writes has the
    dimensions and channels of the input, every byte of it differs from the
    input at most in its lowest bit, and the alpha channel does not change at
    all; the output file holds that image, or a beginning of it when the last
    flush failed. *)
Theorem encode_only_low_bits i o text w w' :
  crc_inv (w_crc w) -> bytes_ok text -> Z.of_nat (length text) < 2 ^ 32 ->
  stego_encode_text (Some i) (Some o) (Some text) (Z.of_nat (length text)) w = (STEGO_OK, w') ->
  exists img img' data kept, png_load_result w (Some i) = inr img /\ png_decode data = inr img' /\
    w_fs w' !! o = Some kept /\ flushed w data kept /\
    (w_io w = [] -> png_load_result w' (Some o) = inr img') /\
    img_width img' = img_width img /\ img_height img' = img_height img /\
    img_channels img' = img_channels img /\
    forall y x row p, img_rows img !! y = Some row -> row !! x = Some p ->
      exists row' p', img_rows img' !! y = Some row' /\ row' !! x = Some p' /\
        p' / 2 = p / 2 /\ (img_channels img = 4 -> Z.of_nat x mod 4 = 3 -> p' = p).
Proof.
  intros Hcrc Hok H32 Henc.
  destruct (stego_encode_text_run i o text w Hcrc Hok H32) as (rc' & w1 & Hrun & Hpost).
  rewrite Henc in Hrun. simplify_eq.
  destruct (encode_post_OK _ _ _ _ _ Hpost) as (img & data & kept & Hload & Hwf & Hcap & Hdec & Hfl & Hfs & _ & Hload').
  eexists img, _, data, kept. split; [done|]. split; [exact Hdec|]. rewrite Hfs, lookup_insert_eq. split_and!; try done.
  intros y x row p Hy Hx.
  assert (H64 : 8 * Z.of_nat (length (container STEGO_PAYLOAD_TEXT [] text)) < 2 ^ 64)
    by (pose proof (capacity_64 img Hwf); lia).
  destruct (embed_bits_pixel img _ y row x p Hwf H64 Hy Hx) as (row' & p' & Hr' & Hp' & _ & Hs & Ha).
  exists row', p'. split_and!; try done. rewrite !Z.shiftr_div_pow2 in Hs by lia. exact Hs.
Qed.

(** C33: when libpng reports an error while it reads the pixels, the [setjmp]
    block does not know the rows: they stay allocated. *)
Theorem png_load_leaks_rows path data info info' w :
  w_mallocs w = [] -> w_fs w !! path = Some data -> path ∉ w_denied w ->
  8 <= Z.of_nat (length data) -> png_sig_cmp (take 8 data) = false ->
  png_read_info data = Some info ->
  png_read_update_info data (load_transforms info) = Some info' ->
  pi_bit_depth info' = 8 -> pi_channels info' = 3 \/ pi_channels info' = 4 ->
  0 <= pi_height info ->
  png_read_image data (load_transforms info) = None ->
  wp (png_load_rgb_or_rgba (Some path)) (fun r w' =>
    r = inl STEGO_ERR_LIBPNG /\ w_live w' = w_live w + (pi_height info + 1) /\
    w_files w' = w_files w) w.
Proof.
  intros Hm Hp Hden H8 Hsig Hi Hu Hd Hc Hh Hr. unfold png_load_rgb_or_rgba, destroy_read.
  apply wp_bind, wp_fopen_rb; [|intros [?|?]; congruence].
  intros data' w1 Hp' _ Hs1. assert (data' = data) as -> by congruence. cbv beta iota zeta.
  rewrite (proj2 (Z.leb_le _ _) H8), Hsig. cbn [negb].
  wp_step. wp_step. wp_case; [|no_malloc_failure]. wp_step. wp_step. wp_case; [|no_malloc_failure].
  rewrite Hi, Hu, Hd.
  assert (Hch : (negb (pi_channels info' =? 3) && negb (pi_channels info' =? 4)) = false)
    by (destruct Hc as [-> | ->]; done).
  rewrite Hch, Z.eqb_refl. cbn [negb orb]. wp_step. wp_step. wp_case; [|no_malloc_failure].
  apply wp_bind. eapply wp_conseq; [apply alloc_rows_spec; lia|]. intros b w5 [Hs5 Hb5].
  wp_case; [|no_malloc_failure]. rewrite Hr. wp_auto. split; [done|].
  clear -Hs1 H H1 H3 Hs5 H5 H6 Hh. split_steps. split; lia.
Qed.
End correct.

(** ** Concrete images

    A world whose only PNG file is a [side] by [side] RGB image of one
    colour. *)

Definition demo_png (side : Z) : list Z :=
  toy_header (toy_info side side 3) ++ replicate (Z.to_nat (side * (side * 3))) 200.

Definition demo_world (fs : gmap string (list Z)) : world :=
  World fs ∅ 0 0 [] [] [] crc_global_init.

Lemma toy_writes img :
  image_wf img -> png_write_stream (ihdr_of img) (img_rows img) <> None.
Proof.
  intros _. cbn -[toy_header]. rewrite bool_decide_true; [done|].
  unfold ihdr_of, toy_info. by destruct (img_channels img =? 4).
Qed.

Lemma encode_text_then_decode_witness :
  let w := demo_world {["in.png" := demo_png 7]} in
  exists w1 w2,
    stego_encode_text (Some "in.png"%string) (Some "out.png"%string) (Some [72; 105]) 2 w = (STEGO_OK, w1) /\
    stego_decode (Some "out.png"%string) w1 =
      (inr (StegoExtracted STEGO_PAYLOAD_TEXT EmptyString (Some [72; 105]) 2), w2) /\
    w_fs w2 = w_fs w1 /\ w_files w2 = w_files w /\ w_live w2 = w_live w + 1.
Proof.
  eapply (encode_text_then_decode "in.png" "out.png" [72; 105]).
  - exact crc_inv_init.
  - reflexivity.
  - reflexivity.
  - eapply bool_decide_unpack. vm_compute. exact I.
  - reflexivity.
  - vm_compute. reflexivity.
  - vm_compute. discriminate.
  - vm_compute. set_solver.
  - exact toy_writes.
Defined.

Ltac by_computing :=
  first [ exact crc_inv_init
        | eapply bool_decide_unpack; vm_compute; exact I
        | vm_compute; first [reflexivity | discriminate | split; reflexivity] ].

Lemma encode_file_then_decode_witness :
  let w := demo_world {["in.png" := demo_png 8; "dir/n.txt" := [10; 0; 255]]} in
  exists w1 w2,
    stego_encode_file (Some "in.png"%string) (Some "out.png"%string) (Some "dir/n.txt"%string) None w
      = (STEGO_OK, w1) /\
    stego_decode (Some "out.png"%string) w1 =
      (inr (StegoExtracted STEGO_PAYLOAD_FILE "n.txt" (Some [10; 0; 255]) 3), w2).
Proof.
  eapply (encode_file_then_decode "in.png" "out.png" "dir/n.txt" None [10; 0; 255]);
    try by_computing. exact toy_writes.
Defined.

(** An image of one colour with a byte string on its carriers. *)
Definition demo_image (side : Z) : png_image_buf :=
  PngImage side side 8 PNG_COLOR_TYPE_RGB 3
    (replicate (Z.to_nat side) (replicate (Z.to_nat (side * 3)) 200)).

Definition demo_carrying (side : Z) (X : list Z) : list Z :=
  toy_header (toy_info side side 3) ++
  concat (img_rows (embed_bits (demo_image side) X (Z.of_nat (length X)))).

Lemma decode_sound_witness :
  let w := demo_world {["s.png" := demo_carrying 7 (container STEGO_PAYLOAD_TEXT [] [7])]} in
  let ex := StegoExtracted STEGO_PAYLOAD_TEXT EmptyString (Some [7]) 1 in
  exists img type name payload, let C := container type name payload in
    png_load_result w (Some "s.png"%string) = inr img /\ bytes_ok name /\ bytes_ok payload /\
    8 * Z.of_nat (length C) <= image_data_bit_capacity img /\
    extract_bits img (Z.of_nat (length C)) = C /\
    ex_type ex = type /\ ex_filename ex = cstr_of_bytes (take 255 name) /\
    ex_data_len ex = Z.of_nat (length payload) /\ default [] (ex_data ex) = payload.
Proof.
  intros w ex. apply (decode_sound _ _ _ (snd (stego_decode (Some "s.png"%string) w))).
  - exact crc_inv_init.
  - vm_compute. reflexivity.
Defined.

Lemma decode_corrupted_witness :
  let X := container_header STEGO_PAYLOAD_TEXT [] 2 ++ [72; 73] ++
           write_be32 (crc32_ref (container_body STEGO_PAYLOAD_TEXT [] [72; 105])) in
  let w := demo_world {["s.png" := demo_carrying 7 X]} in
  exists w', stego_decode (Some "s.png"%string) w = (inl STEGO_ERR_CRC, w') /\
    w_live w' = w_live w /\ w_files w' = w_files w.
Proof.
  intros X w.
  apply (decode_corrupted (Some "s.png"%string) w (embed_bits (demo_image 7) X (Z.of_nat (length X)))
           STEGO_PAYLOAD_TEXT [] [72] [105] [73] []); by_computing.
Defined.

Lemma capacity_promise_witness :
  let w := demo_world {["in.png" := demo_png 7]} in
  STEGO_ERR_CAPACITY = STEGO_ERR_CAPACITY <-> 3 < 4.
Proof.
  intros w.
  apply (capacity_promise "in.png" "out.png" [1; 2; 3; 4] (StegoCapacity 3 7 7 3 3)
    w (snd (stego_get_capacity (Some "in.png"%string) w)) STEGO_ERR_CAPACITY
    (snd (stego_encode_text (Some "in.png"%string) (Some "out.png"%string) (Some [1; 2; 3; 4]) 4
       (snd (stego_get_capacity (Some "in.png"%string) w))))); by_computing.
Defined.


Lemma save_flush_unnoticed_witness :
  let img := demo_image 2 in
  let w := set_kept (set_io (demo_world {["out.png" := [1]]}) [true; false]) [5%nat] in
  let data := default [] (png_write_stream (ihdr_of img) (img_rows img)) in
  exists w', png_save_rgb_or_rgba (Some "out.png"%string) img w = (STEGO_OK, w') /\
    w_fs w' !! "out.png"%string = Some (take 5 data) /\ w_files w' = w_files w /\ w_live w' = w_live w /\
    ((5 < 8)%nat -> exists w'', stego_decode (Some "out.png"%string) w' = (inl STEGO_ERR_NOT_PNG, w'')).
Proof.
  intros img w data. apply (save_flush_unnoticed "out.png" img data 5 [] w); by_computing.
Defined.

Lemma decode_no_leak_witness :
  let w := demo_world {["s.png" := demo_carrying 7 (container STEGO_PAYLOAD_TEXT [] [7])]} in
  let ex := StegoExtracted STEGO_PAYLOAD_TEXT EmptyString (Some [7]) 1 in
  let w' := snd (stego_decode (Some "s.png"%string) w) in
  w_fs w' = w_fs w /\ w_files w' = w_files w /\
  w_live (snd (stego_extracted_free ex w')) = w_live w.
Proof.
  intros w ex w'. apply (decode_no_leak (Some "s.png"%string) w (inr ex) w').
  - exact crc_inv_init.
  - vm_compute. reflexivity.
Defined.

Lemma encode_only_low_bits_witness :
  let w := demo_world {["in.png" := demo_png 7]} in
  let w' := snd (stego_encode_text (Some "in.png"%string) (Some "out.png"%string) (Some [1]) 1 w) in
  exists img img' data kept, png_load_result w (Some "in.png"%string) = inr img /\ png_decode data = inr img' /\
    w_fs w' !! "out.png"%string = Some kept /\ flushed w data kept /\
    (w_io w = [] -> png_load_result w' (Some "out.png"%string) = inr img') /\
    img_width img' = img_width img /\ img_height img' = img_height img /\
    img_channels img' = img_channels img /\
    forall y x row p, img_rows img !! y = Some row -> row !! x = Some p ->
      exists row' p', img_rows img' !! y = Some row' /\ row' !! x = Some p' /\
        p' / 2 = p / 2 /\ (img_channels img = 4 -> Z.of_nat x mod 4 = 3 -> p' = p).
Proof.
  intros w w'. apply (encode_only_low_bits "in.png" "out.png" [1]); try by_computing.
Defined.

(** A libpng that fails on the pixel data. *)
Definition toy_broken : LibPng := {|
  png_sig_cmp := png_sig_cmp;
  png_read_info := png_read_info;
  png_read_update_info := png_read_update_info;
  png_read_image := fun _ _ => None;
  png_read_end := png_read_end;
  png_write_stream := png_write_stream
|}.

Lemma png_load_leaks_rows_witness :
  let w := demo_world {["in.png" := demo_png 7]} in
  wp (@png_load_rgb_or_rgba toy_broken (Some "in.png"%string)) (fun r w' =>
    r = inl STEGO_ERR_LIBPNG /\ w_live w' = w_live w + (7 + 1) /\ w_files w' = w_files w) w.
Proof.
  apply (@png_load_leaks_rows toy_broken "in.png" (demo_png 7) (toy_info 7 7 3) (toy_info 7 7 3));
    by_computing.
Defined.
