(* ===== verification/Protocol.v ===== *)
(** * The text protocol (src/src/server/protocol.c, include/protocol.h)

    One line of text is one request.  A line is a C string, [None] for
    [NULL]. *)

From S2P Require Export CString.
#[local] Open Scope Z_scope.

Definition BUFFER_SIZE : Z := 4096.

Inductive client_type := CLIENT_TYPE_UNKNOWN | CLIENT_TYPE_USER | CLIENT_TYPE_ADMIN.

#[export] Instance client_type_eq_dec : EqDecision client_type.
Proof. solve_decision. Defined.

Inductive protocol_command :=
  | PROTO_CMD_UNKNOWN | PROTO_CMD_PING | PROTO_CMD_QUIT | PROTO_CMD_SUBMIT
  | PROTO_CMD_STATUS | PROTO_CMD_RESULT | PROTO_CMD_CANCEL | PROTO_CMD_LISTJOBS
  | PROTO_CMD_STATS | PROTO_CMD_VALIDATE_IMAGE | PROTO_CMD_ANALYZE_CAPACITY
  | PROTO_CMD_ENCODE_TEXT | PROTO_CMD_ENCODE_FILE | PROTO_CMD_DECODE
  | PROTO_CMD_VALIDATE | PROTO_CMD_CAPACITY | PROTO_CMD_META | PROTO_CMD_DOWNLOAD
  | PROTO_CMD_LISTCLIENTS | PROTO_CMD_HISTORY | PROTO_CMD_KICK | PROTO_CMD_BLOCKIP
  | PROTO_CMD_UNBLOCKIP | PROTO_CMD_AVGDURATION | PROTO_CMD_HELP.

#[export] Instance protocol_command_eq_dec : EqDecision protocol_command.
Proof. solve_decision. Defined.

(** [argument2] is never written. *)
Record protocol_request := Request {
  rq_command : protocol_command;
  rq_job_id : Z;
  rq_size1 : Z;
  rq_size2 : Z;
  rq_size3 : Z;
  rq_argument1 : string;
  rq_argument2 : string
}.

(** ** Lexical helpers *)

(** [trim_newline]: one final newline is removed. *)
Fixpoint trim_newline (text : string) : string :=
  match text with
  | EmptyString => EmptyString
  | String a EmptyString => if decide (a = NL) then EmptyString else text
  | String a t => String a (trim_newline t)
  end.

(** [starts_with] and the text [copy + n] after the prefix. *)
Definition starts_with (s prefix : string) : option string := strip_prefix prefix s.

(** [parse_u64]: the value and the text at [*end]. *)
Definition parse_u64 (s : string) : option (Z * string) :=
  let r := strtoull s in
  if st_erange r || negb (st_any r) then None else Some (st_value r, st_end r).

Fixpoint skip_ws (p : string) : string :=
  match p with
  | String a t => if (ord a =? 32) || (ord a =? 9) then skip_ws t else p
  | EmptyString => p
  end.

(** ** The parser *)

(** The request after [memset] with a command and some fields set. *)
Definition req (c : protocol_command) : protocol_request := Request c 0 0 0 0 EmptyString EmptyString.
Definition req_id (c : protocol_command) (id : Z) : protocol_request :=
  Request c id 0 0 0 EmptyString EmptyString.
Definition req_size (c : protocol_command) (n : Z) : protocol_request :=
  Request c 0 n 0 0 EmptyString EmptyString.
Definition req_arg (c : protocol_command) (text : string) : protocol_request :=
  Request c 0 0 0 0 (snprintf_s BUFFER_SIZE text) EmptyString.

(** The two sizes of [ENCODE_TEXT]; a size parsed before the error stays in
    the request. *)
Definition parse_encode_text (p : string) : protocol_request :=
  match parse_u64 p with
  | None => req PROTO_CMD_UNKNOWN
  | Some (n1, e) =>
      match parse_u64 (skip_ws e) with
      | None => req_size PROTO_CMD_UNKNOWN n1
      | Some (n2, _) => Request PROTO_CMD_ENCODE_TEXT 0 n1 n2 0 EmptyString EmptyString
      end
  end.

Definition parse_encode_file (p : string) : protocol_request :=
  match parse_u64 p with
  | None => req PROTO_CMD_UNKNOWN
  | Some (n1, e) =>
      match parse_u64 (skip_ws e) with
      | None => req_size PROTO_CMD_UNKNOWN n1
      | Some (n2, e) =>
          match parse_u64 (skip_ws e) with
          | None => Request PROTO_CMD_UNKNOWN 0 n1 n2 0 EmptyString EmptyString
          | Some (n3, _) => Request PROTO_CMD_ENCODE_FILE 0 n1 n2 n3 EmptyString EmptyString
          end
      end
  end.

(** The commands that are a whole line, in the order of the tests. *)
Definition plain_commands : list (string * protocol_command) :=
  [("PING", PROTO_CMD_PING); ("QUIT", PROTO_CMD_QUIT); ("LISTJOBS", PROTO_CMD_LISTJOBS);
   ("STATS", PROTO_CMD_STATS); ("LISTCLIENTS", PROTO_CMD_LISTCLIENTS);
   ("HISTORY", PROTO_CMD_HISTORY); ("AVGDURATION", PROTO_CMD_AVGDURATION);
   ("HELP", PROTO_CMD_HELP)]%string.

Definition id_request (c : protocol_command) (t : string) : protocol_request :=
  req_id c (st_value (strtoull t)).
Definition size_request (c : protocol_command) (t : string) : protocol_request :=
  req_size c (st_value (strtoull t)).

(** The commands with arguments, in the order of the tests, and how the rest
    of the line is read. *)
Definition prefixed_commands : list (string * (string -> protocol_request)) :=
  [("SUBMIT ", req_arg PROTO_CMD_SUBMIT);
   ("STATUS ", id_request PROTO_CMD_STATUS);
   ("RESULT ", id_request PROTO_CMD_RESULT);
   ("CANCEL ", id_request PROTO_CMD_CANCEL);
   ("VALIDATE_IMAGE ", req_arg PROTO_CMD_VALIDATE_IMAGE);
   ("ANALYZE_CAPACITY ", req_arg PROTO_CMD_ANALYZE_CAPACITY);
   ("ENCODE_TEXT ", parse_encode_text);
   ("ENCODE_FILE ", parse_encode_file);
   ("DECODE ", size_request PROTO_CMD_DECODE);
   ("VALIDATE ", size_request PROTO_CMD_VALIDATE);
   ("CAPACITY ", size_request PROTO_CMD_CAPACITY);
   ("META ", id_request PROTO_CMD_META);
   ("DOWNLOAD ", id_request PROTO_CMD_DOWNLOAD);
   ("KICK ", req_arg PROTO_CMD_KICK);
   ("BLOCKIP ", req_arg PROTO_CMD_BLOCKIP);
   ("UNBLOCKIP ", req_arg PROTO_CMD_UNBLOCKIP)]%string.

Fixpoint match_plain (cs : list (string * protocol_command)) (copy : string)
    : option protocol_request :=
  match cs with
  | [] => None
  | (name, c) :: cs => if String.eqb copy name then Some (req c) else match_plain cs copy
  end.

Fixpoint match_prefixed (cs : list (string * (string -> protocol_request))) (copy : string)
    : option protocol_request :=
  match cs with
  | [] => None
  | (prefix, read) :: cs =>
      match starts_with copy prefix with
      | Some rest => Some (read rest)
      | None => match_prefixed cs copy
      end
  end.

(** [protocol_parse_line]: [None] is the result [-1]. *)
Definition protocol_parse_line (line : option string) : option protocol_request :=
  match line with
  | None => None
  | Some line =>
      let copy := trim_newline (snprintf_s BUFFER_SIZE line) in
      match match_plain plain_commands copy with
      | Some r => Some r
      | None =>
          match match_prefixed prefixed_commands copy with
          | Some r => Some r
          | None => Some (req PROTO_CMD_UNKNOWN)
          end
      end
  end.

(** ** What clients send *)

(** The line of a request, as the clients of the repository print it. *)
Definition print_request (r : protocol_request) : string :=
  let id name := (name +:+ " " +:+ print_u (rq_job_id r))%string in
  let size name := (name +:+ " " +:+ print_u (rq_size1 r))%string in
  let arg name := (name +:+ " " +:+ rq_argument1 r)%string in
  (match rq_command r with
   | PROTO_CMD_UNKNOWN => "?"
   | PROTO_CMD_PING => "PING"
   | PROTO_CMD_QUIT => "QUIT"
   | PROTO_CMD_SUBMIT => arg "SUBMIT"
   | PROTO_CMD_STATUS => id "STATUS"
   | PROTO_CMD_RESULT => id "RESULT"
   | PROTO_CMD_CANCEL => id "CANCEL"
   | PROTO_CMD_LISTJOBS => "LISTJOBS"
   | PROTO_CMD_STATS => "STATS"
   | PROTO_CMD_VALIDATE_IMAGE => arg "VALIDATE_IMAGE"
   | PROTO_CMD_ANALYZE_CAPACITY => arg "ANALYZE_CAPACITY"
   | PROTO_CMD_ENCODE_TEXT => size "ENCODE_TEXT" +:+ " " +:+ print_u (rq_size2 r)
   | PROTO_CMD_ENCODE_FILE =>
       size "ENCODE_FILE" +:+ " " +:+ print_u (rq_size2 r) +:+ " " +:+ print_u (rq_size3 r)
   | PROTO_CMD_DECODE => size "DECODE"
   | PROTO_CMD_VALIDATE => size "VALIDATE"
   | PROTO_CMD_CAPACITY => size "CAPACITY"
   | PROTO_CMD_META => id "META"
   | PROTO_CMD_DOWNLOAD => id "DOWNLOAD"
   | PROTO_CMD_LISTCLIENTS => "LISTCLIENTS"
   | PROTO_CMD_HISTORY => "HISTORY"
   | PROTO_CMD_KICK => arg "KICK"
   | PROTO_CMD_BLOCKIP => arg "BLOCKIP"
   | PROTO_CMD_UNBLOCKIP => arg "UNBLOCKIP"
   | PROTO_CMD_AVGDURATION => "AVGDURATION"
   | PROTO_CMD_HELP => "HELP"
   end +:+ nl)%string.

(** ** Lemmas *)

Lemma trim_newline_nl s : trim_newline (s +:+ nl) = s.
Proof.
  induction s as [|a s IH]; [done|].
  change (trim_newline (String a (s +:+ nl)) = String a s).
  destruct s as [|b s]; [done|]. simpl in *. by rewrite IH.
Qed.

(** The numbers of a request are read back, whatever separates them. *)
Lemma parse_u64_print n s :
  bounded 64 n -> head_is_digit s = false -> parse_u64 (print_u n +:+ s) = Some (n, s).
Proof. intros Hn Hs. unfold parse_u64. by rewrite strtoull_print. Qed.

Lemma strtoull_print_end n : bounded 64 n -> st_value (strtoull (print_u n)) = n.
Proof. intros Hn. by rewrite <-(append_nil_r (print_u n)), strtoull_print. Qed.

Lemma parse_u64_print_end n : bounded 64 n -> parse_u64 (print_u n) = Some (n, EmptyString).
Proof. intros Hn. by rewrite <-(append_nil_r (print_u n)), parse_u64_print. Qed.

Lemma skip_ws_print n s : 0 <= n -> skip_ws (" " +:+ print_u n +:+ s) = print_u n +:+ s.
Proof.
  intros Hn. pose proof (print_u_head n s Hn) as Hd. simpl.
  destruct (print_u n +:+ s) as [|a t]; [done|]. simpl in *.
  unfold is_digit in Hd. case_match; [lia|done].
Qed.

(** The requests a client can express, in the shape the parser returns them. *)
Definition request_canonical (r : protocol_request) : Prop :=
  match rq_command r with
  | PROTO_CMD_STATUS | PROTO_CMD_RESULT | PROTO_CMD_CANCEL | PROTO_CMD_META | PROTO_CMD_DOWNLOAD =>
      bounded 64 (rq_job_id r) /\ r = req_id (rq_command r) (rq_job_id r)
  | PROTO_CMD_DECODE | PROTO_CMD_VALIDATE | PROTO_CMD_CAPACITY =>
      bounded 64 (rq_size1 r) /\ r = req_size (rq_command r) (rq_size1 r)
  | PROTO_CMD_SUBMIT | PROTO_CMD_VALIDATE_IMAGE | PROTO_CMD_ANALYZE_CAPACITY | PROTO_CMD_KICK
  | PROTO_CMD_BLOCKIP | PROTO_CMD_UNBLOCKIP =>
      r = Request (rq_command r) 0 0 0 0 (rq_argument1 r) EmptyString
  | PROTO_CMD_ENCODE_TEXT =>
      bounded 64 (rq_size1 r) /\ bounded 64 (rq_size2 r) /\
      r = Request PROTO_CMD_ENCODE_TEXT 0 (rq_size1 r) (rq_size2 r) 0 EmptyString EmptyString
  | PROTO_CMD_ENCODE_FILE =>
      bounded 64 (rq_size1 r) /\ bounded 64 (rq_size2 r) /\ bounded 64 (rq_size3 r) /\
      r = Request PROTO_CMD_ENCODE_FILE 0 (rq_size1 r) (rq_size2 r) (rq_size3 r)
            EmptyString EmptyString
  | _ => r = req (rq_command r)
  end.

Lemma parse_encode_text_print n1 n2 :
  bounded 64 n1 -> bounded 64 n2 ->
  parse_encode_text (print_u n1 +:+ " " +:+ print_u n2) =
  Request PROTO_CMD_ENCODE_TEXT 0 n1 n2 0 EmptyString EmptyString.
Proof.
  intros H1 H2. unfold parse_encode_text. rewrite parse_u64_print by done.
  rewrite <-(append_nil_r (print_u n2)), skip_ws_print by apply H2.
  by rewrite append_nil_r, parse_u64_print_end.
Qed.

Lemma parse_encode_file_print n1 n2 n3 :
  bounded 64 n1 -> bounded 64 n2 -> bounded 64 n3 ->
  parse_encode_file (print_u n1 +:+ " " +:+ print_u n2 +:+ " " +:+ print_u n3) =
  Request PROTO_CMD_ENCODE_FILE 0 n1 n2 n3 EmptyString EmptyString.
Proof.
  intros H1 H2 H3. unfold parse_encode_file. rewrite parse_u64_print by done.
  rewrite skip_ws_print by apply H2. rewrite parse_u64_print by done.
  rewrite <-(append_nil_r (print_u n3)), skip_ws_print by apply H3.
  by rewrite append_nil_r, parse_u64_print_end.
Qed.

(** A printed request is parsed back. *)
Lemma parse_printed r :
  request_canonical r -> strlen (print_request r) < BUFFER_SIZE ->
  protocol_parse_line (Some (print_request r)) = Some r.
Proof.
  intros Hr Hlen. unfold protocol_parse_line.
  rewrite snprintf_s_fits by done. unfold print_request in *. rewrite trim_newline_nl.
  assert (Harg : forall name, strlen ((name +:+ " " +:+ rq_argument1 r) +:+ nl) < BUFFER_SIZE ->
            snprintf_s BUFFER_SIZE (rq_argument1 r) = rq_argument1 r).
  { intros name Hn. apply snprintf_s_fits. rewrite !strlen_app in Hn.
    pose proof (strlen_nonneg name). pose proof (strlen_nonneg " "). pose proof (strlen_nonneg nl). lia. }
  destruct r as [c id n1 n2 n3 a1 a2]. cbn [rq_command rq_job_id rq_size1 rq_size2 rq_size3 rq_argument1] in *.
  destruct c; try apply Harg in Hlen; clear Harg; cbn in Hr; unfold req, req_id, req_size in Hr;
    destruct_and?; simplify_eq; simpl; f_equal;
    first [ done
          | by unfold req_arg; rewrite Hlen
          | by unfold id_request, req_id; rewrite strtoull_print_end
          | by unfold size_request, req_size; rewrite strtoull_print_end
          | by apply parse_encode_text_print
          | by apply parse_encode_file_print ].
Qed.

(** ** The properties *)

(** C28: every request a client can express fits the parser: a line that fits
    the buffer is parsed back to exactly the request it was printed from, and no two requests have
    the same line. *)
Theorem parse_print r :
  request_canonical r -> strlen (print_request r) < BUFFER_SIZE ->
  protocol_parse_line (Some (print_request r)) = Some r /\
  (forall r', request_canonical r' -> print_request r' = print_request r -> r' = r).
Proof.
  intros Hr Hlen. split; [by apply parse_printed|]. intros r' Hr' Heq.
  pose proof (parse_printed r Hr Hlen) as H1. rewrite <-Heq in Hlen.
  pose proof (parse_printed r' Hr' Hlen) as H2. congruence.
Qed.

Lemma parse_print_witness :
  protocol_parse_line (Some (print_request
    (Request PROTO_CMD_ENCODE_FILE 0 70000 5 18446744073709551615 EmptyString EmptyString)))
  = Some (Request PROTO_CMD_ENCODE_FILE 0 70000 5 18446744073709551615 EmptyString EmptyString).
Proof.
  apply (parse_print (Request PROTO_CMD_ENCODE_FILE 0 70000 5 18446744073709551615
                        EmptyString EmptyString)).
  - cbn. unfold bounded. repeat split; lia.
  - vm_compute. reflexivity.
Defined.

(** What the rest of the server may assume of any parsed request. *)
Record request_wf (r : protocol_request) : Prop := RequestWf {
  rw_id : bounded 64 (rq_job_id r);
  rw_size1 : bounded 64 (rq_size1 r);
  rw_size2 : bounded 64 (rq_size2 r);
  rw_size3 : bounded 64 (rq_size3 r);
  rw_arg : strlen (rq_argument1 r) < BUFFER_SIZE;
  rw_arg2 : rq_argument2 r = EmptyString
}.

Lemma bounded_zero : bounded 64 0.
Proof. unfold bounded. lia. Qed.

Lemma parse_u64_bounded s n e : parse_u64 s = Some (n, e) -> bounded 64 n.
Proof. unfold parse_u64. case_match; [done|]. intros [= <- _]. apply strtoull_bounded. Qed.

Lemma prefixed_wf copy r : match_prefixed prefixed_commands copy = Some r -> request_wf r.
Proof.
  assert (Hsmall : strlen EmptyString < BUFFER_SIZE) by done. pose proof bounded_zero as H0.
  assert (Harg : forall c t, request_wf (req_arg c t)).
  { intros c t. constructor; try done. simpl. apply snprintf_s_len. done. }
  assert (Hid : forall c t, request_wf (id_request c t)).
  { intros c t. constructor; try done. apply strtoull_bounded. }
  assert (Hsize : forall c t, request_wf (size_request c t)).
  { intros c t. constructor; try done. apply strtoull_bounded. }
  assert (Htext : forall t, request_wf (parse_encode_text t)).
  { intros t. unfold parse_encode_text. repeat case_match; constructor; eauto using parse_u64_bounded. }
  assert (Hfile : forall t, request_wf (parse_encode_file t)).
  { intros t. unfold parse_encode_file. repeat case_match; constructor; eauto using parse_u64_bounded. }
  assert (Hall : Forall (fun pc => forall t, request_wf (snd pc t)) prefixed_commands)
    by (unfold prefixed_commands; repeat (apply Forall_cons_2; [simpl; eauto|]); apply Forall_nil_2).
  induction Hall as [|[p read] cs Hr _ IH]; simpl; [done|].
  destruct (starts_with copy p); [|done]. intros [= <-]. apply Hr.
Qed.

Lemma plain_wf cs copy r : match_plain cs copy = Some r -> request_wf r.
Proof.
  induction cs as [|[n c] cs IH]; simpl; [done|]. destruct (String.eqb copy n); [|done].
  intros [= <-]. constructor; try apply bounded_zero; done.
Qed.

(** Every line is answered with a request whose numbers fit 64 bits and whose
    argument fits its array. *)
Lemma parse_wf line : exists r, protocol_parse_line (Some line) = Some r /\ request_wf r.
Proof.
  unfold protocol_parse_line. set (copy := trim_newline _).
  destruct (match_plain _ _) as [r|] eqn:Hp; [exists r; eauto using plain_wf|].
  destruct (match_prefixed _ _) as [r|] eqn:Hq; [exists r; eauto using prefixed_wf|].
  exists (req PROTO_CMD_UNKNOWN). split; [done|]. constructor; try apply bounded_zero; done.
Qed.
