(* ===== verification/Net.v ===== *)
(** * Stream input and output (src/src/server/net.c)

    A connected socket is a stream with the bytes the peer sent and the
    program has not read, the bytes written to the peer, and a schedule of how
    the kernel answers the next calls: interrupted, failed, closed, or a
    transfer of some of the bytes asked for.  When the schedule is exhausted a
    call transfers everything it can.  The functions of net.c that create
    sockets are in Startup.v.

    The stream is finite and its end is the end of the file: the peer is one
    that closes its side, or shuts it down, after these bytes.  A peer that stays
    silent with the connection open is not modelled: the sockets block and have
    no timeout, so that a read with nothing to deliver ([read_line],
    [read_exact] and the loops of storage.c) would not return. *)

From S2P Require Export CString.
#[local] Open Scope Z_scope.

Inductive io_event :=
  | IoIntr            (* -1 with EINTR *)
  | IoError           (* -1 with another errno *)
  | IoZero            (* 0 *)
  | IoSome (k : nat). (* at most [S k] bytes *)

Record conn := Conn {
  cn_in : list Z;
  cn_rsched : list io_event;
  cn_out : list Z;
  cn_wsched : list io_event
}.

(** ** The system calls *)

Inductive io_result (A : Type) := IoEINTR | IoFAIL | IoOK (a : A).
Arguments IoEINTR {A}.
Arguments IoFAIL {A}.
Arguments IoOK {A} a.

(** [read(fd, buf, want)]: the bytes stored, none at the end of the stream. *)
Definition read (want : Z) (c : conn) : io_result (list Z) * conn :=
  let deliver n sched :=
    (IoOK (take n (cn_in c)), Conn (drop n (cn_in c)) sched (cn_out c) (cn_wsched c)) in
  let no_data r sched := (r, Conn (cn_in c) sched (cn_out c) (cn_wsched c)) in
  match cn_rsched c with
  | IoIntr :: s => no_data IoEINTR s
  | IoError :: s => no_data IoFAIL s
  | IoZero :: s => no_data (IoOK []) s
  | IoSome k :: s => deliver (Nat.min (S k) (Z.to_nat want)) s
  | [] => deliver (Z.to_nat want) []
  end.

(** [write(fd, buf, size)]: the number of bytes taken. *)
Definition write (data : list Z) (c : conn) : io_result Z * conn :=
  let accept n sched :=
    (IoOK (Z.of_nat n), Conn (cn_in c) (cn_rsched c) (cn_out c ++ take n data) sched) in
  let nothing r sched := (r, Conn (cn_in c) (cn_rsched c) (cn_out c) sched) in
  match cn_wsched c with
  | IoIntr :: s => nothing IoEINTR s
  | IoError :: s => nothing IoFAIL s
  | IoZero :: s => nothing (IoOK 0) s
  | IoSome k :: s => accept (Nat.min (S k) (length data)) s
  | [] => accept (length data) []
  end.

(** ** The loops of net.c

    [fuel] bounds the iterations; a result [None] would mean that it ran out. *)

Fixpoint write_loop (fuel : nat) (data : list Z) (total : Z) (c : conn) : option (Z * conn) :=
  match fuel with
  | O => None
  | S fuel =>
      if 0 <? Z.of_nat (length data) then
        match write data c with
        | (IoEINTR, c) => write_loop fuel data total c
        | (IoFAIL, c) => Some (-1, c)
        | (IoOK n, c) =>
            if n =? 0 then Some (total, c)
            else write_loop fuel (drop (Z.to_nat n) data) (total + n) c
        end
      else Some (total, c)
  end.

(** [write_all]: each iteration but the last consumes an event of the schedule
    or writes at least one byte. *)
Definition write_all (c : conn) (buffer : option (list Z)) : option (Z * conn) :=
  match buffer with
  | None => Some (-1, c)
  | Some data => write_loop (S (length (cn_wsched c) + length data)) data 0 c
  end.

Fixpoint read_line_loop (fuel : nat) (buffer_size : Z) (buf : list Z) (c : conn)
    : option (Z * list Z * conn) :=
  match fuel with
  | O => None
  | S fuel =>
      let pos := Z.of_nat (length buf) in
      if pos + 1 <? buffer_size then
        match read 1 c with
        | (IoEINTR, c) => read_line_loop fuel buffer_size buf c
        | (IoFAIL, c) => Some (-1, buf, c)
        | (IoOK [], c) => Some (pos, buf, c)
        | (IoOK (ch :: _), c) =>
            let buf := buf ++ [ch] in
            if ch =? 10 then Some (pos + 1, buf, c) else read_line_loop fuel buffer_size buf c
        end
      else Some (pos, buf, c)
  end.

(** [read_line]: the result, the bytes in the buffer before its terminator and
    the stream, for a peer that does not stay silent (see above).  Each
    iteration consumes an event of the schedule or fills one byte of the buffer. *)
Definition read_line (c : conn) (buffer_size : Z) : option (Z * list Z * conn) :=
  if buffer_size =? 0 then Some (-1, [], c)
  else read_line_loop (S (length (cn_rsched c) + Z.to_nat buffer_size)) buffer_size [] c.

Fixpoint read_exact_loop (fuel : nat) (size : Z) (buf : list Z) (c : conn)
    : option (Z * list Z * conn) :=
  match fuel with
  | O => None
  | S fuel =>
      let total := Z.of_nat (length buf) in
      if total <? size then
        match read (size - total) c with
        | (IoEINTR, c) => read_exact_loop fuel size buf c
        | (IoFAIL, c) => Some (-1, buf, c)
        | (IoOK [], c) => Some (total, buf, c)
        | (IoOK bytes, c) => read_exact_loop fuel size (buf ++ bytes) c
        end
      else Some (total, buf, c)
  end.

(** [read_exact], for such a peer. *)
Definition read_exact (c : conn) (size : Z) : option (Z * list Z * conn) :=
  read_exact_loop (S (length (cn_rsched c) + Z.to_nat size)) size [] c.

Definition CHUNK_SIZE : Z := 65536.

Fixpoint discard_loop (fuel : nat) (remaining : Z) (c : conn) : option (Z * conn) :=
  match fuel with
  | O => None
  | S fuel =>
      if 0 <? remaining then
        let want := if remaining <? CHUNK_SIZE then remaining else CHUNK_SIZE in
        match read want c with
        | (IoEINTR, c) => discard_loop fuel remaining c
        | (IoFAIL, c) => Some (-1, c)
        | (IoOK [], c) => Some (-1, c)
        | (IoOK bytes, c) => discard_loop fuel (remaining - Z.of_nat (length bytes)) c
        end
      else Some (0, c)
  end.

(** [discard_exact]: each iteration but the last consumes an event of the
    schedule or at least one byte. *)
Definition discard_exact (c : conn) (size : Z) : option (Z * conn) :=
  discard_loop (S (length (cn_rsched c) + length (cn_in c))) size c.

(** ** Schedules without failures *)

(** The kernel may interrupt calls and split transfers, but neither fails nor
    closes the stream. *)
Definition benign (e : io_event) : bool :=
  match e with IoIntr | IoSome _ => true | IoError | IoZero => false end.

Definition quiet (sched : list io_event) : Prop := Forall (fun e => benign e = true) sched.

#[export] Instance quiet_dec sched : Decision (quiet sched).
Proof. unfold quiet. apply _. Defined.

(** One read on a quiet schedule. *)
Lemma read_quiet want c :
  quiet (cn_rsched c) -> 0 < want ->
  (exists s, fst (read want c) = IoEINTR /\ snd (read want c) = Conn (cn_in c) s (cn_out c) (cn_wsched c) /\
     cn_rsched c = IoIntr :: s /\ quiet s) \/
  (exists n s, fst (read want c) = IoOK (take n (cn_in c)) /\
     snd (read want c) = Conn (drop n (cn_in c)) s (cn_out c) (cn_wsched c) /\
     (0 < n <= Z.to_nat want)%nat /\ quiet s /\
     ((length s < length (cn_rsched c))%nat \/ (cn_rsched c = [] /\ s = [] /\ n = Z.to_nat want))).
Proof.
  intros Hq Hw. unfold read. destruct (cn_rsched c) as [|e s] eqn:E.
  - right. exists (Z.to_nat want), []. split_and!; try done; try lia. by right.
  - apply Forall_cons in Hq as [He Hq]. destruct e as [| | |k]; try done.
    + left. by exists s.
    + right. exists (Nat.min (S k) (Z.to_nat want)), s.
      split_and!; try done; try lia. left. simpl. lia.
Qed.

(** Any read: the stream it leaves. *)
Lemma read_shape want c :
  match read want c with
  | (IoOK bytes, c') => cn_in c = bytes ++ cn_in c' /\ cn_out c' = cn_out c /\
      cn_wsched c' = cn_wsched c /\ (length bytes <= Z.to_nat want)%nat /\
      (length (cn_rsched c') <= length (cn_rsched c))%nat
  | (_, c') => cn_in c' = cn_in c /\ cn_out c' = cn_out c /\ cn_wsched c' = cn_wsched c /\
      (length (cn_rsched c') < length (cn_rsched c))%nat
  end.
Proof.
  unfold read. destruct (cn_rsched c) as [|[| | |k] s]; cbn -[Nat.min take drop];
    rewrite ?take_drop, ?length_take; split_and!; try done; lia.
Qed.

(** ** Writing *)

(** [write_all] returns: it never runs out of iterations, and what it wrote is
    a prefix of the buffer, the whole of it when it reports the full size. *)
Lemma write_loop_total fuel data total c :
  (length (cn_wsched c) + length data < fuel)%nat ->
  exists r sent c', write_loop fuel data total c = Some (r, c') /\
    cn_out c' = cn_out c ++ sent /\ sent `prefix_of` data /\
    (r = -1 \/ r = total + Z.of_nat (length sent)) /\
    (quiet (cn_wsched c) -> r = total + Z.of_nat (length data) /\ sent = data /\ quiet (cn_wsched c')) /\
    cn_in c' = cn_in c /\ cn_rsched c' = cn_rsched c.
Proof.
  revert data total c. induction fuel as [|fuel IH]; intros data total c Hf; [lia|].
  cbn [write_loop]. destruct (Z.ltb_spec 0 (Z.of_nat (length data))) as [Hpos|Hz].
  2: { assert (data = []) as -> by (apply nil_length_inv; lia). exists total, [], c.
       rewrite app_nil_r. split_and!; try done; [right; simpl; lia|]. intros Hq. simpl. split_and!; [lia|done|done]. }
  assert (Hsplit : forall n s, (0 < n <= length data)%nat -> (length s + length (drop n data) < fuel)%nat ->
    (quiet (cn_wsched c) -> quiet s) ->
    exists r sent c', write_loop fuel (drop n data) (total + Z.of_nat n)
        (Conn (cn_in c) (cn_rsched c) (cn_out c ++ take n data) s) = Some (r, c') /\
      cn_out c' = cn_out c ++ sent /\ sent `prefix_of` data /\
      (r = -1 \/ r = total + Z.of_nat (length sent)) /\
      (quiet (cn_wsched c) -> r = total + Z.of_nat (length data) /\ sent = data /\ quiet (cn_wsched c')) /\
      cn_in c' = cn_in c /\ cn_rsched c' = cn_rsched c).
  { intros n s Hn Hlen Hq.
    destruct (IH (drop n data) (total + Z.of_nat n) (Conn (cn_in c) (cn_rsched c) (cn_out c ++ take n data) s) Hlen)
      as (r & sent & c' & Heq & Hout & Hpre & Hr & Hquiet & Hin & Hrs).
    exists r, (take n data ++ sent), c'. simpl in *. split_and!; try done.
    - by rewrite app_assoc.
    - rewrite <-(take_drop n data) at 2. by apply prefix_app.
    - rewrite length_app, length_take. lia.
    - intros Hqc. destruct (Hquiet (Hq Hqc)) as (-> & -> & Hq'). rewrite take_drop. split_and!; try done.
      rewrite length_drop. lia. }
  unfold write. destruct (cn_wsched c) as [|[| | |k] s] eqn:E; simpl in Hf; cbn beta iota zeta.
  - rewrite (proj2 (Z.eqb_neq _ _)), Nat2Z.id by lia. apply Hsplit; [lia| |done].
    rewrite length_drop. simpl. lia.
  - destruct (IH data total (Conn (cn_in c) (cn_rsched c) (cn_out c) s)) as (r & sent & c' & H); [simpl; lia|].
    exists r, sent, c'. simpl in H. destruct H as (? & ? & ? & ? & Hq & ?). split_and!; try done; [|tauto..].
    intros Hqc. apply Forall_cons in Hqc as [_ Hqc]. auto.
  - exists (-1), [], (Conn (cn_in c) (cn_rsched c) (cn_out c) s). rewrite app_nil_r.
    split_and!; try done; [apply prefix_nil|by left|]. intros Hq. by apply Forall_cons in Hq as [? _].
  - exists total, [], (Conn (cn_in c) (cn_rsched c) (cn_out c) s). rewrite app_nil_r.
    split_and!; try done; [apply prefix_nil|right; simpl; lia|]. intros Hq. by apply Forall_cons in Hq as [? _].
  - rewrite (proj2 (Z.eqb_neq _ _)), Nat2Z.id by lia. apply Hsplit; [lia| |].
    + rewrite length_drop. lia.
    + intros Hq. by apply Forall_cons in Hq as [_ ?].
Qed.

(** ** Reading a given number of bytes *)

Lemma read_exact_loop_total fuel size buf c :
  Z.of_nat (length buf) <= size ->
  (length (cn_rsched c) + Z.to_nat (size - Z.of_nat (length buf)) < fuel)%nat ->
  exists r got c', read_exact_loop fuel size buf c = Some (r, buf ++ got, c') /\
    cn_in c = got ++ cn_in c' /\ cn_out c' = cn_out c /\ cn_wsched c' = cn_wsched c /\
    Z.of_nat (length (buf ++ got)) <= size /\ (r = -1 \/ r = Z.of_nat (length (buf ++ got))) /\
    (quiet (cn_rsched c) -> got = take (Z.to_nat (size - Z.of_nat (length buf))) (cn_in c) /\
       r = Z.of_nat (length (buf ++ got)) /\ quiet (cn_rsched c')).
Proof.
  revert buf c. induction fuel as [|fuel IH]; intros buf c Hle Hf; [lia|].
  cbn [read_exact_loop]. destruct (Z.ltb_spec (Z.of_nat (length buf)) size) as [Hlt|Hge].
  2: { exists (Z.of_nat (length buf)), [], c. rewrite app_nil_r. split_and!; try done; [by right|].
       intros Hq. replace (Z.to_nat _) with 0%nat by lia. by rewrite take_0. }
  pose proof (read_shape (size - Z.of_nat (length buf)) c) as Hs.
  pose proof (read_quiet (size - Z.of_nat (length buf)) c) as Hq.
  destruct (read (size - Z.of_nat (length buf)) c) as [[| |bytes] c1] eqn:E.
  - destruct Hs as (Hin & Hout & Hws & Hlen).
    destruct (IH buf c1 Hle) as (r & got & c' & Heq & H1 & H2 & H3 & H4 & H5 & H6); [lia|].
    exists r, got, c'. rewrite <-Hin. split_and!; try done; [congruence..|].
    intros Hqc. destruct (Hq Hqc ltac:(lia)) as [(s & _ & Hc & _ & Hqs)|(n & s & Hf' & _)]; [|done].
    simpl in Hc. apply H6. by rewrite Hc.
  - destruct Hs as (Hin & Hout & Hws & Hlen). exists (-1), [], c1. rewrite app_nil_r.
    split_and!; try done; [by left|]. intros Hqc.
    by destruct (Hq Hqc ltac:(lia)) as [(s & Hf' & _)|(n & s & Hf' & _)].
  - destruct Hs as (Hin & Hout & Hws & Hlen & Hsch). destruct bytes as [|b bytes].
    + exists (Z.of_nat (length buf)), [], c1. rewrite app_nil_r. split_and!; try done; [by right|].
      intros Hqc. destruct (Hq Hqc ltac:(lia)) as [(s & Hf' & _)|(n & s & Hf' & Hc & Hn & Hqs & _)]; [done|].
      simpl in Hf'. injection Hf' as Hnil. split_and!; [|done|simpl in Hc; by rewrite Hc].
      symmetry in Hnil. destruct (cn_in c); [by rewrite take_nil|]. destruct n; [lia|done].
    + assert (Hbl : Z.of_nat (length (buf ++ b :: bytes)) <= size) by (rewrite length_app; lia).
      destruct (IH (buf ++ b :: bytes) c1 Hbl) as (r & got & c' & Heq & H1 & H2 & H3 & H4 & H5 & H6).
      { rewrite length_app. simpl length. lia. }
      rewrite <-app_assoc in Heq, H4, H5, H6.
      exists r, ((b :: bytes) ++ got), c'. split_and!; try done; [|congruence..|].
      { rewrite Hin, H1. by rewrite app_assoc. }
      intros Hqc. destruct (Hq Hqc ltac:(lia)) as [(s & Hf' & _)|(n & s & Hf' & Hc & Hn & Hqs & _)]; [done|].
      simpl in Hc. destruct H6 as (Hg & Hr & Hq'); [by rewrite Hc|]. split_and!; try done.
      rewrite Hin, Hg, length_app. rewrite take_app_ge by (simpl length in *; lia).
      f_equal. f_equal. simpl length. lia.
Qed.

(** ** Discarding *)

Lemma discard_loop_total fuel remaining c :
  0 <= remaining -> (length (cn_rsched c) + length (cn_in c) < fuel)%nat ->
  exists r c', discard_loop fuel remaining c = Some (r, c') /\ (r = 0 \/ r = -1) /\
    cn_out c' = cn_out c /\ cn_wsched c' = cn_wsched c /\
    (exists gone, cn_in c = gone ++ cn_in c' /\ Z.of_nat (length gone) <= remaining /\
       (r = 0 -> Z.of_nat (length gone) = remaining)) /\
    (quiet (cn_rsched c) -> remaining <= Z.of_nat (length (cn_in c)) -> r = 0).
Proof.
  revert remaining c. induction fuel as [|fuel IH]; intros remaining c Hrem Hf; [lia|].
  cbn [discard_loop]. destruct (Z.ltb_spec 0 remaining) as [Hpos|Hz].
  2: { exists 0, c. split_and!; try done; [by left|]. exists []. simpl. split_and!; try done; lia. }
  cbv zeta. set (want := if remaining <? CHUNK_SIZE then remaining else CHUNK_SIZE).
  assert (Hwant : 0 < want <= remaining)
    by (subst want; unfold CHUNK_SIZE; destruct (Z.ltb_spec remaining 65536); lia).
  pose proof (read_shape want c) as Hs. pose proof (read_quiet want c) as Hq.
  destruct (read want c) as [[| |bytes] c1] eqn:E.
  - destruct Hs as (Hin & Hout & Hws & Hlen).
    destruct (IH remaining c1 Hrem) as (r & c' & Heq & H1 & H2 & H3 & H4 & H5); [rewrite Hin; lia|].
    exists r, c'. rewrite <-Hin. split_and!; try done; [congruence..|].
    intros Hqc. destruct (Hq Hqc ltac:(lia)) as [(s & _ & Hc & _ & Hqs)|(n & s & Hf' & _)]; [|done].
    simpl in Hc. apply H5. by rewrite Hc.
  - destruct Hs as (Hin & Hout & Hws & Hlen). exists (-1), c1. split_and!; try done; [by right| |].
    + exists []. rewrite Hin. simpl. split_and!; try done; lia.
    + intros Hqc. by destruct (Hq Hqc ltac:(lia)) as [(s & Hf' & _)|(n & s & Hf' & _)].
  - destruct Hs as (Hin & Hout & Hws & Hlen & Hsch). destruct bytes as [|b bytes].
    + exists (-1), c1. split_and!; try done; [by right| |].
      * exists []. rewrite Hin. simpl. split_and!; try done; lia.
      * intros Hqc Hcap. destruct (Hq Hqc ltac:(lia)) as [(s & Hf' & _)|(n & s & Hf' & _ & Hn & _)]; [done|].
        simpl in Hf'. injection Hf' as Hnil. symmetry in Hnil.
        destruct (cn_in c); [simpl in Hcap; lia|]. destruct n; [lia|done].
    + destruct (IH (remaining - Z.of_nat (length (b :: bytes))) c1) as (r & c' & Heq & H1 & H2 & H3 & H4 & H5).
      { lia. }
      { rewrite Hin, length_app in Hf. simpl length in Hf. lia. }
      exists r, c'. split_and!; try done; [congruence..| |].
      * destruct H4 as (gone & Hg & Hgl & Hg0). exists ((b :: bytes) ++ gone).
        rewrite <-app_assoc, <-Hg, <-Hin. split; [done|]. rewrite length_app. split; [lia|].
        intros Hr. specialize (Hg0 Hr). lia.
      * intros Hqc Hcap. destruct (Hq Hqc ltac:(lia)) as [(s & Hf' & _)|(n & s & Hf' & Hc & Hn & Hqs & _)]; [done|].
        simpl in Hc. apply H5; [by rewrite Hc|]. rewrite Hin, length_app in Hcap. lia.
Qed.

(** ** Reading a line *)

(** The bytes of a line: up to and including the first newline, at most [n]. *)
Fixpoint line_of (n : nat) (input : list Z) : list Z :=
  match n, input with
  | S n, ch :: input => if ch =? 10 then [ch] else ch :: line_of n input
  | _, _ => []
  end.

Lemma line_of_nil n : line_of n [] = [].
Proof. by destruct n. Qed.

Lemma line_of_prefix n input : line_of n input `prefix_of` input.
Proof.
  revert input. induction n as [|n IH]; intros [|ch input]; simpl; try apply prefix_nil.
  destruct (ch =? 10).
  - apply prefix_cons, prefix_nil.
  - by apply prefix_cons.
Qed.

Lemma line_of_length n input : (length (line_of n input) <= n)%nat.
Proof.
  revert input. induction n as [|n IH]; intros [|ch input]; simpl; try lia.
  destruct (ch =? 10); simpl; [lia|]. specialize (IH input). lia.
Qed.

Lemma read_line_loop_total fuel size buf c :
  Z.of_nat (length buf) < size ->
  (length (cn_rsched c) + Z.to_nat (size - Z.of_nat (length buf)) < fuel)%nat ->
  exists r got c', read_line_loop fuel size buf c = Some (r, buf ++ got, c') /\
    cn_in c = got ++ cn_in c' /\ cn_out c' = cn_out c /\ cn_wsched c' = cn_wsched c /\
    Z.of_nat (length (buf ++ got)) < size /\ (r = -1 \/ r = Z.of_nat (length (buf ++ got))) /\
    (quiet (cn_rsched c) ->
       got = line_of (Z.to_nat (size - 1 - Z.of_nat (length buf))) (cn_in c) /\
       r = Z.of_nat (length (buf ++ got)) /\ quiet (cn_rsched c')).
Proof.
  revert buf c. induction fuel as [|fuel IH]; intros buf c Hlt Hf; [lia|].
  cbn [read_line_loop]. cbv zeta. destruct (Z.ltb_spec (Z.of_nat (length buf) + 1) size) as [Hmore|Hfull].
  2: { exists (Z.of_nat (length buf)), [], c. rewrite app_nil_r. split_and!; try done; [by right|].
       intros Hq. by replace (Z.to_nat _) with 0%nat by lia. }
  pose proof (read_shape 1 c) as Hs. pose proof (read_quiet 1 c) as Hq.
  destruct (read 1 c) as [[| |bytes] c1] eqn:E.
  - destruct Hs as (Hin & Hout & Hws & Hlen).
    destruct (IH buf c1 Hlt) as (r & got & c' & Heq & H1 & H2 & H3 & H4 & H5 & H6); [lia|].
    exists r, got, c'. rewrite <-Hin. split_and!; try done; [congruence..|].
    intros Hqc. destruct (Hq Hqc ltac:(lia)) as [(s & _ & Hc & _ & Hqs)|(n & s & Hf' & _)]; [|done].
    simpl in Hc. apply H6. by rewrite Hc.
  - destruct Hs as (Hin & Hout & Hws & Hlen). exists (-1), [], c1. rewrite app_nil_r.
    split_and!; try done; [by left|]. intros Hqc.
    by destruct (Hq Hqc ltac:(lia)) as [(s & Hf' & _)|(n & s & Hf' & _)].
  - destruct Hs as (Hin & Hout & Hws & Hlen & Hsch). destruct bytes as [|ch bytes].
    + exists (Z.of_nat (length buf)), [], c1. rewrite app_nil_r. split_and!; try done; [by right|].
      intros Hqc. destruct (Hq Hqc ltac:(lia)) as [(s & Hf' & _)|(n & s & Hf' & Hc & Hn & Hqs & _)]; [done|].
      simpl in Hf'. injection Hf' as Hnil. split_and!; [|done|simpl in Hc; by rewrite Hc].
      symmetry in Hnil. destruct (cn_in c); [by rewrite line_of_nil|]. destruct n; [lia|done].
    + assert (bytes = []) as -> by (apply nil_length_inv; simpl in Hlen; lia).
      assert (Hq1 : quiet (cn_rsched c) -> quiet (cn_rsched c1)).
      { intros Hqc. destruct (Hq Hqc ltac:(lia)) as [(s & Hf' & _)|(n & s & _ & Hc & _ & Hqs & _)]; [done|].
        simpl in Hc. by rewrite Hc. }
      assert (Hn : Z.to_nat (size - 1 - Z.of_nat (length buf)) =
                   S (Z.to_nat (size - 1 - Z.of_nat (length (buf ++ [ch])))))
        by (rewrite length_app; simpl length; lia).
      destruct (Z.eqb_spec ch 10) as [->|Hch].
      * exists (Z.of_nat (length buf) + 1), [10], c1.
        split_and!; try done; [rewrite length_app; simpl; lia|right; rewrite length_app; simpl; lia|].
        intros Hqc. rewrite Hn, Hin. split_and!; [done|rewrite length_app; simpl; lia|by apply Hq1].
      * destruct (IH (buf ++ [ch]) c1) as (r & got & c' & Heq & H1 & H2 & H3 & H4 & H5 & H6).
        { rewrite length_app. simpl. lia. }
        { rewrite length_app. simpl length. lia. }
        rewrite <-app_assoc in Heq, H4, H5, H6. change ([ch] ++ got) with (ch :: got) in *.
        exists r, (ch :: got), c'. split; [done|]. split; [by rewrite Hin, H1|].
        split_and!; try done; [congruence..|].
        intros Hqc. destruct (H6 (Hq1 Hqc)) as (Hg & Hr & Hqc'). split_and!; try done.
        rewrite Hn, Hin. cbn [app line_of]. rewrite (proj2 (Z.eqb_neq _ _) Hch). by rewrite Hg.
Qed.

(** ** The properties *)

(** [write_all] terminates whatever the kernel does.  What the peer got is a
    prefix of the buffer, and the whole buffer unless a call failed or
    reported 0: interruptions and partial writes are invisible. *)
Theorem write_all_correct c data :
  exists r sent c', write_all c (Some data) = Some (r, c') /\
    cn_out c' = cn_out c ++ sent /\ sent `prefix_of` data /\
    (r = -1 \/ r = Z.of_nat (length sent)) /\
    (quiet (cn_wsched c) -> r = Z.of_nat (length data) /\ sent = data).
Proof.
  destruct (write_loop_total (S (length (cn_wsched c) + length data)) data 0 c ltac:(lia))
    as (r & sent & c' & H). exists r, sent, c'. simpl in *. tauto.
Qed.

(** [read_exact] terminates, and without failures returns the next [size]
    bytes of the stream, or all of them when the stream ends before; it never
    takes a byte more. *)
Theorem read_exact_correct c size :
  0 <= size ->
  exists r got c', read_exact c size = Some (r, got, c') /\ cn_in c = got ++ cn_in c' /\
    Z.of_nat (length got) <= size /\ (r = -1 \/ r = Z.of_nat (length got)) /\
    (quiet (cn_rsched c) -> got = take (Z.to_nat size) (cn_in c) /\ r = Z.of_nat (length got)).
Proof.
  intros Hsize.
  destruct (read_exact_loop_total (S (length (cn_rsched c) + Z.to_nat size)) size [] c)
    as (r & got & c' & Heq & H1 & _ & _ & H4 & H5 & H6); simpl length; [lia|lia|].
  exists r, got, c'. change ([] ++ got) with got in *. change (Z.of_nat (length [])) with 0 in H6.
  rewrite Z.sub_0_r in H6. split_and!; try done. tauto.
Qed.

(** [read_line] terminates, and without failures returns the bytes up to the
    first newline, or the first [size - 1] of them; the next line is still in
    the stream. *)
Theorem read_line_correct c size :
  0 < size ->
  exists r got c', read_line c size = Some (r, got, c') /\ cn_in c = got ++ cn_in c' /\
    Z.of_nat (length got) < size /\ (r = -1 \/ r = Z.of_nat (length got)) /\
    (quiet (cn_rsched c) -> got = line_of (Z.to_nat (size - 1)) (cn_in c) /\ r = Z.of_nat (length got)).
Proof.
  intros Hsize. unfold read_line. rewrite (proj2 (Z.eqb_neq _ _)) by lia.
  destruct (read_line_loop_total (S (length (cn_rsched c) + Z.to_nat size)) size [] c)
    as (r & got & c' & Heq & H1 & _ & _ & H4 & H5 & H6); simpl length; [lia|lia|].
  exists r, got, c'. change ([] ++ got) with got in *. change (Z.of_nat (length [])) with 0 in H6.
  rewrite Z.sub_0_r in H6. split_and!; try done. tauto.
Qed.

(** [discard_exact] terminates and reports success exactly when it consumed
    [size] bytes, which it does whenever the peer sent them. *)
Theorem discard_exact_correct c size :
  0 <= size ->
  exists r c' gone, discard_exact c size = Some (r, c') /\ cn_in c = gone ++ cn_in c' /\
    (r = 0 \/ r = -1) /\ Z.of_nat (length gone) <= size /\
    (r = 0 -> Z.of_nat (length gone) = size) /\
    (quiet (cn_rsched c) -> size <= Z.of_nat (length (cn_in c)) -> r = 0).
Proof.
  intros Hsize.
  destruct (discard_loop_total (S (length (cn_rsched c) + length (cn_in c))) size c Hsize ltac:(lia))
    as (r & c' & Heq & Hr & _ & _ & (gone & Hg & Hl & H0) & Hq).
  exists r, c', gone. by split_and!.
Qed.

Definition demo_conn : conn :=
  Conn [80; 73; 78; 71; 10; 1; 2; 3] [IoIntr; IoSome 1; IoIntr; IoSome 0] [] [].

Lemma read_exact_correct_witness :
  exists r got c', read_exact demo_conn 5 = Some (r, got, c') /\ cn_in demo_conn = got ++ cn_in c' /\
    Z.of_nat (length got) <= 5 /\ (r = -1 \/ r = Z.of_nat (length got)) /\
    (quiet (cn_rsched demo_conn) ->
       got = take (Z.to_nat 5) (cn_in demo_conn) /\ r = Z.of_nat (length got)).
Proof. apply (read_exact_correct demo_conn 5). lia. Defined.

Lemma read_line_correct_witness :
  exists r got c', read_line demo_conn 4096 = Some (r, got, c') /\ cn_in demo_conn = got ++ cn_in c' /\
    Z.of_nat (length got) < 4096 /\ (r = -1 \/ r = Z.of_nat (length got)) /\
    (quiet (cn_rsched demo_conn) ->
       got = line_of (Z.to_nat (4096 - 1)) (cn_in demo_conn) /\ r = Z.of_nat (length got)).
Proof. apply (read_line_correct demo_conn 4096). lia. Defined.

Example demo_read_line :
  read_line demo_conn 4096 = Some (5, [80; 73; 78; 71; 10], Conn [1; 2; 3] [] [] []).
Proof. vm_compute. reflexivity. Qed.

Lemma discard_exact_correct_witness :
  exists r c' gone, discard_exact demo_conn 6 = Some (r, c') /\ cn_in demo_conn = gone ++ cn_in c' /\
    (r = 0 \/ r = -1) /\ Z.of_nat (length gone) <= 6 /\
    (r = 0 -> Z.of_nat (length gone) = 6) /\
    (quiet (cn_rsched demo_conn) -> 6 <= Z.of_nat (length (cn_in demo_conn)) -> r = 0).
Proof. apply (discard_exact_correct demo_conn 6). lia. Defined.
