(* ===== verification/Storage.v ===== *)
(** * Storage paths and transfers (src/src/server/storage.c)

    The paths of uploads and results, and the functions that move bytes
    between a socket and a file.  A function that writes a path into a
    caller's buffer returns [None] for [-1].  The creation of directories is
    modelled with the rest of the start in Startup.v. *)

From S2P Require Export World Net.
#[local] Open Scope Z_scope.

(** ** Paths *)

Definition STORAGE_PATH_MAX : Z := 512.

Record storage_globals := StorageGlobals {
  g_storage_root : string;
  g_storage_uploads : string;
  g_storage_results : string;
  g_storage_temp : string
}.

(** The initial values of the globals. *)
Definition storage_globals_init : storage_globals :=
  StorageGlobals "storage" "storage/uploads" "storage/results" "storage/temp".

Definition storage_root_dir : storage_globals -> string := g_storage_root.
Definition storage_uploads_dir : storage_globals -> string := g_storage_uploads.
Definition storage_results_dir : storage_globals -> string := g_storage_results.
Definition storage_temp_dir : storage_globals -> string := g_storage_temp.

(** [build_child_path]: the result and what the buffer holds afterwards. *)
Definition build_child_path (root name : string) (out_size : Z) : Z * string :=
  let s := (root +:+ "/" +:+ name)%string in
  (if out_size <=? strlen s then -1 else 0, snprintf_s out_size s).

(** [storage_set_root]: the root is overwritten before its length is checked,
    and an error leaves the directories after it as they were. *)
Definition storage_set_root (root_path : option string) (g : storage_globals) : Z * storage_globals :=
  match root_path with
  | None => (-1, g)
  | Some root_path =>
      if strlen root_path =? 0 then (-1, g) else
      let root := snprintf_s STORAGE_PATH_MAX root_path in
      let g := StorageGlobals root (g_storage_uploads g) (g_storage_results g) (g_storage_temp g) in
      if STORAGE_PATH_MAX <=? strlen root_path then (-1, g) else
      let (rc, uploads) := build_child_path root "uploads" STORAGE_PATH_MAX in
      let g := StorageGlobals root uploads (g_storage_results g) (g_storage_temp g) in
      if rc <? 0 then (-1, g) else
      let (rc, results) := build_child_path root "results" STORAGE_PATH_MAX in
      let g := StorageGlobals root uploads results (g_storage_temp g) in
      if rc <? 0 then (-1, g) else
      let (rc, temp) := build_child_path root "temp" STORAGE_PATH_MAX in
      let g := StorageGlobals root uploads results temp in
      if rc <? 0 then (-1, g) else (0, g)
  end.

Definition job_path (dir : string) (job_id : Z) (suffix : option string) : string :=
  let s := match suffix with Some s => s | None => "bin"%string end in
  (dir +:+ "/job_" +:+ print_u job_id +:+ "." +:+ s)%string.

Definition storage_make_upload_path (g : storage_globals) (job_id : Z) (suffix : option string)
    (out_size : Z) : option string :=
  if out_size =? 0 then None else
  let s := job_path (g_storage_uploads g) job_id suffix in
  if out_size <=? strlen s then None else Some s.

Definition storage_make_result_path (g : storage_globals) (job_id : Z) (suffix : option string)
    (out_size : Z) : option string :=
  if out_size =? 0 then None else
  let s := job_path (g_storage_results g) job_id suffix in
  if out_size <=? strlen s then None else Some s.

(** [get_file_size_bytes]: [stat] of a regular file. *)
Definition get_file_size_bytes (path : string) : M (option Z) := fun w =>
  ((fun data => Z.of_nat (length data)) <$> w_fs w !! path, w).

(** ** Transfers

    [fuel] bounds the iterations; a result [None] would mean that it ran
    out. *)

(** What the error branches of [storage_receive_to_file] do. *)
Definition abandon_file (path : string) (c : conn) : M (option (Z * conn)) :=
  _ ← fclose; _ ← unlink path; mret (Some (-1, c)).

(** The loop of [storage_receive_to_file]; [acc] was written to the stream. *)
Fixpoint receive_loop (fuel : nat) (remaining : Z) (acc : list Z) (dst_path : string) (c : conn)
    : M (option (Z * conn)) :=
  match fuel with
  | O => mret None
  | S fuel =>
      if 0 <? remaining then
        let want := if remaining <? CHUNK_SIZE then remaining else CHUNK_SIZE in
        match read want c with
        | (IoEINTR, c) => receive_loop fuel remaining acc dst_path c
        | (IoFAIL, c) => abandon_file dst_path c
        | (IoOK [], c) => abandon_file dst_path c
        | (IoOK bytes, c) =>
            ok ← stdio;
            if negb ok then abandon_file dst_path c
            else receive_loop fuel (remaining - Z.of_nat (length bytes)) (acc ++ bytes) dst_path c
        end
      else
        _ ← fwrite_all dst_path acc;
        ok ← stdio;
        _ ← fclose;
        if negb ok then _ ← unlink dst_path; mret (Some (-1, c)) else mret (Some (0, c))
  end.

Definition storage_receive_to_file (c : conn) (size : Z) (dst_path : option string)
    : M (option (Z * conn)) :=
  match dst_path with
  | None => mret (Some (-1, c))
  | Some path =>
      ok ← fopen_wb path;
      if negb ok then mret (Some (-1, c))
      else receive_loop (S (length (cn_rsched c) + length (cn_in c))) size [] path c
  end.

(** The loop of [storage_send_file]; [data] is what [fread] has not returned
    yet.  A failing [fread] returns no byte and sets the error flag. *)
Fixpoint send_loop (fuel : nat) (data : list Z) (c : conn) : M (option (Z * conn)) :=
  match fuel with
  | O => mret None
  | S fuel =>
      ok ← stdio;
      if negb ok then _ ← fclose; mret (Some (-1, c)) else
      let chunk := take (Z.to_nat CHUNK_SIZE) data in
      match (if 0 <? Z.of_nat (length chunk) then write_all c (Some chunk) else Some (0, c)) with
      | None => mret None
      | Some (rc, c) =>
          if rc <? 0 then _ ← fclose; mret (Some (-1, c))
          else if Z.of_nat (length chunk) <? CHUNK_SIZE then _ ← fclose; mret (Some (0, c))
          else send_loop fuel (drop (Z.to_nat CHUNK_SIZE) data) c
      end
  end.

Definition storage_send_file (c : conn) (src_path : option string) : M (option (Z * conn)) :=
  match src_path with
  | None => mret (Some (-1, c))
  | Some path =>
      fp ← fopen_rb path;
      match fp with
      | None => mret (Some (-1, c))
      | Some data => send_loop (S (length data)) data c
      end
  end.

(** The loop of [copy_file_to_storage]: whether it succeeded, and what was
    written. *)
Fixpoint copy_loop (fuel : nat) (data acc : list Z) : M (option (bool * list Z)) :=
  match fuel with
  | O => mret None
  | S fuel =>
      ok ← stdio;
      let chunk := if (ok : bool) then take (Z.to_nat CHUNK_SIZE) data else [] in
      w ← (if 0 <? Z.of_nat (length chunk) then stdio else mret true);
      if negb w then mret (Some (false, acc)) else
      if Z.of_nat (length chunk) <? CHUNK_SIZE then mret (Some (ok, acc ++ chunk))
      else copy_loop fuel (drop (Z.to_nat CHUNK_SIZE) data) (acc ++ chunk)
  end.

(** [copy_file_to_storage], with the result of [storage_init_dirs] and the time
    as arguments; the source is not the file it creates. *)
Definition copy_file_to_storage (g : storage_globals) (dirs_rc : Z) (now : option (Z * Z))
    (src_path : option string) (dst_path_size : Z) : M (option (Z * option string)) :=
  match src_path with
  | None => mret (Some (-1, None))
  | Some src =>
      if dst_path_size =? 0 then mret (Some (-1, None)) else
      if dirs_rc <? 0 then mret (Some (-1, None)) else
      match now with
      | None => mret (Some (-1, None))
      | Some (sec, nsec) =>
          let dst := (g_storage_uploads g +:+ "/" +:+ print_d sec +:+ "_" +:+ print_d nsec +:+ "_" +:+ basename src)%string in
          if dst_path_size <=? strlen dst then mret (Some (-1, Some (snprintf_s dst_path_size dst))) else
          fp ← fopen_rb src;
          match fp with
          | None => mret (Some (-1, Some dst))
          | Some data =>
              ok ← fopen_wb dst;
              if negb ok then _ ← fclose; mret (Some (-1, Some dst)) else
              r ← copy_loop (S (length data)) data [];
              match r with
              | None => mret None
              | Some (result, written) =>
                  ok1 ← stdio; _ ← fclose;
                  _ ← fwrite_all dst written;
                  ok2 ← stdio; _ ← fclose;
                  if (result : bool) && (ok1 : bool) && (ok2 : bool) then mret (Some (0, Some dst))
                  else _ ← unlink dst; mret (Some (-1, Some dst))
              end
          end
      end
  end.

(** [storage_read_all]: the bytes in the buffer before its terminator. *)
Definition storage_read_all (path : option string) (buffer_size : Z) : M (option (list Z)) :=
  match path with
  | None => mret None
  | Some path =>
      if buffer_size =? 0 then mret None else
      fp ← fopen_rb path;
      match fp with
      | None => mret None
      | Some data =>
          ok ← stdio;
          _ ← fclose;
          mret (Some (if (ok : bool) then take (Z.to_nat (buffer_size - 1)) data else ([] : list Z)))
      end
  end.

(** ** Paths of different jobs *)

Lemma job_path_inj dir id id' s s' :
  0 <= id -> 0 <= id' -> job_path dir id (Some s) = job_path dir id' (Some s') -> id = id' /\ s = s'.
Proof.
  unfold job_path. intros Hid Hid' H.
  apply (f_equal (strip_prefix (dir +:+ "/job_"))) in H.
  rewrite <-!append_assoc, !append_assoc in H. rewrite <-!(append_assoc dir "/job_") in H.
  rewrite !strip_prefix_app in H. injection H as H.
  apply (f_equal (parse_digits 0)) in H. rewrite !parse_print_u in H by done.
  simpl in H. by injection H as -> ->.
Qed.

(** ** Receiving a file *)

(** At most [size] bytes of the stream are consumed. *)
Definition takes (size : Z) (c c' : conn) : Prop :=
  exists got, cn_in c = got ++ cn_in c' /\ Z.of_nat (length got) <= size.

Lemma takes_refl size c : 0 <= size -> takes size c c.
Proof. intros H. by exists []. Qed.

Lemma takes_same size c c1 c' : cn_in c1 = cn_in c -> takes size c1 c' -> takes size c c'.
Proof. unfold takes. by intros ->. Qed.

Lemma takes_more got size c c1 c' :
  cn_in c = got ++ cn_in c1 -> takes (size - Z.of_nat (length got)) c1 c' -> takes size c c'.
Proof.
  intros Hin (got' & Hin' & Hlen). exists (got ++ got'). rewrite Hin, Hin', length_app, app_assoc.
  split; [done|lia].
Qed.

Definition receive_post (size : Z) (path : string) (acc : list Z) (c : conn) (w : world)
    (r : option (Z * conn)) (w' : world) : Prop :=
  exists rc c', r = Some (rc, c') /\
    (rc = 0 /\ (exists got, cn_in c = got ++ cn_in c' /\ Z.of_nat (length got) = size /\
                  step (<[path := acc ++ got]> (w_fs w)) 0 (-1) w w') \/
     rc = -1 /\ step (delete path (w_fs w)) 0 (-1) w w') /\ takes size c c' /\
    (quiet (cn_rsched c) -> w_io w = [] -> size <= Z.of_nat (length (cn_in c)) -> rc = 0).

Lemma abandon_spec path c w :
  wp (abandon_file path c) (fun r w' => r = Some (-1, c) /\ step (delete path (w_fs w)) 0 (-1) w w') w.
Proof.
  unfold abandon_file. wp_step. wp_step. wp_step. wp_step. wp_step. split; [done|].
  split_steps. constructor; simpl in *; auto; try congruence; lia.
Qed.

Lemma receive_loop_spec fuel size acc path c w :
  0 <= size -> (length (cn_rsched c) + length (cn_in c) < fuel)%nat ->
  wp (receive_loop fuel size acc path c) (receive_post size path acc c w) w.
Proof.
  revert size acc c w. induction fuel as [|fuel IH]; intros size acc c w Hsize Hf; [lia|].
  cbn [receive_loop]. destruct (Z.ltb_spec 0 size) as [Hpos|Hz].
  2: { wp_step. wp_step. wp_step. wp_step. wp_step. wp_step. wp_case.
       - wp_step. exists 0, c. split; [done|]. split; [left; split; [done|]|split; [by apply takes_refl|done]].
         exists []. rewrite app_nil_r. simpl. split_and!; [done|lia|steps].
       - wp_step. wp_step. wp_step. exists (-1), c. split; [done|]. split; [right; split; [done|]|split; [by apply takes_refl|]].
         + split_steps. constructor; simpl in *; auto; try lia; try congruence.
           rewrite <-(delete_insert_eq (w_fs w) path acc). congruence.
         + intros _ Hio. exfalso. split_steps. match goal with H : _ -> false = true |- _ => discriminate H; auto end. }
  cbv zeta. set (want := if size <? CHUNK_SIZE then size else CHUNK_SIZE).
  assert (Hwant : 0 < want <= size)
    by (subst want; unfold CHUNK_SIZE; destruct (Z.ltb_spec size 65536); lia).
  pose proof (read_shape want c) as Hs. pose proof (read_quiet want c) as Hq.
  assert (Habandon : forall c1, takes size c c1 -> (quiet (cn_rsched c) -> size <= Z.of_nat (length (cn_in c)) -> False) ->
            wp (abandon_file path c1) (receive_post size path acc c w) w).
  { intros c1 Htk Hno. eapply wp_conseq; [apply abandon_spec|]. intros r w' [-> Hst].
    exists (-1), c1. split; [done|]. split; [by right|]. split; [done|]. intros Hqc _ Hcap. by destruct (Hno Hqc Hcap). }
  destruct (read want c) as [[| |bytes] c1] eqn:E.
  - destruct Hs as (Hin & _ & _ & Hlen).
    eapply wp_conseq; [apply IH; [done|rewrite Hin; lia]|].
    intros r w' (rc & c' & -> & Hr & Htk & Hqr). exists rc, c'. rewrite <-Hin. split; [done|]. split; [done|].
    split; [by apply (takes_same size c c1 c' Hin)|].
    intros Hqc. destruct (Hq Hqc ltac:(lia)) as [(s & _ & Hc & _ & Hqs)|(n & s & Hf' & _)]; [|done].
    simpl in Hc. apply Hqr. by rewrite Hc.
  - apply Habandon; [by apply (takes_same size c c1 c1 (proj1 Hs)), takes_refl|].
    intros Hqc. by destruct (Hq Hqc ltac:(lia)) as [(s & Hf' & _)|(n & s & Hf' & _)].
  - destruct Hs as (Hin & _ & _ & Hlen & Hsch). destruct bytes as [|b bytes].
    + apply Habandon; [by apply (takes_same size c c1 c1 (eq_sym Hin)), takes_refl|]. intros Hqc Hcap.
      destruct (Hq Hqc ltac:(lia)) as [(s & Hf' & _)|(n & s & Hf' & _ & Hn & _)]; [done|].
      simpl in Hf'. injection Hf' as Hnil. symmetry in Hnil.
      destruct (cn_in c); [simpl in Hcap; lia|]. destruct n; [lia|done].
    + apply wp_bind, wp_stdio. intros ok w1 Hs1 Hok. destruct ok; cbn [negb].
      2: { eapply wp_conseq; [apply abandon_spec|]. intros r w' [-> Hst].
           exists (-1), c1. split; [done|]. split; [right; split; [done|]|].
           2: split; [apply (takes_more _ size c c1 c1 Hin), takes_refl; lia|].
           - assert (Hfs1 : w_fs w1 = w_fs w) by (by destruct Hs1).
             rewrite Hfs1 in Hst. clear -Hs1 Hst. steps.
           - intros _ Hio. by specialize (Hok Hio). }
      eapply wp_conseq; [apply IH; [lia|]|].
      { rewrite Hin, length_app in Hf. simpl length in Hf. lia. }
      intros r w' (rc & c' & -> & Hr & Htk & Hqr). exists rc, c'. split; [done|].
      assert (Hfs1 : w_fs w1 = w_fs w) by (by destruct Hs1). rewrite Hfs1 in Hr.
      split; [|split; [by apply (takes_more _ size c c1 c' Hin)|]].
      * destruct Hr as [(-> & got & Hg & Hgl & Hst)|(-> & Hst)].
        -- left. split; [done|]. exists ((b :: bytes) ++ got). rewrite <-app_assoc, <-Hg.
           split; [done|]. split; [rewrite length_app; lia|].
           rewrite <-app_assoc in Hst. clear -Hs1 Hst. steps.
        -- right. split; [done|]. clear -Hs1 Hst. steps.
      * intros Hqc Hio Hcap. destruct (Hq Hqc ltac:(lia)) as [(s & Hf' & _)|(n & s & Hf' & Hc & Hn & Hqs & _)]; [done|].
        simpl in Hc. apply Hqr; [by rewrite Hc|by destruct Hs1; auto|].
        rewrite Hin, length_app in Hcap. lia.
Qed.

(** The whole call: the handle is closed again. *)
Lemma storage_receive_spec c size path w :
  0 <= size ->
  wp (storage_receive_to_file c size (Some path)) (fun r w' =>
    exists rc c' fs, r = Some (rc, c') /\ step fs 0 0 w w' /\
      (forall q, q <> path -> fs !! q = w_fs w !! q) /\
      (rc = 0 /\ (exists got, cn_in c = got ++ cn_in c' /\ Z.of_nat (length got) = size /\
                    fs !! path = Some got) \/
       rc = -1 /\ (fs !! path = None \/ path ∈ w_denied w /\ fs = w_fs w)) /\ takes size c c' /\
      (quiet (cn_rsched c) -> w_io w = [] -> size <= Z.of_nat (length (cn_in c)) ->
       path ∉ w_denied w -> rc = 0)) w.
Proof.
  intros Hsize. unfold storage_receive_to_file.
  apply wp_bind, wp_fopen_wb; [intros w1 Hden Hs1|intros Hden]; cbn [negb].
  2: { wp_step. exists (-1), c, (w_fs w). split_and!; try done; [apply step_refl| |by apply takes_refl].
       by right; split; [|right]. }
  eapply wp_conseq; [apply receive_loop_spec; [done|lia]|].
  intros r w' (rc & c' & -> & Hr & Htk & Hq).
  assert (Hfs1 : w_fs w1 = <[path := []]> (w_fs w)) by (by destruct Hs1).
  assert (Hio1 : w_io w = [] -> w_io w1 = []) by (by destruct Hs1).
  rewrite Hfs1 in Hr. destruct Hr as [(-> & got & Hg & Hgl & Hst)|(-> & Hst)].
  - exists 0, c', (<[path := got]> (w_fs w)). rewrite insert_insert_eq in Hst. split_and!; try done.
    + clear -Hs1 Hst. steps.
    + intros q Hq'. by rewrite lookup_insert_ne.
    + left. split; [done|]. exists got. by rewrite lookup_insert_eq.
  - exists (-1), c', (delete path (w_fs w)). rewrite delete_insert_eq in Hst. split_and!; try done.
    + clear -Hs1 Hst. steps.
    + intros q Hq'. by rewrite lookup_delete_ne.
    + right. split; [done|]. left. apply lookup_delete_eq.
    + intros. apply Hq; auto.
Qed.

(** ** Sending a file *)

(** What the peer gets is all of the data when neither side fails. *)
Lemma send_loop_full fuel data c w :
  (length data < fuel)%nat ->
  wp (send_loop fuel data c) (fun r w' =>
    exists rc c' sent, r = Some (rc, c') /\ step (w_fs w) 0 (-1) w w' /\ cn_in c' = cn_in c /\
      cn_rsched c' = cn_rsched c /\ cn_out c' = cn_out c ++ sent /\
      (quiet (cn_wsched c) -> w_io w = [] -> rc = 0 /\ sent = data /\ quiet (cn_wsched c'))) w.
Proof.
  revert data c w. induction fuel as [|fuel IH]; intros data c w Hf; [lia|].
  cbn [send_loop]. apply wp_bind, wp_stdio. intros ok w1 Hs1 Hok. destruct ok; cbn [negb].
  2: { wp_step. wp_step. wp_step. exists (-1), c, []. rewrite app_nil_r.
       split_and!; try done; [clear Hok; steps|]. intros _ Hio. by specialize (Hok Hio). }
  set (chunk := take (Z.to_nat CHUNK_SIZE) data). cbv zeta.
  assert (Hw : exists r c1 sent,
    (if 0 <? Z.of_nat (length chunk) then write_all c (Some chunk) else Some (0, c)) = Some (r, c1) /\
    cn_in c1 = cn_in c /\ cn_rsched c1 = cn_rsched c /\ cn_out c1 = cn_out c ++ sent /\
    (quiet (cn_wsched c) -> 0 <= r /\ sent = chunk /\ quiet (cn_wsched c1))).
  { destruct (Z.ltb_spec 0 (Z.of_nat (length chunk))).
    - destruct (write_loop_total (S (length (cn_wsched c) + length chunk)) chunk 0 c ltac:(lia))
        as (r & sent & c1 & Heq & Hout & _ & _ & Hq & Hin & Hrs).
      exists r, c1, sent. split_and!; try done.
      intros Hqc. destruct (Hq Hqc) as (-> & -> & Hq'). split_and!; try done. lia.
    - assert (Hnil : chunk = []) by (apply nil_length_inv; lia). exists 0, c, [].
      rewrite Hnil, app_nil_r. by split_and!. }
  destruct Hw as (r & c1 & sent & -> & Hin & Hrs & Hout & Hq). cbn beta iota. wp_case.
  { wp_step. wp_step. wp_step. exists (-1), c1, sent. split_and!; try done; [clear Hok; steps|].
    intros Hqc _. destruct (Hq Hqc). lia. }
  assert (Hchunk : Z.of_nat (length chunk) = Z.min CHUNK_SIZE (Z.of_nat (length data)))
    by (subst chunk; rewrite length_take; unfold CHUNK_SIZE; lia).
  wp_case.
  { wp_step. wp_step. wp_step. exists 0, c1, sent. split_and!; try done; [clear Hok; steps|].
    intros Hqc _. destruct (Hq Hqc) as (_ & -> & Hq1). split_and!; [done| |done]. apply take_ge. lia. }
  eapply wp_conseq; [apply IH; rewrite length_drop; unfold CHUNK_SIZE in *; lia|].
  intros r' w' (rc & c' & sent' & -> & Hst & Hin' & Hrs' & Hout' & Hq'). exists rc, c', (sent ++ sent').
  rewrite (step_fs _ _ _ _ _ Hs1) in Hst.
  split_and!; [done|clear -Hs1 Hst; steps|congruence|congruence|by rewrite Hout', Hout, app_assoc|].
  intros Hqc Hio. destruct (Hq Hqc) as (_ & -> & Hq1).
  destruct (Hq' Hq1) as (-> & -> & Hq2); [by apply Hs1|]. split_and!; [done| |done].
  subst chunk. by rewrite take_drop.
Qed.

Lemma send_loop_spec fuel data c w :
  (length data < fuel)%nat ->
  wp (send_loop fuel data c) (fun r w' =>
    exists rc c', r = Some (rc, c') /\ step (w_fs w) 0 (-1) w w' /\ cn_in c' = cn_in c /\
      (quiet (cn_wsched c) -> w_io w = [] -> rc = 0 /\ cn_out c' = cn_out c ++ data)) w.
Proof.
  intros Hf. eapply wp_conseq; [by apply send_loop_full|].
  intros r w' (rc & c' & sent & -> & Hst & Hin & _ & Hout & Hq). exists rc, c'. split_and!; try done.
  intros Hqc Hio. by destruct (Hq Hqc Hio) as (-> & -> & _).
Qed.

(** Whatever happens, sending changes no file and closes its handle. *)
Lemma storage_send_frame c path w :
  wp (storage_send_file c (Some path)) (fun r w' =>
    exists rc c', r = Some (rc, c') /\ step (w_fs w) 0 0 w w') w.
Proof.
  unfold storage_send_file. apply wp_bind, wp_fopen_rb.
  - intros data w1 _ _ Hs1. eapply wp_conseq; [apply send_loop_spec; lia|].
    intros r w' (rc & c' & -> & Hst & _). exists rc, c'. split; [done|].
    replace (w_fs w1) with (w_fs w) in Hst by (by destruct Hs1). clear -Hs1 Hst. steps.
  - intros _. wp_step. exists (-1), c. split; [done|apply step_refl].
Qed.

(** ** Copying a file *)

Lemma copy_loop_spec fuel data acc w :
  (length data < fuel)%nat ->
  wp (copy_loop fuel data acc) (fun r w' => exists ok written, r = Some (ok, written) /\
    step (w_fs w) 0 0 w w' /\ (ok = true -> written = acc ++ data) /\ (w_io w = [] -> ok = true)) w.
Proof.
  revert data acc w. induction fuel as [|fuel IH]; intros data acc w Hf; [lia|].
  cbn [copy_loop]. apply wp_bind, wp_stdio. intros ok w1 Hs1 Hok. cbv zeta. apply wp_bind.
  set (chunk := if ok then _ else []).
  assert (Hw : wp (if 0 <? Z.of_nat (length chunk) then stdio else mret true)
    (fun b w2 => step (w_fs w) 0 0 w w2 /\ (w_io w = [] -> b = true)) w1).
  { destruct (0 <? _).
    - apply wp_stdio. intros b w2 Hs2 Hb. split; [clear Hok Hb; steps|]. intros Hio. apply Hb. by destruct Hs1; auto.
    - apply wp_ret. split; [done|by intros _]. }
  eapply wp_conseq; [exact Hw|]. clear Hw. intros b w2 [Hs2 Hb]. destruct b; cbn [negb].
  2: { wp_step. exists false, acc. split_and!; try done. }
  destruct (Z.ltb_spec (Z.of_nat (length chunk)) CHUNK_SIZE) as [Hlt|Hge].
  - wp_step. exists ok, (acc ++ chunk). split_and!; try done. intros ->. f_equal. subst chunk.
    apply take_ge. rewrite length_take in Hlt. unfold CHUNK_SIZE in *. lia.
  - assert (Hok1 : ok = true) by (destruct ok; [done|]; subst chunk; unfold CHUNK_SIZE in Hge; simpl in Hge; lia).
    subst ok chunk. rewrite length_take in Hge. eapply wp_conseq; [apply IH; rewrite length_drop; unfold CHUNK_SIZE in *; lia|].
    intros r w' (ok & written & -> & Hs3 & Hd & Hi). exists ok, written. split_and!; try done.
    + replace (w_fs w2) with (w_fs w) in Hs3 by (by destruct Hs2). clear -Hs2 Hs3. steps.
    + intros Ht. rewrite Hd by done. by rewrite <-app_assoc, take_drop.
    + intros Hio. apply Hi. by destruct Hs2; auto.
Qed.

(** A copy has the contents of its source, or does not exist; nothing else
    changes and both handles are closed. *)
Lemma copy_file_spec g dirs_rc now src size w :
  wp (copy_file_to_storage g dirs_rc now (Some src) size) (fun r w' => exists rc dst fs,
    r = Some (rc, dst) /\ step fs 0 0 w w' /\
    (rc = 0 /\ (exists data p, dst = Some p /\ w_fs w !! src = Some data /\ fs = <[p := data]> (w_fs w)) \/
     rc = -1 /\ (fs = w_fs w \/ exists p, dst = Some p /\ fs = delete p (w_fs w)))) w.
Proof.
  assert (Hnone : forall dst, wp (mret (Some (-1, dst))) (fun r w' => exists rc dst fs,
    r = Some (rc, dst) /\ step fs 0 0 w w' /\
    (rc = 0 /\ (exists data p, dst = Some p /\ w_fs w !! src = Some data /\ fs = <[p := data]> (w_fs w)) \/
     rc = -1 /\ (fs = w_fs w \/ exists p, dst = Some p /\ fs = delete p (w_fs w)))) w).
  { intros dst. apply wp_ret. exists (-1), dst, (w_fs w). split_and!; [done|apply step_refl|]. right. split; [done|by left]. }
  unfold copy_file_to_storage. destruct (size =? 0); [apply Hnone|]. destruct (dirs_rc <? 0); [apply Hnone|].
  destruct now as [[sec nsec]|]; [|apply Hnone]. set (dst := (_ +:+ _)%string). cbv zeta.
  destruct (size <=? strlen dst); [apply Hnone|].
  apply wp_bind, wp_fopen_rb; [|intros _; apply Hnone]. intros data w1 Hd _ Hs1.
  apply wp_bind, wp_fopen_wb; [intros w2 _ Hs2|intros _]; cbn [negb].
  2: { wp_step. wp_step. wp_step. exists (-1), (Some dst), (w_fs w). split_and!; [done|clear Hnone; steps|]. right. by split; [|left]. }
  apply wp_bind. eapply wp_conseq; [apply copy_loop_spec; lia|]. intros r w3 (ok & written & -> & Hs3 & Hw & _).
  cbn beta iota. wp_step. wp_step. wp_step. wp_step. wp_step. wp_step. wp_step. wp_step. wp_step. wp_step.
  assert (Hfs : w_fs w'0 = <[dst := []]> (w_fs w)) by (destruct Hs1, Hs2, Hs3, H, H1; congruence).
  rewrite Hfs, insert_insert_eq in H2.
  assert (Hall : step (<[dst := written]> (w_fs w)) 0 0 w w'3) by (clear -Hs1 Hs2 Hs3 H H1 H2 H3 H5; steps).
  destruct (ok && b && b0) eqn:E.
  - wp_step. apply andb_prop in E as [[-> _]%andb_prop _]. rewrite (Hw eq_refl) in Hall. cbn [app] in Hall.
    eexists 0, (Some dst), _. split_and!; [done|exact Hall|left; split; [done|by exists data, dst]].
  - wp_step. wp_step. wp_step. exists (-1), (Some dst), (delete dst (w_fs w)).
    split_and!; [done| |right; split; [done|right; by exists dst]].
    assert (Hw3 : w_fs w'3 = <[dst := written]> (w_fs w)) by apply Hall.
    match goal with Hd : step (delete dst (w_fs w'3)) _ _ _ _ |- _ => rewrite Hw3, delete_insert_eq in Hd; clear -Hall Hd end.
    steps.
Qed.

(** ** The properties *)


(** A download sends the bytes of the file, all of them and in order, when
    neither the file nor the socket fails; it always closes the file and
    changes no file. *)
Theorem send_file_correct c path data w :
  w_fs w !! path = Some data -> path ∉ w_denied w ->
  wp (storage_send_file c (Some path)) (fun r w' =>
    exists rc c', r = Some (rc, c') /\ step (w_fs w) 0 0 w w' /\
      (quiet (cn_wsched c) -> w_io w = [] -> rc = 0 /\ cn_out c' = cn_out c ++ data)) w.
Proof.
  intros Hdata Hden. unfold storage_send_file.
  apply wp_bind, wp_fopen_rb; [|intros [?|?]; congruence].
  intros data' w1 Hd' _ Hs1. assert (data' = data) as -> by congruence.
  eapply wp_conseq; [apply send_loop_spec; lia|]. intros r w' (rc & c' & -> & Hst & _ & Hq).
  exists rc, c'. split; [done|]. assert (Hfs : w_fs w1 = w_fs w) by (by destruct Hs1).
  rewrite Hfs in Hst. split; [clear -Hs1 Hst; steps|].
  intros Hqc Hio. apply Hq; [done|]. by destruct Hs1; auto.
Qed.

(** The directories follow the configured root exactly when it is not empty
    and leaves room for the longest child path; otherwise an error is
    reported. *)
Theorem set_root_correct root g rc g' :
  storage_set_root (Some root) g = (rc, g') ->
  (rc = 0 <-> 0 < strlen root /\ strlen root + 8 < STORAGE_PATH_MAX) /\
  (rc = 0 -> g' = StorageGlobals root (root +:+ "/uploads") (root +:+ "/results") (root +:+ "/temp")).
Proof.
  unfold storage_set_root, build_child_path, STORAGE_PATH_MAX. intros H.
  pose proof (strlen_nonneg root) as H0.
  destruct (Z.eqb_spec (strlen root) 0); [simplify_eq; split; [split; lia|done]|].
  destruct (Z.leb_spec 512 (strlen root)); [simplify_eq; split; [split; lia|done]|].
  rewrite !(snprintf_s_fits 512 root) in H by lia.
  rewrite !strlen_app in H. change (strlen "/") with 1 in H.
  change (strlen "uploads") with 7 in H. change (strlen "results") with 7 in H.
  change (strlen "temp") with 4 in H.
  destruct (Z.leb_spec 512 (strlen root + (1 + 7))); simpl in H;
    [simplify_eq; split; [split; lia|done]|].
  rewrite (proj2 (Z.leb_gt 512 (strlen root + (1 + 4)))) in H by lia. simpl in H. simplify_eq.
  split; [split; lia|]. intros _. rewrite !snprintf_s_fits; [done|rewrite !strlen_app; simpl..].
  - change (strlen (String _ _)) with 5. lia.
  - change (strlen (String _ _)) with 8. lia.
  - change (strlen (String _ _)) with 8. lia.
Qed.

(** Files of different jobs never collide: equal upload paths come from the
    same identifier and the same suffix. *)
Theorem upload_paths_distinct g id id' s s' n p :
  0 <= id -> 0 <= id' ->
  storage_make_upload_path g id (Some s) n = Some p ->
  storage_make_upload_path g id' (Some s') n = Some p -> id = id' /\ s = s'.
Proof.
  unfold storage_make_upload_path. intros Hid Hid'. repeat case_match; try done.
  intros [= Hp] [= Hp']. apply (job_path_inj (g_storage_uploads g)); [done..|congruence].
Qed.

Definition demo_storage_world : world := World ∅ ∅ 0 0 [] [] [] crc_global_init.


Lemma send_file_correct_witness :
  let w := World {["r.png" := [9; 8; 7]]} ∅ 0 0 [] [] [] crc_global_init in
  let c := Conn [] [] [68] [IoSome 1; IoIntr] in
  wp (storage_send_file c (Some "r.png"%string)) (fun r w' =>
    exists rc c', r = Some (rc, c') /\ step (w_fs w) 0 0 w w' /\
      (quiet (cn_wsched c) -> w_io w = [] -> rc = 0 /\ cn_out c' = cn_out c ++ [9; 8; 7])) w.
Proof.
  intros w c. apply (send_file_correct c "r.png" [9; 8; 7] w).
  - vm_compute. reflexivity.
  - eapply bool_decide_unpack. vm_compute. exact I.
Defined.

Lemma set_root_correct_witness :
  (0 = 0 <-> 0 < strlen "data" /\ strlen "data" + 8 < STORAGE_PATH_MAX) /\
  (0 = 0 -> StorageGlobals "data" "data/uploads" "data/results" "data/temp" =
    StorageGlobals "data" "data/uploads" "data/results" "data/temp").
Proof.
  apply (set_root_correct "data" storage_globals_init 0
           (StorageGlobals "data" "data/uploads" "data/results" "data/temp")).
  vm_compute. reflexivity.
Defined.

Lemma upload_paths_distinct_witness : 12 = 12 /\ "png"%string = "png"%string.
Proof.
  apply (upload_paths_distinct storage_globals_init 12 12 "png" "png" 512 "storage/uploads/job_12.png");
    first [lia | vm_compute; reflexivity].
Defined.
