(* ===== verification/Startup.v ===== *)
(** * Start-up and shutdown of the server (src/src/server/server.c, net.c, storage.c)

    The first part of [server_run] acquires the resources of the server one
    after the other; when a step fails, [cleanup_server_state] releases what
    was acquired before.  The machine holds what the kernel keeps for the
    program: its open descriptors, the files of UNIX sockets, directories,
    threads, and the mutexes and condition variables in use. *)

From S2P Require Export RuntimeConfig Storage.
#[local] Open Scope Z_scope.

(** ** The system *)

Record machine := Machine {
  mc_calls : list bool;            (* whether the next calls succeed; they do
                                      when the list is exhausted *)
  mc_open : gset Z;
  mc_sockets : gset string;
  mc_dirs : gmap string bool;      (* what [stat] finds: [true] for a directory *)
  mc_threads : list Z;             (* the indices of the running workers *)
  mc_locks : Z
}.

Definition Boot (A : Type) : Type := machine -> option (A * machine).

#[export] Instance Boot_ret : MRet Boot := fun A a m => Some (a, m).
#[export] Instance Boot_bind : MBind Boot := fun A B f b m =>
  match b m with Some (a, m) => f a m | None => None end.

Definition change (f : machine -> machine) : Boot unit := fun m => Some (tt, f m).

Definition set_open (X : gset Z) (m : machine) : machine :=
  Machine (mc_calls m) X (mc_sockets m) (mc_dirs m) (mc_threads m) (mc_locks m).
Definition set_sockets (X : gset string) (m : machine) : machine :=
  Machine (mc_calls m) (mc_open m) X (mc_dirs m) (mc_threads m) (mc_locks m).
Definition set_dirs (d : gmap string bool) (m : machine) : machine :=
  Machine (mc_calls m) (mc_open m) (mc_sockets m) d (mc_threads m) (mc_locks m).
Definition set_threads (l : list Z) (m : machine) : machine :=
  Machine (mc_calls m) (mc_open m) (mc_sockets m) (mc_dirs m) l (mc_locks m).
Definition set_locks (n : Z) (m : machine) : machine :=
  Machine (mc_calls m) (mc_open m) (mc_sockets m) (mc_dirs m) (mc_threads m) n.

(** A call that can fail. *)
Definition sys : Boot bool := fun m =>
  Some (hd true (mc_calls m),
        Machine (tl (mc_calls m)) (mc_open m) (mc_sockets m) (mc_dirs m) (mc_threads m) (mc_locks m)).

(** The descriptors of the server; [-1] when closed. *)
Record server_fds := ServerFds {
  listen_fd_user : Z;
  listen_fd_admin : Z;
  listen_fd_unix : Z;
  pipe_read_fd : Z;
  pipe_write_fd : Z;
  inotify_fd : Z
}.

Definition no_fds : server_fds := ServerFds (-1) (-1) (-1) (-1) (-1) (-1).

Section kernel.
(** [pick X]: the descriptor that the kernel returns when those of [X] are
    open. *)
Context (pick : gset Z -> Z).

Definition new_fd : Boot Z :=
  ok ← sys;
  if negb ok then mret (-1) else
  ((fun m => Some (pick (mc_open m), set_open ({[pick (mc_open m)]} ∪ mc_open m) m)) : Boot Z).

Definition close (fd : Z) : Boot unit := change (fun m => set_open (mc_open m ∖ {[fd]}) m).

(** [if (fd >= 0) close(fd);] *)
Definition close_open (fd : Z) : Boot unit := if 0 <=? fd then close fd else mret tt.

(** ** Sockets (net.c) *)

Definition set_nonblocking (fd : Z) : Boot Z :=
  ok ← sys; if negb ok then mret (-1) else
  ok ← sys; if negb ok then mret (-1) else mret 0.

(** Whether [bind] succeeds for the port is up to the system. *)
Definition create_listen_socket (port : Z) : Boot Z :=
  fd ← new_fd;
  if fd <? 0 then mret (-1) else
  ok ← sys; if negb ok then _ ← close fd; mret (-1) else     (* setsockopt *)
  ok ← sys; if negb ok then _ ← close fd; mret (-1) else     (* bind *)
  ok ← sys; if negb ok then _ ← close fd; mret (-1) else     (* listen *)
  mret fd.

(** The size of [sun_path]. *)
Definition UNIX_PATH_MAX : Z := 108.

Definition remove_socket (path : string) : Boot unit := change (fun m => set_sockets (mc_sockets m ∖ {[path]}) m).
Definition add_socket (path : string) : Boot unit := change (fun m => set_sockets ({[path]} ∪ mc_sockets m) m).

Definition create_unix_listen_socket (path : string) : Boot Z :=
  if strlen path =? 0 then mret (-1) else
  fd ← new_fd;
  if fd <? 0 then mret (-1) else
  if UNIX_PATH_MAX <=? strlen path then _ ← close fd; mret (-1) else
  ok ← sys; if negb ok then _ ← close fd; mret (-1) else     (* unlink *)
  _ ← remove_socket path;
  ok ← sys; if negb ok then _ ← close fd; mret (-1) else     (* bind *)
  _ ← add_socket path;
  ok ← sys; if negb ok then _ ← close fd; _ ← remove_socket path; mret (-1) else     (* listen *)
  mret fd.

(** ** Directories (storage.c) *)

Definition ensure_directory_exists (path : string) : Boot Z :=
  st ← ((fun m => Some (mc_dirs m !! path, m)) : Boot (option bool));
  match st with
  | Some is_dir => mret (if is_dir : bool then 0 else -1)
  | None =>
      ok ← sys;
      if negb ok then mret (-1) else
      _ ← change (fun m => set_dirs (<[path := true]> (mc_dirs m)) m);
      mret 0
  end.

Definition storage_init_dirs (g : storage_globals) : Boot Z :=
  rc ← ensure_directory_exists (g_storage_root g); if rc <? 0 then mret (-1) else
  rc ← ensure_directory_exists (g_storage_uploads g); if rc <? 0 then mret (-1) else
  rc ← ensure_directory_exists (g_storage_results g); if rc <? 0 then mret (-1) else
  rc ← ensure_directory_exists (g_storage_temp g); if rc <? 0 then mret (-1) else
  mret 0.

(** ** Parts of the state (server.c, job.c, queue.c) *)

(** A mutex or a condition variable is initialised, and destroyed. *)
Definition lock_init : Boot bool :=
  ok ← sys;
  if negb ok then mret false else
  _ ← change (fun m => set_locks (mc_locks m + 1) m); mret true.
Definition lock_destroy : Boot unit := change (fun m => set_locks (mc_locks m - 1) m).

(** The queue has a mutex and a condition variable. *)
Definition queue_init : Boot bool :=
  mutex ← lock_init; if negb mutex then mret false else
  cond ← lock_init; if negb cond then _ ← lock_destroy; mret false else mret true.

Definition install_signal_handlers : Boot Z :=
  ok ← sys; if negb ok then mret (-1) else
  ok ← sys; if negb ok then mret (-1) else
  ok ← sys; if negb ok then mret (-1) else mret 0.

(** The watches belong to their descriptor. *)
Definition init_inotify : Boot (Z * Z) :=
  fd ← new_fd;
  if fd <? 0 then mret (-1, -1) else
  ok ← sys; if negb ok then mret (fd, -1) else     (* the three watches *)
  ok ← sys; if negb ok then mret (fd, -1) else
  ok ← sys; if negb ok then mret (fd, -1) else mret (fd, 0).

(** Removing the watches changes nothing else. *)
Definition close_inotify (fd : Z) : Boot unit := close_open fd.

(** Starting the threads from index [i] on; writing past the arrays of
    [MAX_WORKERS] threads is undefined. *)
Fixpoint init_workers (n : nat) (i : Z) : Boot Z :=
  match n with
  | O => mret 0
  | S n =>
      if MAX_WORKERS <=? i then (fun _ => None) else
      ok ← sys;
      if negb ok then mret (-1) else
      _ ← change (fun m => set_threads (mc_threads m ++ [i]) m);
      init_workers n (i + 1)
  end.

(** The threads end once the queue is stopped; they are joined. *)
Definition join_workers (n : Z) : Boot unit :=
  change (fun m => set_threads (List.filter (fun i => negb ((0 <=? i) && (i <? n))) (mc_threads m)) m).

(** What [cleanup_server_state] does to the machine. *)
Definition release (cfg : runtime_config) (fds : server_fds)
    (workers_started queue_initialized jobs_initialized blocklist_initialized : bool) : Boot unit :=
  _ ← (if workers_started then join_workers (worker_count cfg) else mret tt);
  _ ← close_open (listen_fd_user fds);
  _ ← close_open (listen_fd_admin fds);
  _ ← (if 0 <=? listen_fd_unix fds
       then _ ← close (listen_fd_unix fds); remove_socket (unix_socket_path cfg) else mret tt);
  _ ← close_open (pipe_read_fd fds);
  _ ← close_open (pipe_write_fd fds);
  _ ← close_inotify (inotify_fd fds);
  _ ← (if queue_initialized then _ ← lock_destroy; lock_destroy else mret tt);
  _ ← (if jobs_initialized then lock_destroy else mret tt);
  if blocklist_initialized then lock_destroy else mret tt.

(** ** [server_run] up to its loop *)

(** A failed step: [None] stands for [EXIT_FAILURE]. *)
Definition start_failed (cfg : runtime_config) (fds : server_fds) (queue jobs : bool)
    : Boot (option (server_fds * storage_globals)) :=
  _ ← release cfg fds false queue jobs true; mret None.

Definition start_listeners (cfg : runtime_config) (fds : server_fds) (g : storage_globals)
    : Boot (option (server_fds * storage_globals)) :=
  user ← create_listen_socket (u16 (user_port cfg));
  let fds := ServerFds user (listen_fd_admin fds) (listen_fd_unix fds) (pipe_read_fd fds) (pipe_write_fd fds) (inotify_fd fds) in
  if user <? 0 then start_failed cfg fds true true else
  admin ← create_listen_socket (u16 (admin_port cfg));
  let fds := ServerFds user admin (listen_fd_unix fds) (pipe_read_fd fds) (pipe_write_fd fds) (inotify_fd fds) in
  if admin <? 0 then start_failed cfg fds true true else
  unix ← create_unix_listen_socket (unix_socket_path cfg);
  let fds := ServerFds user admin unix (pipe_read_fd fds) (pipe_write_fd fds) (inotify_fd fds) in
  if unix <? 0 then start_failed cfg fds true true else
  rc ← init_workers (Z.to_nat (worker_count cfg)) 0;
  if rc <? 0 then start_failed cfg fds true true else
  mret (Some (fds, g)).

Definition start_notifications (cfg : runtime_config) (g : storage_globals)
    : Boot (option (server_fds * storage_globals)) :=
  ok ← sys;     (* pipe *)
  if negb ok then start_failed cfg no_fds true true else
  r ← ((fun m => Some (pick (mc_open m), set_open ({[pick (mc_open m)]} ∪ mc_open m) m)) : Boot Z);
  w ← ((fun m => Some (pick (mc_open m), set_open ({[pick (mc_open m)]} ∪ mc_open m) m)) : Boot Z);
  let fds := ServerFds (-1) (-1) (-1) r w (-1) in
  rc ← set_nonblocking r;
  if rc <? 0 then start_failed cfg fds true true else
  ino ← init_inotify;
  let fds := ServerFds (-1) (-1) (-1) r w (fst ino) in
  if snd ino <? 0 then start_failed cfg fds true true else
  start_listeners cfg fds g.

Definition start_server (cfg : runtime_config) (g : storage_globals)
    : Boot (option (server_fds * storage_globals)) :=
  ok ← lock_init;
  if negb ok then mret None else
  rc ← install_signal_handlers;
  if rc <? 0 then start_failed cfg no_fds false false else
  let (rc, g) := storage_set_root (Some (storage_root cfg)) g in
  if rc <? 0 then start_failed cfg no_fds false false else
  rc ← storage_init_dirs g;
  if rc <? 0 then start_failed cfg no_fds false false else
  ok ← lock_init;
  if negb ok then start_failed cfg no_fds false false else
  ok ← queue_init;
  if negb ok then start_failed cfg no_fds false true else
  start_notifications cfg g.
End kernel.
