(* ===== verification/StartupCorrect.v ===== *)
(** * What start-up guarantees

    A logic for the computations of start-up, and the theorems: a configuration
    that [main] accepts never makes [server_run] write past its arrays, a start
    acquires exactly the resources that the loop uses, and a failed start
    releases them, except the workers that were started before a thread could
    not be created. *)

From S2P Require Export Startup.
#[local] Open Scope Z_scope.

(** ** The logic *)

Definition wpB {A} (b : Boot A) (Q : A -> machine -> Prop) (m : machine) : Prop :=
  match b m with Some (a, m') => Q a m' | None => False end.

Definition set_calls (l : list bool) (m : machine) : machine :=
  Machine l (mc_open m) (mc_sockets m) (mc_dirs m) (mc_threads m) (mc_locks m).

Section wpB_rules.
Context {A B : Type}.

Lemma wpB_ret (a : A) (Q : A -> machine -> Prop) m : Q a m -> wpB (mret a) Q m.
Proof. done. Qed.

Lemma wpB_bind (b : Boot A) (f : A -> Boot B) (Q : B -> machine -> Prop) m :
  wpB b (fun a => wpB (f a) Q) m -> wpB (b ≫= f) Q m.
Proof. unfold wpB, mbind, Boot_bind. by destruct (b m) as [[]|]. Qed.

Lemma wpB_conseq (b : Boot A) (P Q : A -> machine -> Prop) m :
  wpB b P m -> (forall a m', P a m' -> Q a m') -> wpB b Q m.
Proof. unfold wpB. destruct (b m) as [[]|]; auto. Qed.
End wpB_rules.

(** ** The resources that are held

    [held base acq th n path m]: since [base] the descriptors [acq] were opened
    and the threads [th] started, [n] locks are in use, and no file of a socket
    was made but [path]. *)

Definition path_set (path : option string) : gset string :=
  match path with Some p => {[p]} | None => ∅ end.

Record held (base : machine) (path : option string) (acq th : list Z) (n : Z) (m : machine) : Prop := Held {
  hd_open : mc_open m = mc_open base ∪ list_to_set acq;
  hd_nodup : NoDup acq;
  hd_fresh : Forall (fun fd => 0 <= fd /\ fd ∉ mc_open base) acq;
  hd_threads : mc_threads m = mc_threads base ++ th;
  hd_locks : mc_locks m = mc_locks base + n;
  hd_sockets : mc_sockets m ⊆ mc_sockets base ∪ path_set path;
  hd_dirs : forall p, mc_dirs base !! p = Some true -> mc_dirs m !! p = Some true
}.

Lemma held_init base : held base None [] [] 0 base.
Proof.
  constructor; simpl; try done; [set_solver|constructor|by rewrite app_nil_r|lia|set_solver].
Qed.

Lemma held_perm base path acq acq' th n m : acq ≡ₚ acq' -> held base path acq th n m -> held base path acq' th n m.
Proof.
  intros Hp [H1 H2 H3 H4 H5 H6 H7]. constructor; try done.
  - rewrite H1. apply leibniz_equiv. by rewrite Hp.
  - by rewrite <-Hp.
  - by rewrite <-Hp.
Qed.

Section startup.
Context (pick : gset Z -> Z) (pick_ok : forall X, 0 <= pick X /\ pick X ∉ X).
Context (base : machine).

Lemma step_sys path acq th n m (Q : bool -> machine -> Prop) :
  held base path acq th n m -> (forall ok m', held base path acq th n m' -> Q ok m') -> wpB sys Q m.
Proof. intros [] HQ. unfold wpB, sys. apply HQ. by constructor. Qed.

Lemma step_pick path acq th n m (Q : Z -> machine -> Prop) :
  held base path acq th n m -> (forall fd m', 0 <= fd -> held base path (fd :: acq) th n m' -> Q fd m') ->
  wpB ((fun m => Some (pick (mc_open m), set_open ({[pick (mc_open m)]} ∪ mc_open m) m)) : Boot Z) Q m.
Proof.
  intros [H1 H2 H3 H4 H5 H6 H7] HQ. unfold wpB. destruct (pick_ok (mc_open m)) as [Hpos Hfresh].
  apply HQ; [done|]. generalize dependent (pick (mc_open m)). intros fd Hpos Hfresh.
  rewrite H1 in Hfresh. apply not_elem_of_union in Hfresh as [Hb Hl]. rewrite elem_of_list_to_set in Hl.
  constructor; simpl; rewrite ?H1; try done; [set_solver|by apply NoDup_cons|by apply Forall_cons].
Qed.

Lemma step_close fd path acq th n m (Q : unit -> machine -> Prop) :
  held base path (fd :: acq) th n m -> (forall m', held base path acq th n m' -> Q tt m') -> wpB (close fd) Q m.
Proof.
  intros [H1 H2 H3 H4 H5 H6 H7] HQ. apply NoDup_cons in H2 as [Hfd H2]. apply Forall_cons in H3 as [[_ Hb] H3].
  unfold wpB, close, change. apply HQ. constructor; simpl; try done. rewrite H1.
  assert (fd ∉ (list_to_set acq : gset Z)) by (by rewrite elem_of_list_to_set). set_solver.
Qed.

Lemma step_new_fd path acq th n m (Q : Z -> machine -> Prop) :
  held base path acq th n m ->
  (forall m', held base path acq th n m' -> Q (-1) m') ->
  (forall fd m', 0 <= fd -> held base path (fd :: acq) th n m' -> Q fd m') -> wpB (new_fd pick) Q m.
Proof.
  intros Hh Hno Hyes. apply wpB_bind, (step_sys _ _ _ _ _ _ Hh). intros [] m' Hh'; cbn [negb].
  - by apply (step_pick _ _ _ _ _ _ Hh').
  - by apply wpB_ret, Hno.
Qed.

(** A call that closes [fd] when it fails. *)
Lemma step_or_close fd path acq th n m (k : Boot Z) (Q : Z -> machine -> Prop) :
  held base path (fd :: acq) th n m -> (forall m', held base path acq th n m' -> Q (-1) m') ->
  (forall m', held base path (fd :: acq) th n m' -> wpB k Q m') ->
  wpB (ok ← sys; if negb ok then _ ← close fd; mret (-1) else k) Q m.
Proof.
  intros Hh Hno Hk. apply wpB_bind, (step_sys _ _ _ _ _ _ Hh). intros [] m' Hh'; cbn [negb]; [by apply Hk|].
  apply wpB_bind, (step_close _ _ _ _ _ _ _ Hh'). intros m2 H2. by apply wpB_ret, Hno.
Qed.

Lemma listen_spec port path acq th n m (Q : Z -> machine -> Prop) :
  held base path acq th n m ->
  (forall m', held base path acq th n m' -> Q (-1) m') ->
  (forall fd m', 0 <= fd -> held base path (fd :: acq) th n m' -> Q fd m') ->
  wpB (create_listen_socket pick port) Q m.
Proof.
  intros Hh Hno Hyes. apply wpB_bind, (step_new_fd _ _ _ _ _ _ Hh); [intros m' Hh'; by apply wpB_ret, Hno|].
  intros fd m1 Hfd H1. destruct (Z.ltb_spec fd 0); [lia|].
  apply (step_or_close _ _ _ _ _ _ _ _ H1); [done|]. intros m2 H2.
  apply (step_or_close _ _ _ _ _ _ _ _ H2); [done|]. intros m3 H3.
  apply (step_or_close _ _ _ _ _ _ _ _ H3); [done|]. intros m4 H4. by apply wpB_ret, Hyes.
Qed.

Lemma step_remove p acq th n m (Q : unit -> machine -> Prop) :
  held base (Some p) acq th n m -> (forall m', held base None acq th n m' -> Q tt m') -> wpB (remove_socket p) Q m.
Proof.
  intros [] HQ. unfold wpB, remove_socket, change. apply HQ. constructor; simpl in *; try done. set_solver.
Qed.

Lemma step_add p acq th n m (Q : unit -> machine -> Prop) :
  held base None acq th n m -> (forall m', held base (Some p) acq th n m' -> Q tt m') -> wpB (add_socket p) Q m.
Proof.
  intros [] HQ. unfold wpB, add_socket, change. apply HQ. constructor; simpl in *; try done. set_solver.
Qed.

Lemma held_path p acq th n m : held base None acq th n m -> held base (Some p) acq th n m.
Proof. intros []. constructor; simpl in *; try done. set_solver. Qed.

Lemma unix_spec p acq th n m (Q : Z -> machine -> Prop) :
  held base None acq th n m ->
  (forall m', held base None acq th n m' -> Q (-1) m') ->
  (forall fd m', 0 <= fd -> held base (Some p) (fd :: acq) th n m' -> Q fd m') ->
  wpB (create_unix_listen_socket pick p) Q m.
Proof.
  intros Hh Hno Hyes. unfold create_unix_listen_socket. destruct (strlen p =? 0); [by apply wpB_ret, Hno|].
  apply wpB_bind, (step_new_fd _ _ _ _ _ _ Hh); [intros m' Hh'; by apply wpB_ret, Hno|].
  intros fd m1 Hfd H1. destruct (Z.ltb_spec fd 0); [lia|]. destruct (UNIX_PATH_MAX <=? strlen p).
  { apply wpB_bind, (step_close _ _ _ _ _ _ _ H1). intros m2 H2. by apply wpB_ret, Hno. }
  apply (step_or_close _ _ _ _ _ _ _ _ H1); [done|]. intros m2 H2.
  apply wpB_bind, (step_remove _ _ _ _ _ _ (held_path p _ _ _ _ H2)). intros m3 H3.
  apply (step_or_close _ _ _ _ _ _ _ _ H3); [done|]. intros m4 H4.
  apply wpB_bind, (step_add p _ _ _ _ _ H4). intros m5 H5.
  apply wpB_bind, (step_sys _ _ _ _ _ _ H5). intros [] m6 H6; cbn [negb]; [by apply wpB_ret, Hyes|].
  apply wpB_bind, (step_close _ _ _ _ _ _ _ H6). intros m7 H7.
  apply wpB_bind, (step_remove _ _ _ _ _ _ H7). intros m8 H8. by apply wpB_ret, Hno.
Qed.

Lemma step_lock path acq th n m (Q : bool -> machine -> Prop) :
  held base path acq th n m ->
  (forall m', held base path acq th n m' -> Q false m') ->
  (forall m', held base path acq th (n + 1) m' -> Q true m') -> wpB lock_init Q m.
Proof.
  intros Hh Hno Hyes. apply wpB_bind, (step_sys _ _ _ _ _ _ Hh). intros [] m' Hh'; cbn [negb].
  - unfold wpB, change, mbind, Boot_bind. apply Hyes. destruct Hh'. constructor; simpl; try done. lia.
  - by apply wpB_ret, Hno.
Qed.

Lemma step_unlock path acq th n m (Q : unit -> machine -> Prop) :
  held base path acq th n m -> (forall m', held base path acq th (n - 1) m' -> Q tt m') -> wpB lock_destroy Q m.
Proof. intros [] HQ. unfold wpB, lock_destroy, change. apply HQ. constructor; simpl; try done. lia. Qed.

Lemma queue_init_spec path acq th n m (Q : bool -> machine -> Prop) :
  held base path acq th n m ->
  (forall m', held base path acq th n m' -> Q false m') ->
  (forall m', held base path acq th (n + 2) m' -> Q true m') -> wpB queue_init Q m.
Proof.
  intros Hh Hno Hyes. apply wpB_bind, (step_lock _ _ _ _ _ _ Hh); [intros m1 H1; by apply wpB_ret, Hno|].
  intros m1 H1. cbn [negb]. apply wpB_bind, (step_lock _ _ _ _ _ _ H1).
  - intros m2 H2. cbn [negb]. apply wpB_bind, (step_unlock _ _ _ _ _ _ H2). intros m3 H3.
    apply wpB_ret, Hno. by replace (n + 1 - 1) with n in H3 by lia.
  - intros m2 H2. apply wpB_ret, Hyes. by replace (n + 1 + 1) with (n + 2) in H2 by lia.
Qed.

(** Calls whose failure is only reported. *)
Lemma step_or_fail path acq th n m (k : Boot Z) (Q : Z -> machine -> Prop) :
  held base path acq th n m -> (forall m', held base path acq th n m' -> Q (-1) m') ->
  (forall m', held base path acq th n m' -> wpB k Q m') ->
  wpB (ok ← sys; if negb ok then mret (-1) else k) Q m.
Proof.
  intros Hh Hno Hk. apply wpB_bind, (step_sys _ _ _ _ _ _ Hh). intros [] m' Hh'; cbn [negb]; [by apply Hk|].
  by apply wpB_ret, Hno.
Qed.

(** A result of 0 or [-1], and nothing acquired. *)
Definition plain (b : Boot Z) : Prop := forall path acq th n m (Q : Z -> machine -> Prop),
  held base path acq th n m -> (forall rc m', rc = 0 \/ rc = -1 -> held base path acq th n m' -> Q rc m') -> wpB b Q m.

Lemma plain_ret rc : rc = 0 \/ rc = -1 -> plain (mret rc).
Proof. intros Hrc path acq th n m Q Hh HQ. by apply wpB_ret, HQ. Qed.

Lemma plain_call k : plain k -> plain (ok ← sys; if negb ok then mret (-1) else k).
Proof.
  intros Hk path acq th n m Q Hh HQ. apply (step_or_fail _ _ _ _ _ _ _ Hh); [intros; by apply HQ; [right|]|].
  intros m' Hh'. by apply (Hk _ _ _ _ _ _ Hh').
Qed.

Lemma plain_signals : plain install_signal_handlers.
Proof. repeat apply plain_call. apply plain_ret. by left. Qed.

Lemma plain_nonblocking fd : plain (set_nonblocking fd).
Proof. repeat apply plain_call. apply plain_ret. by left. Qed.

Lemma plain_directory p : plain (ensure_directory_exists p).
Proof.
  intros path acq th n m Q Hh HQ. unfold ensure_directory_exists. apply wpB_bind. unfold wpB at 1.
  destruct (mc_dirs m !! p) as [b|] eqn:E; [apply wpB_ret, HQ; [destruct b; auto|done]|].
  apply (step_or_fail _ _ _ _ _ _ _ Hh); [intros; by apply HQ; [right|]|]. intros m' Hh'.
  unfold wpB, change, mbind, Boot_bind. apply HQ; [by left|]. destruct Hh'. constructor; simpl; try done.
  intros q Hq. destruct (decide (q = p)) as [->|Hne]; [apply lookup_insert_eq|].
  rewrite lookup_insert_ne by done. auto.
Qed.

Lemma plain_seq b k : plain b -> plain k -> plain (rc ← b; if rc <? 0 then mret (-1) else k).
Proof.
  intros Hb Hk path acq th n m Q Hh HQ. apply wpB_bind, (Hb _ _ _ _ _ _ Hh). intros rc m1 [->| ->] H1.
  - by apply (Hk _ _ _ _ _ _ H1).
  - apply wpB_ret, HQ; [by right|done].
Qed.

Lemma plain_dirs g : plain (storage_init_dirs g).
Proof. unfold storage_init_dirs. repeat (apply plain_seq; [apply plain_directory|]). apply plain_ret. by left. Qed.

Lemma inotify_spec path acq th n m (Q : Z * Z -> machine -> Prop) :
  held base path acq th n m ->
  (forall m', held base path acq th n m' -> Q (-1, -1) m') ->
  (forall fd rc m', 0 <= fd -> rc = 0 \/ rc = -1 -> held base path (fd :: acq) th n m' -> Q (fd, rc) m') ->
  wpB (init_inotify pick) Q m.
Proof.
  intros Hh Hno Hyes. apply wpB_bind, (step_new_fd _ _ _ _ _ _ Hh); [intros m' Hh'; by apply wpB_ret, Hno|].
  intros fd m1 Hfd H1. destruct (Z.ltb_spec fd 0); [lia|].
  do 3 (apply wpB_bind; apply (step_sys _ _ _ _ _ _ H1); clear m1 H1; intros [] m1 H1; cbn [negb];
    [|apply wpB_ret, Hyes; auto]). apply wpB_ret, Hyes; auto.
Qed.

(** As many threads as the configuration has, or those before the one that
    could not be created. *)
Lemma workers_spec k i path acq n m (Q : Z -> machine -> Prop) :
  0 <= i -> i + Z.of_nat k <= MAX_WORKERS ->
  held base path acq (seqZ 0 i) n m ->
  (forall j m', i <= j < i + Z.of_nat k -> held base path acq (seqZ 0 j) n m' -> Q (-1) m') ->
  (forall m', held base path acq (seqZ 0 (i + Z.of_nat k)) n m' -> Q 0 m') ->
  wpB (init_workers k i) Q m.
Proof.
  revert i m. induction k as [|k IH]; intros i m Hi Hk Hh Hno Hyes.
  { apply wpB_ret, Hyes. by rewrite Z.add_0_r. }
  cbn [init_workers]. destruct (Z.leb_spec MAX_WORKERS i); [lia|].
  apply (step_or_fail _ _ _ _ _ _ _ Hh); [intros m' H'; apply (Hno i); [lia|done]|]. intros m1 H1.
  apply wpB_bind. unfold wpB at 1, change. apply IH; [lia|lia| | |].
  - destruct H1. constructor; simpl; try done. rewrite seqZ_app by lia. simpl. rewrite hd_threads0, <-app_assoc. done.
  - intros j m' Hj. apply Hno. lia.
  - intros m' H'. apply Hyes. by replace (i + Z.of_nat (S k)) with (i + 1 + Z.of_nat k) by lia.
Qed.

(** ** The release *)

(** The descriptors that are open. *)
Definition fd_list (fds : server_fds) : list Z :=
  List.filter (fun fd => 0 <=? fd)
    [listen_fd_user fds; listen_fd_admin fds; listen_fd_unix fds; pipe_read_fd fds; pipe_write_fd fds; inotify_fd fds].

Lemma step_close_open fd l path th n m (Q : unit -> machine -> Prop) :
  held base path (List.filter (fun fd => 0 <=? fd) (fd :: l)) th n m ->
  (forall m', held base path (List.filter (fun fd => 0 <=? fd) l) th n m' -> Q tt m') -> wpB (close_open fd) Q m.
Proof.
  intros Hh HQ. unfold close_open. cbn [List.filter] in Hh. destruct (0 <=? fd); [by eapply step_close|].
  by apply wpB_ret, HQ.
Qed.

Definition lock_count (queue jobs : bool) : Z := 1 + (if jobs then 1 else 0) + (if queue then 2 else 0).

(** The socket file exists while its descriptor is open. *)
Definition unix_file (cfg : runtime_config) (fds : server_fds) : option string :=
  if 0 <=? listen_fd_unix fds then Some (unix_socket_path cfg) else None.

Lemma step_join n path acq k m (Q : unit -> machine -> Prop) :
  mc_threads base = [] -> held base path acq (seqZ 0 n) k m ->
  (forall m', held base path acq [] k m' -> Q tt m') -> wpB (join_workers n) Q m.
Proof.
  intros Hb [] HQ. unfold wpB, join_workers, change. apply HQ. constructor; simpl; try done.
  rewrite hd_threads0, Hb. cbn [app].
  assert (H : forall l, Forall (fun i => 0 <= i < n) l -> List.filter (fun i => negb ((0 <=? i) && (i <? n))) l = []).
  { induction 1 as [|i l Hi _ IH]; [done|]. cbn [List.filter].
    by rewrite (proj2 (Z.leb_le _ _)), (proj2 (Z.ltb_lt _ _)) by lia. }
  apply H, Forall_forall. intros i Hi%elem_of_seqZ. lia.
Qed.

(** The release after a failed start, and after the loop. *)
Lemma release_spec cfg fds (started queue jobs : bool) th m (Q : unit -> machine -> Prop) :
  (started = true -> th = seqZ 0 (worker_count cfg) /\ mc_threads base = []) ->
  held base (unix_file cfg fds) (fd_list fds) th (lock_count queue jobs) m ->
  (forall m', held base None [] (if started then [] else th) 0 m' -> Q tt m') ->
  wpB (release cfg fds started queue jobs true) Q m.
Proof.
  intros Hst Hh HQ. unfold release. apply wpB_bind.
  assert (Hjoin : wpB (if started then join_workers (worker_count cfg) else mret tt)
    (fun _ m' => held base (unix_file cfg fds) (fd_list fds) (if started then [] else th) (lock_count queue jobs) m') m).
  { destruct started; [|by apply wpB_ret]. destruct Hst as [-> Hb]; [done|].
    by apply (step_join _ _ _ _ _ _ Hb Hh). }
  eapply wpB_conseq; [exact Hjoin|]. clear m Hh Hjoin Hst. intros [] m Hh.
  revert Hh HQ. generalize (if started then [] else th). clear th. intros th Hh HQ.
  apply wpB_bind, (step_close_open _ _ _ _ _ _ _ Hh). clear m Hh. intros m Hh.
  apply wpB_bind, (step_close_open _ _ _ _ _ _ _ Hh). clear m Hh. intros m Hh.
  apply wpB_bind. unfold unix_file in Hh. cbn [List.filter] in Hh.
  assert (Hunix : wpB (if 0 <=? listen_fd_unix fds
       then _ ← close (listen_fd_unix fds); remove_socket (unix_socket_path cfg) else mret tt)
    (fun _ m' => held base None (List.filter (fun fd => 0 <=? fd) [pipe_read_fd fds; pipe_write_fd fds; inotify_fd fds])
       th (lock_count queue jobs) m') m).
  { destruct (0 <=? listen_fd_unix fds); [|by apply wpB_ret].
    apply wpB_bind, (step_close _ _ _ _ _ _ _ Hh). intros m1 H1. by apply (step_remove _ _ _ _ _ _ H1). }
  eapply wpB_conseq; [exact Hunix|]. clear m Hh Hunix. intros [] m Hh.
  apply wpB_bind, (step_close_open _ _ _ _ _ _ _ Hh). clear m Hh. intros m Hh.
  apply wpB_bind, (step_close_open _ _ _ _ _ _ _ Hh). clear m Hh. intros m Hh.
  apply wpB_bind, (step_close_open _ _ _ _ _ _ _ Hh). clear m Hh. intros m Hh. cbn [List.filter] in Hh.
  unfold lock_count in Hh. apply wpB_bind.
  assert (Hq : wpB (if queue then _ ← lock_destroy; lock_destroy else mret tt)
    (fun _ m' => held base None [] th (1 + if jobs then 1 else 0) m') m).
  { destruct queue; [|by apply wpB_ret; rewrite Z.add_0_r in Hh].
    apply wpB_bind, (step_unlock _ _ _ _ _ _ Hh). intros m1 H1. apply (step_unlock _ _ _ _ _ _ H1). intros m2 H2.
    by replace (1 + (if jobs then 1 else 0) + 2 - 1 - 1) with (1 + if jobs then 1 else 0) in H2 by (destruct jobs; lia). }
  eapply wpB_conseq; [exact Hq|]. clear m Hh Hq. intros [] m Hh. apply wpB_bind.
  assert (Hj : wpB (if jobs then lock_destroy else mret tt) (fun _ m' => held base None [] th 1 m') m).
  { destruct jobs; [|by apply wpB_ret]. by apply (step_unlock _ _ _ _ _ _ Hh). }
  eapply wpB_conseq; [exact Hj|]. clear m Hh Hj. intros [] m Hh. by apply (step_unlock _ _ _ _ _ _ Hh).
Qed.

(** ** The whole start *)

Definition start_result (cfg : runtime_config) (r : option (server_fds * storage_globals)) (m : machine) : Prop :=
  match r with
  | Some (fds, g) =>
      length (fd_list fds) = 6%nat /\
      held base (Some (unix_socket_path cfg)) (fd_list fds) (seqZ 0 (worker_count cfg)) 4 m
  | None => exists k, 0 <= k /\ (k = 0 \/ k < worker_count cfg) /\ held base None [] (seqZ 0 k) 0 m
  end.

Lemma start_failed_spec cfg fds queue jobs k m :
  0 <= k -> k = 0 \/ k < worker_count cfg ->
  held base (unix_file cfg fds) (fd_list fds) (seqZ 0 k) (lock_count queue jobs) m ->
  wpB (start_failed cfg fds queue jobs) (start_result cfg) m.
Proof.
  intros Hk0 Hk Hh. apply wpB_bind. apply (release_spec _ _ false _ _ _ _ _ ltac:(done) Hh).
  intros m' H'. apply wpB_ret. by exists k.
Qed.

Lemma fd_cons fd l : 0 <= fd -> List.filter (fun fd => 0 <=? fd) (fd :: l) = fd :: List.filter (fun fd => 0 <=? fd) l.
Proof. intros H. cbn [List.filter]. by rewrite (proj2 (Z.leb_le _ _) H). Qed.

Lemma start_listeners_spec cfg r w ino g m :
  1 <= worker_count cfg <= MAX_WORKERS -> 0 <= r -> 0 <= w -> 0 <= ino ->
  held base None [r; w; ino] [] 4 m ->
  wpB (start_listeners pick cfg (ServerFds (-1) (-1) (-1) r w ino) g) (start_result cfg) m.
Proof.
  intros Hwc Hr Hw Hino Hh. assert (Hh0 : held base None [r; w; ino] (seqZ 0 0) 4 m) by exact Hh. clear Hh.
  assert (H3 : List.filter (fun fd => 0 <=? fd) [r; w; ino] = [r; w; ino])
    by (rewrite !fd_cons by done; done).
  assert (Hfail : forall u a m', u = -1 /\ held base None [r; w; ino] (seqZ 0 0) 4 m' /\ a = -1 \/
      0 <= u /\ a = -1 /\ held base None [u; r; w; ino] (seqZ 0 0) 4 m' \/
      0 <= u /\ 0 <= a /\ held base None [u; a; r; w; ino] (seqZ 0 0) 4 m' ->
      wpB (start_failed cfg (ServerFds u a (-1) r w ino) true true) (start_result cfg) m').
  { intros u a m' H. apply (start_failed_spec _ _ _ _ 0); [lia|by left|]. unfold fd_list, unix_file. cbn [listen_fd_user
      listen_fd_admin listen_fd_unix pipe_read_fd pipe_write_fd inotify_fd].
    destruct H as [(-> & H & ->)|[(Hu & -> & H)|(Hu & Ha & H)]].
    - change (held base None (List.filter (fun fd => 0 <=? fd) [r; w; ino]) (seqZ 0 0) 4 m'). by rewrite H3.
    - rewrite fd_cons by done. change (held base None (u :: List.filter (fun fd => 0 <=? fd) [r; w; ino]) (seqZ 0 0) 4 m'). by rewrite H3.
    - rewrite !(fd_cons u), !(fd_cons a) by done.
      change (held base None (u :: a :: List.filter (fun fd => 0 <=? fd) [r; w; ino]) (seqZ 0 0) 4 m'). by rewrite H3. }
  unfold start_listeners. cbn [listen_fd_user listen_fd_admin listen_fd_unix pipe_read_fd pipe_write_fd inotify_fd].
  apply wpB_bind, (listen_spec _ _ _ _ _ _ _ Hh0); [intros m1 H1; apply Hfail; tauto|].
  intros u m1 Hu H1. destruct (Z.ltb_spec u 0); [lia|].
  apply wpB_bind, (listen_spec _ _ _ _ _ _ _ H1); [intros m2 H2; apply Hfail; tauto|].
  intros a m2 Ha H2. destruct (Z.ltb_spec a 0); [lia|].
  apply (held_perm _ _ _ [u; a; r; w; ino]) in H2; [|apply perm_swap].
  apply wpB_bind, (unix_spec _ _ _ _ _ _ H2); [intros m3 H3'; apply Hfail; tauto|].
  intros x m3 Hx Hx3. destruct (Z.ltb_spec x 0); [lia|]. set (fds := ServerFds u a x r w ino).
  assert (Hlist : fd_list fds = [u; a; x; r; w; ino]).
  { unfold fd_list, fds. cbn [listen_fd_user listen_fd_admin listen_fd_unix pipe_read_fd pipe_write_fd inotify_fd].
    rewrite !(fd_cons u), !(fd_cons a), !(fd_cons x), H3 by done. done. }
  assert (Hpath : unix_file cfg fds = Some (unix_socket_path cfg)).
  { unfold unix_file, fds. cbn [listen_fd_unix]. by rewrite (proj2 (Z.leb_le _ _) Hx). }
  apply (held_perm _ _ _ (fd_list fds)) in Hx3; [|rewrite Hlist; by solve_Permutation].
  apply wpB_bind, (workers_spec (Z.to_nat (worker_count cfg)) 0 _ _ _ _ _ ltac:(lia) ltac:(lia) Hx3).
  - intros j m4 Hj Hm4. change (-1 <? 0) with true. cbv iota.
    apply (start_failed_spec _ _ _ _ j); [lia|right; lia|]. by rewrite Hpath.
  - intros m4 Hm4. change (0 <? 0) with false. cbv iota. apply wpB_ret. split; [by rewrite Hlist|].
    by rewrite Z.add_0_l, Z2Nat.id in Hm4 by lia.
Qed.

Lemma start_notifications_spec cfg g m :
  1 <= worker_count cfg <= MAX_WORKERS -> held base None [] [] 4 m ->
  wpB (start_notifications pick cfg g) (start_result cfg) m.
Proof.
  intros Hwc Hh.
  assert (Hfail : forall fds m', listen_fd_unix fds = -1 -> held base None (fd_list fds) [] 4 m' ->
    wpB (start_failed cfg fds true true) (start_result cfg) m').
  { intros fds m' Hu H. apply (start_failed_spec _ _ _ _ 0); [lia|by left|]. unfold unix_file. by rewrite Hu. }
  apply wpB_bind, (step_sys _ _ _ _ _ _ Hh). intros [] m1 H1; cbn [negb]; [|by apply Hfail].
  apply wpB_bind, (step_pick _ _ _ _ _ _ H1). intros r m2 Hr H2.
  apply wpB_bind, (step_pick _ _ _ _ _ _ H2). intros w m3 Hw H3.
  apply (held_perm _ _ _ [r; w]) in H3; [|apply perm_swap].
  assert (Hrw : forall ino, fd_list (ServerFds (-1) (-1) (-1) r w ino) = r :: w :: List.filter (fun fd => 0 <=? fd) [ino]).
  { intros ino. unfold fd_list. cbn [listen_fd_user listen_fd_admin listen_fd_unix pipe_read_fd pipe_write_fd inotify_fd].
    rewrite <-(fd_cons w) by done. by rewrite <-(fd_cons r) by done. }
  apply wpB_bind, (plain_nonblocking r _ _ _ _ _ _ H3). intros rc m4 [->| ->] H4.
  2: { apply Hfail; [done|by rewrite Hrw]. }
  change (0 <? 0) with false. cbv iota. apply wpB_bind, (inotify_spec _ _ _ _ _ _ H4).
  - intros m5 H5. apply Hfail; [done|by rewrite Hrw].
  - intros ino rc m5 Hino [->| ->] H5; (apply (held_perm _ _ _ [r; w; ino]) in H5; [|by solve_Permutation]); cbn [fst snd].
    + by apply start_listeners_spec.
    + apply Hfail; [done|]. by rewrite Hrw, fd_cons.
Qed.

Lemma start_server_spec cfg g : config_wf cfg -> wpB (start_server pick cfg g) (start_result cfg) base.
Proof.
  intros Hwf. pose proof (cw_workers _ Hwf) as Hwc. pose proof (held_init base) as Hh.
  assert (Hfail : forall queue jobs m', held base None [] [] (lock_count queue jobs) m' ->
    wpB (start_failed cfg no_fds queue jobs) (start_result cfg) m')
    by (intros queue jobs m' H; apply (start_failed_spec _ _ _ _ 0); [lia|by left|exact H]).
  unfold start_server. apply wpB_bind, (step_lock _ _ _ _ _ _ Hh).
  { intros m H. apply wpB_ret. exists 0. split; [lia|]. split; [by left|done]. }
  intros m1 H1. cbn [negb]. apply wpB_bind, (plain_signals _ _ _ _ _ _ H1). intros rc m2 [->| ->] H2; [|by apply Hfail].
  change (0 <? 0) with false. cbv iota. destruct (storage_set_root _ g) as [rc g1].
  destruct (rc <? 0); [by apply Hfail|].
  apply wpB_bind, (plain_dirs _ _ _ _ _ _ _ H2). intros rc2 m3 [->| ->] H3; [|by apply Hfail].
  change (0 <? 0) with false. cbv iota. apply wpB_bind, (step_lock _ _ _ _ _ _ H3); [intros; by apply Hfail|].
  intros m4 H4. cbn [negb]. apply wpB_bind, (queue_init_spec _ _ _ _ _ _ H4); [intros; by apply Hfail|].
  intros m5 H5. cbn [negb]. by apply start_notifications_spec.
Qed.

(** C22: starting the server with a configuration that [main] accepts never
    writes past the arrays of threads.  A start that succeeds holds six
    descriptors that were closed before, all different, the mutexes, one thread
    per configured worker, and no other file of a socket but its own.  A start
    that fails at any step has closed every descriptor and destroyed every
    mutex again and left no file of a socket; but the threads that ran before
    one could not be created are still running. *)
Theorem start_server_correct cfg g :
  config_wf cfg ->
  exists r m', start_server pick cfg g base = Some (r, m') /\
    (forall p, mc_dirs base !! p = Some true -> mc_dirs m' !! p = Some true) /\
    match r with
    | Some (fds, _) =>
        length (fd_list fds) = 6%nat /\ NoDup (fd_list fds) /\
        Forall (fun fd => fd ∉ mc_open base) (fd_list fds) /\
        mc_open m' = mc_open base ∪ list_to_set (fd_list fds) /\
        mc_threads m' = mc_threads base ++ seqZ 0 (worker_count cfg) /\
        mc_locks m' = mc_locks base + 4 /\
        mc_sockets m' ⊆ mc_sockets base ∪ {[unix_socket_path cfg]}
    | None =>
        mc_open m' = mc_open base /\ mc_locks m' = mc_locks base /\ mc_sockets m' ⊆ mc_sockets base /\
        exists k, 0 <= k /\ (k = 0 \/ k < worker_count cfg) /\ mc_threads m' = mc_threads base ++ seqZ 0 k
    end.
Proof.
  intros Hwf. pose proof (start_server_spec cfg g Hwf) as H.
  unfold wpB in H. destruct (start_server pick cfg g base) as [[r m']|]; [|done]. exists r, m'. split; [done|].
  destruct r as [[fds g']|]; simpl in H.
  - destruct H as [Hlen []]. split_and!; try done. eapply Forall_impl; [done|]. by intros fd [].
  - destruct H as (k & Hk0 & Hk & []). split; [done|]. split_and!; [set_solver|lia|set_solver|]. by exists k.
Qed.
End startup.

(** ** Concrete starts *)

(** The least descriptor that is free. *)
Definition least_free (X : gset Z) : Z := Z.of_nat (fresh (set_map (C := gset Z) (D := gset nat) Z.to_nat X)).

Lemma least_free_ok X : 0 <= least_free X /\ least_free X ∉ X.
Proof.
  unfold least_free. split; [lia|]. intros Hin.
  apply (is_fresh (set_map (C := gset Z) (D := gset nat) Z.to_nat X)). apply elem_of_map.
  eexists. split; [|exact Hin]. by rewrite Nat2Z.id.
Qed.

Definition demo_machine (calls : list bool) : machine := Machine calls {[0; 1; 2]} ∅ ∅ [] 0.

Lemma start_server_correct_witness :
  exists r m', start_server least_free runtime_config_set_defaults storage_globals_init
      (demo_machine (replicate 20 true ++ [false])) = Some (r, m') /\
    (forall p, mc_dirs (demo_machine (replicate 20 true ++ [false])) !! p = Some true -> mc_dirs m' !! p = Some true).
Proof.
  destruct (start_server_correct least_free least_free_ok (demo_machine (replicate 20 true ++ [false]))
    runtime_config_set_defaults storage_globals_init defaults_wf) as (r & m' & H & Hd & _).
  exists r, m'. split; [exact H|exact Hd].
Defined.

(** When the second of the three workers cannot be created, the first one keeps
    running, on a queue and a job table that were destroyed. *)
Example workers_left_running :
  exists m', start_server least_free runtime_config_set_defaults storage_globals_init
      (demo_machine (replicate 31 true ++ [false])) = Some (None, m') /\
    mc_threads m' = [0] /\ mc_locks m' = 0 /\ mc_open m' = mc_open (demo_machine []).
Proof. eexists. split; [vm_compute; reflexivity|]. by split_and!. Qed.
