(* ===== verification/Inotify.v ===== *)
(** * Directory notifications (src/src/server/server.c)

    The server watches its three directories with INotify and logs what
    happens there.  The kernel delivers the events as packed
    [struct inotify_event]s; reading past the bytes delivered is [None]. *)

From S2P Require Export Net Storage Wire.
#[local] Open Scope Z_scope.

Definition IN_MODIFY : Z := 0x2.
Definition IN_ATTRIB : Z := 0x4.
Definition IN_CLOSE_WRITE : Z := 0x8.
Definition IN_MOVED_FROM : Z := 0x40.
Definition IN_MOVED_TO : Z := 0x80.
Definition IN_CREATE : Z := 0x100.
Definition IN_DELETE : Z := 0x200.
Definition IN_Q_OVERFLOW : Z := 0x4000.
Definition IN_IGNORED : Z := 0x8000.

Definition INOTIFY_EVENT_BUFFER_SIZE : Z := 4096.

(** ** The text of a mask *)

(** [out] is the text in the buffer, of length [*used]. *)
Definition append_event_label (out_size : Z) (out label : string) : string :=
  if out_size =? 0 then out else
  let sep := if strlen out =? 0 then 0 else 1 in
  if out_size <=? strlen out + sep + strlen label + 1 then out
  else (if strlen out =? 0 then EmptyString else out +:+ "|") +:+
       snprintf_s (out_size - strlen out - sep) label.

(** The tests of [inotify_mask_to_string], in their order. *)
Definition mask_labels : list (Z * string) :=
  [(IN_CREATE, "CREATE"); (IN_CLOSE_WRITE, "CLOSE_WRITE"); (IN_MODIFY, "MODIFY"); (IN_DELETE, "DELETE");
   (IN_MOVED_FROM, "MOVED_FROM"); (IN_MOVED_TO, "MOVED_TO"); (IN_ATTRIB, "ATTRIB");
   (IN_Q_OVERFLOW, "Q_OVERFLOW"); (IN_IGNORED, "IGNORED")]%string.

(** [printf("%08x", n)] of 32 bits. *)
Definition hex_digit (d : Z) : Ascii.ascii := chr (if d <? 10 then 48 + d else 87 + d).
Definition print_08x (n : Z) : string :=
  foldr (fun i s => String (hex_digit (Z.land (Z.shiftr n (4 * i)) 15)) s) EmptyString [7; 6; 5; 4; 3; 2; 1; 0].

Definition inotify_mask_to_string (mask out_size : Z) : string :=
  let out := foldl (fun out '(bit, label) =>
               if negb (Z.land mask bit =? 0) then append_event_label out_size out label else out)
               EmptyString mask_labels in
  if strlen out =? 0 then snprintf_s out_size ("mask=0x" +:+ print_08x mask) else out.

(** ** The events *)

(** The watch descriptors of the three directories. *)
Record watches := Watches { wd_uploads : Z; wd_results : Z; wd_temp : Z }.

Definition inotify_watch_name (g : storage_globals) (wds : watches) (wd : Z) : string :=
  if wd =? wd_uploads wds then storage_uploads_dir g
  else if wd =? wd_results wds then storage_results_dir g
  else if wd =? wd_temp wds then storage_temp_dir g
  else "unknown".

(** What the handlers of notifications log. *)
Inductive log_line :=
  | LogEvent (job_id state : Z)
  | LogPartial
  | LogPipeFailed
  | LogInotify (dir event name : string) (cookie : Z)
  | LogInotifyFailed.

(** The event at the start of [bytes]: its line and the distance to the next
    one.  Its name is a C string that must end within the bytes read. *)
Definition inotify_event_at (g : storage_globals) (wds : watches) (bytes : list Z) : option (log_line * Z) :=
  if Z.of_nat (length bytes) <? 16 then None else
  let wd := signed32 (from_le (take 4 bytes)) in
  let mask := from_le (take 4 (drop 4 bytes)) in
  let cookie := from_le (take 4 (drop 8 bytes)) in
  let len := from_le (take 4 (drop 12 bytes)) in
  let name := drop 16 bytes in
  if (0 <? len) && negb (existsb (Z.eqb 0) name) then None else
  let name := if (0 <? len) && negb (strlen (cstr_of_bytes name) =? 0)
              then cstr_of_bytes name else "(none)"%string in
  Some (LogInotify (inotify_watch_name g wds wd) (inotify_mask_to_string mask 256) name cookie, 16 + len).

(** The loop over the events of one [read]. *)
Fixpoint events_loop (fuel : nat) (g : storage_globals) (wds : watches) (bytes : list Z)
    (log : list log_line) : option (list log_line) :=
  match bytes, fuel with
  | [], _ => Some log
  | _, O => None
  | _, S fuel =>
      match inotify_event_at g wds bytes with
      | None => None
      | Some (line, n) => events_loop fuel g wds (drop (Z.to_nat n) bytes) (log ++ [line])
      end
  end.

(** The loop over [reads], the results of the calls of [read] to come: the
    descriptor does not block, and has nothing when the list is exhausted. *)
Fixpoint inotify_loop (g : storage_globals) (wds : watches) (reads : list (io_result (list Z)))
    (log : list log_line) : option (list log_line * list (io_result (list Z))) :=
  match reads with
  | [] => Some (log, [])
  | IoEINTR :: reads => inotify_loop g wds reads log
  | IoFAIL :: reads => Some (log ++ [LogInotifyFailed], reads)
  | IoOK [] :: reads => Some (log, reads)
  | IoOK bytes :: reads =>
      match events_loop (length bytes) g wds bytes log with
      | None => None
      | Some log => inotify_loop g wds reads log
      end
  end.

Definition handle_inotify_events (g : storage_globals) (wds : watches)
    (reads : list (io_result (list Z))) : option (list log_line * list (io_result (list Z))) :=
  inotify_loop g wds reads [].

(** ** The text of a mask names the bits that are set *)

Definition labels_of (mask : Z) : list string :=
  snd <$> filter (fun '(bit, _) => Z.land mask bit <> 0) mask_labels.

Fixpoint join_bar (l : list string) : string :=
  match l with
  | [] => EmptyString
  | [s] => s
  | s :: l => s +:+ "|" +:+ join_bar l
  end.

(** The nine tests decide the text, so that checking the 512 outcomes of the
    tests is enough. *)
Definition mask_text (size : Z) (bits : list bool) : string :=
  foldl (fun out '(b, (_, label)) => if (b : bool) then append_event_label size out label else out)
    EmptyString (zip bits mask_labels).
Definition mask_names (bits : list bool) : list string :=
  (fun x => snd (snd x)) <$> filter (fun '(b, _) => b = true) (zip bits mask_labels).

Fixpoint all_bits (n : nat) : list (list bool) :=
  match n with
  | O => [[]]
  | S n => (cons true <$> all_bits n) ++ (cons false <$> all_bits n)
  end.

Lemma all_bits_spec bits : bits ∈ all_bits (length bits).
Proof.
  induction bits as [|[] bits IH]; simpl; [by apply list_elem_of_singleton|..]; apply elem_of_app;
    [left|right]; apply list_elem_of_fmap; eauto.
Qed.

Lemma mask_text_all :
  forallb (fun bits => String.eqb (mask_text 256 bits) (join_bar (mask_names bits))) (all_bits 9) = true.
Proof. vm_compute. reflexivity. Qed.

Lemma mask_text_join bits :
  length bits = 9%nat -> mask_text 256 bits = join_bar (mask_names bits).
Proof.
  intros Hl. apply String.eqb_eq. revert bits Hl.
  assert (H := proj1 (forallb_forall _ _) mask_text_all). intros bits Hl.
  apply H. apply list_elem_of_In. rewrite <-Hl. apply all_bits_spec.
Qed.

Definition mask_bits (mask : Z) : list bool := (fun '(bit, _) => negb (Z.land mask bit =? 0)) <$> mask_labels.

Lemma mask_fold mask (ls : list (Z * string)) out :
  foldl (fun out '(bit, label) =>
    if negb (Z.land mask bit =? 0) then append_event_label 256 out label else out) out ls =
  foldl (fun out '(b, (_, label)) => if (b : bool) then append_event_label 256 out label else out) out
    (zip ((fun '(bit, _) => negb (Z.land mask bit =? 0)) <$> ls) ls).
Proof. revert out. induction ls as [|[bit label] ls IH]; intros out; simpl; [done|]. apply IH. Qed.

Lemma mask_filter mask (ls : list (Z * string)) :
  (fun x => snd (snd x)) <$> filter (fun '(b, _) => b = true)
    (zip ((fun '(bit, _) => negb (Z.land mask bit =? 0)) <$> ls) ls) =
  snd <$> filter (fun '(bit, _) => Z.land mask bit <> 0) ls.
Proof.
  induction ls as [|[bit label] ls IH]; [done|]. rewrite fmap_cons. cbn [zip zip_with].
  rewrite !filter_cons. destruct (Z.eqb_spec (Z.land mask bit) 0) as [E|E]; cbn [negb].
  - rewrite decide_False by done. rewrite decide_False by (intros H; by apply H). apply IH.
  - rewrite !decide_True by done. rewrite !fmap_cons. f_equal. apply IH.
Qed.

Lemma inotify_mask_text mask :
  inotify_mask_to_string mask 256 =
  match labels_of mask with [] => "mask=0x" +:+ print_08x mask | ls => join_bar ls end.
Proof.
  unfold inotify_mask_to_string. rewrite mask_fold. fold (mask_bits mask) (mask_text 256 (mask_bits mask)).
  rewrite mask_text_join by done. unfold mask_names, mask_bits, labels_of. rewrite mask_filter.
  destruct (snd <$> _) as [|s [|t l]] eqn:E; cbn [join_bar].
  - change (strlen EmptyString =? 0) with true. apply snprintf_s_fits. done.
  - assert (Hs : s ∈ snd <$> mask_labels).
    { assert (H : s ∈ snd <$> filter (fun '(bit, _) => Z.land mask bit <> 0) mask_labels)
        by (rewrite E; apply list_elem_of_singleton; done).
      apply list_elem_of_fmap in H as (x & -> & Hx). apply list_elem_of_filter in Hx as [_ Hx].
      by apply list_elem_of_fmap_2. }
    assert (Hall : Forall (fun s => strlen s <> 0) (snd <$> mask_labels)) by by apply (bool_decide_unpack _).
    assert (H := proj1 (Forall_forall _ _) Hall s Hs). by apply Z.eqb_neq in H as ->.
  - assert (H : strlen (s +:+ "|" +:+ join_bar (t :: l)) <> 0).
    { rewrite strlen_app, strlen_app. change (strlen "|") with 1.
      pose proof (strlen_nonneg s). pose proof (strlen_nonneg (join_bar (t :: l))). lia. }
    apply Z.eqb_neq in H. cbn [join_bar] in H |- *. by rewrite H.
Qed.

(** ** The events the kernel delivers *)

Record inotify_event := InotifyEvent {
  ie_wd : Z; ie_mask : Z; ie_cookie : Z;
  ie_name : string;    (* empty when the event concerns the directory itself *)
  ie_pad : nat         (* the bytes of zero after the name *)
}.

Definition inotify_name_bytes (e : inotify_event) : list Z :=
  bytes_of_string (ie_name e) ++ replicate (ie_pad e) 0.

Definition inotify_event_bytes (e : inotify_event) : list Z :=
  le_field 4 (ie_wd e) ++ le_field 4 (ie_mask e) ++ le_field 4 (ie_cookie e) ++
  le_field 4 (Z.of_nat (length (inotify_name_bytes e))) ++ inotify_name_bytes e.

(** inotify(7): the name is null-terminated. *)
Record inotify_event_ok (e : inotify_event) : Prop := InotifyEventOk {
  ie_wd_ok : -2 ^ 31 <= ie_wd e < 2 ^ 31;
  ie_mask_ok : bounded 32 (ie_mask e);
  ie_cookie_ok : bounded 32 (ie_cookie e);
  ie_len_ok : Z.of_nat (length (inotify_name_bytes e)) < 2 ^ 32;
  ie_name_ok : no_nul (ie_name e) /\ (ie_name e <> EmptyString -> (0 < ie_pad e)%nat)
}.

(** The line that belongs to an event. *)
Definition event_line (g : storage_globals) (wds : watches) (e : inotify_event) : log_line :=
  LogInotify (inotify_watch_name g wds (ie_wd e))
    (match labels_of (ie_mask e) with [] => "mask=0x" +:+ print_08x (ie_mask e) | ls => join_bar ls end)
    (if String.eqb (ie_name e) EmptyString then "(none)" else ie_name e) (ie_cookie e).

Lemma take_field (l1 l2 : list Z) n : length l1 = n -> take n (l1 ++ l2) = l1.
Proof. intros <-. apply take_app_length. Qed.

Lemma drop_field (l1 l2 : list Z) n m : length l1 = n -> drop (n + m) (l1 ++ l2) = drop m l2.
Proof. intros <-. by rewrite drop_app_add. Qed.

Lemma cstr_no_nul_nil (s : string) : strlen s = 0 -> s = EmptyString.
Proof. destruct s; [done|]. rewrite strlen_cons. pose proof (strlen_nonneg s). lia. Qed.

(** The name that [inotify_event_at] finds. *)
Lemma name_decoded e rest :
  no_nul (ie_name e) -> (ie_name e <> EmptyString -> (0 < ie_pad e)%nat) ->
  let len := Z.of_nat (length (inotify_name_bytes e)) in
  let name := inotify_name_bytes e ++ rest in
  if (0 <? len) && negb (existsb (Z.eqb 0) name) then False else
  (if (0 <? len) && negb (strlen (cstr_of_bytes name) =? 0) then cstr_of_bytes name else "(none)"%string) =
  (if String.eqb (ie_name e) EmptyString then "(none)"%string else ie_name e).
Proof.
  intros Hnul Hpad. cbv zeta. unfold inotify_name_bytes. destruct (ie_pad e) as [|p].
  - assert (ie_name e = EmptyString) as -> by (destruct (ie_name e); [done|]; exfalso; by apply Nat.lt_irrefl with 0%nat, Hpad).
    done.
  - rewrite <-app_assoc. cbn [replicate app]. rewrite (cstr_of_bytes_string _ _ Hnul).
    rewrite existsb_app. cbn [existsb]. rewrite Z.eqb_refl, orb_true_r. cbn [negb]. rewrite andb_false_r.
    rewrite length_app. cbn [length replicate]. destruct (Z.ltb_spec 0 (Z.of_nat (length (bytes_of_string (ie_name e)) + S (length (replicate p 0))))); [|lia].
    destruct (String.eqb_spec (ie_name e) EmptyString) as [->|Hne]; [done|].
    destruct (Z.eqb_spec (strlen (ie_name e)) 0) as [H0|]; [|done]. by apply cstr_no_nul_nil in H0.
Qed.

Lemma inotify_event_at_bytes g wds e rest :
  inotify_event_ok e ->
  inotify_event_at g wds (inotify_event_bytes e ++ rest) =
  Some (event_line g wds e, Z.of_nat (length (inotify_event_bytes e))).
Proof.
  intros [Hwd Hmask Hcookie Hlen [Hnul Hpad]]. unfold inotify_event_bytes. set (name := inotify_name_bytes e) in *.
  rewrite <-!app_assoc. unfold inotify_event_at.
  set (b1 := le_field 4 (ie_wd e)). set (b2 := le_field 4 (ie_mask e)). set (b3 := le_field 4 (ie_cookie e)).
  set (b4 := le_field 4 (Z.of_nat (length name))).
  assert (L1 : length b1 = 4%nat) by apply length_le_field. assert (L2 : length b2 = 4%nat) by apply length_le_field.
  assert (L3 : length b3 = 4%nat) by apply length_le_field. assert (L4 : length b4 = 4%nat) by apply length_le_field.
  rewrite !length_app, L1, L2, L3, L4.
  destruct (Z.ltb_spec (Z.of_nat (4 + (4 + (4 + (4 + (length name + length rest)))))) 16); [lia|].
  rewrite (take_field b1) by done.
  change (drop 4 (b1 ++ b2 ++ b3 ++ b4 ++ name ++ rest)) with (drop (4 + 0) (b1 ++ b2 ++ b3 ++ b4 ++ name ++ rest)).
  change (drop 8) with (drop (A := Z) (4 + (4 + 0))). change (drop 12) with (drop (A := Z) (4 + (4 + (4 + 0)))).
  change (drop 16) with (drop (A := Z) (4 + (4 + (4 + (4 + 0))))).
  rewrite (drop_field b1) by done. rewrite !(drop_field b1), !(drop_field b2), !(drop_field b3), (drop_field b4) by done.
  rewrite !drop_0, (take_field b2), (take_field b3), (take_field b4) by done.
  subst b1 b2 b3 b4. rewrite (from_le_small 4 (ie_mask e)), (from_le_small 4 (ie_cookie e)), (from_le_small 4 (Z.of_nat (length name)))
    by (first [done|lia]). rewrite from_le_field.
  change (2 ^ (8 * Z.of_nat 4)) with (2 ^ 32). fold (wrap 32 (ie_wd e)) (u32 (ie_wd e)). rewrite signed32_wrap by done.
  rewrite inotify_mask_text. unfold event_line.
  pose proof (name_decoded e rest Hnul Hpad) as Hname. fold name in Hname. cbv zeta in Hname. revert Hname.
  destruct ((0 <? Z.of_nat (length name)) && negb (existsb (Z.eqb 0) (name ++ rest))); [intros []|]. intros ->. do 2 f_equal. lia.
Qed.

Lemma inotify_event_bytes_pos e : (16 <= length (inotify_event_bytes e))%nat.
Proof. unfold inotify_event_bytes. rewrite !length_app, !length_le_field. lia. Qed.

Lemma events_loop_correct g wds es fuel log :
  Forall inotify_event_ok es -> (length (concat (inotify_event_bytes <$> es)) <= fuel)%nat ->
  events_loop fuel g wds (concat (inotify_event_bytes <$> es)) log = Some (log ++ (event_line g wds <$> es)).
Proof.
  intros Hes. revert fuel log. induction Hes as [|e es He _ IH]; intros fuel log Hf.
  - destruct fuel; simpl; by rewrite app_nil_r.
  - rewrite fmap_cons in *. cbn [concat] in *. rewrite length_app in Hf. pose proof (inotify_event_bytes_pos e).
    destruct fuel as [|fuel]; [lia|]. pose proof (inotify_event_at_bytes g wds e (concat (inotify_event_bytes <$> es)) He) as Hat.
    destruct (inotify_event_bytes e ++ _) as [|b bs] eqn:E.
    { apply (f_equal length) in E. rewrite length_app in E. simpl in E. lia. }
    cbn [events_loop]. rewrite Hat, <-E, Nat2Z.id, drop_app_length, IH by lia. by rewrite <-app_assoc.
Qed.

(** What every read of the descriptor gives: whole, well-formed events. *)
Definition inotify_reads_ok (reads : list (io_result (list Z))) : Prop :=
  Forall (fun r => match r with
                   | IoOK bytes => exists es, Forall inotify_event_ok es /\ bytes = concat (inotify_event_bytes <$> es)
                   | _ => True
                   end) reads.

Lemma inotify_loop_total g wds reads log :
  inotify_reads_ok reads ->
  exists log' rest, inotify_loop g wds reads log = Some (log', rest) /\ inotify_reads_ok rest.
Proof.
  intros Hok. revert log. induction Hok as [|r reads Hr Hok IH]; intros log.
  { exists log, []. split; [done|]. apply Forall_nil_2. }
  destruct r as [| |bytes]; cbn [inotify_loop]; [apply IH|eauto|].
  destruct Hr as (es & Hes & ->).
  pose proof (events_loop_correct g wds es _ log Hes (le_n _)) as Hev.
  destruct (concat _) as [|b bs]; [eauto|]. rewrite Hev. apply IH.
Qed.

(** What the log says is what the kernel delivered: from the packed bytes of
    well-formed events, in any number of reads, interrupted or not,
    [handle_inotify_events] logs exactly one line per event, in order, with the
    directory of its watch, the names of the bits of its mask and its name. *)
Theorem inotify_events_logged g wds (reads : list (list inotify_event)) :
  Forall (fun es => es <> [] /\ Forall inotify_event_ok es) reads ->
  forall schedule, omap (fun r => match r with IoOK b => Some b | _ => None end) schedule =
      (fun es => concat (inotify_event_bytes <$> es)) <$> reads ->
  Forall (fun r => match r with IoFAIL => False | _ => True end) schedule ->
  handle_inotify_events g wds schedule = Some (event_line g wds <$> concat reads, []).
Proof.
  unfold handle_inotify_events. intros Hreads schedule.
  enough (H : forall log, omap (fun r => match r with IoOK b => Some b | _ => None end) schedule =
      (fun es => concat (inotify_event_bytes <$> es)) <$> reads ->
    Forall (fun r => match r with IoFAIL => False | _ => True end) schedule ->
    inotify_loop g wds schedule log = Some (log ++ (event_line g wds <$> concat reads), [])) by apply (H []).
  revert reads Hreads. induction schedule as [|r schedule IH]; intros reads Hreads log Heq Hok.
  - simpl in *. destruct reads; [|done]. by rewrite app_nil_r.
  - apply Forall_cons in Hok as [Hr Hok]. destruct r as [| |bytes]; [by apply IH|done|].
    destruct Hreads as [|es reads [Hne Hes] Hreads]; [done|]. simpl in Heq. simplify_eq.
    pose proof (events_loop_correct g wds es (length (concat (inotify_event_bytes <$> es))) log Hes (le_n _)) as Hev.
    destruct (concat (inotify_event_bytes <$> es)) as [|b bs] eqn:E.
    { destruct es as [|e es]; [done|]. apply (f_equal length) in E. rewrite fmap_cons in E. simpl in E.
      rewrite length_app in E. pose proof (inotify_event_bytes_pos e). simpl in E. lia. }
    cbn [inotify_loop]. rewrite Hev, (IH reads) by done. simpl. by rewrite fmap_app, <-app_assoc.
Qed.

Definition demo_created : inotify_event := InotifyEvent 1 0x108 0 "job_1.png" 7.
Definition demo_overflow : inotify_event := InotifyEvent (-1) IN_Q_OVERFLOW 0 "" 0.

Lemma inotify_events_logged_witness :
  handle_inotify_events storage_globals_init (Watches 1 2 3)
    [IoEINTR; IoOK (inotify_event_bytes demo_created ++ inotify_event_bytes demo_overflow)] =
  Some ([LogInotify "storage/uploads" "CREATE|CLOSE_WRITE" "job_1.png" 0;
         LogInotify "unknown" "Q_OVERFLOW" "(none)" 0], []).
Proof.
  assert (Hok : Forall inotify_event_ok [demo_created; demo_overflow]).
  { repeat apply Forall_cons_2; [..|apply Forall_nil_2]; (constructor; [by vm_compute..|]);
      (split; [apply (bool_decide_unpack _); vm_compute; exact I|]); [intros _; vm_compute; lia|done]. }
  apply (inotify_events_logged storage_globals_init (Watches 1 2 3) [[demo_created; demo_overflow]]).
  - apply Forall_singleton. by split.
  - vm_compute. reflexivity.
  - apply Forall_cons. split; [exact I|]. apply Forall_singleton. exact I.
Defined.
