(* ===== verification/PngUtils.v ===== *)
(** * PNG metadata (src/src/server/png_utils.c, include/png_utils.h) *)

From S2P Require Export World.
From S2P Require Import PngToy.
#[local] Open Scope Z_scope.

Record png_metadata := PngMetadata {
  md_width : Z;
  md_height : Z;
  md_bit_depth : Z;
  md_color_type : Z;
  md_channels : Z
}.

Definition png_color_type_to_string (color_type : Z) : string :=
  if color_type =? PNG_COLOR_TYPE_GRAY then "GRAY"
  else if color_type =? PNG_COLOR_TYPE_GRAY_ALPHA then "GRAY_ALPHA"
  else if color_type =? PNG_COLOR_TYPE_PALETTE then "PALETTE"
  else if color_type =? PNG_COLOR_TYPE_RGB then "RGB"
  else if color_type =? PNG_COLOR_TYPE_RGB_ALPHA then "RGBA"
  else "UNKNOWN".

(** [png_calculate_lsb_capacity_bytes]: [None] for [-1]; the products are
    computed in [unsigned long long]. *)
Definition png_calculate_lsb_capacity_bytes (metadata : option png_metadata) : option Z :=
  match metadata with
  | None => None
  | Some m =>
      if (md_width m =? 0) || (md_height m =? 0) || (md_channels m <=? 0) then None
      else if negb (md_bit_depth m =? 8) then None
      else
        let pixels := u64 (md_width m * md_height m) in
        let usable_bits := u64 (pixels * md_channels m) in
        let reserved_bytes := 16 in
        let total_bytes := usable_bits / 8 in
        Some (if reserved_bytes <? total_bytes then total_bytes - reserved_bytes else 0)
  end.

Section with_png.
Context `{L : LibPng}.

(** [is_png_signature_valid]. *)
Definition is_png_signature_valid (path : option string) : M Z :=
  match path with
  | None => mret (-1)
  | Some path =>
      fp ← fopen_rb path;
      match fp with
      | None => mret (-1)
      | Some data =>
          _ ← fclose;
          if negb (8 <=? Z.of_nat (length data)) then mret 0
          else mret (if png_sig_cmp (take 8 data) then 0 else 1)
      end
  end.

(** [png_read_metadata]: [None] for [-1]. *)
Definition png_read_metadata (path : option string) : M (option png_metadata) :=
  match path with
  | None => mret None
  | Some path =>
      fp ← fopen_rb path;
      match fp with
      | None => mret None
      | Some data =>
          if negb (8 <=? Z.of_nat (length data)) then _ ← fclose; mret None
          else if png_sig_cmp (take 8 data) then _ ← fclose; mret None
          else
            ok ← malloc;
            if negb ok then _ ← fclose; mret None else
            ok ← malloc;
            if negb ok then _ ← free 1; _ ← fclose; mret None else
            match png_read_info data with
            | None => _ ← free 2; _ ← fclose; mret None
            | Some i =>
                _ ← free 2;
                _ ← fclose;
                mret (Some (PngMetadata (pi_width i) (pi_height i) (pi_bit_depth i)
                              (pi_color_type i) (pi_channels i)))
            end
      end
  end.

Definition analyze_png_capacity_simple (path : option string) : M (option Z) :=
  match path with
  | None => mret None
  | Some _ =>
      m ← png_read_metadata path;
      match m with
      | None => mret None
      | Some m => mret (png_calculate_lsb_capacity_bytes (Some m))
      end
  end.

(** ** The properties *)

Ltac md_err := wp_auto; split; [steps|]; intros Hm p' data' [= <-] Hd' Hden' H8' Hsig';
  simplify_eq; first [no_malloc_failure | lia | congruence].

Lemma png_read_metadata_spec path w :
  wp (png_read_metadata path) (fun r w' =>
    step (w_fs w) 0 0 w w' /\
    match r with
    | Some m => exists p data i, path = Some p /\ w_fs w !! p = Some data /\ (p ∉ w_denied w) /\
        8 <= Z.of_nat (length data) /\ png_sig_cmp (take 8 data) = false /\ png_read_info data = Some i /\
        m = PngMetadata (pi_width i) (pi_height i) (pi_bit_depth i) (pi_color_type i) (pi_channels i)
    | None => w_mallocs w = [] -> forall p data, path = Some p -> w_fs w !! p = Some data ->
        p ∉ w_denied w -> 8 <= Z.of_nat (length data) -> png_sig_cmp (take 8 data) = false ->
        png_read_info data = None
    end) w.
Proof.
  unfold png_read_metadata. destruct path as [p|]; [|wp_step; split; [apply step_refl|done]].
  apply wp_bind, wp_fopen_rb; [intros data w1 Hd Hden Hs1|intros Hno; wp_step; split; [apply step_refl|]].
  2: { intros _ p' data [= <-] Hd' Hden'. destruct Hno; congruence. }
  wp_case; [|md_err]. wp_case; [md_err|].
  wp_step. wp_step. wp_case; [|md_err]. wp_step. wp_step. wp_case; [|md_err].
  wp_case; [|md_err]. wp_auto. split; [steps|]. exists p, data, p0. split_and!; try done. lia.
Qed.

(** Reading metadata leaves the files, the heap and the open handles as they
    were on every path, libpng errors included, and when no allocation fails
    it succeeds exactly for readable files with the signature and a header
    libpng accepts. *)
Theorem metadata_correct p w :
  w_mallocs w = [] ->
  wp (png_read_metadata (Some p)) (fun r w' =>
    step (w_fs w) 0 0 w w' /\
    (r <> None <-> exists data i, w_fs w !! p = Some data /\ (p ∉ w_denied w) /\
       8 <= Z.of_nat (length data) /\ png_sig_cmp (take 8 data) = false /\ png_read_info data = Some i)) w.
Proof.
  intros Hm. eapply wp_conseq; [apply png_read_metadata_spec|]. intros r w' [Hs Hr].
  split; [done|]. destruct r as [m|].
  - split; [|done]. intros _. destruct Hr as (p' & data & i & [= <-] & ?). exists data, i. tauto.
  - split; [done|]. intros (data & i & Hd & Hden & H8 & Hsig & Hi) _.
    specialize (Hr Hm p data eq_refl Hd Hden H8 Hsig). congruence.
Qed.
End with_png.

(** For an image libpng accepts, the capacity estimate of this module never
    wraps; it exceeds the capacity the encoder honours, for it counts the
    alpha channel and reserves one byte more than the container needs. *)
Theorem capacity_estimate m img :
  image_wf img -> md_width m = img_width img -> md_height m = img_height img ->
  md_bit_depth m = 8 -> md_channels m = img_channels img ->
  exists n, png_calculate_lsb_capacity_bytes (Some m) = Some n /\
    n = Z.max 0 (md_width m * md_height m * md_channels m / 8 - 16) /\
    (img_channels img = 3 -> n = Z.max 0 (image_data_bit_capacity img / 8 - 16)).
Proof.
  intros Hwf Hw Hh Hd Hc. rewrite (capacity_exact img Hwf). unfold png_calculate_lsb_capacity_bytes.
  destruct Hwf as [Hwd Hht Hch _ _ _]. unfold PNG_USER_MAX in *. rewrite <-Hw in *. rewrite <-Hh in *.
  rewrite (proj2 (Z.eqb_neq _ _)), (proj2 (Z.eqb_neq _ _)), Hd by lia.
  rewrite (proj2 (Z.leb_gt _ _)) by lia. cbn [orb negb Z.eqb].
  change (8 =? 8) with true. cbn [negb].
  assert (0 < md_width m * md_height m <= 1000000 * 1000000) by nia.
  assert (0 < md_width m * md_height m * md_channels m <= 4 * (1000000 * 1000000)) by nia.
  unfold u64. rewrite !(wrap_small 64); [|unfold bounded; lia..|rewrite wrap_small; unfold bounded; lia].
  eexists. split; [done|]. cbv zeta.
  assert (Hif : forall t, (if 16 <? t then t - 16 else 0) = Z.max 0 (t - 16))
    by (intros t; destruct (Z.ltb_spec 16 t); lia).
  rewrite Hif. split; [done|]. intros H3. by rewrite Hc, H3.
Qed.

(** ** A concrete image *)

Definition demo_metadata : png_metadata := PngMetadata 3 2 8 PNG_COLOR_TYPE_RGB_ALPHA 4.

Lemma metadata_correct_witness :
  let data := toy_header (toy_info 3 2 4) ++ replicate 24 7 in
  let w := World {["a.png" := data]} ∅ 0 0 [] [] [] crc_global_init in
  wp (png_read_metadata (Some "a.png"%string)) (fun r w' =>
    step (w_fs w) 0 0 w w' /\
    (r <> None <-> exists data i, w_fs w !! "a.png"%string = Some data /\ ("a.png"%string ∉ w_denied w) /\
       8 <= Z.of_nat (length data) /\ png_sig_cmp (take 8 data) = false /\ png_read_info data = Some i)) w.
Proof. intros data w. apply (metadata_correct "a.png" w). reflexivity. Defined.

Lemma capacity_estimate_witness :
  exists n, png_calculate_lsb_capacity_bytes (Some demo_metadata) = Some n /\
    n = Z.max 0 (3 * 2 * 4 / 8 - 16) /\
    (4 = 3 -> n = Z.max 0 (image_data_bit_capacity demo_rgba / 8 - 16)).
Proof. apply (capacity_estimate demo_metadata demo_rgba); first [exact demo_rgba_wf | reflexivity]. Defined.
