(* ===== verification/Job.v ===== *)
(** * Jobs and the job table (src/src/server/job.c, include/job.h)

    A job lives in a heap block; the table and the queue hold its address.
    The heap of jobs is a finite map from addresses to [job]s; [NULL] is
    [None].  Every function of job.c that takes a job pointer locks the mutex
    of the job around its body, so that each definition is one atomic step;
    readings of the real-time clock and results of [calloc] are arguments.
    The table pointer is the address of the server's table, never [NULL]. *)

From Stdlib Require Import SpecFloat.
From S2P Require Export CString.
#[local] Open Scope Z_scope.

(** ** Doubles

    IEEE 754 binary64 by the Standard Library's executable specification. *)

Definition double : Type := spec_float.

Definition double_of_Z (z : Z) : double := binary_normalize 53 1024 z 0 false.
Definition double_add : double -> double -> double := SFadd 53 1024.
Definition double_mul : double -> double -> double := SFmul 53 1024.
Definition double_div : double -> double -> double := SFdiv 53 1024.
Definition double_ge (x y : double) : bool := SFleb y x.

(** Rounding of [n / d] to an integer, ties to even. *)
Definition round_half_even (n d : Z) : Z :=
  let q := n / d in
  let r := 2 * (n mod d) in
  if r <? d then q else if d <? r then q + 1 else if Z.even q then q else q + 1.

(** [printf("%.1f", x)]. *)
Definition print_f1 (x : double) : string :=
  let minus (s : bool) := if s then "-"%string else EmptyString in
  match x with
  | S754_zero s => minus s +:+ "0.0"
  | S754_infinity s => minus s +:+ "inf"
  | S754_nan => "nan"
  | S754_finite s m e =>
      let tenths :=
        if 0 <=? e then 10 * (Z.pos m * 2 ^ e)
        else round_half_even (10 * Z.pos m) (2 ^ (- e)) in
      minus s +:+ print_u (tenths / 10) +:+ "." +:+ print_u (tenths mod 10)
  end.

(** ** Types of include/job.h *)

Definition MAX_JOBS : Z := 1024.
Definition MAX_JOB_PAYLOAD : Z := 1024.
Definition MAX_JOB_RESULT : Z := 2048.
Definition MAX_JOB_PATH : Z := 512.
Definition MAX_JOB_FILENAME : Z := 256.

Inductive job_type :=
  | JOB_TYPE_UNKNOWN | JOB_TYPE_TEXT | JOB_TYPE_VALIDATE_IMAGE
  | JOB_TYPE_ANALYZE_CAPACITY | JOB_TYPE_ENCODE_TEXT | JOB_TYPE_ENCODE_FILE
  | JOB_TYPE_DECODE.

Inductive job_state :=
  | JOB_STATE_QUEUED | JOB_STATE_RUNNING | JOB_STATE_DONE | JOB_STATE_FAILED
  | JOB_STATE_CANCELED.

Inductive job_result_kind :=
  | JOB_RESULT_NONE | JOB_RESULT_TEXT | JOB_RESULT_FILE | JOB_RESULT_PNG.

#[export] Instance job_type_eq_dec : EqDecision job_type.
Proof. solve_decision. Defined.
#[export] Instance job_state_eq_dec : EqDecision job_state.
Proof. solve_decision. Defined.
#[export] Instance job_result_kind_eq_dec : EqDecision job_result_kind.
Proof. solve_decision. Defined.

Record timespec := Timespec { tv_sec : Z; tv_nsec : Z }.

Record job := Job {
  job_id : Z;
  job_owner_fd : Z;
  job_kind : job_type;                   (* the field [type] *)
  job_st : job_state;                    (* the field [state] *)
  job_cancel_requested : bool;
  job_payload : string;
  job_input_path : string;
  job_stored_path : string;
  job_output_path : string;
  job_result_filename : string;
  job_res_kind : job_result_kind;        (* the field [result_kind] *)
  job_result_size : Z;
  job_result : string;
  job_owner_ip : string;
  job_created_at : timespec;
  job_started_at : timespec;
  job_finished_at : timespec
}.

(** The address of a job. *)
Abbreviation loc := Z (only parsing).

Abbreviation job_heap := (gmap Z job) (only parsing).

Record job_table := JobTable {
  jt_jobs : list (option loc);   (* the array of [MAX_JOBS] pointers *)
  jt_count : Z;
  jt_next_id : Z
}.

Record job_stats := JobStats {
  st_total : Z;
  st_queued : Z;
  st_running : Z;
  st_done : Z;
  st_failed : Z;
  st_canceled : Z;
  st_avg_duration_ms : double
}.

(** ** Field updates *)

Definition with_state (s : job_state) (j : job) : job :=
  Job (job_id j) (job_owner_fd j) (job_kind j) s (job_cancel_requested j) (job_payload j)
    (job_input_path j) (job_stored_path j) (job_output_path j) (job_result_filename j)
    (job_res_kind j) (job_result_size j) (job_result j) (job_owner_ip j)
    (job_created_at j) (job_started_at j) (job_finished_at j).
Definition with_times (started finished : timespec) (j : job) : job :=
  Job (job_id j) (job_owner_fd j) (job_kind j) (job_st j) (job_cancel_requested j) (job_payload j)
    (job_input_path j) (job_stored_path j) (job_output_path j) (job_result_filename j)
    (job_res_kind j) (job_result_size j) (job_result j) (job_owner_ip j)
    (job_created_at j) started finished.
Definition with_cancel (j : job) : job :=
  Job (job_id j) (job_owner_fd j) (job_kind j) (job_st j) true (job_payload j)
    (job_input_path j) (job_stored_path j) (job_output_path j) (job_result_filename j)
    (job_res_kind j) (job_result_size j) (job_result j) (job_owner_ip j)
    (job_created_at j) (job_started_at j) (job_finished_at j).
Definition with_result (r : string) (j : job) : job :=
  Job (job_id j) (job_owner_fd j) (job_kind j) (job_st j) (job_cancel_requested j) (job_payload j)
    (job_input_path j) (job_stored_path j) (job_output_path j) (job_result_filename j)
    (job_res_kind j) (job_result_size j) r (job_owner_ip j)
    (job_created_at j) (job_started_at j) (job_finished_at j).
Definition with_stored_path (p : string) (j : job) : job :=
  Job (job_id j) (job_owner_fd j) (job_kind j) (job_st j) (job_cancel_requested j) (job_payload j)
    (job_input_path j) p (job_output_path j) (job_result_filename j)
    (job_res_kind j) (job_result_size j) (job_result j) (job_owner_ip j)
    (job_created_at j) (job_started_at j) (job_finished_at j).
Definition with_output_path (p : string) (j : job) : job :=
  Job (job_id j) (job_owner_fd j) (job_kind j) (job_st j) (job_cancel_requested j) (job_payload j)
    (job_input_path j) (job_stored_path j) p (job_result_filename j)
    (job_res_kind j) (job_result_size j) (job_result j) (job_owner_ip j)
    (job_created_at j) (job_started_at j) (job_finished_at j).
Definition with_result_meta (k : job_result_kind) (n : Z) (f : string) (j : job) : job :=
  Job (job_id j) (job_owner_fd j) (job_kind j) (job_st j) (job_cancel_requested j) (job_payload j)
    (job_input_path j) (job_stored_path j) (job_output_path j) f
    k n (job_result j) (job_owner_ip j)
    (job_created_at j) (job_started_at j) (job_finished_at j).

(** The update of the job a pointer refers to; [NULL] returns early. *)
Definition on_job (p : option loc) (f : job -> job) (h : job_heap) : job_heap :=
  match p with None => h | Some l => alter f l h end.

(** A read through a pointer, with the value returned for [NULL]. *)
Definition read_job {A} (p : option loc) (null : A) (f : job -> A) (h : job_heap) : A :=
  match p with
  | None => null
  | Some l => match h !! l with Some j => f j | None => null end
  end.

(** ** Time *)

Definition timespec_diff_ms (start finish : timespec) : double :=
  let s := double_mul (double_of_Z (tv_sec finish - tv_sec start)) (double_of_Z 1000) in
  let ns := double_div (double_of_Z (tv_nsec finish - tv_nsec start)) (double_of_Z 1000000) in
  double_add s ns.

(** ** The table *)

Definition job_table_init : job_table := JobTable (replicate (Z.to_nat MAX_JOBS) None) 0 1.

(** [calloc]: every field zero. *)
Definition zero_time : timespec := Timespec 0 0.
Definition job_zero : job :=
  Job 0 0 JOB_TYPE_UNKNOWN JOB_STATE_QUEUED false EmptyString EmptyString EmptyString EmptyString
    EmptyString JOB_RESULT_NONE 0 EmptyString EmptyString zero_time zero_time zero_time.

Definition copy_opt (size : Z) (src : option string) : string :=
  match src with Some s => snprintf_s size s | None => EmptyString end.

(** [job_table_create_job].  [addr] is the result of [calloc] and [mutex_ok]
    whether [pthread_mutex_init] succeeded; a job that is not kept is freed. *)
Definition job_table_create_job (addr : option loc) (mutex_ok : bool) (now : timespec)
    (table : job_table) (h : job_heap) (owner_fd : Z) (owner_ip : option string)
    (type : job_type) (payload input_path : option string)
    : option loc * job_table * job_heap :=
  match addr with
  | None => (None, table, h)
  | Some l =>
      if negb mutex_ok then (None, table, h) else
      if MAX_JOBS <=? jt_count table then (None, table, h) else
      let j := Job (jt_next_id table) owner_fd type JOB_STATE_QUEUED false
                 (copy_opt MAX_JOB_PAYLOAD payload) (copy_opt MAX_JOB_PATH input_path)
                 EmptyString EmptyString EmptyString JOB_RESULT_NONE 0 EmptyString
                 (copy_opt 64 owner_ip) now zero_time zero_time in
      (Some l,
       JobTable (<[Z.to_nat (jt_count table) := Some l]> (jt_jobs table))
         (jt_count table + 1) (u64 (jt_next_id table + 1)),
       <[l := j]> h)
  end.

(** The loop of [job_table_find] over the slots from [i] on. *)
Fixpoint find_loop (slots : list (option loc)) (h : job_heap) (id : Z) : option loc :=
  match slots with
  | [] => None
  | p :: slots =>
      match p with
      | Some l => if read_job (Some l) (-1) job_id h =? id then Some l else find_loop slots h id
      | None => find_loop slots h id
      end
  end.

(** The slots the loops visit: [i < table->count]. *)
Definition used_slots (table : job_table) : list (option loc) :=
  take (Z.to_nat (jt_count table)) (jt_jobs table).

Definition job_table_find (table : job_table) (h : job_heap) (id : Z) : option loc :=
  if id =? 0 then None else find_loop (used_slots table) h id.

(** [job_table_destroy]: the jobs of the used slots are freed. *)
Definition free_slot (p : option loc) (h : job_heap) : job_heap :=
  match p with Some l => delete l h | None => h end.

Definition job_table_destroy (table : job_table) (h : job_heap) : job_table * job_heap :=
  (JobTable (replicate (length (used_slots table)) None ++
             drop (Z.to_nat (jt_count table)) (jt_jobs table)) 0 (jt_next_id table),
   fold_left (fun h p => free_slot p h) (used_slots table) h).

(** ** Names *)

Definition job_state_to_string (state : job_state) : string :=
  match state with
  | JOB_STATE_QUEUED => "QUEUED"
  | JOB_STATE_RUNNING => "RUNNING"
  | JOB_STATE_DONE => "DONE"
  | JOB_STATE_FAILED => "FAILED"
  | JOB_STATE_CANCELED => "CANCELED"
  end.

Definition job_type_to_string (type : job_type) : string :=
  match type with
  | JOB_TYPE_TEXT => "TEXT"
  | JOB_TYPE_VALIDATE_IMAGE => "VALIDATE_IMAGE"
  | JOB_TYPE_ANALYZE_CAPACITY => "ANALYZE_CAPACITY"
  | JOB_TYPE_ENCODE_TEXT => "ENCODE_TEXT"
  | JOB_TYPE_ENCODE_FILE => "ENCODE_FILE"
  | JOB_TYPE_DECODE => "DECODE"
  | JOB_TYPE_UNKNOWN => "UNKNOWN"
  end.

Definition job_result_kind_to_string (kind : job_result_kind) : string :=
  match kind with
  | JOB_RESULT_TEXT => "TEXT"
  | JOB_RESULT_FILE => "FILE"
  | JOB_RESULT_PNG => "PNG"
  | JOB_RESULT_NONE => "NONE"
  end.

(** ** Operations on one job *)

Definition state_is_active (s : job_state) : bool :=
  bool_decide (s = JOB_STATE_QUEUED) || bool_decide (s = JOB_STATE_RUNNING).

Definition job_request_cancel (p : option loc) (h : job_heap) : bool * job_heap :=
  match p with
  | None => (false, h)
  | Some _ =>
      if read_job p false (fun j => state_is_active (job_st j)) h
      then (true, on_job p with_cancel h)
      else (false, h)
  end.

Definition job_set_state (now : timespec) (p : option loc) (state : job_state) (h : job_heap)
    : job_heap :=
  on_job p (fun j =>
    let j := with_state state j in
    let j := if bool_decide (state = JOB_STATE_RUNNING)
             then with_times now (job_finished_at j) j else j in
    if bool_decide (state = JOB_STATE_DONE) || bool_decide (state = JOB_STATE_FAILED)
       || bool_decide (state = JOB_STATE_CANCELED)
    then with_times (job_started_at j) now j else j) h.

Definition job_get_state (p : option loc) (h : job_heap) : job_state :=
  read_job p JOB_STATE_FAILED job_st h.

Definition job_is_cancel_requested (p : option loc) (h : job_heap) : bool :=
  read_job p true job_cancel_requested h.

Definition job_set_result (p : option loc) (result : option string) (h : job_heap) : job_heap :=
  match result with
  | None => h
  | Some r => on_job p (with_result (snprintf_s MAX_JOB_RESULT r)) h
  end.

(** The readers that copy a field into a caller's buffer of [buffer_size]
    bytes; the buffer keeps its contents [old] when nothing is copied. *)
Definition get_field (f : job -> string) (p : option loc) (old : string) (buffer_size : Z)
    (h : job_heap) : string :=
  if buffer_size =? 0 then old else read_job p old (fun j => snprintf_s buffer_size (f j)) h.

Definition job_get_result := get_field job_result.
Definition job_get_payload := get_field job_payload.
Definition job_get_input_path := get_field job_input_path.
Definition job_get_stored_path := get_field job_stored_path.
Definition job_get_output_path := get_field job_output_path.
Definition job_get_owner_ip := get_field job_owner_ip.

Definition job_set_stored_path (p : option loc) (path : option string) (h : job_heap) : job_heap :=
  match path with
  | None => h
  | Some s => on_job p (with_stored_path (snprintf_s MAX_JOB_PATH s)) h
  end.

Definition job_set_output_path (p : option loc) (path : option string) (h : job_heap) : job_heap :=
  match path with
  | None => h
  | Some s => on_job p (with_output_path (snprintf_s MAX_JOB_PATH s)) h
  end.

Definition job_set_result_meta (p : option loc) (kind : job_result_kind) (size : Z)
    (filename : option string) (h : job_heap) : job_heap :=
  on_job p (with_result_meta kind size (copy_opt MAX_JOB_FILENAME filename)) h.

(** The outputs [*kind], [*size] and [filename], all requested. *)
Definition job_get_result_meta (p : option loc) (old : job_result_kind * Z * string)
    (filename_size : Z) (h : job_heap) : job_result_kind * Z * string :=
  read_job p old (fun j =>
    (job_res_kind j, job_result_size j,
     if 0 <? filename_size then snprintf_s filename_size (job_result_filename j)
     else snd old)) h.

Definition job_get_owner_fd (p : option loc) (h : job_heap) : Z := read_job p (-1) job_owner_fd h.

Definition job_get_type (p : option loc) (h : job_heap) : job_type :=
  read_job p JOB_TYPE_UNKNOWN job_kind h.

(** ** Statistics *)

Definition count_state (s : job_state) (st : job_stats) : job_stats :=
  let b2z (b : bool) := if b then 1 else 0 in
  JobStats (st_total st)
    (st_queued st + b2z (bool_decide (s = JOB_STATE_QUEUED)))
    (st_running st + b2z (bool_decide (s = JOB_STATE_RUNNING)))
    (st_done st + b2z (bool_decide (s = JOB_STATE_DONE)))
    (st_failed st + b2z (bool_decide (s = JOB_STATE_FAILED)))
    (st_canceled st + b2z (bool_decide (s = JOB_STATE_CANCELED)))
    (st_avg_duration_ms st).

(** One iteration of the loop: the statistics, [total_duration] and
    [finished_count]. *)
Definition stats_step (h : job_heap) (acc : job_stats * double * Z) (p : option loc)
    : job_stats * double * Z :=
  let '(st, total, finished) := acc in
  match p with
  | None => acc
  | Some l =>
      match h !! l with
      | None => acc
      | Some j =>
          let st := count_state (job_st j) st in
          if bool_decide (job_st j = JOB_STATE_DONE) || bool_decide (job_st j = JOB_STATE_FAILED)
          then
            let d := timespec_diff_ms (job_started_at j) (job_finished_at j) in
            if double_ge d (double_of_Z 0) then (st, double_add total d, finished + 1)
            else (st, total, finished)
          else (st, total, finished)
      end
  end.

Definition job_table_collect_stats (table : job_table) (h : job_heap) : job_stats :=
  let st0 := JobStats (jt_count table) 0 0 0 0 0 (double_of_Z 0) in
  let '(st, total, finished) :=
    fold_left (stats_step h) (used_slots table) (st0, double_of_Z 0, 0) in
  JobStats (st_total st) (st_queued st) (st_running st) (st_done st) (st_failed st) (st_canceled st)
    (if 0 <? finished then double_div total (double_of_Z finished) else double_of_Z 0).

(** ** Listings *)

(** The item a listing shows for a job, in a buffer of 256 bytes. *)
Definition list_item (j : job) : string :=
  snprintf_s 256 ("id=" +:+ print_u (job_id j) +:+ ",type=" +:+ job_type_to_string (job_kind j) +:+
    ",state=" +:+ job_state_to_string (job_st j) +:+ ",ip=" +:+ job_owner_ip j).

(** Appending an item at [used]; the contents of the buffer up to its
    terminator are [buf], of length [used]. *)
Definition append_item (buf item : string) : string :=
  (if strlen buf =? 0 then EmptyString else buf +:+ ";") +:+ item.

(** The loop of [job_table_format_list]: it stops at the first item that does
    not fit. *)
Fixpoint list_loop (slots : list (option loc)) (h : job_heap) (buffer_size : Z) (buf : string)
    : string :=
  match slots with
  | [] => buf
  | p :: slots =>
      match p with
      | None => list_loop slots h buffer_size buf
      | Some l =>
          match h !! l with
          | None => list_loop slots h buffer_size buf
          | Some j =>
              let item := list_item j in
              let extra_sep := if strlen buf =? 0 then 0 else 1 in
              if buffer_size <=? strlen buf + extra_sep + strlen item + 1 then buf
              else list_loop slots h buffer_size
                     (snprintf_s buffer_size (append_item buf item))
          end
      end
  end.

(** The contents of the buffer afterwards, [None] for the result [-1]. *)
Definition job_table_format_list (table : job_table) (h : job_heap) (buffer_size : Z)
    : option string :=
  if buffer_size =? 0 then None
  else if jt_count table =? 0 then Some (snprintf_s buffer_size "empty")
  else Some (list_loop (used_slots table) h buffer_size EmptyString).

Definition state_is_final (s : job_state) : bool :=
  bool_decide (s = JOB_STATE_DONE) || bool_decide (s = JOB_STATE_FAILED)
  || bool_decide (s = JOB_STATE_CANCELED).

Definition history_item (j : job) : string :=
  snprintf_s 320 ("id=" +:+ print_u (job_id j) +:+ ",type=" +:+ job_type_to_string (job_kind j) +:+
    ",state=" +:+ job_state_to_string (job_st j) +:+ ",dur_ms=" +:+
    print_f1 (timespec_diff_ms (job_started_at j) (job_finished_at j)) +:+ ",ip=" +:+ job_owner_ip j).

(** The loop of [job_table_format_history], over the slots from the newest:
    an item that does not fit is skipped. *)
Fixpoint history_loop (slots : list (option loc)) (h : job_heap) (buffer_size max_items : Z)
    (emitted : Z) (buf : string) : string * Z :=
  match slots with
  | [] => (buf, emitted)
  | p :: slots =>
      if emitted <? max_items then
        match p ≫= (h !!.) with
        | Some j =>
            if state_is_final (job_st j) then
              let item := history_item j in
              let extra_sep := if strlen buf =? 0 then 0 else 1 in
              if strlen buf + extra_sep + strlen item + 1 <? buffer_size
              then history_loop slots h buffer_size max_items (emitted + 1)
                     (snprintf_s buffer_size (append_item buf item))
              else history_loop slots h buffer_size max_items emitted buf
            else history_loop slots h buffer_size max_items emitted buf
        | None => history_loop slots h buffer_size max_items emitted buf
        end
      else (buf, emitted)
  end.

Definition job_table_format_history (table : job_table) (h : job_heap)
    (buffer_size max_items : Z) : option string :=
  if buffer_size =? 0 then None
  else
    let (buf, emitted) := history_loop (rev (used_slots table)) h buffer_size max_items 0 EmptyString in
    Some (if emitted =? 0 then snprintf_s buffer_size "empty" else buf).

(** ** Cancellation of a client's jobs *)

Definition cancel_slot (owner_fd : Z) (acc : Z * job_heap) (p : option loc) : Z * job_heap :=
  let (count, h) := acc in
  match p with
  | None => acc
  | Some l =>
      match h !! l with
      | None => acc
      | Some j =>
          if (job_owner_fd j =? owner_fd) && state_is_active (job_st j)
          then (count + 1, <[l := with_cancel j]> h)
          else acc
      end
  end.

Definition job_table_cancel_by_owner (table : job_table) (h : job_heap) (owner_fd : Z)
    : Z * job_heap :=
  fold_left (cancel_slot owner_fd) (used_slots table) (0, h).

(** ** The invariant of the table

    The used slots hold the addresses [ls] of live jobs [js]; the job in slot
    [i] has identifier [i + 1]; no other job is live. *)

Record table_rep (t : job_table) (h : job_heap) (ls : list loc) (js : list job) : Prop := TableRep {
  tr_len : length (jt_jobs t) = Z.to_nat MAX_JOBS;
  tr_count : jt_count t = Z.of_nat (length ls);
  tr_max : Z.of_nat (length ls) <= MAX_JOBS;
  tr_next : jt_next_id t = jt_count t + 1;
  tr_slots : used_slots t = Some <$> ls;
  tr_live : Forall2 (fun l j => h !! l = Some j) ls js;
  tr_ids : job_id <$> js = seqZ 1 (Z.of_nat (length ls));
  tr_all : forall l j, h !! l = Some j -> l ∈ ls
}.

Definition table_wf (t : job_table) (h : job_heap) : Prop := exists ls js, table_rep t h ls js.

(** The sizes of the character arrays of a job bound their strings. *)
Record job_wf (j : job) : Prop := JobWf {
  jw_payload : strlen (job_payload j) < MAX_JOB_PAYLOAD;
  jw_input : strlen (job_input_path j) < MAX_JOB_PATH;
  jw_stored : strlen (job_stored_path j) < MAX_JOB_PATH;
  jw_output : strlen (job_output_path j) < MAX_JOB_PATH;
  jw_filename : strlen (job_result_filename j) < MAX_JOB_FILENAME;
  jw_result : strlen (job_result j) < MAX_JOB_RESULT;
  jw_ip : strlen (job_owner_ip j) < 64
}.

Lemma copy_opt_len size src : 0 < size -> strlen (copy_opt size src) < size.
Proof. intros H. destruct src; simpl; [by apply snprintf_s_len|unfold strlen; simpl; lia]. Qed.

Lemma job_heap_ids t h ls js :
  table_rep t h ls js -> NoDup ls.
Proof.
  intros H. set (f := fun l => default 0 (job_id <$> h !! l)).
  assert (Hm : f <$> ls = job_id <$> js).
  { pose proof (tr_live _ _ _ _ H) as HF. clear H. subst f.
    induction HF as [|l j ls js Hl _ IH]; [done|]. csimpl. by rewrite Hl, IH. }
  apply (NoDup_fmap_1 f). rewrite Hm, (tr_ids _ _ _ _ H). apply NoDup_seqZ.
Qed.

(** The identifier of a job tells its place. *)
Lemma table_rep_lookup t h ls js i :
  table_rep t h ls js -> 0 <= i < jt_count t ->
  exists l j, ls !! Z.to_nat i = Some l /\ js !! Z.to_nat i = Some j /\ h !! l = Some j /\
    job_id j = i + 1.
Proof.
  intros H Hi. pose proof (tr_live _ _ _ _ H) as HF. rewrite (tr_count _ _ _ _ H) in Hi.
  assert (is_Some (ls !! Z.to_nat i)) as [l Hl] by (apply lookup_lt_is_Some; lia).
  destruct (Forall2_lookup_l _ _ _ _ _ HF Hl) as (j & Hj & Hlj).
  exists l, j. split_and!; try done.
  assert (Hid : (job_id <$> js) !! Z.to_nat i = Some (job_id j)) by (by rewrite list_lookup_fmap, Hj).
  rewrite (tr_ids _ _ _ _ H) in Hid. apply lookup_seqZ in Hid. lia.
Qed.

Lemma table_rep_job t h ls js l j :
  table_rep t h ls js -> h !! l = Some j ->
  1 <= job_id j <= jt_count t /\ ls !! Z.to_nat (job_id j - 1) = Some l.
Proof.
  intros H Hl. pose proof (tr_all _ _ _ _ H _ _ Hl) as Hin.
  apply list_elem_of_lookup_1 in Hin as [i Hi].
  pose proof (lookup_lt_Some _ _ _ Hi) as Hlt.
  destruct (table_rep_lookup t h ls js (Z.of_nat i) H) as (l' & j' & Hl' & _ & Hj' & Hid).
  { rewrite (tr_count _ _ _ _ H). lia. }
  rewrite Nat2Z.id in Hl'. simplify_eq. rewrite (tr_count _ _ _ _ H).
  split; [lia|]. rewrite Hid. by replace (Z.to_nat (Z.of_nat i + 1 - 1)) with i by lia.
Qed.

(** Two live jobs with the same identifier are the same job. *)
Lemma job_id_inj t h l l' j j' :
  table_wf t h -> h !! l = Some j -> h !! l' = Some j' -> job_id j = job_id j' -> l = l'.
Proof.
  intros (ls & js & H) Hl Hl' Hid.
  destruct (table_rep_job _ _ _ _ _ _ H Hl) as [_ H1].
  destruct (table_rep_job _ _ _ _ _ _ H Hl') as [_ H2]. rewrite Hid in H1. congruence.
Qed.

(** ** Preservation *)

Lemma table_init_wf : table_wf job_table_init ∅.
Proof.
  exists [], []. by constructor.
Qed.

(** Updating a job without changing its identifier. *)
Lemma alter_table_wf t h l f :
  (forall j, job_id (f j) = job_id j) -> table_wf t h -> table_wf t (alter f l h).
Proof.
  intros Hf (ls & js & H). pose proof (job_heap_ids _ _ _ _ H) as Hnd.
  exists ls, ((fun p : loc * job => if decide (p.1 = l) then f p.2 else p.2) <$> zip ls js).
  destruct H as [? ? ? ? ? HF Hid Hall]. pose proof (Forall2_length _ _ _ HF) as Hlen.
  constructor; try done.
  - clear -HF. induction HF as [|l' j ls js Hl _ IH]; simpl; constructor; [|done].
    simpl. case_decide as Hd; [subst; by rewrite lookup_alter_eq, Hl|].
    by rewrite lookup_alter_ne by done.
  - rewrite <-Hid. clear -HF Hf. induction HF as [|l' j ls js Hl _ IH]; csimpl; [done|].
    rewrite IH. f_equal. case_decide; [apply Hf|done].
  - intros l' j Hj. destruct (decide (l = l')) as [->|Hne].
    + rewrite lookup_alter_eq in Hj.
      destruct (h !! l') eqn:E; [|done]. by eapply Hall.
    + rewrite lookup_alter_ne in Hj by done. by eapply Hall.
Qed.

Lemma on_job_table_wf t h p f :
  (forall j, job_id (f j) = job_id j) -> table_wf t h -> table_wf t (on_job p f h).
Proof. intros Hf H. destruct p; [by apply alter_table_wf|done]. Qed.

Lemma on_job_job_wf h p f :
  (forall j, job_wf j -> job_wf (f j)) -> map_Forall (fun _ => job_wf) h ->
  map_Forall (fun _ => job_wf) (on_job p f h).
Proof.
  intros Hf H. destruct p as [l|]; [|done]. intros l' j Hj. simpl in Hj.
  destruct (decide (l = l')) as [->|Hne].
  - rewrite lookup_alter_eq in Hj.
    destruct (h !! l') eqn:E; simplify_eq/=. by eapply Hf, H.
  - rewrite lookup_alter_ne in Hj by done. by eapply H.
Qed.

Lemma used_slots_take t h ls js :
  table_rep t h ls js -> take (length ls) (jt_jobs t) = Some <$> ls.
Proof.
  intros H. rewrite <-(tr_slots _ _ _ _ H). unfold used_slots.
  by rewrite (tr_count _ _ _ _ H), Nat2Z.id.
Qed.

(** Adding a job in the first free slot. *)
Lemma create_table_wf t h l j :
  table_wf t h -> h !! l = None -> jt_count t < MAX_JOBS -> job_id j = jt_next_id t ->
  table_wf (JobTable (<[Z.to_nat (jt_count t) := Some l]> (jt_jobs t)) (jt_count t + 1)
              (u64 (jt_next_id t + 1))) (<[l := j]> h).
Proof.
  intros (ls & js & H) Hl Hmax Hid. pose proof (used_slots_take _ _ _ _ H) as Htake.
  exists (ls ++ [l]), (js ++ [j]).
  destruct H as [Hlen Hc Hm Hn Hs HF Hids Hall]. unfold MAX_JOBS in *.
  assert (Hlt : (length ls < length (jt_jobs t))%nat) by (rewrite Hlen; lia).
  constructor; simpl; rewrite ?length_app, ?length_insert; simpl length; unfold MAX_JOBS; try lia.
  - rewrite Hn, Hc. unfold u64. rewrite wrap_small by (unfold bounded; lia). lia.
  - unfold used_slots. simpl. rewrite Hc, Nat2Z.id.
    replace (Z.to_nat (Z.of_nat (length ls) + 1)) with (S (length ls)) by lia.
    rewrite (take_S_r _ _ (Some l)) by (by apply list_lookup_insert_eq).
    by rewrite take_insert_ge, Htake, fmap_app by lia.
  - apply Forall2_app; [|repeat constructor; apply lookup_insert_eq].
    eapply Forall2_impl; [exact HF|]. intros l' j' Hj'. simpl.
    rewrite lookup_insert_ne by (intros ->; congruence). done.
  - rewrite fmap_app, Hids. simpl. rewrite Hid, Hn, Hc.
    replace (Z.of_nat (length ls + 1)) with (Z.of_nat (length ls) + 1) by lia.
    rewrite seqZ_app by lia. f_equal. rewrite (seqZ_cons (1 + _)) by lia. simpl. f_equal. lia.
  - intros l' j' Hj'. apply elem_of_app. destruct (decide (l = l')) as [->|Hne].
    + right. by apply list_elem_of_singleton.
    + left. rewrite lookup_insert_ne in Hj' by done. by eapply Hall.
Qed.

(** ** Searching *)

Lemma find_loop_Some ls js h id l :
  Forall2 (fun l j => h !! l = Some j) ls js ->
  find_loop (Some <$> ls) h id = Some l -> exists j, h !! l = Some j /\ job_id j = id.
Proof.
  induction 1 as [|l' j ls js Hl _ IH]; csimpl; [done|].
  unfold read_job. rewrite Hl. destruct (Z.eqb_spec (job_id j) id); [|done].
  intros [= <-]. eauto.
Qed.

Lemma find_loop_None ls js h id l j :
  Forall2 (fun l j => h !! l = Some j) ls js ->
  find_loop (Some <$> ls) h id = None -> l ∈ ls -> h !! l = Some j -> job_id j <> id.
Proof.
  induction 1 as [|l' j' ls js Hl _ IH]; csimpl; [set_solver|].
  unfold read_job. rewrite Hl. destruct (Z.eqb_spec (job_id j') id); [done|].
  rewrite elem_of_cons. intros Hf [->|Hin] Hj; [congruence|auto].
Qed.

(** The jobs of the table, in the order of the slots. *)
Definition table_jobs (t : job_table) (h : job_heap) : list job :=
  omap (fun p => p ≫= (h !!.)) (used_slots t).

Lemma table_rep_jobs t h ls js : table_rep t h ls js -> table_jobs t h = js.
Proof.
  intros H. unfold table_jobs. rewrite (tr_slots _ _ _ _ H).
  pose proof (tr_live _ _ _ _ H) as HF. clear H. induction HF as [|l j ls js Hl _ IH]; [done|].
  csimpl. by rewrite Hl, IH.
Qed.

(** ** Statistics *)

Definition count_in (s : job_state) (js : list job) : Z :=
  Z.of_nat (length (filter (fun j => job_st j = s) js)).

Lemma count_in_cons s j js :
  count_in s (j :: js) = (if bool_decide (job_st j = s) then 1 else 0) + count_in s js.
Proof. unfold count_in. rewrite filter_cons. case_decide; case_bool_decide; csimpl; lia || done. Qed.

Lemma stats_loop h ls js st total finished :
  Forall2 (fun l j => h !! l = Some j) ls js ->
  let '(st', _, _) := fold_left (stats_step h) (Some <$> ls) (st, total, finished) in
  st_total st' = st_total st /\
  st_queued st' = st_queued st + count_in JOB_STATE_QUEUED js /\
  st_running st' = st_running st + count_in JOB_STATE_RUNNING js /\
  st_done st' = st_done st + count_in JOB_STATE_DONE js /\
  st_failed st' = st_failed st + count_in JOB_STATE_FAILED js /\
  st_canceled st' = st_canceled st + count_in JOB_STATE_CANCELED js.
Proof.
  intros H. revert st total finished. induction H as [|l j ls js Hl _ IH]; intros st total finished.
  { simpl. unfold count_in. simpl. lia. }
  rewrite fmap_cons. cbn [fold_left]. unfold stats_step at 2. rewrite Hl.
  assert (Hnext : forall total' finished',
    let '(st', _, _) := fold_left (stats_step h) (Some <$> ls) (count_state (job_st j) st, total', finished') in
    st_total st' = st_total st /\
    st_queued st' = st_queued st + count_in JOB_STATE_QUEUED (j :: js) /\
    st_running st' = st_running st + count_in JOB_STATE_RUNNING (j :: js) /\
    st_done st' = st_done st + count_in JOB_STATE_DONE (j :: js) /\
    st_failed st' = st_failed st + count_in JOB_STATE_FAILED (j :: js) /\
    st_canceled st' = st_canceled st + count_in JOB_STATE_CANCELED (j :: js)).
  { intros total' finished'. specialize (IH (count_state (job_st j) st) total' finished').
    destruct (fold_left _ _ _) as [[st' ?] ?]. rewrite !count_in_cons. simpl in IH. lia. }
  cbv zeta. destruct (_ || _); [destruct (double_ge _ _)|]; apply Hnext.
Qed.

Lemma count_in_total js :
  Z.of_nat (length js) =
  count_in JOB_STATE_QUEUED js + count_in JOB_STATE_RUNNING js + count_in JOB_STATE_DONE js +
  count_in JOB_STATE_FAILED js + count_in JOB_STATE_CANCELED js.
Proof.
  induction js as [|j js IH]; [done|]. rewrite !count_in_cons. simpl length.
  destruct (job_st j); simpl; lia.
Qed.

(** ** Cancelling *)

Definition cancels (owner_fd : Z) (j : job) : bool :=
  (job_owner_fd j =? owner_fd) && state_is_active (job_st j).

Definition cancel_if (owner_fd : Z) (j : job) : job :=
  if cancels owner_fd j then with_cancel j else j.

Lemma live_agree (h h' : job_heap) ls js :
  (forall l, l ∈ ls -> h' !! l = h !! l) ->
  Forall2 (fun l j => h !! l = Some j) ls js -> Forall2 (fun l j => h' !! l = Some j) ls js.
Proof.
  intros Hsame H. induction H as [|l j ls js Hl _ IH]; constructor.
  - by rewrite Hsame by set_solver.
  - apply IH. intros l' Hl'. apply Hsame. set_solver.
Qed.

Lemma cancel_loop fd ls js c h :
  NoDup ls -> Forall2 (fun l j => h !! l = Some j) ls js ->
  let (c', h') := fold_left (cancel_slot fd) (Some <$> ls) (c, h) in
  c' = c + Z.of_nat (length (filter (fun j => cancels fd j = true) js)) /\
  forall l, h' !! l = if decide (l ∈ ls) then cancel_if fd <$> h !! l else h !! l.
Proof.
  intros Hnd H. revert c h Hnd H. revert js. induction ls as [|l ls IH]; intros js c h Hnd H.
  { inversion_clear H. cbn [fmap list_fmap fold_left]. split; [simpl; lia|]. intros l.
    case_decide as Hin; [by apply not_elem_of_nil in Hin|done]. }
  inversion H as [|? j ? js' Hl HF]; subst. inversion_clear Hnd as [|? ? Hni Hnd'].
  rewrite fmap_cons. cbn [fold_left cancel_slot]. rewrite Hl. fold (cancels fd j).
  assert (Hrest : forall h' c', (forall l', l' ∈ ls -> h' !! l' = h !! l') ->
    let (c'', h'') := fold_left (cancel_slot fd) (Some <$> ls) (c', h') in
    c'' = c' + Z.of_nat (length (filter (fun j => cancels fd j = true) js')) /\
    forall l, h'' !! l = if decide (l ∈ ls) then cancel_if fd <$> h' !! l else h' !! l).
  { intros h' c' Hsame. apply IH; [done|]. by apply (live_agree h). }
  rewrite filter_cons. destruct (cancels fd j) eqn:Ec.
  - specialize (Hrest (<[l := with_cancel j]> h) (c + 1)
                  ltac:(intros; rewrite lookup_insert_ne by set_solver; done)).
    destruct (fold_left _ _ _) as [c'' h'']. destruct Hrest as [-> Hh].
    rewrite decide_True by done. simpl length. split; [lia|]. intros l'. rewrite Hh.
    destruct (decide (l' = l)) as [->|Hne].
    + rewrite decide_False, decide_True by set_solver. rewrite lookup_insert_eq, Hl. simpl.
      unfold cancel_if. by rewrite Ec.
    + rewrite lookup_insert_ne by done. assert (Hiff : l' ∈ ls <-> l' ∈ l :: ls) by (rewrite elem_of_cons; tauto).
      destruct (decide (l' ∈ ls)), (decide (l' ∈ l :: ls)); first [done | tauto].
  - specialize (Hrest h c ltac:(done)). destruct (fold_left _ _ _) as [c'' h''].
    destruct Hrest as [-> Hh]. rewrite decide_False by done. split; [done|]. intros l'. rewrite Hh.
    destruct (decide (l' = l)) as [->|Hne].
    + rewrite decide_False, decide_True by set_solver. rewrite Hl. simpl.
      unfold cancel_if. by rewrite Ec.
    + assert (Hiff : l' ∈ ls <-> l' ∈ l :: ls) by (rewrite elem_of_cons; tauto).
      destruct (decide (l' ∈ ls)), (decide (l' ∈ l :: ls)); first [done | tauto].
Qed.

Lemma cancel_by_owner_spec t h fd :
  table_wf t h ->
  job_table_cancel_by_owner t h fd =
    (Z.of_nat (length (filter (fun j => cancels fd j = true) (table_jobs t h))), cancel_if fd <$> h).
Proof.
  intros (ls & js & H). rewrite (table_rep_jobs _ _ _ _ H).
  pose proof (cancel_loop fd ls js 0 h (job_heap_ids _ _ _ _ H) (tr_live _ _ _ _ H)) as Hc.
  unfold job_table_cancel_by_owner. rewrite (tr_slots _ _ _ _ H).
  destruct (fold_left _ _ _) as [c h']. destruct Hc as [-> Hh]. f_equal. apply map_eq. intros l.
  rewrite Hh, lookup_fmap. case_decide as Hin; [done|].
  destruct (h !! l) eqn:E; [|done]. destruct Hin. by eapply (tr_all _ _ _ _ H).
Qed.

(** ** Listings *)

Lemma strlen_zero s : strlen s = 0 -> s = EmptyString.
Proof. unfold strlen. destruct s; [done|simpl; lia]. Qed.

Lemma concat_cons_app sep a b l :
  String.concat sep ((a +:+ b) :: l) = a +:+ String.concat sep (b :: l).
Proof. destruct l; simpl; [done|]. by rewrite !append_assoc. Qed.

(** Appending items one by one separates them by semicolons. *)
Lemma append_items_from buf items :
  0 < strlen buf -> Forall (fun s => 0 < strlen s) items ->
  fold_left append_item items buf = String.concat ";" (buf :: items).
Proof.
  intros Hb H. revert buf Hb. induction H as [|it items Hit _ IH]; intros buf Hb; [done|].
  cbn [fold_left]. unfold append_item at 2. rewrite (proj2 (Z.eqb_neq _ _)) by lia.
  rewrite IH; [|rewrite !strlen_app; change (strlen ";") with 1; lia].
  by rewrite append_assoc, !concat_cons_app.
Qed.

Lemma append_items items :
  Forall (fun s => 0 < strlen s) items ->
  fold_left append_item items EmptyString = String.concat ";" items.
Proof.
  intros H. destruct H as [|it items Hit H]; [done|]. cbn [fold_left].
  change (append_item EmptyString it) with it. by apply append_items_from.
Qed.

(** What the loop leaves in the buffer, starting from [buf]: as many items as
    fit, and only whole ones. *)
Lemma list_loop_spec ls js h size buf :
  Forall2 (fun l j => h !! l = Some j) ls js -> strlen buf < size ->
  exists k, list_loop (Some <$> ls) h size buf = fold_left append_item (list_item <$> take k js) buf /\
    strlen (list_loop (Some <$> ls) h size buf) < size /\
    (forall j, js !! k = Some j ->
       size <= strlen (append_item (list_loop (Some <$> ls) h size buf) (list_item j)) + 1).
Proof.
  intros H. revert buf. induction H as [|l j ls js Hl _ IH]; intros buf Hb.
  { exists 0%nat. by split_and!. }
  rewrite fmap_cons. cbn [list_loop]. rewrite Hl. cbv zeta.
  assert (Hlen : strlen (append_item buf (list_item j)) =
    strlen buf + (if strlen buf =? 0 then 0 else 1) + strlen (list_item j)).
  { unfold append_item. rewrite strlen_app. destruct (Z.eqb_spec (strlen buf) 0) as [E|E].
    - rewrite E. unfold strlen. simpl. lia.
    - rewrite strlen_app. change (strlen ";") with 1. lia. }
  destruct (Z.leb_spec size (strlen buf + (if strlen buf =? 0 then 0 else 1) + strlen (list_item j) + 1))
    as [Hfull|Hfit].
  - exists 0%nat. split_and!; [done|done|]. intros j' [= <-]. rewrite Hlen. lia.
  - rewrite snprintf_s_fits by lia.
    destruct (IH (append_item buf (list_item j)) ltac:(lia)) as (k & Heq & Hlt & Hmax).
    exists (S k). split_and!; try done.
Qed.

Lemma list_item_pos j : 0 < strlen (list_item j).
Proof.
  unfold list_item, snprintf_s. rewrite str_take_len.
  match goal with |- context [strlen ("id=" +:+ ?s)] => rewrite (strlen_app "id=" s);
    pose proof (strlen_nonneg s) end.
  change (strlen "id=") with 3. lia.
Qed.

Lemma dec_digits_len fuel n acc : strlen (dec_digits fuel n acc) <= Z.of_nat fuel + strlen acc.
Proof.
  revert n acc. induction fuel as [|fuel IH]; intros n acc; cbn [dec_digits]; [lia|].
  destruct (n <? 10); [rewrite strlen_cons; lia|].
  etransitivity; [apply IH|]. rewrite strlen_cons. lia.
Qed.

(** The items a history keeps: at most [max] finished jobs, in the order of
    the slots visited, each whole. *)
Lemma append_item_len buf item :
  strlen (append_item buf item) =
  strlen buf + (if strlen buf =? 0 then 0 else 1) + strlen item.
Proof.
  unfold append_item. rewrite strlen_app. destruct (Z.eqb_spec (strlen buf) 0) as [E|E].
  - rewrite E. unfold strlen. simpl. lia.
  - rewrite strlen_app. change (strlen ";") with 1. lia.
Qed.

Lemma history_loop_spec ls js h size max emitted buf :
  Forall2 (fun l j => h !! l = Some j) ls js -> strlen buf < size ->
  exists kept, let (buf', emitted') := history_loop (Some <$> ls) h size max emitted buf in
    sublist kept (filter (fun j => state_is_final (job_st j) = true) js) /\
    buf' = fold_left append_item (history_item <$> kept) buf /\ strlen buf' < size /\
    emitted' = emitted + Z.of_nat (length kept) /\ (emitted <= max -> emitted' <= max).
Proof.
  intros H. revert emitted buf. induction H as [|l j ls js Hl _ IH]; intros emitted buf Hb.
  { exists []. split_and!; try done. simpl. lia. }
  rewrite fmap_cons. cbn [history_loop]. destruct (Z.ltb_spec emitted max) as [Hmax|Hmax].
  2: { exists []. split_and!; try done; [apply sublist_nil_l|simpl; lia]. }
  cbn [option_bind mbind]. simpl. rewrite Hl, filter_cons. destruct (state_is_final (job_st j)) eqn:Ef.
  2: { rewrite decide_False by done. apply IH. done. }
  rewrite decide_True by done. cbv zeta.
  destruct (Z.ltb_spec (strlen buf + (if strlen buf =? 0 then 0 else 1) + strlen (history_item j) + 1) size)
    as [Hfit|Hfull].
  - pose proof (append_item_len buf (history_item j)) as Hlen.
    rewrite snprintf_s_fits by lia.
    destruct (IH (emitted + 1) (append_item buf (history_item j)) ltac:(lia)) as (kept & Hk).
    exists (j :: kept). destruct (history_loop _ _ _ _ _ _) as [buf' emitted'].
    destruct Hk as (Hsub & Hbuf & Hlt & Hem & Hle).
    split_and!; [by apply sublist_skip|done|done|simpl; lia|intros; apply Hle; lia].
  - destruct (IH emitted buf Hb) as (kept & Hk). exists kept.
    destruct (history_loop _ _ _ _ _ _) as [buf' emitted'].
    destruct Hk as (Hsub & Hk). split; [by apply sublist_cons|done].
Qed.

(** ** The operations as a transition system *)

Inductive job_step : job_table * job_heap -> job_table * job_heap -> Prop :=
  | step_create addr mutex_ok now t h fd ip type payload path r t' h' :
      (forall l, addr = Some l -> h !! l = None) ->
      job_table_create_job addr mutex_ok now t h fd ip type payload path = (r, t', h') ->
      job_step (t, h) (t', h')
  | step_request_cancel t h p : job_step (t, h) (t, snd (job_request_cancel p h))
  | step_set_state t h now p s : job_step (t, h) (t, job_set_state now p s h)
  | step_set_result t h p r : job_step (t, h) (t, job_set_result p r h)
  | step_set_stored_path t h p s : job_step (t, h) (t, job_set_stored_path p s h)
  | step_set_output_path t h p s : job_step (t, h) (t, job_set_output_path p s h)
  | step_set_result_meta t h p k n f : job_step (t, h) (t, job_set_result_meta p k n f h)
  | step_cancel_by_owner t h fd : job_step (t, h) (t, snd (job_table_cancel_by_owner t h fd)).

(** What never changes in a job, and what only grows. *)
Definition same_job (j j' : job) : Prop :=
  job_id j' = job_id j /\ job_owner_fd j' = job_owner_fd j /\ job_kind j' = job_kind j /\
  job_payload j' = job_payload j /\ job_input_path j' = job_input_path j /\
  job_owner_ip j' = job_owner_ip j /\ job_created_at j' = job_created_at j /\
  (job_cancel_requested j = true -> job_cancel_requested j' = true).

#[export] Instance same_job_preorder : PreOrder same_job.
Proof.
  split.
  - intros j. by repeat split.
  - intros j1 j2 j3 H1 H2. unfold same_job in *. intuition congruence.
Qed.

Create HintDb job.

(** An update that keeps the identity of a job and the sizes of its strings. *)
Definition job_update (f : job -> job) : Prop :=
  (forall j, same_job j (f j)) /\ (forall j, job_wf j -> job_wf (f j)).

Ltac update_fields :=
  split; [intros j; repeat case_bool_decide; by repeat split
         |intros j []; repeat case_bool_decide; constructor; simpl; auto using snprintf_s_len, copy_opt_len].

Lemma update_with_cancel : job_update with_cancel.
Proof. update_fields. Qed.

Lemma update_with_result r : job_update (with_result (snprintf_s MAX_JOB_RESULT r)).
Proof. update_fields. apply snprintf_s_len. done. Qed.

Lemma update_with_stored_path p : job_update (with_stored_path (snprintf_s MAX_JOB_PATH p)).
Proof. update_fields. apply snprintf_s_len. done. Qed.

Lemma update_with_output_path p : job_update (with_output_path (snprintf_s MAX_JOB_PATH p)).
Proof. update_fields. apply snprintf_s_len. done. Qed.

Lemma update_with_result_meta k n f : job_update (with_result_meta k n (copy_opt MAX_JOB_FILENAME f)).
Proof. update_fields. apply copy_opt_len. done. Qed.

Lemma update_cancel_if fd : job_update (cancel_if fd).
Proof.
  destruct update_with_cancel as [H1 H2].
  split; intros j; unfold cancel_if; destruct (cancels fd j); auto. done.
Qed.

(** The update made by [job_set_state]. *)
Definition state_update (now : timespec) (s : job_state) (j : job) : job :=
  let j := with_state s j in
  let j := if bool_decide (s = JOB_STATE_RUNNING) then with_times now (job_finished_at j) j else j in
  if state_is_final s then with_times (job_started_at j) now j else j.

Lemma job_set_state_update now p s h :
  job_set_state now p s h = on_job p (state_update now s) h.
Proof. done. Qed.

Lemma update_state now s : job_update (state_update now s).
Proof. unfold state_update. destruct s; simpl; update_fields. Qed.

#[export] Hint Resolve update_with_cancel update_with_result update_with_stored_path
  update_with_output_path update_with_result_meta update_cancel_if update_state : job.

Lemma on_job_same p f h l j :
  job_update f -> h !! l = Some j -> exists j', on_job p f h !! l = Some j' /\ same_job j j'.
Proof.
  intros [Hf _] Hl. destruct p as [l'|]; [|by exists j]. simpl.
  destruct (decide (l' = l)) as [->|Hne].
  - exists (f j). by rewrite lookup_alter_eq, Hl.
  - exists j. by rewrite lookup_alter_ne.
Qed.

Lemma job_update_id f j : job_update f -> job_id (f j) = job_id j.
Proof. intros [Hf _]. by destruct (Hf j). Qed.

(** Every step that does not create a job updates one job, or flags the jobs
    of a client. *)
Lemma job_step_cases t h t' h' :
  job_step (t, h) (t', h') ->
  (exists l j, h !! l = None /\ jt_count t < MAX_JOBS /\ job_id j = jt_next_id t /\ job_wf j /\
     t' = JobTable (<[Z.to_nat (jt_count t) := Some l]> (jt_jobs t)) (jt_count t + 1)
            (u64 (jt_next_id t + 1)) /\ h' = <[l := j]> h) \/
  (t' = t /\ exists p f, job_update f /\ h' = on_job p f h) \/
  (t' = t /\ exists fd, h' = snd (job_table_cancel_by_owner t h fd)).
Proof.
  assert (Hid : job_update id) by by split.
  intros H. inversion H; subst; [|right..]; try (by left; split; eauto using job_update).
  - unfold job_table_create_job in *.
    assert (Hsame : t' = t -> h' = h -> exists p f, job_update f /\ h' = on_job p f h)
      by (intros _ ->; by exists None, id).
    repeat case_match; simplify_eq; try (right; left; split; [done|by apply Hsame]).
    left. eexists _, _. refine (conj _ (conj _ (conj _ (conj _ (conj eq_refl eq_refl)))));
      [by eauto|lia|done|].
    constructor; simpl; try apply copy_opt_len; unfold strlen; simpl; done.
  - left. split; [done|]. unfold job_request_cancel. destruct p as [l|]; [|by exists None, id].
    destruct (read_job _ _ _ _); simpl; [|by exists None, id].
    exists (Some l), with_cancel. auto with job.
  - left. split; [done|]. eexists p, _. split; [|apply job_set_state_update]. auto with job.
  - left. split; [done|]. destruct r; [|by exists None, id]. exists p. eexists. split; [|done].
    auto with job.
  - left. split; [done|]. destruct s; [|by exists None, id]. exists p. eexists. split; [|done].
    auto with job.
  - left. split; [done|]. destruct s; [|by exists None, id]. exists p. eexists. split; [|done].
    auto with job.
  - left. split; [done|]. exists p. eexists. split; [|done]. auto with job.
  - right. split; [done|]. by exists fd.
Qed.

Lemma cancel_if_table_wf t h fd : table_wf t h -> table_wf t (cancel_if fd <$> h).
Proof.
  intros (ls & js & [? ? ? ? ? HF Hid Hall]). exists ls, (cancel_if fd <$> js).
  constructor; try done.
  - apply Forall2_fmap_r. eapply Forall2_impl; [exact HF|]. intros l j Hl. simpl.
    by rewrite lookup_fmap, Hl.
  - rewrite <-Hid, <-list_fmap_compose. apply list_fmap_ext. intros i j _. simpl.
    apply job_update_id. auto with job.
  - intros l j Hj. rewrite lookup_fmap in Hj. destruct (h !! l) eqn:E; [|done]. by eapply Hall.
Qed.

Definition job_inv (s : job_table * job_heap) : Prop :=
  table_wf (fst s) (snd s) /\ map_Forall (fun _ => job_wf) (snd s).

Lemma job_step_inv s s' : job_inv s -> job_step s s' -> job_inv s'.
Proof.
  destruct s as [t h], s' as [t' h']. intros [Hwf Hj] Hstep. simpl in *.
  destruct (job_step_cases _ _ _ _ Hstep) as
    [(l & j & Hl & Hmax & Hid & Hjw & -> & ->)|[(-> & p & f & Hf & ->)|(-> & fd & ->)]].
  - split; [by apply create_table_wf|]. by apply map_Forall_insert_2.
  - split; [apply on_job_table_wf; [|done]; intros; by apply job_update_id|].
    apply on_job_job_wf; [|done]. apply Hf.
  - rewrite cancel_by_owner_spec by done. simpl. split; [by apply cancel_if_table_wf|].
    intros l j Hlj. simpl in Hlj. rewrite lookup_fmap in Hlj. destruct (h !! l) eqn:E; simplify_eq/=.
    apply (update_cancel_if fd). by eapply Hj.
Qed.

Lemma job_steps_inv s s' : rtc job_step s s' -> job_inv s -> job_inv s'.
Proof. induction 1; eauto using job_step_inv. Qed.

Lemma job_step_same s s' l j :
  job_inv s -> job_step s s' -> snd s !! l = Some j ->
  exists j', snd s' !! l = Some j' /\ same_job j j'.
Proof.
  destruct s as [t h], s' as [t' h']. intros [Hwf _] Hstep Hl. simpl in *.
  destruct (job_step_cases _ _ _ _ Hstep) as
    [(l' & j' & Hl' & _ & _ & _ & _ & ->)|[(_ & p & f & Hf & ->)|(_ & fd & ->)]].
  - exists j. by rewrite lookup_insert_ne by congruence.
  - by apply on_job_same.
  - rewrite cancel_by_owner_spec by done. simpl. exists (cancel_if fd j).
    rewrite lookup_fmap, Hl. split; [done|]. apply (update_cancel_if fd).
Qed.

(** ** The properties *)

(** C26: whatever sequence of operations runs from an empty table, the table
    stays consistent (slot [i] holds the job of identifier [i + 1], no job is
    lost) and no string of a job overruns its array. *)
Theorem job_reachable_inv t h :
  rtc job_step (job_table_init, ∅) (t, h) ->
  table_wf t h /\ map_Forall (fun _ => job_wf) h.
Proof.
  intros H. apply (job_steps_inv _ _ H). split; [apply table_init_wf|apply map_Forall_empty].
Qed.

(** A job keeps its address, identifier, owner, type and request through
    every sequence of operations, and a cancellation request is never
    withdrawn. *)
Theorem job_identity t h t' h' l j :
  table_wf t h -> map_Forall (fun _ => job_wf) h -> rtc job_step (t, h) (t', h') ->
  h !! l = Some j -> exists j', h' !! l = Some j' /\ same_job j j'.
Proof.
  intros Hwf Hj H. assert (H0 : job_inv (t, h)) by by split.
  change (h !! l) with (snd (t, h) !! l). change h' with (snd (t', h')).
  clear Hwf Hj. revert H0 H. generalize (t, h) (t', h'). intros s s' H0 H. revert j.
  induction H as [s|s1 s2 s3 Hstep _ IH]; intros j Hl; [by exists j|].
  destruct (job_step_same _ _ _ _ H0 Hstep Hl) as (j2 & Hl2 & Hs2).
  destruct (IH (job_step_inv _ _ H0 Hstep) j2 Hl2) as (j3 & Hl3 & Hs3).
  exists j3. split; [done|]. by transitivity j2.
Qed.

(** [job_table_create_job] either stores a queued job with a fresh
    identifier in the next slot, or changes nothing; it fails exactly when
    the allocation fails or the table is full. *)
Theorem create_job_correct addr mutex_ok now t h fd ip type payload path r t' h' :
  table_wf t h -> (forall l, addr = Some l -> h !! l = None) ->
  job_table_create_job addr mutex_ok now t h fd ip type payload path = (r, t', h') ->
  table_wf t' h' /\
  match r with
  | Some l => exists j, h' = <[l := j]> h /\ job_id j = jt_count t + 1 /\ jt_count t' = jt_count t + 1 /\
      job_st j = JOB_STATE_QUEUED /\ job_owner_fd j = fd /\ job_kind j = type /\
      job_cancel_requested j = false /\ job_table_find t' h' (job_id j) = Some l
  | None => t' = t /\ h' = h /\ (addr = None \/ mutex_ok = false \/ jt_count t = MAX_JOBS)
  end.
Proof.
  intros Hwf Hfresh Hc. destruct Hwf as (ls & js & H). pose proof (tr_max _ _ _ _ H) as Hmax.
  pose proof (tr_count _ _ _ _ H) as Hcount. pose proof (tr_next _ _ _ _ H) as Hnext.
  unfold job_table_create_job in Hc. destruct addr as [l|]; [|simplify_eq; eauto 10 using table_rep].
  2: { split; [by exists ls, js|]. auto. }
  destruct mutex_ok; simpl in Hc; [|simplify_eq; split; [by exists ls, js|by auto]].
  destruct (Z.leb_spec MAX_JOBS (jt_count t)).
  { simplify_eq. split; [by exists ls, js|]. split_and!; [done..|]. right; right. lia. }
  remember (Job _ fd _ _ _ _ _ _ _ _ _ _ _ _ _ _ _) as j eqn:Hj. injection Hc as <- <- <-.
  assert (Hid : job_id j = jt_next_id t) by by subst.
  assert (Hwf' : table_wf (JobTable (<[Z.to_nat (jt_count t) := Some l]> (jt_jobs t)) (jt_count t + 1)
              (u64 (jt_next_id t + 1))) (<[l := j]> h)).
  { apply create_table_wf; auto. by exists ls, js. }
  split; [exact Hwf'|]. exists j. split_and!; try by subst.
  unfold job_table_find. rewrite (proj2 (Z.eqb_neq _ _)) by lia.
  destruct Hwf' as (ls' & js' & H'). rewrite (tr_slots _ _ _ _ H').
  pose proof (tr_live _ _ _ _ H') as Hlive.
  destruct (find_loop (Some <$> ls') (<[l:=j]> h) (job_id j)) as [l'|] eqn:Ef.
  - destruct (find_loop_Some _ _ _ _ _ Hlive Ef) as (j' & Hj' & Hid').
    f_equal. eapply (job_id_inj _ (<[l:=j]> h) l' l j' j); try done; [by exists ls', js'|].
    apply lookup_insert_eq.
  - exfalso. eapply (find_loop_None _ _ _ _ l j Hlive Ef); [|apply lookup_insert_eq|done].
    eapply (tr_all _ _ _ _ H'). apply lookup_insert_eq.
Qed.

(** Searching finds the job of an identifier, and only it. *)
Theorem find_correct t h id l :
  table_wf t h -> job_table_find t h id = Some l <-> exists j, h !! l = Some j /\ job_id j = id.
Proof.
  intros Hwf. pose proof Hwf as (ls & js & H). pose proof (tr_live _ _ _ _ H) as Hlive.
  unfold job_table_find. rewrite (tr_slots _ _ _ _ H).
  assert (Hpos : forall l j, h !! l = Some j -> job_id j <> 0).
  { intros l' j' Hj'. destruct (table_rep_job _ _ _ _ _ _ H Hj'). lia. }
  destruct (Z.eqb_spec id 0) as [->|Hne].
  { split; [done|]. intros (j & Hj & Hid). by apply Hpos in Hj. }
  split; [by apply find_loop_Some with js|]. intros (j & Hj & Hid).
  destruct (find_loop (Some <$> ls) h id) as [l'|] eqn:Ef.
  - destruct (find_loop_Some _ _ _ _ _ Hlive Ef) as (j' & Hj' & Hid').
    f_equal. apply (job_id_inj t h l' l j' j Hwf); congruence.
  - exfalso. eapply (find_loop_None _ _ _ _ l j Hlive Ef); [|done..].
    by eapply (tr_all _ _ _ _ H).
Qed.

(** The statistics count each state, and the counts add up to the total. *)
Theorem collect_stats_correct t h :
  table_wf t h ->
  let st := job_table_collect_stats t h in let js := table_jobs t h in
  st_queued st = count_in JOB_STATE_QUEUED js /\ st_running st = count_in JOB_STATE_RUNNING js /\
  st_done st = count_in JOB_STATE_DONE js /\ st_failed st = count_in JOB_STATE_FAILED js /\
  st_canceled st = count_in JOB_STATE_CANCELED js /\
  st_total st = st_queued st + st_running st + st_done st + st_failed st + st_canceled st.
Proof.
  intros (ls & js & H). cbv zeta. rewrite (table_rep_jobs _ _ _ _ H).
  unfold job_table_collect_stats. rewrite (tr_slots _ _ _ _ H), (tr_count _ _ _ _ H).
  pose proof (stats_loop h ls js (JobStats (Z.of_nat (length ls)) 0 0 0 0 0 (double_of_Z 0))
                (double_of_Z 0) 0 (tr_live _ _ _ _ H)) as Hs.
  pose proof (count_in_total js) as Ht. rewrite <-(Forall2_length _ _ _ (tr_live _ _ _ _ H)) in Ht.
  destruct (fold_left _ _ _) as [[st total] finished]. cbn [st_total st_queued st_running st_done st_failed st_canceled] in *.
  destruct Hs as (H1 & H2 & H3 & H4 & H5 & H6). rewrite H1, H2, H3, H4, H5, H6. lia.
Qed.

(** A listing is the semicolon-separated items of the first jobs, as many
    as the buffer holds; it always fits and never cuts an item. *)
Theorem format_list_correct t h size :
  table_wf t h -> 0 < size -> 0 < jt_count t ->
  exists k s, job_table_format_list t h size = Some s /\
    s = String.concat ";" (list_item <$> take k (table_jobs t h)) /\ strlen s < size /\
    (forall j, table_jobs t h !! k = Some j -> size <= strlen (append_item s (list_item j)) + 1).
Proof.
  intros (ls & js & H) Hsize Hcount. rewrite (table_rep_jobs _ _ _ _ H).
  unfold job_table_format_list. rewrite (proj2 (Z.eqb_neq _ _)), (proj2 (Z.eqb_neq _ _)) by lia.
  rewrite (tr_slots _ _ _ _ H).
  destruct (list_loop_spec ls js h size EmptyString (tr_live _ _ _ _ H) Hsize) as (k & Heq & Hlt & Hmax).
  exists k, (list_loop (Some <$> ls) h size EmptyString). split; [done|]. split_and!; try done.
  rewrite Heq. apply append_items. apply Forall_fmap, Forall_true. intros j. apply list_item_pos.
Qed.

(** A history holds whole items of at most [max_items] finished jobs, the
    newest first. *)
Theorem format_history_correct t h size max :
  table_wf t h -> 0 < size -> 0 <= max ->
  exists kept s, job_table_format_history t h size max = Some s /\ strlen s < size /\
    sublist kept (filter (fun j => state_is_final (job_st j) = true) (reverse (table_jobs t h))) /\
    Z.of_nat (length kept) <= max /\
    (kept <> [] -> s = fold_left append_item (history_item <$> kept) EmptyString).
Proof.
  intros (ls & js & H) Hsize Hmax. rewrite (table_rep_jobs _ _ _ _ H).
  unfold job_table_format_history. rewrite (proj2 (Z.eqb_neq _ _)) by lia.
  rewrite (tr_slots _ _ _ _ H).
  assert (Hlive : Forall2 (fun l j => h !! l = Some j) (rev ls) (reverse js)).
  { rewrite rev_alt. apply Forall2_reverse. apply (tr_live _ _ _ _ H). }
  destruct (history_loop_spec _ _ _ size max 0 EmptyString Hlive Hsize) as (kept & Hk).
  rewrite <-map_rev.
  destruct (history_loop _ _ _ _ _ _) as [buf emitted].
  destruct Hk as (Hsub & Hbuf & Hlt & Hem & Hle). eexists kept, _. split; [done|].
  split_and!; [|done|lia|].
  - destruct (emitted =? 0); [by apply snprintf_s_len|done].
  - intros Hne. rewrite (proj2 (Z.eqb_neq _ _)); [done|].
    destruct kept; [done|]. simpl length in Hem. lia.
Qed.

(** When a client leaves, exactly its queued and running jobs are flagged,
    and their number is returned. *)
Theorem cancel_by_owner_correct t h fd n h' :
  table_wf t h -> job_table_cancel_by_owner t h fd = (n, h') ->
  n = Z.of_nat (length (filter (fun j => cancels fd j = true) (table_jobs t h))) /\
  forall l j, h !! l = Some j ->
    h' !! l = Some (if (job_owner_fd j =? fd) && state_is_active (job_st j) then with_cancel j else j).
Proof.
  intros Hwf Hc. rewrite cancel_by_owner_spec in Hc by done. simplify_eq. split; [done|].
  intros l j Hl. by rewrite lookup_fmap, Hl.
Qed.

Lemma free_slots_all ls h l :
  fold_left (fun h p => free_slot p h) (Some <$> ls) h !! l =
  if decide (l ∈ ls) then None else (h : job_heap) !! l.
Proof.
  revert h. induction ls as [|l' ls IH]; intros h; [done|]. csimpl. rewrite IH.
  destruct (decide (l = l')) as [->|Hne].
  - rewrite (decide_True (P := l' ∈ l' :: ls)) by (by left). case_decide; [done|apply lookup_delete_eq].
  - rewrite lookup_delete_ne by done.
    destruct (decide (l ∈ ls)), (decide (l ∈ l' :: ls)) as [Hin|Hni]; try done.
    + destruct Hni. by right.
    + apply elem_of_cons in Hin as [?|?]; done.
Qed.

(** Destroying the table frees every job ever created. *)
Theorem destroy_frees_all t h t' h' :
  table_wf t h -> job_table_destroy t h = (t', h') -> h' = ∅ /\ used_slots t' = [].
Proof.
  intros (ls & js & H) Hd. unfold job_table_destroy in Hd. rewrite (tr_slots _ _ _ _ H) in Hd.
  simplify_eq. split; [|done]. apply map_eq. intros l. rewrite free_slots_all, lookup_empty.
  case_decide as Hin; [done|]. destruct (h !! l) eqn:E; [|done].
  destruct Hin. by eapply (tr_all _ _ _ _ H).
Qed.

(** ** A concrete table *)

Definition demo_create (fd : Z) (l : loc) (s : job_table * job_heap) : job_table * job_heap :=
  let '(_, t, h) := job_table_create_job (Some l) true (Timespec 5 0) (fst s) (snd s) fd
                      (Some "127.0.0.1"%string) JOB_TYPE_TEXT (Some "hi"%string) None in (t, h).

(** Three jobs: one queued, one running and one done. *)
Definition demo_table : job_table * job_heap :=
  let s := demo_create 5 30 (demo_create 4 20 (demo_create 4 10 (job_table_init, ∅))) in
  (fst s,
   job_set_state (Timespec 7 500000000) (Some 10) JOB_STATE_DONE
     (job_set_state (Timespec 6 0) (Some 20) JOB_STATE_RUNNING
        (job_set_state (Timespec 5 250000000) (Some 10) JOB_STATE_RUNNING (snd s)))).

Lemma demo_create_step fd l s : snd s !! l = None -> job_step s (demo_create fd l s).
Proof.
  destruct s as [t h]. intros Hl. unfold demo_create. simpl fst. simpl snd in *.
  destruct (job_table_create_job _ _ _ _ _ _ _ _ _ _) as [[r t'] h'] eqn:E.
  eapply step_create; [|exact E]. by intros ? [= <-].
Qed.

Lemma demo_state_step now p st s : job_step s (fst s, job_set_state now p st (snd s)).
Proof. destruct s. apply step_set_state. Qed.

Lemma demo_reachable : rtc job_step (job_table_init, ∅) demo_table.
Proof.
  eapply rtc_l; [apply (demo_create_step 4 10); vm_compute; reflexivity|].
  eapply rtc_l; [apply (demo_create_step 4 20); vm_compute; reflexivity|].
  eapply rtc_l; [apply (demo_create_step 5 30); vm_compute; reflexivity|].
  do 3 (eapply rtc_l; [apply demo_state_step|]). apply rtc_refl.
Qed.

Lemma demo_wf : table_wf (fst demo_table) (snd demo_table) /\
  map_Forall (fun _ => job_wf) (snd demo_table).
Proof.
  apply (job_steps_inv _ _ demo_reachable). split; [apply table_init_wf|apply map_Forall_empty].
Qed.

Lemma job_reachable_inv_witness :
  table_wf (fst demo_table) (snd demo_table) /\ map_Forall (fun _ => job_wf) (snd demo_table).
Proof. apply (job_reachable_inv (fst demo_table) (snd demo_table)). exact demo_reachable. Defined.

Lemma job_identity_witness :
  exists j', job_set_state (Timespec 9 0) (Some 30) JOB_STATE_CANCELED (snd demo_table) !! 30 = Some j' /\
    same_job (default job_zero (snd demo_table !! 30)) j'.
Proof.
  apply (job_identity (fst demo_table) (snd demo_table) (fst demo_table)
    (job_set_state (Timespec 9 0) (Some 30) JOB_STATE_CANCELED (snd demo_table)) 30
    (default job_zero (snd demo_table !! 30))).
  - exact (proj1 demo_wf).
  - exact (proj2 demo_wf).
  - eapply rtc_l; [apply step_set_state|apply rtc_refl].
  - vm_compute. reflexivity.
Defined.

Lemma create_job_correct_witness :
  let r := job_table_create_job (Some 40) true (Timespec 8 0) (fst demo_table) (snd demo_table) 6
             (Some "10.0.0.1"%string) JOB_TYPE_DECODE None (Some "a.png"%string) in
  table_wf (snd (fst r)) (snd r) /\
  exists j, snd r = <[40 := j]> (snd demo_table) /\ job_id j = jt_count (fst demo_table) + 1 /\
    jt_count (snd (fst r)) = jt_count (fst demo_table) + 1 /\ job_st j = JOB_STATE_QUEUED /\
    job_owner_fd j = 6 /\ job_kind j = JOB_TYPE_DECODE /\ job_cancel_requested j = false /\
    job_table_find (snd (fst r)) (snd r) (job_id j) = Some 40.
Proof.
  intros r. apply (create_job_correct (Some 40) true (Timespec 8 0) (fst demo_table) (snd demo_table) 6
             (Some "10.0.0.1"%string) JOB_TYPE_DECODE None (Some "a.png"%string) (Some 40)).
  - exact (proj1 demo_wf).
  - intros l [= <-]. vm_compute. reflexivity.
  - vm_compute. reflexivity.
Defined.

Lemma find_correct_witness :
  job_table_find (fst demo_table) (snd demo_table) 2 = Some 20 <->
  exists j, snd demo_table !! 20 = Some j /\ job_id j = 2.
Proof. apply (find_correct (fst demo_table) (snd demo_table) 2 20). exact (proj1 demo_wf). Defined.

Lemma collect_stats_correct_witness :
  let st := job_table_collect_stats (fst demo_table) (snd demo_table) in
  let js := table_jobs (fst demo_table) (snd demo_table) in
  st_queued st = count_in JOB_STATE_QUEUED js /\ st_running st = count_in JOB_STATE_RUNNING js /\
  st_done st = count_in JOB_STATE_DONE js /\ st_failed st = count_in JOB_STATE_FAILED js /\
  st_canceled st = count_in JOB_STATE_CANCELED js /\
  st_total st = st_queued st + st_running st + st_done st + st_failed st + st_canceled st.
Proof. apply (collect_stats_correct (fst demo_table) (snd demo_table)). exact (proj1 demo_wf). Defined.

(** The average over the only finished job, and its item in the history. *)
Example demo_average :
  print_f1 (st_avg_duration_ms (job_table_collect_stats (fst demo_table) (snd demo_table)))
  = "2250.0"%string.
Proof. vm_compute. reflexivity. Qed.

Lemma format_list_correct_witness :
  exists k s, job_table_format_list (fst demo_table) (snd demo_table) 80 = Some s /\
    s = String.concat ";" (list_item <$> take k (table_jobs (fst demo_table) (snd demo_table))) /\
    strlen s < 80 /\
    (forall j, table_jobs (fst demo_table) (snd demo_table) !! k = Some j ->
       80 <= strlen (append_item s (list_item j)) + 1).
Proof.
  apply (format_list_correct (fst demo_table) (snd demo_table) 80).
  - exact (proj1 demo_wf).
  - lia.
  - vm_compute. reflexivity.
Defined.

Lemma format_history_correct_witness :
  exists kept s, job_table_format_history (fst demo_table) (snd demo_table) 4096 10 = Some s /\
    strlen s < 4096 /\
    sublist kept (filter (fun j => state_is_final (job_st j) = true)
                    (reverse (table_jobs (fst demo_table) (snd demo_table)))) /\
    Z.of_nat (length kept) <= 10 /\
    (kept <> [] -> s = fold_left append_item (history_item <$> kept) EmptyString).
Proof.
  apply (format_history_correct (fst demo_table) (snd demo_table) 4096 10); [exact (proj1 demo_wf)|lia..].
Defined.

Lemma cancel_by_owner_correct_witness :
  let h' := snd (job_table_cancel_by_owner (fst demo_table) (snd demo_table) 4) in
  1 = Z.of_nat (length (filter (fun j => cancels 4 j = true)
                          (table_jobs (fst demo_table) (snd demo_table)))) /\
  forall l j, snd demo_table !! l = Some j ->
    h' !! l = Some (if (job_owner_fd j =? 4) && state_is_active (job_st j) then with_cancel j else j).
Proof.
  intros h'. apply (cancel_by_owner_correct (fst demo_table) (snd demo_table) 4 1 h').
  - exact (proj1 demo_wf).
  - vm_compute. reflexivity.
Defined.

Lemma destroy_frees_all_witness :
  snd (job_table_destroy (fst demo_table) (snd demo_table)) = ∅ /\
  used_slots (fst (job_table_destroy (fst demo_table) (snd demo_table))) = [].
Proof.
  apply (destroy_frees_all (fst demo_table) (snd demo_table)).
  - exact (proj1 demo_wf).
  - apply surjective_pairing.
Defined.
