(* ===== verification/Queue.v ===== *)
(** * The job queue (src/src/server/queue.c, include/queue.h)

    A singly linked list of nodes in the heap, with a head and a tail
    pointer.  Each function locks the mutex of the queue around its body, so
    that each definition is one atomic step of a thread.  An access through a
    pointer to a block that is not live is undefined: the result is then
    [None]. *)

From S2P Require Export Job.
#[local] Open Scope Z_scope.

Record job_node := JobNode { node_job : loc; node_next : option loc }.

Abbreviation node_heap := (gmap Z job_node) (only parsing).

Record job_queue := JobQueue {
  q_head : option loc;
  q_tail : option loc;
  q_stopped : bool
}.

(** ** The operations *)

(** [job_queue_init]: the result and the zeroed queue. *)
Definition job_queue_init (mutex_ok cond_ok : bool) : Z * job_queue :=
  (if mutex_ok && cond_ok then 0 else -1, JobQueue None None false).

(** The loop of [job_queue_destroy]; [fuel] bounds its iterations. *)
Fixpoint destroy_loop (fuel : nat) (node : option loc) (nodes : node_heap) : option node_heap :=
  match node with
  | None => Some nodes
  | Some n =>
      match fuel with
      | O => None
      | S fuel =>
          nd ← nodes !! n;
          destroy_loop fuel (node_next nd) (delete n nodes)
      end
  end.

Definition job_queue_destroy (queue : job_queue) (nodes : node_heap) : option (job_queue * node_heap) :=
  nodes ← destroy_loop (size nodes) (q_head queue) nodes;
  Some (JobQueue None None (q_stopped queue), nodes).

(** [queue->tail->next = node]. *)
Definition set_next (next : option loc) (nd : job_node) : job_node := JobNode (node_job nd) next.

(** [job_queue_push]; [addr] is the result of [calloc]. *)
Definition job_queue_push (addr : option loc) (queue : job_queue) (nodes : node_heap)
    (job : option loc) : option (Z * job_queue * node_heap) :=
  match job with
  | None => Some (-1, queue, nodes)
  | Some j =>
      match addr with
      | None => Some (-1, queue, nodes)
      | Some n =>
          let nodes1 := <[n := JobNode j None]> nodes in
          if q_stopped queue then Some (-1, queue, delete n nodes1)
          else
            match q_tail queue with
            | None => Some (0, JobQueue (Some n) (Some n) (q_stopped queue), nodes1)
            | Some t =>
                tl ← nodes1 !! t;
                Some (0, JobQueue (q_head queue) (Some n) (q_stopped queue),
                      <[t := set_next (Some n) tl]> nodes1)
            end
      end
  end.

(** [job_queue_pop] either waits on the condition variable or returns. *)
Inductive pop_outcome :=
  | PopWaits
  | PopReturns (job : option loc) (queue : job_queue) (nodes : node_heap).

Definition job_queue_pop (queue : job_queue) (nodes : node_heap) : option pop_outcome :=
  if bool_decide (q_head queue = None) && negb (q_stopped queue) then Some PopWaits
  else if q_stopped queue then Some (PopReturns None queue nodes)
  else
    n ← q_head queue;
    nd ← nodes !! n;
    let head := node_next nd in
    let tail := match head with None => None | Some _ => q_tail queue end in
    Some (PopReturns (Some (node_job nd)) (JobQueue head tail (q_stopped queue)) (delete n nodes)).

Definition job_queue_stop (queue : job_queue) : job_queue :=
  JobQueue (q_head queue) (q_tail queue) true.

(** ** The list a queue represents *)

(** [chain nodes p l]: following the [next] pointers from [p] visits the
    nodes and jobs of [l]. *)
Fixpoint chain (nodes : node_heap) (p : option loc) (l : list (loc * loc)) : Prop :=
  match l with
  | [] => p = None
  | (n, j) :: l => p = Some n /\ exists nx, nodes !! n = Some (JobNode j nx) /\ chain nodes nx l
  end.

Record queue_rep (q : job_queue) (nodes : node_heap) (l : list (loc * loc)) : Prop := QueueRep {
  qr_chain : chain nodes (q_head q) l;
  qr_tail : q_tail q = last l.*1;
  qr_nodup : NoDup l.*1;
  qr_dom : forall n, is_Some (nodes !! n) <-> n ∈ l.*1
}.

(** The abstract queue: the jobs waiting, oldest first. *)
Definition queue_holds (q : job_queue) (nodes : node_heap) (js : list loc) : Prop :=
  exists l, queue_rep q nodes l /\ l.*2 = js.

Lemma chain_frame nodes nodes' p l :
  (forall n, n ∈ l.*1 -> nodes' !! n = nodes !! n) -> chain nodes p l -> chain nodes' p l.
Proof.
  revert p. induction l as [|[n j] l IH]; intros p Hsame; simpl; [done|].
  intros (-> & nx & Hn & Hc). split; [done|]. exists nx. split.
  - rewrite Hsame by (by left). done.
  - apply IH; [|done]. intros m Hm. apply Hsame. by right.
Qed.

(** Appending a node after the last one. *)
Lemma chain_snoc nodes p l t n j :
  chain nodes p l -> NoDup l.*1 -> last l.*1 = Some t -> n ∉ l.*1 ->
  exists tl, nodes !! t = Some tl /\
    chain (<[t := set_next (Some n) tl]> (<[n := JobNode j None]> nodes)) p (l ++ [(n, j)]).
Proof.
  revert p. induction l as [|[m k] l IH]; intros p Hc Hnd Hlast Hn; [done|].
  destruct Hc as (-> & nx & Hm & Hc). csimpl in *. apply NoDup_cons in Hnd as [Hml Hnd].
  apply not_elem_of_cons in Hn as [Hnm Hnl].
  destruct l as [|[m' k'] l].
  - simpl in Hlast. simplify_eq. exists (JobNode k nx). split; [done|].
    split; [done|]. simpl in Hc. subst. exists (Some n). rewrite lookup_insert_eq. split; [done|].
    split; [done|]. exists None. rewrite lookup_insert_ne, lookup_insert_eq by done. done.
  - change (last (m' :: l.*1) = Some t) in Hlast.
    destruct (IH nx Hc Hnd Hlast Hnl) as (tl & Ht & Hc'). exists tl. split; [done|].
    split; [done|]. exists nx. split; [|exact Hc'].
    assert (t ∈ (m' :: l.*1)) by (by apply last_Some_elem_of).
    rewrite !lookup_insert_ne; [done|by intros ->|]. intros ->. by apply Hml.
Qed.

Lemma queue_init_rep : queue_rep (snd (job_queue_init true true)) ∅ [].
Proof.
  constructor; simpl; try done; [constructor|]. intros n. rewrite lookup_empty.
  split; [by intros []|by intros ?%elem_of_nil].
Qed.

(** ** Each operation on the list *)

Lemma push_rep q nodes l n j :
  queue_rep q nodes l -> nodes !! n = None ->
  exists q' nodes', job_queue_push (Some n) q nodes (Some j) =
      Some (if q_stopped q then -1 else 0, q', nodes') /\
    q_stopped q' = q_stopped q /\
    queue_rep q' nodes' (if q_stopped q then l else l ++ [(n, j)]).
Proof.
  intros [Hc Ht Hnd Hdom] Hn. unfold job_queue_push.
  assert (Hnl : n ∉ l.*1) by (intros Hin; apply Hdom in Hin as [? ?]; congruence).
  destruct (q_stopped q) eqn:Es.
  { exists q, nodes. rewrite delete_insert_id by done. by split_and!. }
  assert (Hdom' : forall m nd (nodes' : node_heap), (forall m', is_Some (nodes' !! m') <-> is_Some (<[n := nd]> nodes !! m')) ->
     is_Some (nodes' !! m) <-> m ∈ (l ++ [(n, j)]).*1).
  { intros m nd nodes' ->. rewrite fmap_app, elem_of_app. csimpl. rewrite list_elem_of_singleton, <-Hdom.
    destruct (decide (m = n)) as [->|Hne]; [rewrite lookup_insert_eq; split; [by right|by eexists]|].
    rewrite lookup_insert_ne by done. split; [by left|by intros [?|?]]. }
  assert (Hnd' : NoDup (l ++ [(n, j)]).*1).
  { rewrite fmap_app. apply NoDup_app. split_and!; [done| |apply NoDup_singleton].
    csimpl. intros m Hm ->%list_elem_of_singleton. done. }
  rewrite Ht. destruct (last l.*1) as [t|] eqn:El.
  - destruct (chain_snoc nodes (q_head q) l t n j Hc Hnd El Hnl) as (tl & Htl & Hc').
    assert (Htn : t <> n) by congruence. rewrite lookup_insert_ne, Htl by done.
    eexists _, _. split; [done|]. split; [done|].
    constructor; [exact Hc'|rewrite fmap_app; csimpl; by rewrite last_snoc|done|].
    intros m. apply (Hdom' m (JobNode j None)). intros m'.
    destruct (decide (m' = t)) as [->|Hne]; [|by rewrite lookup_insert_ne].
    rewrite lookup_insert_eq, lookup_insert_ne, Htl by done. split; by eexists.
  - apply last_None, fmap_nil_inv in El. subst l.
    eexists _, _. split; [done|]. split; [done|].
    constructor; simpl; [|done|done|by intros m; apply (Hdom' m (JobNode j None))].
    split; [done|]. exists None. by rewrite lookup_insert_eq.
Qed.

Lemma pop_rep q nodes l :
  queue_rep q nodes l ->
  match l with
  | [] => job_queue_pop q nodes =
            Some (if q_stopped q then PopReturns None q nodes else PopWaits)
  | (n, j) :: l' =>
      exists q', job_queue_pop q nodes =
        Some (if q_stopped q then PopReturns None q nodes else PopReturns (Some j) q' (delete n nodes)) /\
        q_stopped q' = q_stopped q /\ queue_rep q' (delete n nodes) l'
  end.
Proof.
  intros [Hc Ht Hnd Hdom]. unfold job_queue_pop. destruct l as [|[n j] l].
  { simpl in Hc. rewrite Hc. by destruct (q_stopped q). }
  destruct Hc as (Hh & nx & Hn & Hc). rewrite Hh. csimpl in *. apply NoDup_cons in Hnd as [Hnl Hnd].
  exists (JobQueue nx (match nx with None => None | Some _ => q_tail q end) (q_stopped q)).
  split; [destruct (q_stopped q); simpl; [done|]; by rewrite Hn|]. split; [done|].
  constructor; simpl.
  - apply (chain_frame nodes); [|done]. intros m Hm. rewrite lookup_delete_ne by (by intros ->). done.
  - destruct l as [|[m k] l]; simpl in *; [by subst|]. destruct Hc as (-> & _). exact Ht.
  - done.
  - intros m. destruct (decide (m = n)) as [->|Hne].
    + rewrite lookup_delete_eq. split; [by intros []|done].
    + rewrite lookup_delete_ne by done. rewrite Hdom, elem_of_cons. tauto.
Qed.

Lemma holds_pop q nodes j js :
  queue_holds q nodes (j :: js) -> q_stopped q = false ->
  exists q' nodes', job_queue_pop q nodes = Some (PopReturns (Some j) q' nodes') /\
    queue_holds q' nodes' js /\ q_stopped q' = false.
Proof.
  intros ([|[n j'] l] & Hrep & Heq) Hst; simplify_eq/=.
  destruct (pop_rep _ _ _ Hrep) as (q' & Hp & Hs & Hrep'). rewrite Hst in Hp, Hs.
  eexists _, _. split; [exact Hp|]. split; [by exists l|done].
Qed.

Lemma holds_empty q nodes :
  queue_holds q nodes [] -> q_stopped q = false -> job_queue_pop q nodes = Some PopWaits.
Proof.
  intros ([|] & Hrep & Heq) Hst; [|done]. pose proof (pop_rep _ _ _ Hrep) as Hp. by rewrite Hst in Hp.
Qed.

(** A queue holds one list of jobs. *)
Lemma chain_fun nodes p l l' : chain nodes p l -> chain nodes p l' -> l = l'.
Proof.
  revert p l'. induction l as [|[n j] l IH]; intros p [|[n' j'] l']; simpl; [done|..].
  - by intros -> [? _].
  - by intros [-> _] ?.
  - intros (-> & nx & Hn & Hc) ([= <-] & nx' & Hn' & Hc'). simplify_eq. f_equal. by eapply IH.
Qed.

Lemma queue_holds_fun q nodes js js' : queue_holds q nodes js -> queue_holds q nodes js' -> js = js'.
Proof.
  intros (l & [Hc _ _ _] & <-) (l' & [Hc' _ _ _] & <-). by rewrite (chain_fun _ _ _ _ Hc Hc').
Qed.

Lemma stop_rep q nodes l : queue_rep q nodes l -> queue_rep (job_queue_stop q) nodes l.
Proof. by intros []. Qed.

Lemma destroy_loop_rep fuel nodes p l :
  chain nodes p l -> NoDup l.*1 -> (forall n, is_Some (nodes !! n) <-> n ∈ l.*1) ->
  (length l <= fuel)%nat -> destroy_loop fuel p nodes = Some ∅.
Proof.
  revert nodes p l. induction fuel as [|fuel IH]; intros nodes p l Hc Hnd Hdom Hf.
  all: destruct l as [|[n j] l]; simpl in Hc, Hf; try lia.
  1, 2: subst; simpl; f_equal; apply map_eq; intros n; rewrite lookup_empty;
    destruct (nodes !! n) eqn:E; [|done]; exfalso; apply (not_elem_of_nil n), Hdom; by eexists.
  destruct Hc as (-> & nx & Hn & Hc). simpl. rewrite Hn. csimpl in *.
  apply NoDup_cons in Hnd as [Hnl Hnd]. apply (IH _ _ l); [|done| |lia].
  - apply (chain_frame nodes); [|done]. intros m Hm. rewrite lookup_delete_ne by (by intros ->). done.
  - intros m. destruct (decide (m = n)) as [->|Hne].
    + rewrite lookup_delete_eq. split; [by intros []|done].
    + rewrite lookup_delete_ne by done. rewrite Hdom, elem_of_cons. tauto.
Qed.

Lemma queue_rep_size q nodes l : queue_rep q nodes l -> size nodes = length l.
Proof.
  intros [_ _ Hnd Hdom]. rewrite <-size_dom. replace (dom nodes) with (list_to_set l.*1 : gset Z).
  - rewrite size_list_to_set by done. apply length_fmap.
  - apply set_eq. intros n. rewrite elem_of_list_to_set, elem_of_dom. by rewrite Hdom.
Qed.

(** ** Histories of a queue

    A queue with the jobs accepted by [job_queue_push] and the jobs returned
    by [job_queue_pop] so far, both oldest first. *)

Record queue_run := QueueRun {
  qs_queue : job_queue;
  qs_nodes : node_heap;
  qs_pushed : list loc;
  qs_popped : list loc
}.

Definition queue_run_init : queue_run := QueueRun (snd (job_queue_init true true)) ∅ [] [].

Inductive queue_step : queue_run -> queue_run -> Prop :=
  | step_push q nodes pushed popped addr job rc q' nodes' :
      (forall n, addr = Some n -> nodes !! n = None) ->
      job_queue_push addr q nodes job = Some (rc, q', nodes') ->
      queue_step (QueueRun q nodes pushed popped)
        (QueueRun q' nodes' (if rc =? 0 then pushed ++ option_list job else pushed) popped)
  | step_pop q nodes pushed popped job q' nodes' :
      job_queue_pop q nodes = Some (PopReturns job q' nodes') ->
      queue_step (QueueRun q nodes pushed popped)
        (QueueRun q' nodes' pushed (popped ++ option_list job))
  | step_stop q nodes pushed popped :
      queue_step (QueueRun q nodes pushed popped)
        (QueueRun (job_queue_stop q) nodes pushed popped).

Definition queue_inv (s : queue_run) : Prop :=
  exists l, queue_rep (qs_queue s) (qs_nodes s) l /\ qs_pushed s = qs_popped s ++ l.*2.

Lemma queue_step_inv s s' : queue_inv s -> queue_step s s' -> queue_inv s'.
Proof.
  intros (l & Hrep & Heq) Hstep. unfold queue_inv.
  destruct Hstep as [q nodes pushed popped addr job rc q' nodes' Hfresh Hpush
                    |q nodes pushed popped job q' nodes' Hpop|q nodes pushed popped]; simpl in *.
  - destruct job as [j|]; [|simplify_eq/=; by exists l].
    destruct addr as [n|]; [|simplify_eq/=; by exists l].
    destruct (push_rep q nodes l n j Hrep (Hfresh n eq_refl)) as (q1 & nodes1 & Hp & Hs & Hrep').
    rewrite Hp in Hpush. simplify_eq. eexists. split; [exact Hrep'|].
    destruct (q_stopped q); simpl; [done|]. by rewrite fmap_app, app_assoc.
  - pose proof (pop_rep q nodes l Hrep) as Hp. destruct l as [|[n j] l].
    + rewrite Hp in Hpop. destruct (q_stopped q); simplify_eq/=. exists []. by rewrite !app_nil_r in *.
    + destruct Hp as (q1 & Hp & Hs & Hrep'). rewrite Hp in Hpop.
      destruct (q_stopped q); simplify_eq/=.
      * exists ((n, j) :: l). by rewrite app_nil_r.
      * exists l. split; [done|]. by rewrite <-app_assoc.
  - exists l. split; [by apply stop_rep|done].
Qed.

Lemma queue_reachable_inv s : rtc queue_step queue_run_init s -> queue_inv s.
Proof.
  assert (H0 : queue_inv queue_run_init) by (exists []; split; [apply queue_init_rep|done]).
  intros H. revert H0. induction H; [done|]. eauto using queue_step_inv.
Qed.

(** ** The properties *)

(** C27: first in, first out: the jobs accepted are the jobs returned followed by
    the jobs that wait, in the same order; nothing is lost or duplicated, no
    operation touches a dead node, and every live node is a waiting job. *)
Theorem queue_fifo s :
  rtc queue_step queue_run_init s ->
  exists js, queue_holds (qs_queue s) (qs_nodes s) js /\ qs_pushed s = qs_popped s ++ js /\
    size (qs_nodes s) = length js /\
    job_queue_pop (qs_queue s) (qs_nodes s) <> None /\
    forall n j, qs_nodes s !! n = None ->
      job_queue_push (Some n) (qs_queue s) (qs_nodes s) (Some j) <> None.
Proof.
  intros H. destruct (queue_reachable_inv s H) as (l & Hrep & Heq).
  exists l.*2. split_and!; [by exists l|done| | |].
  - rewrite length_fmap. by apply queue_rep_size with (qs_queue s).
  - pose proof (pop_rep _ _ _ Hrep) as Hp. destruct l as [|[n j] l]; [by rewrite Hp|].
    destruct Hp as (q' & Hp & _). by rewrite Hp.
  - intros n j Hn. destruct (push_rep _ _ _ n j Hrep Hn) as (q' & nodes' & Hp & _). by rewrite Hp.
Qed.

(** [job_queue_pop] waits exactly when the queue is empty and running,
    returns [NULL] exactly when it was stopped, and otherwise takes the oldest
    job and frees its node. *)
Theorem pop_correct q nodes js :
  queue_holds q nodes js ->
  (job_queue_pop q nodes = Some PopWaits <-> js = [] /\ q_stopped q = false) /\
  (q_stopped q = true -> job_queue_pop q nodes = Some (PopReturns None q nodes)) /\
  (forall j js', js = j :: js' -> q_stopped q = false ->
     exists q' nodes', job_queue_pop q nodes = Some (PopReturns (Some j) q' nodes') /\
       queue_holds q' nodes' js' /\ q_stopped q' = false /\ size nodes = S (size nodes')).
Proof.
  intros (l & Hrep & <-). pose proof (pop_rep q nodes l Hrep) as Hp. destruct l as [|[n j] l]; csimpl.
  - rewrite Hp. destruct (q_stopped q); naive_solver.
  - destruct Hp as (q' & Hp & Hs & Hrep'). rewrite Hp. split_and!.
    + destruct (q_stopped q); naive_solver.
    + by intros ->.
    + intros j' js' [= <- <-] Hst. rewrite Hst in *. eexists _, _. split; [done|].
      split_and!; [by exists l|done|].
      by rewrite (queue_rep_size _ _ _ Hrep), (queue_rep_size _ _ _ Hrep').
Qed.

(** Destroying a queue, whatever it still holds, terminates and frees every
    node. *)
Theorem destroy_frees_nodes q nodes js :
  queue_holds q nodes js ->
  job_queue_destroy q nodes = Some (JobQueue None None (q_stopped q), ∅).
Proof.
  intros (l & Hrep & _). unfold job_queue_destroy.
  rewrite (destroy_loop_rep (size nodes) nodes (q_head q) l); [done|..]; try apply Hrep.
  by rewrite (queue_rep_size _ _ _ Hrep).
Qed.

(** ** A concrete queue: two jobs pushed, one popped *)

Definition demo_queue : queue_run :=
  QueueRun (JobQueue (Some 2) (Some 2) false) {[2 := JobNode 20 None]} [10; 20] [10].

Lemma demo_queue_reachable : rtc queue_step queue_run_init demo_queue.
Proof.
  eapply rtc_l; [eapply (step_push _ _ _ _ (Some 1) (Some 10)); [by intros ? [= <-]|reflexivity]|].
  eapply rtc_l; [eapply (step_push _ _ _ _ (Some 2) (Some 20)); [by intros ? [= <-]|reflexivity]|].
  eapply rtc_l; [eapply step_pop; reflexivity|]. apply rtc_refl.
Qed.

Lemma demo_queue_holds : queue_holds (qs_queue demo_queue) (qs_nodes demo_queue) [20].
Proof.
  exists [(2, 20)]. split; [|done]. constructor; simpl; try done.
  - split; [done|]. by exists None.
  - apply NoDup_singleton.
  - intros n. rewrite list_elem_of_singleton. destruct (decide (n = 2)) as [->|Hne].
    + rewrite lookup_singleton_eq. split; [done|by eexists].
    + rewrite lookup_singleton_ne by done. split; [by intros []|done].
Qed.

Lemma queue_fifo_witness :
  exists js, queue_holds (qs_queue demo_queue) (qs_nodes demo_queue) js /\
    qs_pushed demo_queue = qs_popped demo_queue ++ js /\
    size (qs_nodes demo_queue) = length js /\
    job_queue_pop (qs_queue demo_queue) (qs_nodes demo_queue) <> None /\
    forall n j, qs_nodes demo_queue !! n = None ->
      job_queue_push (Some n) (qs_queue demo_queue) (qs_nodes demo_queue) (Some j) <> None.
Proof. apply (queue_fifo demo_queue). exact demo_queue_reachable. Defined.

Lemma pop_correct_witness :
  exists q' nodes', job_queue_pop (qs_queue demo_queue) (qs_nodes demo_queue) =
      Some (PopReturns (Some 20) q' nodes') /\
    queue_holds q' nodes' [] /\ q_stopped q' = false /\ size (qs_nodes demo_queue) = S (size nodes').
Proof.
  apply (pop_correct (qs_queue demo_queue) (qs_nodes demo_queue) [20] demo_queue_holds); reflexivity.
Defined.

Lemma destroy_frees_nodes_witness :
  job_queue_destroy (qs_queue demo_queue) (qs_nodes demo_queue) =
    Some (JobQueue None None false, ∅).
Proof. exact (destroy_frees_nodes (qs_queue demo_queue) (qs_nodes demo_queue) [20] demo_queue_holds). Defined.
