(* ===== verification/Worker.v ===== *)
(** * Workers (src/src/server/worker.c, include/worker.h)

    A worker thread takes jobs from the queue and processes them.  Its state
    [wk] holds what it shares with the server thread: the files and the heap
    ([world]), the jobs, the queue and the notification pipe.

    The code of a worker is a tree of atomic actions [W]: each is one access to
    a job under its mutex, one call over the files, one operation of the queue
    or one write to the pipe.  [wrun] executes a tree without interruption
    except that the server thread may request the cancellation of the job:
    [wk_env] lists, for the accesses to come, whether a request comes first
    (none when it is exhausted).  Threads.v interleaves the actions of several
    workers and the server thread.  Logging is not modelled. *)

From S2P Require Export Stego PngUtils Storage Queue Wire.
#[local] Open Scope Z_scope.

Definition MAX_TEXT_BYTES : Z := 1048576.

Record worker_event := WorkerEvent { ev_job_id : Z; ev_state : job_state }.

(** ** The notification pipe *)

Definition job_state_code (s : job_state) : Z :=
  match s with
  | JOB_STATE_QUEUED => 0
  | JOB_STATE_RUNNING => 1
  | JOB_STATE_DONE => 2
  | JOB_STATE_FAILED => 3
  | JOB_STATE_CANCELED => 4
  end.

(** The bytes of the structure on x86_64; the padding at its end is zero
    here. *)
Definition event_bytes (ev : worker_event) : list Z :=
  le_field 8 (ev_job_id ev) ++ le_field 4 (job_state_code (ev_state ev)) ++ [0; 0; 0; 0].

(** The loop of [write_event]. *)
Fixpoint write_event_loop (fuel : nat) (data : list Z) (c : conn) : option (Z * conn) :=
  match fuel with
  | O => None
  | S fuel =>
      if 0 <? Z.of_nat (length data) then
        match write data c with
        | (IoEINTR, c) => write_event_loop fuel data c
        | (IoFAIL, c) => Some (-1, c)
        | (IoOK n, c) =>
            if n =? 0 then Some (-1, c) else write_event_loop fuel (drop (Z.to_nat n) data) c
        end
      else Some (0, c)
  end.

Definition write_event (c : conn) (event : option worker_event) : option (Z * conn) :=
  match event with
  | None => Some (-1, c)
  | Some ev =>
      write_event_loop (S (length (cn_wsched c) + length (event_bytes ev))) (event_bytes ev) c
  end.

(** ** The state of a worker *)

Record wk := Wk {
  wk_world : world;
  wk_jobs : job_heap;
  wk_clock : list timespec;   (* the readings of the clock to come *)
  wk_env : list bool;
  wk_queue : job_queue;
  wk_nodes : node_heap;
  wk_pipe : conn;
  wk_running : list bool      (* the readings of [*ctx->running] to come *)
}.

(** A computation is a result, or an atomic action on the state whose answer
    determines the rest. *)
Inductive W (A : Type) : Type :=
  | Ret (a : A)
  | Act {B : Type} (op : wk -> B * wk) (k : B -> W A).
Arguments Ret {A} a.
Arguments Act {A B} op k.

#[export] Instance W_ret : MRet W := fun A a => Ret a.
#[export] Instance W_bind : MBind W := fun A B f =>
  fix bind (m : W A) : W B :=
    match m with Ret a => f a | Act op k => Act op (fun b => bind (k b)) end.

Definition act {A} (op : wk -> A * wk) : W A := Act op Ret.

(** An execution in which the worker is alone. *)
Fixpoint wrun {A} (m : W A) (s : wk) : A * wk :=
  match m with
  | Ret a => (a, s)
  | Act op k => let (b, s) := op s in wrun (k b) s
  end.

Definition set_world (s : wk) (w : world) : wk :=
  Wk w (wk_jobs s) (wk_clock s) (wk_env s) (wk_queue s) (wk_nodes s) (wk_pipe s) (wk_running s).
Definition set_jobs (s : wk) (h : job_heap) : wk :=
  Wk (wk_world s) h (wk_clock s) (wk_env s) (wk_queue s) (wk_nodes s) (wk_pipe s) (wk_running s).

(** A computation over the files and the heap. *)
Definition lift {A} (m : M A) : W A := act (fun s =>
  let (a, w) := m (wk_world s) in (a, set_world s w)).

(** What the server thread does before the worker takes the mutex of [p]. *)
Definition interfere (p : option loc) (s : wk) : wk :=
  match wk_env s with
  | [] => s
  | b :: env =>
      Wk (wk_world s) (if b then snd (job_request_cancel p (wk_jobs s)) else wk_jobs s)
        (wk_clock s) env (wk_queue s) (wk_nodes s) (wk_pipe s) (wk_running s)
  end.

(** [clock_gettime]. *)
Definition clock : W timespec := act (fun s =>
  (hd zero_time (wk_clock s),
   Wk (wk_world s) (wk_jobs s) (tl (wk_clock s)) (wk_env s) (wk_queue s) (wk_nodes s)
     (wk_pipe s) (wk_running s))).

(** A call of a function of job.c that reads, or writes, the job [p]. *)
Definition job_read {A} (p : option loc) (f : job_heap -> A) : W A := act (fun s =>
  let s := interfere p s in (f (wk_jobs s), s)).
Definition job_write (p : option loc) (f : job_heap -> job_heap) : W unit := act (fun s =>
  let s := interfere p s in (tt, set_jobs s (f (wk_jobs s)))).

(** Such a write that reads the clock. *)
Definition job_write_state (p : option loc) (state : job_state) : W unit :=
  now ← clock; job_write p (job_set_state now p state).

Definition finish (p : option loc) (result : string) (state : job_state) (rc : Z) : W Z :=
  _ ← job_write p (job_set_result p (Some result));
  _ ← job_write_state p state;
  mret rc.

(** [job->id], which never changes. *)
Definition job_id_of (p : option loc) : W Z := act (fun s => (read_job p 0 job_id (wk_jobs s), s)).

(** ** Files *)

(** [fread] of at most [n] of the bytes that are left. *)
Definition fread_upto (n : Z) (data : list Z) : list Z :=
  if Z.of_nat (length data) <=? n then data else take (Z.to_nat n) data.

(** [write_text_to_file] and [write_bin_to_file]; the data is never [NULL]
    when [len > 0]. *)
Definition write_bin_to_file (path : string) (data : option (list Z)) (len : Z) : M Z :=
  fp ← fopen_wb path;
  if negb fp then mret (-1) else
  ok ← (if 0 <? len then stdio else mret true);
  if negb ok then _ ← fclose; mret (-1) else
  _ ← fwrite_all path (match data with Some d => fread_upto len d | None => [] end);
  ok ← stdio;
  _ ← fclose;
  if negb ok then mret (-1) else mret 0.

Definition write_text_to_file := write_bin_to_file.

(** [read_text_file]: the bytes in the buffer before its terminator. *)
Definition read_text_file (path : string) (buf_size : Z) : M (option (list Z)) :=
  fp ← fopen_rb path;
  match fp with
  | None => mret None
  | Some data =>
      ok ← stdio;
      _ ← fclose;
      mret (Some (if (ok : bool) then fread_upto (buf_size - 1) data else ([] : list Z)))
  end.

(** ** Processing *)

Section with_png.
Context `{L : LibPng} (g : storage_globals) (worker_index : Z).

(** The five steps of [process_text_job]: whether a cancellation was seen. *)
Fixpoint text_steps (n : nat) (p : option loc) : W bool :=
  match n with
  | O => mret false
  | S n =>
      c ← job_read p (job_is_cancel_requested p);
      if (c : bool) then mret true else text_steps n p
  end.

Definition process_text_job (p : option loc) : W Z :=
  payload ← job_read p (job_get_payload p EmptyString MAX_JOB_PAYLOAD);
  canceled ← text_steps 5 p;
  if (canceled : bool) then finish p "job canceled" JOB_STATE_CANCELED 0 else
  finish p (snprintf_s MAX_JOB_RESULT
              ("processed_by_worker_" +:+ print_u worker_index +:+ ": " +:+ payload)%string)
    JOB_STATE_DONE 0.

Definition process_validate_image_job (p : option loc) : W Z :=
  input_path ← job_read p (job_get_input_path p EmptyString MAX_JOB_PATH);
  metadata ← lift (png_read_metadata (Some input_path));
  match metadata with
  | None => finish p "INVALID PNG" JOB_STATE_FAILED (-1)
  | Some m =>
      finish p (snprintf_s MAX_JOB_RESULT
        ("VALID PNG width=" +:+ print_u (md_width m) +:+ " height=" +:+ print_u (md_height m) +:+
         " bit_depth=" +:+ print_d (md_bit_depth m) +:+ " color=" +:+
         png_color_type_to_string (md_color_type m) +:+ " channels=" +:+ print_d (md_channels m))%string)
        JOB_STATE_DONE 0
  end.

Definition process_analyze_capacity_job (p : option loc) : W Z :=
  input_path ← job_read p (job_get_input_path p EmptyString MAX_JOB_PATH);
  rc ← lift (stego_get_capacity (Some input_path));
  match rc with
  | inl e => finish p (snprintf_s MAX_JOB_RESULT ("capacity error: " +:+ stego_strerror e)%string)
               JOB_STATE_FAILED (-1)
  | inr cap =>
      finish p (snprintf_s MAX_JOB_RESULT
        ("CAPACITY " +:+ print_u (cap_payload_max_bytes cap) +:+ " BYTES width=" +:+
         print_u (cap_width cap) +:+ " height=" +:+ print_u (cap_height cap) +:+ " channels=" +:+
         print_d (cap_channels cap))%string) JOB_STATE_DONE 0
  end.

(** The end of the two encoding jobs that succeed. *)
Definition finish_encoded (p : option loc) (out_path msg : string) : W Z :=
  size ← lift (get_file_size_bytes out_path);
  let size := default 0 size in
  _ ← job_write p (job_set_output_path p (Some out_path));
  _ ← job_write p (job_set_result_meta p JOB_RESULT_PNG size (Some "stego_result.png"%string));
  finish p (snprintf_s MAX_JOB_RESULT
    (msg +:+ " output=" +:+ out_path +:+ " size=" +:+ print_d size)%string) JOB_STATE_DONE 0.

Definition process_encode_text_job (p : option loc) : W Z :=
  png_path ← job_read p (job_get_input_path p EmptyString MAX_JOB_PATH);
  text_path ← job_read p (job_get_stored_path p EmptyString MAX_JOB_PATH);
  id ← job_id_of p;
  match storage_make_result_path g id (Some "png"%string) MAX_JOB_PATH with
  | None => finish p "path build failed" JOB_STATE_FAILED (-1)
  | Some out_path =>
      text ← lift (read_text_file text_path (MAX_TEXT_BYTES + 1));
      match text with
      | None => finish p "cannot read text payload" JOB_STATE_FAILED (-1)
      | Some text =>
          canceled ← job_read p (job_is_cancel_requested p);
          if (canceled : bool) then finish p "job canceled" JOB_STATE_CANCELED 0 else
          rc ← lift (stego_encode_text (Some png_path) (Some out_path) (Some text)
                       (Z.of_nat (length text)));
          if negb (bool_decide (rc = STEGO_OK)) then
            finish p (snprintf_s MAX_JOB_RESULT ("encode_text failed: " +:+ stego_strerror rc)%string)
              JOB_STATE_FAILED (-1)
          else
            finish_encoded p out_path
              ("encoded text_bytes=" +:+ print_u (Z.of_nat (length text)))%string
      end
  end.

Definition process_encode_file_job (p : option loc) : W Z :=
  png_path ← job_read p (job_get_input_path p EmptyString MAX_JOB_PATH);
  file_path ← job_read p (job_get_stored_path p EmptyString MAX_JOB_PATH);
  filename ← job_read p (job_get_payload p EmptyString MAX_JOB_FILENAME);
  id ← job_id_of p;
  match storage_make_result_path g id (Some "png"%string) MAX_JOB_PATH with
  | None => finish p "path build failed" JOB_STATE_FAILED (-1)
  | Some out_path =>
      canceled ← job_read p (job_is_cancel_requested p);
      if (canceled : bool) then finish p "job canceled" JOB_STATE_CANCELED 0 else
      rc ← lift (stego_encode_file (Some png_path) (Some out_path) (Some file_path)
                   (if strlen filename =? 0 then None else Some filename));
      if negb (bool_decide (rc = STEGO_OK)) then
        finish p (snprintf_s MAX_JOB_RESULT ("encode_file failed: " +:+ stego_strerror rc)%string)
          JOB_STATE_FAILED (-1)
      else finish_encoded p out_path ("encoded file=" +:+ filename)%string
  end.

Definition process_decode_job (p : option loc) : W Z :=
  png_path ← job_read p (job_get_input_path p EmptyString MAX_JOB_PATH);
  canceled ← job_read p (job_is_cancel_requested p);
  if (canceled : bool) then finish p "job canceled" JOB_STATE_CANCELED 0 else
  rc ← lift (stego_decode (Some png_path));
  match rc with
  | inl e => finish p (snprintf_s MAX_JOB_RESULT ("decode failed: " +:+ stego_strerror e)%string)
               JOB_STATE_FAILED (-1)
  | inr ex =>
      let is_text := bool_decide (ex_type ex = STEGO_PAYLOAD_TEXT) in
      let suffix := if is_text then "txt"%string else "bin"%string in
      id ← job_id_of p;
      match storage_make_result_path g id (Some suffix) MAX_JOB_PATH with
      | None =>
          _ ← lift (stego_extracted_free ex);
          finish p "path build failed" JOB_STATE_FAILED (-1)
      | Some out_path =>
          wr ← lift ((if is_text then write_text_to_file else write_bin_to_file)
                       out_path (ex_data ex) (ex_data_len ex));
          if wr <? 0 then
            _ ← lift (stego_extracted_free ex);
            finish p "cannot write decoded result" JOB_STATE_FAILED (-1)
          else
            _ ← job_write p (job_set_output_path p (Some out_path));
            let kind := if is_text then JOB_RESULT_TEXT else JOB_RESULT_FILE in
            let name := if is_text then "decoded.txt"%string else ex_filename ex in
            _ ← job_write p (job_set_result_meta p kind (ex_data_len ex) (Some name));
            _ ← finish p (snprintf_s MAX_JOB_RESULT
                  (if is_text then "decoded text bytes=" +:+ print_u (ex_data_len ex)
                   else "decoded file=" +:+ ex_filename ex +:+ " bytes=" +:+
                        print_u (ex_data_len ex))%string) JOB_STATE_DONE 0;
            _ ← lift (stego_extracted_free ex);
            mret 0
      end
  end.

(** ** The thread *)

Definition notify (p : option loc) (state : job_state) : W unit :=
  id ← job_id_of p;
  act (fun s =>
    match write_event (wk_pipe s) (Some (WorkerEvent id state)) with
    | Some (_, c) =>
        (tt, Wk (wk_world s) (wk_jobs s) (wk_clock s) (wk_env s) (wk_queue s) (wk_nodes s) c
               (wk_running s))
    | None => (tt, s)
    end).

(** The dispatch on the type of the job. *)
Definition process_job (type : job_type) (p : option loc) : W Z :=
  match type with
  | JOB_TYPE_TEXT => process_text_job p
  | JOB_TYPE_VALIDATE_IMAGE => process_validate_image_job p
  | JOB_TYPE_ANALYZE_CAPACITY => process_analyze_capacity_job p
  | JOB_TYPE_ENCODE_TEXT => process_encode_text_job p
  | JOB_TYPE_ENCODE_FILE => process_encode_file_job p
  | JOB_TYPE_DECODE => process_decode_job p
  | JOB_TYPE_UNKNOWN => finish p "unknown job type" JOB_STATE_FAILED (-1)
  end.

(** The body of the loop of [worker_main] for a job that was popped. *)
Definition worker_job (p : option loc) : W unit :=
  canceled ← job_read p (job_is_cancel_requested p);
  if (canceled : bool) then
    _ ← finish p "job canceled" JOB_STATE_CANCELED 0;
    notify p JOB_STATE_CANCELED
  else
    _ ← job_write_state p JOB_STATE_RUNNING;
    type ← job_read p (job_get_type p);
    rc ← process_job type p;
    _ ← (if rc <? 0 then
           st ← job_read p (job_get_state p);
           if bool_decide (st = JOB_STATE_RUNNING)
           then _ ← finish p "worker failed" JOB_STATE_FAILED 0; mret tt
           else mret tt
         else mret tt);
    st ← job_read p (job_get_state p);
    notify p st.

Definition is_running : W bool := act (fun s =>
  (hd true (wk_running s),
   Wk (wk_world s) (wk_jobs s) (wk_clock s) (wk_env s) (wk_queue s) (wk_nodes s) (wk_pipe s)
     (tl (wk_running s)))).

Definition pop : W (option pop_outcome) := act (fun s =>
  match job_queue_pop (wk_queue s) (wk_nodes s) with
  | Some (PopReturns job q nodes) =>
      (Some (PopReturns job q nodes),
       Wk (wk_world s) (wk_jobs s) (wk_clock s) (wk_env s) q nodes (wk_pipe s) (wk_running s))
  | r => (r, s)
  end).

(** One iteration of the loop of [worker_main]: it ends the thread, waits in
    [job_queue_pop], or goes on; [None] on an access to a dead node. *)
Inductive worker_outcome := WorkerStopped | WorkerWaits | WorkerNext.

(** From the call of [job_queue_pop]. *)
Definition worker_take : W (option worker_outcome) :=
  r ← pop;
  match r with
  | None => mret None
  | Some PopWaits => mret (Some WorkerWaits)
  | Some (PopReturns None _ _) => mret (Some WorkerStopped)
  | Some (PopReturns (Some job) _ _) => _ ← worker_job (Some job); mret (Some WorkerNext)
  end.

Definition worker_iteration : W (option worker_outcome) :=
  running ← is_running;
  if negb (running : bool) then mret (Some WorkerStopped) else worker_take.

(** [worker_main] until it returns or waits for a job; [WorkerNext] when
    [fuel] iterations were not enough. *)
Fixpoint worker_main (fuel : nat) : W (option worker_outcome) :=
  match fuel with
  | O => mret (Some WorkerNext)
  | S fuel =>
      r ← worker_iteration;
      match r with
      | Some WorkerNext => worker_main fuel
      | r => mret r
      end
  end.
End with_png.
