(* ===== verification/WorkerLogic.v ===== *)
(** * A program logic for the workers (src/src/server/worker.c)

    The frame every computation of a worker respects, a logic for a worker
    that runs alone, and a rely-guarantee logic for a worker whose atomic
    actions are interleaved with those of other threads.  The interface
    [Rely] states what a proof about a worker uses of the other threads; its
    instances are the absence of other threads (WorkerCorrect.v) and the whole
    system (Threads.v). *)

From S2P Require Export Worker StegoCorrect PngToy.
#[local] Open Scope Z_scope.

(** ** Frames of the encoder *)

Section frames.
Context {L : LibPng} {LL : LibPngLaws L}.

(** A change of the files that touches [o] only. *)
Definition only_file (o : string) (fs fs' : gmap string (list Z)) : Prop :=
  forall q, q <> o -> fs' !! q = fs !! q.

Lemma only_file_refl o fs : only_file o fs fs.
Proof. by intros q _. Qed.

(** An outcome that keeps the handles, leaks only after an error of libpng,
    and touches only [o]. *)
Definition encode_frame (o : string) (w : world) (rc : stego_status) (w' : world) : Prop :=
  exists k fs', 0 <= k /\ (rc <> STEGO_ERR_LIBPNG -> k = 0) /\ step fs' k 0 w w' /\
    only_file o (w_fs w) fs'.

Lemma encode_frame_same o w rc w' : step (w_fs w) 0 0 w w' -> encode_frame o w rc w'.
Proof. intros Hs. exists 0, (w_fs w). by split_and!. Qed.

Lemma build_container_frame type filename payload n w :
  wp (build_container type filename payload n) (fun r w' =>
    step (w_fs w) (match r with Some _ => 1 | None => 0 end) 0 w w') w.
Proof.
  unfold build_container. cbv zeta. wp_step. wp_step. wp_case; [|wp_auto; steps].
  wp_step. wp_step. wp_step. steps.
Qed.

(** Without a condition on the payload. *)
Lemma encode_common_frame i o type filename payload n w :
  wp (encode_common (Some i) (Some o) type filename payload n) (encode_frame o w) w.
Proof.
  unfold encode_common, png_image_buf_free.
  apply wp_bind. eapply wp_conseq; [apply png_load_spec|]. intros [e|img] w1; cbn beta iota.
  { intros (He & k & (Hk & Hk0 & Hs) & _). wp_step. exists k, (w_fs w). split_and!; auto.
    apply only_file_refl. }
  intros (Hwf & Hs1 & _). apply wp_bind.
  eapply wp_conseq; [apply build_container_frame|]. intros [[total buf]|] w2 Hs2; cbn beta iota zeta.
  2: { wp_auto. apply encode_frame_same. steps. }
  wp_case; [wp_auto; apply encode_frame_same; steps|].
  wp_step. wp_step. wp_step. eapply wp_conseq; [apply png_save_spec|].
  intros rc w4 [_ Hsave]. wp_auto.
  assert (Hfs : w_fs w' = w_fs w) by (destruct Hs1, Hs2, H; congruence).
  destruct rc; simpl in Hsave; try done; [| |rewrite Hfs in Hsave..].
  - destruct Hsave as (_ & data & _ & _ & Hsave & _). exists 0, (<[o := data]> (w_fs w)).
    split_and!; [lia|done|steps|]. intros q Hq. by rewrite lookup_insert_ne.
  - apply encode_frame_same. steps.
  - exists 0, (delete o (w_fs w)). split_and!; [lia|done|steps|].
    intros q Hq. by rewrite lookup_delete_ne.
  - exists 0, (delete o (w_fs w)). split_and!; [lia|done|steps|].
    intros q Hq. by rewrite lookup_delete_ne.
Qed.

Lemma encode_frame_around o w w1 w2 w3 rc a :
  step (w_fs w) a 0 w w1 -> encode_frame o w1 rc w2 -> step (w_fs w2) (- a) 0 w2 w3 ->
  encode_frame o w rc w3.
Proof.
  intros H1 (k & fs' & Hk & Hk0 & Hs & Hf) H2. exists k, fs'. split_and!; try done.
  - assert (fs' = w_fs w2) by (by destruct Hs). subst. clear -H1 H2 Hs. steps.
  - by replace (w_fs w1) with (w_fs w) in Hf by (by destruct H1).
Qed.

Ltac same_err := wp_auto; apply encode_frame_same; first [apply step_refl | steps].

Lemma encode_file_frame i o p name w :
  wp (stego_encode_file (Some i) (Some o) (Some p) name) (encode_frame o w) w.
Proof.
  unfold stego_encode_file.
  apply wp_bind, wp_fopen_rb; [|intros _; same_err].
  intros data w1 _ _ Hs1. cbn beta iota.
  do 3 (wp_step; wp_step; wp_case; [|same_err]).
  wp_step. wp_step. cbv zeta.
  match goal with |- context [negb ?b && _] => destruct b; cbn [negb andb] end; cbn beta iota.
  - wp_step. apply wp_fread. intros b w6 Hs6 _. wp_case; [|same_err].
    wp_step. wp_step. wp_step. eapply wp_conseq; [apply encode_common_frame|]. intros rc w8 Hf.
    wp_auto. eapply (encode_frame_around _ _ _ _ _ _ 1); [|exact Hf|eassumption]; steps.
  - wp_case; [same_err|]. wp_step. wp_step. cbn [negb]. wp_step. wp_step. wp_step.
    eapply wp_conseq; [apply encode_common_frame|]. intros rc w8 Hf.
    wp_auto. eapply (encode_frame_around _ _ _ _ _ _ 0); [|exact Hf|eassumption]; steps.
Qed.
End frames.

(** ** The logic of [W]

    [wpW m Q s]: running [m] from [s] ends in a result and a state that
    satisfy [Q]. *)

Definition wpW {A} (m : W A) (Q : A -> wk -> Prop) (s : wk) : Prop :=
  let (a, s') := wrun m s in Q a s'.

Lemma wrun_bind {A B} (m : W A) (f : A -> W B) s :
  wrun (m ≫= f) s = let (a, s') := wrun m s in wrun (f a) s'.
Proof.
  revert s. induction m as [a|C op k IH]; intros s; [done|]. cbn. destruct (op s) as [b s']. apply IH.
Qed.

Section wpW_rules.
Context {A B : Type}.

Lemma wpW_ret (a : A) (Q : A -> wk -> Prop) s : Q a s -> wpW (mret a) Q s.
Proof. done. Qed.

Lemma wpW_bind (m : W A) (f : A -> W B) (Q : B -> wk -> Prop) s :
  wpW m (fun a => wpW (f a) Q) s -> wpW (m ≫= f) Q s.
Proof. unfold wpW. rewrite wrun_bind. by destruct (wrun m s). Qed.

Lemma wpW_conseq (m : W A) (P Q : A -> wk -> Prop) s :
  wpW m P s -> (forall a s', P a s' -> Q a s') -> wpW m Q s.
Proof. unfold wpW. destruct (wrun m s). auto. Qed.

Lemma wpW_and (m : W A) (P Q : A -> wk -> Prop) s :
  wpW m P s -> wpW m Q s -> wpW m (fun a s' => P a s' /\ Q a s') s.
Proof. unfold wpW. by destruct (wrun m s). Qed.

Lemma wpW_lift (m : M A) (Q : A -> wk -> Prop) s :
  wp m (fun a w => Q a (set_world s w)) (wk_world s) -> wpW (lift m) Q s.
Proof. unfold wpW, wp. cbn. by destruct (m (wk_world s)). Qed.
End wpW_rules.

(** ** The frame of a worker

    [wstep g l id k o s s']: what the worker of the job at [l] may do.  It
    leaks [k] blocks and no handle, touches no file but the results of the
    job [id], no job but the one at [l], on which it acts through the
    operations of job.c only; the state of that job becomes [o], or is kept
    when [o] is [None]. *)

Definition own_file (g : storage_globals) (id : Z) (q : string) : Prop :=
  exists x, q = job_path (g_storage_results g) id (Some x).

Record wstep (g : storage_globals) (l : loc) (id : Z) (k : Z) (o : option job_state)
    (s s' : wk) : Prop := WStep {
  ws_world : exists fs, step fs k 0 (wk_world s) (wk_world s') /\
    forall q, ~ own_file g id q -> fs !! q = w_fs (wk_world s) !! q;
  ws_steps : forall t, rtc job_step (t, wk_jobs s) (t, wk_jobs s');
  ws_other : forall l', l' <> l -> wk_jobs s' !! l' = wk_jobs s !! l';
  ws_job : forall j, wk_jobs s !! l = Some j -> exists j', wk_jobs s' !! l = Some j' /\
    same_job j j' /\ job_st j' = default (job_st j) o;
  ws_queue : wk_queue s' = wk_queue s;
  ws_nodes : wk_nodes s' = wk_nodes s;
  ws_pipe : wk_pipe s' = wk_pipe s;
  ws_running : wk_running s' = wk_running s;
  ws_env : wk_env s = [] -> wk_env s' = []
}.

(** The last state set wins. *)
Definition last_state (o1 o2 : option job_state) : option job_state :=
  match o2 with Some _ => o2 | None => o1 end.

Lemma wstep_refl g l id s : wstep g l id 0 None s s.
Proof.
  constructor; try done; [|by intros j ?; exists j].
  exists (w_fs (wk_world s)). split; [apply step_refl|done].
Qed.

Lemma wstep_trans g l id k1 k2 o1 o2 s1 s2 s3 :
  wstep g l id k1 o1 s1 s2 -> wstep g l id k2 o2 s2 s3 ->
  wstep g l id (k1 + k2) (last_state o1 o2) s1 s3.
Proof.
  intros [(fs1 & Hw1 & Hf1) Hs1 Ho1 Hj1 Hq1 Hn1 Hp1 Hr1 He1]
         [(fs2 & Hw2 & Hf2) Hs2 Ho2 Hj2 Hq2 Hn2 Hp2 Hr2 He2].
  constructor; [| | | |congruence..|auto].
  - exists fs2. split; [apply (step_trans fs1 fs2 k1 0 k2 0 _ _ _ Hw1 Hw2)|].
    intros q Hq. rewrite Hf2 by done. rewrite (step_fs _ _ _ _ _ Hw1). by apply Hf1.
  - intros t. etrans; [apply Hs1|apply Hs2].
  - intros l' Hl'. rewrite Ho2 by done. by apply Ho1.
  - intros j Hj. destruct (Hj1 j Hj) as (j1 & H1 & Hsame1 & Hst1).
    destruct (Hj2 j1 H1) as (j2 & H2 & Hsame2 & Hst2). exists j2. split; [done|].
    split; [by transitivity j1|]. destruct o2; simpl in *; [done|congruence].
Qed.

(** The flag of a cancelled job stays. *)
Lemma wstep_cancel g l id k o s s' :
  wstep g l id k o s s' -> is_Some (wk_jobs s !! l) ->
  job_is_cancel_requested (Some l) (wk_jobs s) = true ->
  job_is_cancel_requested (Some l) (wk_jobs s') = true.
Proof.
  intros Hs [j Hj] Hc. destruct (ws_job _ _ _ _ _ _ _ Hs j Hj) as (j' & Hj' & Hsame & _).
  unfold job_is_cancel_requested, read_job in *. rewrite Hj in Hc. rewrite Hj'.
  unfold same_job in Hsame. tauto.
Qed.

Lemma wstep_live g l id k o s s' :
  wstep g l id k o s s' -> is_Some (wk_jobs s !! l) -> is_Some (wk_jobs s' !! l).
Proof.
  intros Hs [j Hj]. destruct (ws_job _ _ _ _ _ _ _ Hs j Hj) as (j' & Hj' & _). by exists j'.
Qed.

Lemma wstep_crc g l id k o s s' :
  wstep g l id k o s s' -> crc_inv (w_crc (wk_world s)) -> crc_inv (w_crc (wk_world s')).
Proof. intros [(fs & [] & _)]. auto. Qed.

(** The ways to make such a step. *)
Section wsteps.
Context (g : storage_globals) (l : loc) (id : Z).

Lemma wstep_jobs s h env :
  (forall t, rtc job_step (t, wk_jobs s) (t, h)) ->
  (forall l', l' <> l -> h !! l' = wk_jobs s !! l') ->
  forall o, (forall j, wk_jobs s !! l = Some j -> exists j', h !! l = Some j' /\ same_job j j' /\
    job_st j' = default (job_st j) o) ->
  (wk_env s = [] -> env = []) -> forall clock,
  wstep g l id 0 o s
    (Wk (wk_world s) h clock env (wk_queue s) (wk_nodes s) (wk_pipe s) (wk_running s)).
Proof.
  intros Hsteps Hother o Hjob Henv clock. constructor; try done; simpl; auto.
  exists (w_fs (wk_world s)). split; [apply step_refl|done].
Qed.

(** An update of the job is a step. *)
Lemma wstep_update s h f o :
  h = on_job (Some l) f (wk_jobs s) -> job_update f ->
  (forall j, job_st (f j) = default (job_st j) o) ->
  (forall t, job_step (t, wk_jobs s) (t, h)) -> forall clock env, (wk_env s = [] -> env = []) ->
  wstep g l id 0 o s
    (Wk (wk_world s) h clock env (wk_queue s) (wk_nodes s) (wk_pipe s) (wk_running s)).
Proof.
  intros HF Hf Ho Hstep clock env Henv. apply wstep_jobs; [..|done].
  - intros t. by apply rtc_once.
  - intros l' Hl'. rewrite HF. simpl. by rewrite lookup_alter_ne.
  - intros j Hj. exists (f j). rewrite HF. simpl. rewrite lookup_alter_eq, Hj.
    split; [done|]. split; [apply Hf|apply Ho].
Qed.

(** The readings that are consumed are no part of the frame. *)
Lemma wstep_readings s clock env :
  (wk_env s = [] -> env = []) ->
  wstep g l id 0 None s
    (Wk (wk_world s) (wk_jobs s) clock env (wk_queue s) (wk_nodes s) (wk_pipe s) (wk_running s)).
Proof. intros Henv. apply wstep_jobs; [done..| |done]. intros j Hj. by exists j. Qed.

Lemma interfere_step s : wstep g l id 0 None s (interfere (Some l) s).
Proof.
  unfold interfere. destruct (wk_env s) as [|b env] eqn:E; [apply wstep_refl|].
  destruct b; [|by apply wstep_readings; rewrite E].
  assert (Hc : forall t, job_step (t, wk_jobs s) (t, snd (job_request_cancel (Some l) (wk_jobs s))))
    by (intros t; apply step_request_cancel).
  unfold job_request_cancel in *. destruct (read_job _ _ _ _); [|by apply wstep_readings; rewrite E].
  apply (wstep_update s _ with_cancel); [done|auto with job|done|apply Hc|by rewrite E].
Qed.

Lemma wstep_world s w k fs :
  step fs k 0 (wk_world s) w -> (forall q, ~ own_file g id q -> fs !! q = w_fs (wk_world s) !! q) ->
  wstep g l id k None s (set_world s w).
Proof. intros Hstep Hfs. constructor; try done; [by exists fs|]. intros j Hj. by exists j. Qed.
End wsteps.

(** ** Rely and guarantee

    [rg g l id R m Q k o s]: the worker of the job [l] has to run [m], and
    last acted in the state [s].  Whenever it acts, the state is one to which
    the others, who respect [R], brought [s]; it does what [wstep] allows,
    except that it may write to the pipe; and it ends in [Q].  [k] and [o] are
    what it did since it took the job: the blocks it holds, which are never
    fewer than none, and the state it gave to the job, which moves on only. *)

Definition set_pipe (s : wk) (c : conn) : wk :=
  Wk (wk_world s) (wk_jobs s) (wk_clock s) (wk_env s) (wk_queue s) (wk_nodes s) c (wk_running s).

Definition may_set (o : option job_state) (st : job_state) : Prop :=
  match o with
  | None => st = JOB_STATE_RUNNING \/ st = JOB_STATE_CANCELED
  | Some JOB_STATE_RUNNING => state_is_final st = true
  | Some _ => False
  end.

Section rg.
Context (g : storage_globals) (l : loc) (id : Z) (R : wk -> wk -> Prop).
Implicit Types (k : Z) (o : option job_state) (s : wk).

Record own_step k o k' o' s s' : Prop := OwnStep {
  os_step : wstep g l id k' o' s (set_pipe s' (wk_pipe s));
  os_leak : 0 <= k + k';
  os_state : forall st, o' = Some st -> may_set o st
}.

Fixpoint rg {A} (m : W A) (Q : A -> Z -> option job_state -> wk -> Prop) k o s : Prop :=
  match m with
  | Ret a => Q a k o s
  | Act op c => forall s0, R s s0 -> exists k' o',
      let (b, s') := op s0 in
      own_step k o k' o' s0 s' /\ rg (c b) Q (k + k') (last_state o o') s'
  end.

Lemma rg_ret {A} (a : A) Q k o s : Q a k o s -> rg (mret a) Q k o s.
Proof. done. Qed.

Lemma rg_bind {A B} (m : W A) (f : A -> W B) Q k o s :
  rg m (fun a => rg (f a) Q) k o s -> rg (m ≫= f) Q k o s.
Proof.
  revert k o s. induction m as [a|C op c IH]; intros k o s; [done|].
  intros H s0 Hs0. destruct (H s0 Hs0) as (k' & o' & H'). exists k', o'.
  destruct (op s0) as [b s']. destruct H' as [Hs Hc]. split; [done|]. by apply IH.
Qed.

Lemma rg_conseq {A} (m : W A) (P Q : A -> Z -> option job_state -> wk -> Prop) k o s :
  rg m P k o s -> (forall a k' o' s', P a k' o' s' -> Q a k' o' s') -> rg m Q k o s.
Proof.
  revert k o s. induction m as [a|C op c IH]; intros k o s H HPQ; [by apply HPQ|].
  intros s0 Hs0. destruct (H s0 Hs0) as (k' & o' & H'). exists k', o'.
  destruct (op s0) as [b s']. destruct H' as [Hs Hc]. split; [done|]. by apply IH.
Qed.

(** The others may act in between. *)
Lemma rg_rely {A} (m : W A) Q k o s s' :
  Transitive R -> (forall a k o s s', Q a k o s -> R s s' -> Q a k o s') ->
  R s s' -> rg m Q k o s -> rg m Q k o s'.
Proof. intros HR HQ Hs. destruct m as [a|C op c]; [intros H; by eapply HQ|]. intros H s0 H0. apply H. by etrans. Qed.
End rg.

(** A worker that is alone. *)
Lemma rg_run g l id {A} (m : W A) Q k o s :
  rg g l id eq m Q k o s -> wpW m (fun a s' => exists k' o', Q a k' o' s') s.
Proof.
  revert k o s. induction m as [a|C op c IH]; intros k o s H; [by exists k, o|].
  destruct (H s eq_refl) as (k' & o' & H'). unfold wpW in *. cbn. destruct (op s) as [b s'].
  destruct H' as [_ H']. by apply IH in H'.
Qed.

(** ** The states a job goes through *)

(** The state of the job [l] after each action of a worker that is alone. *)
Fixpoint job_states (l : loc) {A} (m : W A) (s : wk) : list job_state :=
  match m with
  | Ret _ => []
  | Act op c => let (b, s') := op s in job_get_state (Some l) (wk_jobs s') :: job_states l (c b) s'
  end.

(** A sequence of actions on a job whose first state is [st0]: each gives it no
    state, or one that [may_set] allows after the last that was given. *)
Inductive state_path (st0 : job_state) : option job_state -> list job_state -> option job_state -> Prop :=
  | path_end o : state_path st0 o [] o
  | path_act o o1 l o2 : (forall st, o1 = Some st -> may_set o st) -> state_path st0 (last_state o o1) l o2 ->
      state_path st0 o (default st0 (last_state o o1) :: l) o2.

(** Once a final state is set no other follows. *)
Lemma path_final st0 f l o :
  state_is_final f = true -> state_path st0 (Some f) l o -> o = Some f /\ l = replicate (length l) f.
Proof.
  intros Hf H. remember (Some f) as o0 eqn:E. induction H as [|o0 o1 l o2 Hmay H IH]; [done|]. subst o0.
  assert (o1 = None) as ->.
  { destruct o1 as [st|]; [|done]. specialize (Hmay st eq_refl). by destruct f. }
  destruct (IH eq_refl) as [-> Hl]. split; [done|]. cbn. by f_equal.
Qed.

Lemma path_running st0 l f :
  state_is_final f = true -> state_path st0 (Some JOB_STATE_RUNNING) l (Some f) ->
  exists m k, l = replicate m JOB_STATE_RUNNING ++ replicate (S k) f.
Proof.
  intros Hf H. remember (Some JOB_STATE_RUNNING) as o0 eqn:E. remember (Some f) as oe eqn:Ee.
  induction H as [|o0 o1 l o2 Hmay H IH]; subst; [by simplify_eq|].
  destruct o1 as [st|].
  - specialize (Hmay st eq_refl). destruct (path_final _ _ _ _ Hmay H) as [[= ->] Hl].
    exists 0%nat, (length l). cbn. by rewrite <-Hl.
  - destruct (IH eq_refl eq_refl) as (m & k & ->). by exists (S m), k.
Qed.

(** A job that is brought to a final state goes there directly or over
    [RUNNING], and stays there. *)
Lemma path_once st0 l f :
  state_is_final f = true -> state_path st0 None l (Some f) ->
  exists n m k, l = replicate n st0 ++ replicate m JOB_STATE_RUNNING ++ replicate (S k) f.
Proof.
  intros Hf H. remember None as o0 eqn:E. remember (Some f) as oe eqn:Ee.
  induction H as [|o0 o1 l o2 Hmay H IH]; subst; [done|]. destruct o1 as [st|].
  - exists 0%nat. destruct (Hmay st eq_refl) as [-> | ->].
    + destruct (path_running _ _ _ Hf H) as (m & k & ->). by exists (S m), k.
    + destruct (path_final st0 JOB_STATE_CANCELED l _ eq_refl H) as [[= ->] Hl].
      exists 0%nat, (length l). cbn. by rewrite <-Hl.
  - destruct (IH eq_refl eq_refl) as (n & m & k & ->). by exists (S n), m, k.
Qed.

Lemma rg_states g l id st0 {A} (m : W A) Q k o s j :
  rg g l id eq m Q k o s -> wk_jobs s !! l = Some j -> job_st j = default st0 o ->
  exists a s' k' o', wrun m s = (a, s') /\ Q a k' o' s' /\ state_path st0 o (job_states l m s) o'.
Proof.
  revert k o s j. induction m as [a|C op c IH]; intros k o s j H Hj Hst.
  { exists a, s, k, o. split_and!; [done..|constructor]. }
  destruct (H s eq_refl) as (k1 & o1 & H'). cbn [job_states wrun]. destruct (op s) as [b s1]. destruct H' as [[Hstep _ Hmay] H'].
  destruct (ws_job _ _ _ _ _ _ _ Hstep j Hj) as (j1 & Hj1 & _ & Hst1). cbn in Hj1.
  assert (Hnew : job_st j1 = default st0 (last_state o o1)) by (rewrite Hst1; by destruct o1).
  destruct (IH b _ _ s1 j1 H' Hj1 Hnew) as (a & s' & k' & o' & Hrun & HQ & Hm).
  exists a, s', k', o'. split_and!; [done..|]. replace (job_get_state (Some l) (wk_jobs s1)) with (default st0 (last_state o o1))
    by (unfold job_get_state, read_job; by rewrite Hj1). by constructor.
Qed.

(** ** What a worker relies on

    An assertion [T k o s] about the state in which a worker has the job [l]
    in hand, which the others respect and which its own steps take along. *)

Definition cancelled (l : loc) (s : wk) : Prop := job_is_cancel_requested (Some l) (wk_jobs s) = true.

Class Rely (g : storage_globals) (l : loc) (id : Z) (R : wk -> wk -> Prop)
    (T : Z -> option job_state -> wk -> Prop) : Prop := {
  rl_rely : forall k o s s', T k o s -> R s s' -> T k o s';
  rl_step : forall k o k' o' s s', T k o s -> 0 <= k + k' -> wstep g l id k' o' s s' ->
    T (k + k') (last_state o o') s';
  rl_leak : forall k o s, T k o s -> 0 <= k;
  rl_job : forall k o s, T k o s -> exists j, wk_jobs s !! l = Some j /\ job_id j = id /\
    forall st, o = Some st -> job_st j = st;
  rl_crc : forall k o s, T k o s -> crc_inv (w_crc (wk_world s));
  rl_cancel : forall k o s s', T k o s -> R s s' -> cancelled l s -> cancelled l s'
}.

Section rules.
Context (g : storage_globals) (l : loc) (id : Z) (R : wk -> wk -> Prop) T `{RL : !Rely g l id R T}.
Implicit Types (k : Z) (o : option job_state) (s : wk).

Lemma T_cancel k o k' o' s s' :
  T k o s -> wstep g l id k' o' s s' -> cancelled l s -> cancelled l s'.
Proof.
  intros HT Hs. destruct (rl_job _ _ _ HT) as (j & Hj & _). eapply wstep_cancel; [exact Hs|by exists j].
Qed.

(** An action that is a step and leaves the pipe alone. *)
Lemma acc_act {A} (op : wk -> A * wk) (Q : A -> Z -> option job_state -> wk -> Prop) k o s :
  T k o s ->
  (forall s0, T k o s0 -> (cancelled l s -> cancelled l s0) -> exists k' o',
     wstep g l id k' o' s0 (op s0).2 /\ 0 <= k + k' /\ (forall st, o' = Some st -> may_set o st) /\
     (T (k + k') (last_state o o') (op s0).2 -> (cancelled l s -> cancelled l (op s0).2) ->
        Q (op s0).1 (k + k') (last_state o o') (op s0).2)) ->
  rg g l id R (act op) Q k o s.
Proof.
  intros HT H s0 HR. pose proof (rl_rely _ _ _ _ HT HR) as HT0.
  assert (Hc : cancelled l s -> cancelled l s0) by (by eapply rl_cancel).
  destruct (H s0 HT0 Hc) as (k' & o' & Hs & Hk & Ho & HQ). exists k', o'. destruct (op s0) as [b s']. cbn in *.
  assert (Hpipe : set_pipe s' (wk_pipe s0) = s')
    by (rewrite <-(ws_pipe _ _ _ _ _ _ _ Hs); by destruct s').
  split; [split; [by rewrite Hpipe|done..]|]. apply HQ; [by eapply rl_step|].
  intros Hs1. by eapply T_cancel; [..|by apply Hc].
Qed.

Lemma acc_read {A} (f : job_heap -> A) (Q : A -> Z -> option job_state -> wk -> Prop) k o s :
  T k o s ->
  (forall s', T k o s' -> (cancelled l s -> cancelled l s') -> Q (f (wk_jobs s')) k o s') ->
  rg g l id R (job_read (Some l) f) Q k o s.
Proof.
  intros HT HQ. apply acc_act; [done|]. intros s0 HT0 Hc. exists 0, None.
  pose proof (rl_leak _ _ _ HT0). split_and!; [apply interfere_step|lia|done|].
  rewrite Z.add_0_r. intros HT' Hc'. by apply HQ.
Qed.

(** A write that is the operation [F] of job.c. *)
Lemma acc_write F f o' (Q : unit -> Z -> option job_state -> wk -> Prop) k o s :
  (forall h, F h = on_job (Some l) f h) -> job_update f ->
  (forall j, job_st (f j) = default (job_st j) o') ->
  (forall t h, job_step (t, h) (t, F h)) -> (forall st, o' = Some st -> may_set o st) ->
  T k o s ->
  (forall s', T k (last_state o o') s' -> (cancelled l s -> cancelled l s') -> Q tt k (last_state o o') s') ->
  rg g l id R (job_write (Some l) F) Q k o s.
Proof.
  intros HF Hf Ho Hstep Hmay HT HQ. apply acc_act; [done|]. intros s0 HT0 _. exists 0, o'.
  pose proof (rl_leak _ _ _ HT0). cbn -[interfere]. set (s1 := interfere (Some l) s0).
  assert (Hs2 : wstep g l id 0 o' s1 (set_jobs s1 (F (wk_jobs s1))))
    by (apply (wstep_update _ _ _ s1 _ f); auto).
  pose proof (wstep_trans _ _ _ _ _ _ _ _ _ _ (interfere_step g l id s0) Hs2) as Hs.
  fold s1 in Hs. replace (last_state None o') with o' in Hs by by destruct o'.
  split_and!; [exact Hs|lia|done|]. rewrite Z.add_0_r. apply HQ.
Qed.

Lemma acc_set_result r (Q : unit -> Z -> option job_state -> wk -> Prop) k o s :
  T k o s -> (forall s', T k o s' -> (cancelled l s -> cancelled l s') -> Q tt k o s') ->
  rg g l id R (job_write (Some l) (job_set_result (Some l) (Some r))) Q k o s.
Proof.
  intros HT HQ. eapply (acc_write _ _ None); [done|auto with job|done| |done..].
  intros. apply step_set_result.
Qed.

Lemma acc_set_output_path r (Q : unit -> Z -> option job_state -> wk -> Prop) k o s :
  T k o s -> (forall s', T k o s' -> Q tt k o s') ->
  rg g l id R (job_write (Some l) (job_set_output_path (Some l) (Some r))) Q k o s.
Proof.
  intros HT HQ. eapply (acc_write _ _ None); [done|auto with job|done| |done|done|auto].
  intros. apply step_set_output_path.
Qed.

Lemma acc_set_result_meta kd n fn (Q : unit -> Z -> option job_state -> wk -> Prop) k o s :
  T k o s -> (forall s', T k o s' -> Q tt k o s') ->
  rg g l id R (job_write (Some l) (job_set_result_meta (Some l) kd n fn)) Q k o s.
Proof.
  intros HT HQ. eapply (acc_write _ _ None); [done|auto with job|done| |done|done|auto].
  intros. apply step_set_result_meta.
Qed.

Lemma acc_set_state st (Q : unit -> Z -> option job_state -> wk -> Prop) k o s :
  may_set o st -> T k o s ->
  (forall s', T k (Some st) s' -> (cancelled l s -> cancelled l s') -> Q tt k (Some st) s') ->
  rg g l id R (job_write_state (Some l) st) Q k o s.
Proof.
  intros Hmay HT HQ. apply rg_bind, acc_act; [done|]. intros s1 HT1 Hc1. exists 0, None.
  pose proof (rl_leak _ _ _ HT1). split_and!; [by apply wstep_readings|lia|done|].
  rewrite Z.add_0_r. intros HT2 Hc2. cbn [fst last_state].
  eapply (acc_write _ _ (Some st)); [intros; apply job_set_state_update|auto with job| | |by intros ? [= <-]|exact HT2|].
  - intros j. unfold state_update. by destruct st.
  - intros. apply step_set_state.
  - intros s3 HT3 Hc3. apply HQ; [done|auto].
Qed.

Lemma acc_id (Q : Z -> Z -> option job_state -> wk -> Prop) k o s :
  T k o s -> (forall s', T k o s' -> Q id k o s') -> rg g l id R (job_id_of (Some l)) Q k o s.
Proof.
  intros HT HQ. apply acc_act; [done|]. intros s0 HT0 _. exists 0, None.
  pose proof (rl_leak _ _ _ HT0). split_and!; [apply wstep_refl|lia|done|]. rewrite Z.add_0_r.
  intros HT' _. destruct (rl_job _ _ _ HT0) as (j & Hj & Hid & _). cbn. rewrite Hj, Hid. by apply HQ.
Qed.

(** A computation over the files that leaks [k'] blocks. *)
Lemma acc_lift {A} (m : M A) (P : A -> Z -> Prop) (Q : A -> Z -> option job_state -> wk -> Prop) k o s :
  T k o s ->
  (forall w, crc_inv (w_crc w) -> wp m (fun a w' => exists k' fs, P a k' /\ step fs k' 0 w w' /\
    forall q, ~ own_file g id q -> fs !! q = w_fs w !! q) w) ->
  (forall a k', P a k' -> 0 <= k + k') ->
  (forall a k' s', P a k' -> T (k + k') o s' -> Q a (k + k') o s') -> rg g l id R (lift m) Q k o s.
Proof.
  intros HT Hm Hk HQ. apply acc_act; [done|]. intros s0 HT0 _.
  specialize (Hm (wk_world s0) (rl_crc _ _ _ HT0)). unfold wp in Hm. destruct (m (wk_world s0)) as [a w].
  destruct Hm as (k' & fs & HP & Hstep & Hfs). exists k', None. cbn.
  split_and!; [by eapply wstep_world|by eapply Hk|done|]. intros HT' _. by apply HQ.
Qed.

(** A computation that only reads and frees what it allocates. *)
Lemma acc_pure {A} (m : M A) (Q : A -> Z -> option job_state -> wk -> Prop) k o s :
  T k o s -> (forall w, wp m (fun _ w' => step (w_fs w) 0 0 w w') w) ->
  (forall a s', T k o s' -> Q a k o s') -> rg g l id R (lift m) Q k o s.
Proof.
  intros HT Hm HQ. pose proof (rl_leak _ _ _ HT). eapply (acc_lift _ (fun _ k => k = 0)); [exact HT| | |].
  - intros w _. eapply wp_conseq; [apply Hm|]. intros a w' Hw. eexists 0, _; split_and!; [done|exact Hw|done].
  - intros _ k' ->. lia.
  - intros a k' s' -> HT'. rewrite Z.add_0_r in *. by apply HQ.
Qed.

Lemma acc_finish r st rc (Q : Z -> Z -> option job_state -> wk -> Prop) k o s :
  may_set o st -> T k o s ->
  (forall s', T k (Some st) s' -> (cancelled l s -> cancelled l s') -> Q rc k (Some st) s') ->
  rg g l id R (finish (Some l) r st rc) Q k o s.
Proof.
  intros Hmay HT HQ. apply rg_bind. apply acc_set_result; [done|]. intros s1 HT1 Hc1.
  apply rg_bind. apply acc_set_state; [done..|]. intros s2 HT2 Hc2. apply rg_ret.
  apply HQ; [done|auto].
Qed.
End rules.

(** No other thread: the frame since a first state. *)
#[export] Instance rely_alone g l id s0 :
  is_Some (wk_jobs s0 !! l) -> crc_inv (w_crc (wk_world s0)) ->
  (forall j, wk_jobs s0 !! l = Some j -> job_id j = id) ->
  Rely g l id eq (fun k o s => 0 <= k /\ wstep g l id k o s0 s).
Proof.
  intros [j0 Hj0] Hcrc Hid. constructor; [by intros ???? H <-| |by intros ??? []| | |by intros ???? _ <-].
  - intros k o k' o' s s' [_ Hs] Hk Hs'. split; [done|by eapply wstep_trans].
  - intros k o s [_ Hs]. destruct (ws_job _ _ _ _ _ _ _ Hs j0 Hj0) as (j & Hj & Hsame & Hst).
    exists j. split; [done|]. split; [|by intros st ->]. destruct Hsame as [-> _]. by apply Hid.
  - intros k o s [_ Hs]. by eapply wstep_crc.
Qed.
