(* ===== verification/WorkerQuiet.v ===== *)
(** * The result of a job among others (src/src/server/worker.c)

    A worker that hides or extracts a payload shares the files and the jobs
    with other threads.  This file has a logic for a worker whose own job and
    files the others leave alone, and proves with it that the jobs
    ENCODE_TEXT, ENCODE_FILE and DECODE give the right result whatever the
    others do meanwhile; a job is seen to be done only when its result is
    there. *)

From S2P Require Export WorkerLogic StegoCorrect.
#[local] Open Scope Z_scope.

(** ** What the others may do *)

Section undisturbed.
Context {L : LibPng} (F : string -> Prop).

(** To the files: anything outside of [F]. *)
Definition like (w w' : world) : Prop :=
  exists fs k, step fs k 0 w w' /\ forall q, F q -> fs !! q = w_fs w !! q.

#[export] Instance like_preorder : PreOrder like.
Proof.
  split; [intros w; exists (w_fs w), 0; split; [apply step_refl|done]|].
  intros w1 w2 w3 (fs1 & k1 & H1 & F1) (fs2 & k2 & H2 & F2). exists fs2, (k1 + k2).
  split; [exact (step_trans _ _ _ _ _ _ _ _ _ H1 H2)|]. intros q Hq.
  by rewrite F2, (step_fs _ _ _ _ _ H1), F1.
Qed.

(** To the state of the worker of the job at [l]. *)
Record undisturbed (l : loc) (s s' : wk) : Prop := Undisturbed {
  un_env : wk_env s = [] -> wk_env s' = [];
  un_job : wk_jobs s' !! l = wk_jobs s !! l;
  un_world : like (wk_world s) (wk_world s')
}.

#[export] Instance undisturbed_preorder l : PreOrder (undisturbed l).
Proof.
  split; [by split|]. intros s1 s2 s3 [E1 J1 W1] [E2 J2 W2]. split; [auto|congruence|by etrans].
Qed.

(** A fact about the files that they cannot change. *)
Class Stable (P : world -> Prop) : Prop := stable : forall w w', like w w' -> P w -> P w'.

Lemma like_file w w' q : like w w' -> F q -> w_fs w' !! q = w_fs w !! q.
Proof. intros (fs & k & H & Hf) Hq. by rewrite (step_fs _ _ _ _ _ H), Hf. Qed.

Lemma like_denied w w' : like w w' -> w_denied w' = w_denied w.
Proof. intros (fs & k & H & _). apply H. Qed.

Lemma like_load w w' q :
  like w w' -> F q -> png_load_result w' (Some q) = png_load_result w (Some q).
Proof.
  intros H Hq. unfold png_load_result. by rewrite (like_denied _ _ H), (like_file _ _ _ H Hq).
Qed.

(** No failure of the allocator or of the disk is to come. *)
Record calm_world (w : world) : Prop := CalmWorld {
  cw_crc : crc_inv (w_crc w);
  cw_mallocs : w_mallocs w = [];
  cw_io : w_io w = []
}.

Lemma step_calm fs k d w w' : step fs k d w w' -> calm_world w -> calm_world w'.
Proof. intros [] []. constructor; auto. Qed.

#[export] Instance calm_stable : Stable calm_world.
Proof. intros w w' (fs & k & H & _). by eapply step_calm. Qed.

(** ** A logic for such a worker *)

Section logic.
Context (l : loc) (Done : job -> world -> Prop) {SD : forall j, Stable (Done j)}.

(** A final job is done. *)
Definition sound (s : wk) : Prop :=
  forall j, wk_jobs s !! l = Some j -> state_is_final (job_st j) = true -> Done j (wk_world s).

(** [wpR m Q s]: running [m] among the others is sound at every moment and ends
    in a result and a state that satisfy [Q]. *)
Fixpoint wpR {A} (m : W A) (Q : A -> wk -> Prop) (s : wk) : Prop :=
  sound s /\
  match m with
  | Ret a => Q a s
  | Act op k => forall s0, undisturbed l s s0 -> let (b, s1) := op s0 in wpR (k b) Q s1
  end.

Lemma wpR_sound {A} (m : W A) Q s : wpR m Q s -> sound s.
Proof. by destruct m; intros []. Qed.

Lemma wpR_bind {A B} (m : W A) (f : A -> W B) Q s :
  wpR m (fun a => wpR (f a) Q) s -> wpR (m ≫= f) Q s.
Proof.
  revert s. induction m as [a|C op c IH]; intros s [Hs H]; [exact H|]. split; [done|].
  intros s0 H0. specialize (H s0 H0). destruct (op s0) as [b s1]. by apply IH.
Qed.

Lemma wpR_conseq {A} (m : W A) (P Q : A -> wk -> Prop) s :
  wpR m P s -> (forall a s', P a s' -> Q a s') -> wpR m Q s.
Proof.
  revert s. induction m as [a|C op c IH]; intros s [Hs H] HPQ; (split; [done|]); [by apply HPQ|].
  intros s0 H0. specialize (H s0 H0). destruct (op s0) as [b s1]. by apply IH.
Qed.

Lemma sound_rely s s' : undisturbed l s s' -> sound s -> sound s'.
Proof.
  intros [_ Hj Hw] Hs j Hj' Hf. rewrite Hj in Hj'. eapply stable; [exact Hw|by apply Hs].
Qed.

(** The others may act in between. *)
Lemma wpR_rely {A} (m : W A) (Q : A -> wk -> Prop) s s' :
  (forall a s s', Q a s -> undisturbed l s s' -> Q a s') -> undisturbed l s s' -> wpR m Q s -> wpR m Q s'.
Proof.
  intros HQ Hu. destruct m as [a|C op c]; intros [Hs H]; (split; [by eapply sound_rely|]); [by eapply HQ|].
  intros s0 H0. apply H. by etrans.
Qed.

(** A worker that is alone. *)
Lemma wpR_run {A} (m : W A) Q s : wpR m Q s -> wpW m Q s.
Proof.
  revert s. induction m as [a|C op c IH]; intros s [_ H]; [done|].
  specialize (H s ltac:(reflexivity)). unfold wpW in *. cbn. destruct (op s) as [b s1]. by apply IH.
Qed.

(** *** What is known of the state

    [holds j P s]: the job is [j] and the files satisfy [P], which the others
    cannot change. *)

Record holds (j : job) (P : world -> Prop) (s : wk) : Prop := Holds {
  ho_env : wk_env s = [];
  ho_job : wk_jobs s !! l = Some j;
  ho_world : P (wk_world s)
}.

(** Then the state is sound. *)
Definition fit (j : job) (P : world -> Prop) : Prop :=
  state_is_final (job_st j) = true -> forall w, P w -> Done j w.

Lemma holds_sound j P s : holds j P s -> fit j P -> sound s.
Proof. intros [_ Hj HP] Hf j' Hj' Hst. rewrite Hj in Hj'. injection Hj' as <-. by apply Hf. Qed.

Lemma holds_rely j P s s' : Stable P -> holds j P s -> undisturbed l s s' -> holds j P s'.
Proof.
  intros HP [He Hj Hw] [E J W]. constructor; [auto|congruence|by eapply HP].
Qed.

Section rules.
Context (j : job) (P : world -> Prop) {SP : Stable P} (Hfit : fit j P).

Lemma wpR_ret {A} (a : A) (Q : A -> wk -> Prop) s : holds j P s -> Q a s -> wpR (mret a) Q s.
Proof. intros Hs HQ. split; [by eapply holds_sound|done]. Qed.

Lemma wpR_act {A} (op : wk -> A * wk) j' P' (Q : A -> wk -> Prop) s :
  holds j P s -> fit j' P' ->
  (forall s0, holds j P s0 -> holds j' P' (op s0).2 /\ Q (op s0).1 (op s0).2) -> wpR (act op) Q s.
Proof.
  intros Hs Hf' H. split; [by eapply holds_sound|]. intros s0 H0. specialize (H s0 (holds_rely _ _ _ _ SP Hs H0)).
  destruct (op s0) as [b s1]. destruct H as [H1 HQ]. split; [by eapply holds_sound|done].
Qed.

Lemma alone_interfere s : wk_env s = [] -> interfere (Some l) s = s.
Proof. intros He. unfold interfere. by rewrite He. Qed.

Lemma q_read {A} (f : job_heap -> A) (Q : A -> wk -> Prop) s :
  holds j P s -> (forall s', holds j P s' -> Q (f (wk_jobs s')) s') -> wpR (job_read (Some l) f) Q s.
Proof.
  intros Hs HQ. eapply wpR_act; [exact Hs|exact Hfit|]. intros s0 H0. cbn -[interfere].
  rewrite (alone_interfere _ (ho_env _ _ _ H0)). auto.
Qed.

Lemma q_id (Q : Z -> wk -> Prop) s :
  holds j P s -> (forall s', holds j P s' -> Q (job_id j) s') -> wpR (job_id_of (Some l)) Q s.
Proof.
  intros Hs HQ. eapply wpR_act; [exact Hs|exact Hfit|]. intros s0 H0. cbn.
  rewrite (ho_job _ _ _ H0). auto.
Qed.

Lemma q_write G f (Q : unit -> wk -> Prop) s :
  holds j P s -> (forall h, G h = on_job (Some l) f h) -> fit (f j) P ->
  (forall s', holds (f j) P s' -> Q tt s') -> wpR (job_write (Some l) G) Q s.
Proof.
  intros Hs HG Hf HQ. eapply wpR_act; [exact Hs|exact Hf|]. intros s0 H0. cbn -[interfere].
  rewrite (alone_interfere _ (ho_env _ _ _ H0)). destruct H0 as [He Hj Hw].
  assert (H1 : holds (f j) P (set_jobs s0 (G (wk_jobs s0)))); [|by auto].
  constructor; [done| |done]. cbn. rewrite HG. cbn. by rewrite lookup_alter_eq, Hj.
Qed.

Lemma q_lift {A} (m : M A) (P' : A -> world -> Prop) (Q : A -> wk -> Prop) s :
  holds j P s -> (forall a, fit j (P' a)) -> (forall w, P w -> wp m P' w) ->
  (forall a s', holds j (P' a) s' -> Q a s') -> wpR (lift m) Q s.
Proof.
  intros Hs Hf Hm HQ. split; [by eapply holds_sound|]. intros s0 H0.
  destruct (holds_rely _ _ _ _ SP Hs H0) as [He Hj Hw]. cbn. specialize (Hm _ Hw). unfold wp in Hm.
  destruct (m (wk_world s0)) as [a w]. assert (H1 : holds j (P' a) (set_world s0 w)) by by constructor.
  split; [by eapply holds_sound|by apply HQ].
Qed.

(** A computation that leaves what is known alone. *)
Lemma q_pure {A} (m : M A) (R : A -> Prop) (Q : A -> wk -> Prop) s :
  holds j P s -> (forall w, P w -> wp m (fun a w' => R a /\ P w') w) ->
  (forall a s', R a -> holds j P s' -> Q a s') -> wpR (lift m) Q s.
Proof.
  intros Hs Hm HQ. apply (q_lift m (fun a w => R a /\ P w) Q s Hs); [|exact Hm|].
  - intros a Hst w [_ Hw]. by apply Hfit.
  - intros a s' [He Hj [HR Hw]]. apply HQ; [done|by constructor].
Qed.

Lemma q_notify st (Q : unit -> wk -> Prop) s :
  holds j P s -> (forall s', holds j P s' -> Q tt s') -> wpR (notify (Some l) st) Q s.
Proof.
  intros Hs HQ. apply wpR_bind, q_id; [exact Hs|]. intros s1 H1.
  eapply wpR_act; [exact H1|exact Hfit|]. intros s2 [He Hj Hw]. cbn -[write_event].
  destruct (write_event _ _) as [[r c]|]; (split; [|apply HQ]); by constructor.
Qed.
End rules.

(** Setting the state reads the clock first. *)
Lemma q_state j P `{!Stable P} st (Q : unit -> wk -> Prop) s :
  fit j P -> holds j P s -> (forall now, fit (state_update now st j) P) ->
  (forall s' now, holds (state_update now st j) P s' -> Q tt s') ->
  wpR (job_write_state (Some l) st) Q s.
Proof.
  intros Hfit Hs Hf HQ. apply wpR_bind. eapply (wpR_act j P); [exact Hfit|exact Hs|exact Hfit|].
  intros s1 [He Hj Hw]. cbn -[wpR job_write]. split; [by constructor|].
  set (now := hd zero_time (wk_clock s1)).
  eapply (q_write j P Hfit _ (state_update now st)); [by constructor|intros; apply job_set_state_update|apply Hf|].
  intros s2 H2. by eapply HQ.
Qed.

Lemma q_finish j P `{!Stable P} r st rc (Q : Z -> wk -> Prop) s :
  state_is_final (job_st j) = false -> holds j P s ->
  (forall now, fit (state_update now st (with_result (snprintf_s MAX_JOB_RESULT r) j)) P) ->
  (forall s' now, holds (state_update now st (with_result (snprintf_s MAX_JOB_RESULT r) j)) P s' -> Q rc s') ->
  wpR (finish (Some l) r st rc) Q s.
Proof.
  intros Hnf Hs Hf HQ. assert (Hfit : fit j P) by (intros H; congruence).
  assert (Hfit1 : fit (with_result (snprintf_s MAX_JOB_RESULT r) j) P) by (intros H; cbn in H; congruence).
  apply wpR_bind. eapply (q_write j P Hfit); [exact Hs|intros; reflexivity|exact Hfit1|]. intros s1 H1.
  apply wpR_bind. eapply (q_state _ P); [exact Hfit1|exact H1|exact Hf|]. intros s2 now H2.
  eapply wpR_ret; [apply Hf|exact H2|by eapply HQ].
Qed.
End logic.
End undisturbed.
