(* ===== verification/WorkerResult.v ===== *)
(** * What the jobs compute (src/src/server/worker.c)

    The jobs ENCODE_TEXT, ENCODE_FILE and DECODE, whatever the other threads do
    meanwhile: what a request needs, and the result of its job. *)

From S2P Require Export WorkerQuiet.
#[local] Open Scope Z_scope.

(** ** What is asked for, and what comes out *)

(** The name under which a file is hidden. *)
Definition stored_filename (j : job) : string :=
  let f := snprintf_s MAX_JOB_FILENAME (job_payload j) in
  if strlen f =? 0 then basename (job_stored_path j) else f.

Definition hidden_name (type : stego_payload_type) (j : job) : list Z :=
  stored_name type (Some (stored_filename j)).

Definition hide_kind (type : stego_payload_type) : job_type :=
  match type with
  | STEGO_PAYLOAD_TEXT => JOB_TYPE_ENCODE_TEXT
  | STEGO_PAYLOAD_FILE => JOB_TYPE_ENCODE_FILE
  end.

Definition hide_limit (type : stego_payload_type) : Z :=
  match type with STEGO_PAYLOAD_TEXT => MAX_TEXT_BYTES + 1 | STEGO_PAYLOAD_FILE => 2 ^ 32 end.

Section requests.
Context {L : LibPng} (g : storage_globals).

(** What a job that hides [data] in its image needs to succeed. *)
Record hide_request (j : job) (out : string) (type : stego_payload_type) (data : list Z) (w : world)
    : Prop := HideRequest {
  hq_kind : job_kind j = hide_kind type;
  hq_wf : job_wf j;
  hq_cancel : job_cancel_requested j = false;
  hq_state : state_is_final (job_st j) = false;
  hq_calm : calm_world w;
  hq_file : w_fs w !! job_stored_path j = Some data;
  hq_readable : job_stored_path j ∉ w_denied w;
  hq_bytes : bytes_ok data;
  hq_len : Z.of_nat (length data) < hide_limit type;
  hq_out : storage_make_result_path g (job_id j) (Some "png"%string) MAX_JOB_PATH = Some out;
  hq_writable : out ∉ w_denied w;
  hq_fits : exists img, png_load_result w (Some (job_input_path j)) = inr img /\
    8 * (15 + Z.of_nat (length (hidden_name type j)) + Z.of_nat (length data)) <= image_data_bit_capacity img;
  hq_png : forall img, image_wf img -> png_write_stream (ihdr_of img) (img_rows img) <> None
}.

(** The file [out] decodes to [ex]. *)
Definition hidden (out : string) (ex : stego_extracted) (bytes : list Z) (w : world) : Prop :=
  calm_world w /\ w_fs w !! out = Some bytes /\ decode_result w (Some out) = inr ex.

(** The outcome: the job is done and its output decodes to [ex]. *)
Definition encoded (out : string) (ex : stego_extracted) (j : job) (w : world) : Prop :=
  job_st j = JOB_STATE_DONE /\ job_output_path j = out /\ job_res_kind j = JOB_RESULT_PNG /\
  job_result_filename j = "stego_result.png"%string /\
  exists bytes, job_result_size j = Z.of_nat (length bytes) /\ hidden out ex bytes w.

(** What a job that extracts [ex] from its image needs to succeed. *)
Definition decode_suffix (ex : stego_extracted) : string :=
  if bool_decide (ex_type ex = STEGO_PAYLOAD_TEXT) then "txt" else "bin".

Record extract_request (j : job) (out : string) (ex : stego_extracted) (w : world) : Prop := ExtractRequest {
  xq_kind : job_kind j = JOB_TYPE_DECODE;
  xq_wf : job_wf j;
  xq_cancel : job_cancel_requested j = false;
  xq_state : state_is_final (job_st j) = false;
  xq_calm : calm_world w;
  xq_image : decode_result w (Some (job_input_path j)) = inr ex;
  xq_out : storage_make_result_path g (job_id j) (Some (decode_suffix ex)) MAX_JOB_PATH = Some out;
  xq_writable : out ∉ w_denied w
}.

(** The bytes of the payload. *)
Definition ex_bytes (ex : stego_extracted) : list Z := default [] (ex_data ex).

(** The outcome: the job is done and its output is the payload. *)
Definition decoded (out : string) (ex : stego_extracted) (j : job) (w : world) : Prop :=
  job_st j = JOB_STATE_DONE /\ job_output_path j = out /\
  job_res_kind j = (if bool_decide (ex_type ex = STEGO_PAYLOAD_TEXT) then JOB_RESULT_TEXT else JOB_RESULT_FILE) /\
  job_result_filename j =
    snprintf_s MAX_JOB_FILENAME
      (if bool_decide (ex_type ex = STEGO_PAYLOAD_TEXT) then "decoded.txt"%string else ex_filename ex) /\
  job_result_size j = ex_data_len ex /\ calm_world w /\ w_fs w !! out = Some (ex_bytes ex).
End requests.

(** ** They are stable *)

Section stable.
Context {L : LibPng} (g : storage_globals) (F : string -> Prop).

Lemma like_decode w w' q : like F w w' -> F q -> decode_result w' (Some q) = decode_result w (Some q).
Proof. intros H Hq. unfold decode_result. by rewrite (like_load _ _ _ _ H Hq). Qed.

#[export] Instance hide_request_stable j out type data :
  F (job_stored_path j) -> F (job_input_path j) -> Stable F (hide_request g j out type data).
Proof.
  intros H1 H2 w w' Hl []. constructor; try done.
  - by eapply calm_stable.
  - by rewrite (like_file _ _ _ _ Hl).
  - by rewrite (like_denied _ _ _ Hl).
  - by rewrite (like_denied _ _ _ Hl).
  - by rewrite (like_load _ _ _ _ Hl).
Qed.

#[export] Instance hidden_stable out ex bytes : F out -> Stable F (hidden out ex bytes).
Proof.
  intros Ho w w' Hl (Hc & H1 & H2). split; [by eapply calm_stable|].
  by rewrite (like_file _ _ _ _ Hl), (like_decode _ _ _ Hl).
Qed.

#[export] Instance encoded_stable out ex j : F out -> Stable F (encoded out ex j).
Proof.
  intros Ho w w' Hl (H1 & H2 & H3 & H4 & bytes & H5 & H6). split_and!; try done.
  exists bytes. split; [done|]. by eapply hidden_stable.
Qed.

#[export] Instance extract_request_stable j out ex :
  F (job_input_path j) -> Stable F (extract_request g j out ex).
Proof.
  intros H1 w w' Hl []. constructor; try done.
  - by eapply calm_stable.
  - by rewrite (like_decode _ _ _ Hl).
  - by rewrite (like_denied _ _ _ Hl).
Qed.

#[export] Instance decoded_stable out ex j : F out -> Stable F (decoded out ex j).
Proof.
  intros Ho w w' Hl (H1 & H2 & H3 & H4 & H5 & Hc & H6). split_and!; try done; [by eapply calm_stable|].
  by rewrite (like_file _ _ _ _ Hl).
Qed.
End stable.

(** ** Hiding *)

Section hide.
Context {L : LibPng} {LL : LibPngLaws L} (g : storage_globals).

(** An encoding call that is carried out. *)
Lemma post_hidden j out type data w rc w' :
  hide_request g j out type data w ->
  encode_post (job_input_path j) out (container type (hidden_name type j) data) w rc w' ->
  rc = STEGO_OK /\ exists bytes, hidden out (extracted type (hidden_name type j) data) bytes w'.
Proof.
  intros [_ _ _ _ [Hcrc Hm Hio] _ _ Hok Hlen _ Hwr (img & Himg & Hfit) Hpng] Hpost.
  pose proof (stored_name_ok type (Some (stored_filename j))) as Hno.
  pose proof (stored_name_length type (Some (stored_filename j))) as Hnl.
  fold (hidden_name type j) in Hno, Hnl.
  assert (H32 : Z.of_nat (length data) < 2 ^ 32) by (destruct type; unfold hide_limit, MAX_TEXT_BYTES in Hlen; lia).
  assert (Hrc : rc = STEGO_OK).
  { eapply encode_post_returns; [exact Hpost|done|done|].
    eapply encode_result_OK; [exact Himg| |done|done]. rewrite container_length. lia. }
  subst rc. split; [done|].
  pose proof (decode_encoded _ _ _ _ _ _ _ Hpost Hio Hno Hok ltac:(lia) H32) as Hdec.
  destruct Hpost as (k & fs' & _ & _ & Hs & _).
  assert (Hload : exists bytes, w_fs w' !! out = Some bytes).
  { unfold decode_result, png_load_result in Hdec. case_decide; [done|].
    destruct (w_fs w' !! out) as [bytes|]; [by exists bytes|done]. }
  destruct Hload as [bytes Hb]. exists bytes. split; [|done]. eapply step_calm; [exact Hs|done].
Qed.

Lemma text_call j out data w :
  hide_request g j out STEGO_PAYLOAD_TEXT data w ->
  wp (stego_encode_text (Some (job_input_path j)) (Some out) (Some data) (Z.of_nat (length data)))
    (fun rc w' => rc = STEGO_OK /\ exists bytes, hidden out (extracted STEGO_PAYLOAD_TEXT [] data) bytes w') w.
Proof.
  intros Hr. destruct (stego_encode_text_run (job_input_path j) out data w) as (rc & w' & Hrun & Hpost);
    [apply Hr|apply Hr| |].
  { pose proof (hq_len _ _ _ _ _ _ Hr) as H. unfold hide_limit, MAX_TEXT_BYTES in H. lia. }
  unfold wp. rewrite Hrun. by apply (post_hidden j out STEGO_PAYLOAD_TEXT data w).
Qed.

Lemma file_call j out data w :
  hide_request g j out STEGO_PAYLOAD_FILE data w ->
  let f := snprintf_s MAX_JOB_FILENAME (job_payload j) in
  wp (stego_encode_file (Some (job_input_path j)) (Some out) (Some (job_stored_path j))
        (if strlen f =? 0 then None else Some f))
    (fun rc w' => rc = STEGO_OK /\
       exists bytes, hidden out (extracted STEGO_PAYLOAD_FILE (hidden_name STEGO_PAYLOAD_FILE j) data) bytes w') w.
Proof.
  intros Hr f. set (name := if strlen f =? 0 then None else Some f).
  eapply wp_conseq; [apply (stego_encode_file_spec _ _ _ name data); apply Hr|].
  intros rc w' [Hpost|(_ & Hio & _)]; [|by destruct Hio; apply Hr].
  apply (post_hidden j out STEGO_PAYLOAD_FILE data w _ _ Hr).
  assert (Hname : stored_filename j = default (basename (job_stored_path j)) name)
    by (unfold stored_filename, name, f; by destruct (_ =? 0)).
  unfold hidden_name. rewrite Hname. exact Hpost.
Qed.

(** Reading the text leaves everything as it is. *)
Lemma read_text_call j out data w :
  hide_request g j out STEGO_PAYLOAD_TEXT data w ->
  wp (read_text_file (job_stored_path j) (MAX_TEXT_BYTES + 1)) (fun r w' =>
    r = Some data /\ hide_request g j out STEGO_PAYLOAD_TEXT data w') w.
Proof.
  intros Hr. pose proof Hr as [_ _ _ _ [_ _ Hio] Hf Hd _ Hlen _ _ _ _]. unfold read_text_file.
  apply wp_bind, wp_fopen_rb; [|intros [?|?]; congruence].
  intros data' w1 Hd' _ Hs1. assert (data' = data) as -> by congruence. cbn beta iota.
  wp_step. wp_step. wp_step. wp_step. wp_step. split.
  - destruct b; [|no_malloc_failure]. unfold fread_upto, hide_limit in *. by rewrite (proj2 (Z.leb_le _ _)) by lia.
  - assert (Hs : step (w_fs w) 0 0 w w'0) by steps. apply (hide_request_stable g (fun _ => True) j out _ data I I w); [|done].
    by exists (w_fs w), 0.
Qed.
End hide.

(** ** Among others *)

Lemma holds_field l j P (f : job -> string) n old s :
  holds l j P s -> strlen (f j) < n -> get_field f (Some l) old n (wk_jobs s) = f j.
Proof.
  intros [_ Hj _] Hn. unfold get_field, read_job. rewrite Hj.
  pose proof (strlen_nonneg (f j)). rewrite (proj2 (Z.eqb_neq _ _)) by lia.
  by apply snprintf_s_fits.
Qed.

Lemma holds_cancel l j P s :
  holds l j P s -> job_is_cancel_requested (Some l) (wk_jobs s) = job_cancel_requested j.
Proof. intros [_ Hj _]. unfold job_is_cancel_requested, read_job. by rewrite Hj. Qed.

Lemma holds_ex {A} l j (P : A -> world -> Prop) s :
  holds l j (fun w => exists a, P a w) s -> exists a, holds l j (P a) s.
Proof. intros [He Hj [a Ha]]. by exists a. Qed.

Lemma holds_and l j (R : Prop) (P : world -> Prop) s : holds l j (fun w => R /\ P w) s -> R /\ holds l j P s.
Proof. by intros [He Hj [HR HP]]. Qed.

Section processing.
Context {L : LibPng} {LL : LibPngLaws L} (g : storage_globals) (worker_index : Z) (l : loc) (F : string -> Prop).

(** The processing of a job that ends as [Done]. *)
Definition completes (Done : job -> world -> Prop) (rc : Z) (s : wk) : Prop :=
  rc = 0 /\ exists j', holds l j' (Done j') s.

Lemma unfit Done (P : world -> Prop) j : state_is_final (job_st j) = false -> fit Done j P.
Proof. intros H1 H2. congruence. Qed.

(** The body of the loop around the processing of the job. *)
Lemma job_completes Done P j s :
  (forall j, Stable F (Done j)) -> Stable F P ->
  job_cancel_requested j = false -> state_is_final (job_st j) = false -> holds l j P s ->
  (forall now s', holds l (state_update now JOB_STATE_RUNNING j) P s' ->
     wpR F l Done (process_job g worker_index (job_kind j) (Some l)) (completes Done) s') ->
  wpR F l Done (worker_job g worker_index (Some l)) (fun _ s' => exists j', holds l j' (Done j') s') s.
Proof.
  intros SD SP Hc Hnf Hs Hproc. pose proof (unfit Done P j Hnf) as Hfit.
  apply wpR_bind. eapply (q_read F l Done j P Hfit); [exact Hs|]. intros s1 H1. rewrite (holds_cancel _ _ _ _ H1), Hc.
  apply wpR_bind. eapply (q_state F l Done j P); [exact Hfit|exact H1|by intros now|]. intros s2 now H2.
  set (j2 := state_update now JOB_STATE_RUNNING j) in *. assert (Hfit2 : fit Done j2 P) by by apply unfit.
  apply wpR_bind. eapply (q_read F l Done j2 P Hfit2); [exact H2|]. intros s3 H3.
  assert (Hkind : job_get_type (Some l) (wk_jobs s3) = job_kind j)
    by (unfold job_get_type, read_job; by rewrite (ho_job _ _ _ _ H3)).
  rewrite Hkind. apply wpR_bind. eapply wpR_conseq; [by eapply Hproc|]. intros rc s4 [-> (j4 & H4)].
  change (0 <? 0) with false. cbv iota. assert (Hfit4 : fit Done j4 (Done j4)) by by intros _ w.
  apply wpR_bind, (wpR_ret F l Done j4 (Done j4) Hfit4); [exact H4|].
  apply wpR_bind. eapply (q_read F l Done j4 (Done j4) Hfit4); [exact H4|]. intros s5 H5.
  eapply (q_notify F l Done j4 (Done j4) Hfit4); [exact H5|]. intros s6 H6. by exists j4.
Qed.

(** *** Hiding *)

Section hiding.
Context (out : string) (ex : stego_extracted) (Hout : F out) (Hlen : strlen out < MAX_JOB_PATH).
Abbreviation Done := (encoded out ex).
Abbreviation result := (fun w => exists bytes, hidden out ex bytes w).

Lemma finish_encoded_completes j msg s :
  state_is_final (job_st j) = false -> holds l j result s ->
  wpR F l Done (finish_encoded (Some l) out msg) (completes Done) s.
Proof.
  intros Hnf Hs. apply holds_ex in Hs as [bytes Hs]. set (P := hidden out ex bytes).
  assert (SP : Stable F P) by by apply hidden_stable.
  pose proof (fun j => unfit Done P j) as Hfit.
  apply wpR_bind. eapply (q_pure F l Done j P (Hfit j Hnf) _ (fun size => size = Some (Z.of_nat (length bytes)))); [exact Hs| |].
  { intros w (Hc & Hf & Hd). unfold wp, get_file_size_bytes. by rewrite Hf. }
  intros size s1 -> H1. cbn [default from_option id].
  apply wpR_bind. eapply (q_write F l Done j P (Hfit j Hnf)); [exact H1|intros; reflexivity|by apply Hfit|]. intros s2 H2.
  set (j2 := with_output_path _ j) in *.
  apply wpR_bind. eapply (q_write F l Done j2 P (Hfit j2 Hnf)); [exact H2|intros; reflexivity|by apply Hfit|]. intros s3 H3.
  set (j3 := with_result_meta _ _ _ j2) in *.
  assert (Hdone : forall now r w, P w -> Done (state_update now JOB_STATE_DONE (with_result r j3)) w).
  { intros now r w Hw. split_and!; [done|by apply snprintf_s_fits|done|done|by exists bytes]. }
  eapply (q_finish F l Done j3 P); [exact Hnf|exact H3|intros now _ w Hw; by apply Hdone|].
  intros s4 now H4. split; [done|]. eexists. destruct H4 as [He Hj Hw]. constructor; [done|exact Hj|by apply Hdone].
Qed.

(** The encoding call, and what it leaves. *)
Lemma encode_completes j P m failure msg s :
  Stable F P -> state_is_final (job_st j) = false -> holds l j P s ->
  (forall w, P w -> wp m (fun rc w' => rc = STEGO_OK /\ result w') w) ->
  wpR F l Done (rc ← lift m;
    if negb (bool_decide (rc = STEGO_OK)) then
      finish (Some l) (failure rc) JOB_STATE_FAILED (-1)
    else finish_encoded (Some l) out msg) (completes Done) s.
Proof.
  intros SP Hnf Hs Hm. apply wpR_bind.
  eapply (q_lift F l Done j P (unfit _ _ _ Hnf) m (fun rc w => rc = STEGO_OK /\ result w)); [exact Hs|intros rc; by apply unfit|exact Hm|].
  intros rc s1 [-> H1]%holds_and. rewrite bool_decide_true by done. by eapply finish_encoded_completes.
Qed.
End hiding.

Lemma result_path_length id x out :
  storage_make_result_path g id (Some x) MAX_JOB_PATH = Some out -> strlen out < MAX_JOB_PATH.
Proof. unfold storage_make_result_path. intros H. repeat case_match; simplify_eq. lia. Qed.

(** A request whose files the others leave alone. *)
Section request.
Context (j0 : job) (out : string) (Hout : F out) (Hin : F (job_input_path j0)) (Hst : F (job_stored_path j0)).

Lemma process_encode_text_completes data now s :
  let P := hide_request g j0 out STEGO_PAYLOAD_TEXT data in
  holds l (state_update now JOB_STATE_RUNNING j0) P s ->
  wpR F l (encoded out (extracted STEGO_PAYLOAD_TEXT [] data)) (process_encode_text_job g (Some l))
    (completes (encoded out (extracted STEGO_PAYLOAD_TEXT [] data))) s.
Proof.
  intros P Hs. pose proof (ho_world _ _ _ _ Hs) as [_ Hwf _ _ _ _ _ _ _ Hpath _ _ _]. set (j := state_update _ _ j0) in *.
  assert (SP : Stable F P) by by apply hide_request_stable. set (Done := encoded _ _).
  assert (Hfit : fit Done j P) by done.
  apply wpR_bind. eapply (q_read F l Done j P Hfit); [exact Hs|]. intros s1 H1.
  unfold job_get_input_path. rewrite (holds_field _ _ _ _ _ _ _ H1) by apply Hwf.
  apply wpR_bind. eapply (q_read F l Done j P Hfit); [exact H1|]. intros s2 H2.
  unfold job_get_stored_path. rewrite (holds_field _ _ _ _ _ _ _ H2) by apply Hwf.
  apply wpR_bind. eapply (q_id F l Done j P Hfit); [exact H2|]. intros s3 H3.
  change (job_id j) with (job_id j0). rewrite Hpath.
  apply wpR_bind. eapply (q_pure F l Done j P Hfit _ (fun r => r = Some data)); [exact H3|by intros w Hw; eapply (read_text_call g j0 out)|].
  intros r s4 -> H4. apply wpR_bind. eapply (q_read F l Done j P Hfit); [exact H4|]. intros s5 H5.
  rewrite (holds_cancel _ _ _ _ H5). change (job_cancel_requested j) with (job_cancel_requested j0).
  rewrite (hq_cancel _ _ _ _ _ _ (ho_world _ _ _ _ H5)).
  eapply (encode_completes out _ Hout (result_path_length _ _ _ Hpath) j P); [done|done|exact H5|].
  intros w Hw. by apply (text_call g j0 out).
Qed.

Lemma process_encode_file_completes data now s :
  let P := hide_request g j0 out STEGO_PAYLOAD_FILE data in
  let ex := extracted STEGO_PAYLOAD_FILE (hidden_name STEGO_PAYLOAD_FILE j0) data in
  holds l (state_update now JOB_STATE_RUNNING j0) P s ->
  wpR F l (encoded out ex) (process_encode_file_job g (Some l)) (completes (encoded out ex)) s.
Proof.
  intros P ex Hs. pose proof (ho_world _ _ _ _ Hs) as [_ Hwf _ _ _ _ _ _ _ Hpath _ _ _]. set (j := state_update _ _ j0) in *.
  assert (SP : Stable F P) by by apply hide_request_stable. set (Done := encoded _ _).
  assert (Hfit : fit Done j P) by done.
  apply wpR_bind. eapply (q_read F l Done j P Hfit); [exact Hs|]. intros s1 H1.
  unfold job_get_input_path. rewrite (holds_field _ _ _ _ _ _ _ H1) by apply Hwf.
  apply wpR_bind. eapply (q_read F l Done j P Hfit); [exact H1|]. intros s2 H2.
  unfold job_get_stored_path. rewrite (holds_field _ _ _ _ _ _ _ H2) by apply Hwf.
  apply wpR_bind. eapply (q_read F l Done j P Hfit); [exact H2|]. intros s3 H3.
  assert (Hname : job_get_payload (Some l) EmptyString MAX_JOB_FILENAME (wk_jobs s3) =
    snprintf_s MAX_JOB_FILENAME (job_payload j0))
    by (unfold job_get_payload, get_field, read_job; by rewrite (ho_job _ _ _ _ H3)).
  rewrite Hname. apply wpR_bind. eapply (q_id F l Done j P Hfit); [exact H3|]. intros s4 H4.
  change (job_id j) with (job_id j0). rewrite Hpath.
  apply wpR_bind. eapply (q_read F l Done j P Hfit); [exact H4|]. intros s5 H5.
  rewrite (holds_cancel _ _ _ _ H5). change (job_cancel_requested j) with (job_cancel_requested j0).
  rewrite (hq_cancel _ _ _ _ _ _ (ho_world _ _ _ _ H5)).
  eapply (encode_completes out _ Hout (result_path_length _ _ _ Hpath) j P); [done|done|exact H5|].
  intros w Hw. by apply (file_call g j0 out).
Qed.

(** An ENCODE job hides its payload, whatever the others do. *)
Lemma hide_completes type data s :
  let ex := extracted type (hidden_name type j0) data in
  holds l j0 (hide_request g j0 out type data) s ->
  wpR F l (encoded out ex) (worker_job g worker_index (Some l)) (fun _ s' => exists j', holds l j' (encoded out ex j') s') s.
Proof.
  intros ex Hs. pose proof (ho_world _ _ _ _ Hs) as Hr.
  eapply (job_completes _ (hide_request g j0 out type data) j0);
    [intros; by apply encoded_stable|by apply hide_request_stable|apply Hr|apply Hr|exact Hs|].
  intros now s' Hs'. rewrite (hq_kind _ _ _ _ _ _ Hr). subst ex. destruct type; cbn [hide_kind process_job].
  - change (hidden_name STEGO_PAYLOAD_TEXT j0) with (@nil Z). by eapply process_encode_text_completes.
  - by eapply process_encode_file_completes.
Qed.
End request.

(** *** Extracting *)

Section extracting.
Context (j0 : job) (out : string) (ex : stego_extracted) (Hout : F out) (Hin : F (job_input_path j0)).
Abbreviation P := (extract_request g j0 out ex).
Abbreviation Done := (decoded out ex).
Abbreviation written := (fun w => calm_world w /\ w_fs w !! out = Some (ex_bytes ex)).

#[local] Instance written_stable : Stable F written.
Proof. intros w w' Hl [Hc Hf]. split; [by eapply calm_stable|]. by rewrite (like_file _ _ _ _ Hl). Qed.

Lemma decode_call w :
  P w -> wp (stego_decode (Some (job_input_path j0))) (fun r w' => r = inr ex /\ P w') w.
Proof.
  intros Hr. destruct (stego_decode_run (Some (job_input_path j0)) w (cw_crc _ (xq_calm _ _ _ _ _ Hr)))
    as (r & w' & Hrun & Hpost & Hm). unfold wp. rewrite Hrun.
  rewrite (Hm (cw_mallocs _ (xq_calm _ _ _ _ _ Hr))), (xq_image _ _ _ _ _ Hr) in *. split; [done|].
  destruct Hpost as [Hs _]. apply (extract_request_stable g (fun _ => True) j0 out ex I w); [|done].
  by eexists _, _.
Qed.

Lemma extracted_length w : P w -> ex_data_len ex = Z.of_nat (length (ex_bytes ex)).
Proof.
  intros Hr. pose proof (xq_image _ _ _ _ _ Hr) as H. unfold decode_result in H.
  destruct (png_load_result w _) as [e|img] eqn:Hl; [done|].
  destruct (decode_image_inv img ex (png_load_result_wf _ _ _ Hl) H) as (type & name & data & _ & _ & _ & _ & _ & _ & ->).
  unfold ex_bytes, extracted. cbn. by destruct data.
Qed.

Lemma write_call w :
  P w -> wp (write_bin_to_file out (ex_data ex) (ex_data_len ex)) (fun r w' => r = 0 /\ written w') w.
Proof.
  intros Hr. pose proof (extracted_length _ Hr) as Hlen. pose proof (xq_calm _ _ _ _ _ Hr) as Hc.
  unfold write_bin_to_file. apply wp_bind, wp_fopen_wb; [|by intros Hd; destruct (xq_writable _ _ _ _ _ Hr)].
  intros w1 _ Hs1. cbn [negb]. wp_step. apply wp_fread. intros b w2 Hs2 Hb.
  pose proof (step_calm _ _ _ _ _ Hs1 Hc) as Hc1. rewrite Hb by apply Hc1. cbn [negb].
  assert (Hd : match ex_data ex with Some d => fread_upto (ex_data_len ex) d | None => [] end = ex_bytes ex).
  { unfold ex_bytes in *. destruct (ex_data ex) as [d|]; [|done]. cbn in *. unfold fread_upto.
    by rewrite Hlen, (proj2 (Z.leb_le _ _)) by lia. }
  rewrite Hd. wp_step. wp_step. rename H into Hs3. wp_step. wp_step. wp_step. wp_step.
  match goal with H : w_io _ = [] -> b0 = true |- _ => rename H into Hb0 end.
  pose proof (step_calm _ _ _ _ _ Hs2 Hc1) as Hc2. pose proof (step_calm _ _ _ _ _ Hs3 Hc2) as Hc3.
  rewrite Hb0 by apply Hc3. cbn [negb]. wp_step. split; [done|]. split.
  - repeat (eapply step_calm; [eassumption|]). done.
  - repeat match goal with H : step (w_fs _) _ _ _ _ |- _ => apply step_fs in H as -> end.
    rewrite (step_fs _ _ _ _ _ Hs3). apply lookup_insert_eq.
Qed.

Lemma free_call w :
  calm_world w /\ w_fs w !! out = Some (ex_bytes ex) ->
  wp (stego_extracted_free ex) (fun _ w' => True /\ written w') w.
Proof.
  intros [Hc Hf]. unfold stego_extracted_free. wp_auto. split; [done|].
  split; [by eapply step_calm|]. match goal with H : step _ _ _ w _ |- _ => by rewrite (step_fs _ _ _ _ _ H) end.
Qed.

Lemma process_decode_completes now s :
  holds l (state_update now JOB_STATE_RUNNING j0) P s ->
  wpR F l Done (process_decode_job g (Some l)) (completes Done) s.
Proof.
  intros Hs. pose proof (ho_world _ _ _ _ Hs) as [_ Hwf _ _ _ _ Hpath _]. set (j := state_update _ _ j0) in *.
  assert (SP : Stable F P) by by apply extract_request_stable.
  assert (Hfit : fit Done j P) by done. assert (Hfitw : fit Done j written) by done.
  apply wpR_bind. eapply (q_read F l Done j P Hfit); [exact Hs|]. intros s1 H1.
  unfold job_get_input_path. rewrite (holds_field _ _ _ _ _ _ _ H1) by apply Hwf.
  apply wpR_bind. eapply (q_read F l Done j P Hfit); [exact H1|]. intros s2 H2.
  rewrite (holds_cancel _ _ _ _ H2). change (job_cancel_requested j) with (job_cancel_requested j0).
  rewrite (xq_cancel _ _ _ _ _ (ho_world _ _ _ _ H2)).
  apply wpR_bind. eapply (q_pure F l Done j P Hfit _ (fun r => r = inr ex)); [exact H2|apply decode_call|].
  intros r s3 -> H3. cbv zeta. apply wpR_bind. eapply (q_id F l Done j P Hfit); [exact H3|]. intros s4 H4.
  change (job_id j) with (job_id j0). fold (decode_suffix ex). rewrite Hpath.
  assert (Hwrite : forall w, P w -> wp ((if bool_decide (ex_type ex = STEGO_PAYLOAD_TEXT) then write_text_to_file
    else write_bin_to_file) out (ex_data ex) (ex_data_len ex)) (fun r w' => r = 0 /\ written w') w).
  { intros w Hw. pose proof (write_call w Hw) as H. by case_bool_decide. }
  apply wpR_bind. eapply (q_lift F l Done j P Hfit _ (fun r w => r = 0 /\ written w)); [exact H4|by intros r|exact Hwrite|].
  intros wr s5 [-> H5]%holds_and. change (0 <? 0) with false. cbv iota.
  apply wpR_bind. eapply (q_write F l Done j written Hfitw); [exact H5|intros; reflexivity|done|]. intros s6 H6.
  set (j2 := with_output_path _ j) in *. assert (Hfit2 : fit Done j2 written) by done.
  apply wpR_bind. eapply (q_write F l Done j2 written Hfit2); [exact H6|intros; reflexivity|done|]. intros s7 H7.
  set (j3 := with_result_meta _ _ _ j2) in *.
  assert (Hdone : forall now r w, written w -> Done (state_update now JOB_STATE_DONE (with_result r j3)) w).
  { intros now' r w [Hc Hf]. split_and!; try done. apply snprintf_s_fits. by eapply result_path_length. }
  apply wpR_bind. eapply (q_finish F l Done j3 written); [done|exact H7|intros now' _ w Hw; by apply Hdone|].
  intros s8 now' H8. set (j4 := state_update now' _ _) in *.
  assert (Hfit4 : fit Done j4 written) by (intros _ w Hw; by apply Hdone).
  apply wpR_bind. eapply (q_pure F l Done j4 written Hfit4 _ (fun _ => True)); [exact H8|apply free_call|].
  intros ? s9 _ H9. eapply (wpR_ret F l Done j4 written Hfit4); [exact H9|]. split; [done|]. exists j4.
  destruct H9 as [He Hj Hw]. constructor; [done|exact Hj|by apply Hdone].
Qed.

(** A DECODE job extracts the payload, whatever the others do. *)
Lemma extract_completes s :
  holds l j0 P s ->
  wpR F l Done (worker_job g worker_index (Some l)) (fun _ s' => exists j', holds l j' (Done j') s') s.
Proof.
  intros Hs. pose proof (ho_world _ _ _ _ Hs) as Hr.
  eapply (job_completes _ P j0); [intros; by apply decoded_stable|by apply extract_request_stable|apply Hr|apply Hr|exact Hs|].
  intros now s' Hs'. rewrite (xq_kind _ _ _ _ _ Hr). by eapply process_decode_completes.
Qed.
End extracting.
End processing.
