(* ===== verification/WorkerCorrect.v ===== *)
(** * What the workers guarantee (src/src/server/worker.c)

    The theorems about the life of a job: whatever the server thread, the
    kernel, libpng and the allocator do, a job that is taken from the queue
    ends in one final state and the event pipe gets exactly one event for it.
    The processing is verified once, against the interface [Rely]. *)

From S2P Require Export WorkerResult PngToy.
#[local] Open Scope Z_scope.

(** ** Processing a job *)

Section process.
Context {L : LibPng} {LL : LibPngLaws L} (g : storage_globals) (worker_index : Z).
Context (l : loc) (id : Z) (R : wk -> wk -> Prop) T {RL : Rely g l id R T}.
Implicit Types (k : Z) (s : wk).

(** The job is in a final state; it was cancelled only on request, and only
    a failure may have leaked. *)
Definition processed (rc k : Z) (o : option job_state) (s : wk) : Prop :=
  T k o s /\ exists st, o = Some st /\ state_is_final st = true /\
    (st <> JOB_STATE_FAILED -> k = 0) /\ (st = JOB_STATE_CANCELED -> cancelled l s).

Abbreviation running k s := (T k (Some JOB_STATE_RUNNING) s).
Abbreviation worker m Q k s := (rg g l id R m Q k (Some JOB_STATE_RUNNING) s).

Lemma finish_failed r rc k s :
  running k s -> worker (finish (Some l) r JOB_STATE_FAILED rc) processed k s.
Proof. intros HT. eapply acc_finish; [done..|]. intros s' HT' _. split; [done..|]. by eexists. Qed.

Lemma finish_done r rc s :
  running 0 s -> worker (finish (Some l) r JOB_STATE_DONE rc) processed 0 s.
Proof. intros HT. eapply acc_finish; [done..|]. intros s' HT' _. split; [done..|]. by eexists. Qed.

Lemma finish_canceled r rc s :
  running 0 s -> cancelled l s -> worker (finish (Some l) r JOB_STATE_CANCELED rc) processed 0 s.
Proof.
  intros HT Hc. eapply acc_finish; [done..|]. intros s' HT' Hc'. split; [done..|]. eexists. split_and!; auto.
Qed.

Lemma text_steps_spec n s :
  running 0 s ->
  worker (text_steps n (Some l)) (fun c k o s' => k = 0 /\ o = Some JOB_STATE_RUNNING /\ running 0 s' /\
    (c = true -> cancelled l s')) 0 s.
Proof.
  revert s. induction n as [|n IH]; intros s HT; cbn [text_steps]; [by apply rg_ret|].
  apply rg_bind. eapply acc_read; [done..|]. intros s1 HT1 _.
  destruct (job_is_cancel_requested (Some l) (wk_jobs s1)) eqn:E; [by apply rg_ret|by apply IH].
Qed.

Lemma process_text_spec s :
  running 0 s -> worker (process_text_job worker_index (Some l)) processed 0 s.
Proof.
  intros HT. apply rg_bind. eapply acc_read; [done..|]. intros s1 HT1 _.
  apply rg_bind. eapply rg_conseq; [by apply text_steps_spec|]. intros [] k o s2 (-> & -> & HT2 & Hc).
  - apply finish_canceled; auto.
  - by apply finish_done.
Qed.

Lemma process_validate_spec s :
  running 0 s -> worker (process_validate_image_job (Some l)) processed 0 s.
Proof.
  intros HT. apply rg_bind. eapply acc_read; [done..|]. intros s1 HT1 _.
  apply rg_bind. eapply acc_pure; [done|done| |].
  { intros w. eapply wp_conseq; [apply png_read_metadata_spec|]. by intros a w' [? _]. }
  intros [m|] s2 HT2; [by apply finish_done|by apply finish_failed].
Qed.

Lemma process_capacity_spec s :
  running 0 s -> worker (process_analyze_capacity_job (Some l)) processed 0 s.
Proof.
  intros HT. apply rg_bind. eapply acc_read; [done..|]. intros s1 HT1 _.
  apply rg_bind.
  eapply (acc_lift _ _ _ _ _ _ (fun r k => match r with inl _ => 0 <= k | inr _ => k = 0 end)); [done| | |].
  { intros w _. eapply wp_conseq; [apply stego_get_capacity_spec|]. intros [e|cap] w'; cbn beta iota.
    - intros (k & Hk & _ & Hw & _). eexists k, _; split_and!; [done|exact Hw|done].
    - intros (img & _ & _ & Hw & _). eexists 0, _; split_and!; [done|exact Hw|done]. }
  { intros [e|cap] k; cbn; lia. }
  intros [e|cap] k s2 Hk HT2; [by apply finish_failed|]. subst k. by apply finish_done.
Qed.

(** The end of an encoding job. *)
Lemma finish_encoded_spec out msg s :
  running 0 s -> worker (finish_encoded (Some l) out msg) processed 0 s.
Proof.
  intros HT. apply rg_bind. eapply acc_pure; [done|done| |].
  { intros w. unfold wp, get_file_size_bytes. apply step_refl. }
  intros size s1 HT1. apply rg_bind. eapply acc_set_output_path; [done..|]. intros s2 HT2.
  apply rg_bind. eapply acc_set_result_meta; [done..|]. intros s3 HT3.
  by apply finish_done.
Qed.

Lemma result_path_own id' sfx n out :
  storage_make_result_path g id' (Some sfx) n = Some out -> out = job_path (g_storage_results g) id' (Some sfx).
Proof. unfold storage_make_result_path. intros H. repeat case_match; by simplify_eq. Qed.

(** An encoding call on an own file. *)
Lemma acc_encode m sfx out (Q : stego_status -> Z -> option job_state -> wk -> Prop) s :
  out = job_path (g_storage_results g) id (Some sfx) ->
  running 0 s -> (forall w, wp m (encode_frame out w) w) ->
  (forall rc k s', (rc = STEGO_OK -> k = 0) -> running k s' -> Q rc k (Some JOB_STATE_RUNNING) s') ->
  worker (lift m) Q 0 s.
Proof.
  intros -> HT Hm HQ.
  eapply (acc_lift _ _ _ _ _ _ (fun rc k => 0 <= k /\ (rc <> STEGO_ERR_LIBPNG -> k = 0))); [done| | |].
  - intros w _. eapply wp_conseq; [apply Hm|]. intros rc w' (k' & fs & Hk & Hk0 & Hw & Hf).
    exists k', fs. split_and!; try done. intros q Hq. apply Hf. intros ->. destruct Hq. by eexists.
  - intros rc k [Hk _]. lia.
  - intros rc k s' [Hk Hk0] HT'. apply HQ; [|done]. intros ->. by rewrite Hk0.
Qed.

Lemma process_encode_text_spec s :
  running 0 s -> worker (process_encode_text_job g (Some l)) processed 0 s.
Proof.
  intros HT. apply rg_bind. eapply acc_read; [done..|]. intros s1 HT1 _.
  apply rg_bind. eapply acc_read; [done..|]. intros s2 HT2 _.
  apply rg_bind. eapply acc_id; [done..|]. intros s3 HT3.
  destruct (storage_make_result_path _ _ _ _) as [out|] eqn:Hout; [|by apply finish_failed].
  apply rg_bind. eapply acc_pure; [done|done| |].
  { intros w. unfold read_text_file.
    apply wp_bind, wp_fopen_rb; [intros; wp_auto; steps|intros _; wp_step; apply step_refl]. }
  intros [text|] s4 HT4; [|by apply finish_failed].
  apply rg_bind. eapply acc_read; [done..|]. intros s5 HT5 _.
  destruct (job_is_cancel_requested _ _) eqn:Hc; [by apply finish_canceled|].
  apply rg_bind. eapply acc_encode; [by eapply result_path_own|done| |].
  { intros w. cbn [stego_encode_text]. apply encode_common_frame. }
  intros rc k s6 Hk HT6. case_bool_decide; cbn [negb]; [|by apply finish_failed].
  rewrite Hk in * by done. by apply finish_encoded_spec.
Qed.

Lemma process_encode_file_spec s :
  running 0 s -> worker (process_encode_file_job g (Some l)) processed 0 s.
Proof.
  intros HT. apply rg_bind. eapply acc_read; [done..|]. intros s1 HT1 _.
  apply rg_bind. eapply acc_read; [done..|]. intros s2 HT2 _.
  apply rg_bind. eapply acc_read; [done..|]. intros s3 HT3 _.
  apply rg_bind. eapply acc_id; [done..|]. intros s4 HT4.
  destruct (storage_make_result_path _ _ _ _) as [out|] eqn:Hout; [|by apply finish_failed].
  apply rg_bind. eapply acc_read; [done..|]. intros s5 HT5 _.
  destruct (job_is_cancel_requested _ _) eqn:Hc; [by apply finish_canceled|].
  apply rg_bind. eapply acc_encode; [by eapply result_path_own|done| |].
  { intros w. apply encode_file_frame. }
  intros rc k s6 Hk HT6. case_bool_decide; cbn [negb]; [|by apply finish_failed].
  rewrite Hk in * by done. by apply finish_encoded_spec.
Qed.

Lemma write_file_frame path data n w :
  wp (write_bin_to_file path data n) (fun _ w' => exists fs, step fs 0 0 w w' /\
    only_file path (w_fs w) fs) w.
Proof.
  unfold write_bin_to_file. apply wp_bind, wp_fopen_wb.
  2: { intros _. cbn [negb]. wp_step. exists (w_fs w). split; [apply step_refl|apply only_file_refl]. }
  intros w1 _ Hs1. cbn [negb]. wp_step. apply wp_fread. intros b w2 Hs2 _.
  assert (Hput : forall d, only_file path (w_fs w) (<[path := d]> (w_fs w)))
    by (intros d q Hq; by rewrite lookup_insert_ne).
  wp_case.
  - set (d := match data with Some d => fread_upto n d | None => [] end).
    wp_auto; exists (<[path := d]> (w_fs w)); (split; [|apply Hput]); split_steps;
      constructor; simpl in *; try solve [auto 30 | lia | congruence];
      rewrite <-(insert_insert_eq (w_fs w) path d []); congruence.
  - wp_auto. exists (<[path := []]> (w_fs w)). split; [steps|apply Hput].
Qed.

(** The end of a decoding job gives back what the decoder allocated. *)
Lemma acc_free ex (Q : stego_extracted -> Z -> option job_state -> wk -> Prop) k o s :
  T (k + ex_blocks ex) o s -> 0 <= k -> (forall e s', T k o s' -> Q e k o s') ->
  rg g l id R (lift (stego_extracted_free ex)) Q (k + ex_blocks ex) o s.
Proof.
  intros HT Hk HQ. eapply (acc_lift _ _ _ _ _ _ (fun _ k => k = - ex_blocks ex)); [done| | |].
  - intros w _. unfold stego_extracted_free. fold (ex_blocks ex). wp_auto.
    eexists _, _; split_and!; [done|eassumption|done].
  - intros _ k' ->. lia.
  - intros e k' s' ->. replace (k + ex_blocks ex + - ex_blocks ex) with k by lia. apply HQ.
Qed.

Lemma write_decoded ex out sfx (is_text : bool) (Q : Z -> Z -> option job_state -> wk -> Prop) k o s :
  storage_make_result_path g id (Some sfx) MAX_JOB_PATH = Some out -> T k o s ->
  (forall wr s', T k o s' -> Q wr k o s') ->
  rg g l id R (lift ((if is_text then write_text_to_file else write_bin_to_file)
                       out (ex_data ex) (ex_data_len ex))) Q k o s.
Proof.
  intros Hout HT HQ. pose proof (rl_leak _ _ _ HT).
  eapply (acc_lift _ _ _ _ _ _ (fun _ k => k = 0)); [done| | |].
  - intros w _. unfold write_text_to_file.
    assert (Hsame : (if is_text then write_bin_to_file else write_bin_to_file) = write_bin_to_file)
      by (by destruct is_text).
    rewrite Hsame. eapply wp_conseq; [apply write_file_frame|]. intros rc w' (fs & Hw & Hf).
    eexists 0, fs. split_and!; [done|exact Hw|]. intros q Hq. apply Hf. intros ->. destruct Hq.
    eexists. by eapply result_path_own.
  - intros _ k' ->. lia.
  - intros wr k' s' -> HT'. rewrite Z.add_0_r in *. by apply HQ.
Qed.

Lemma process_decode_spec s :
  running 0 s -> worker (process_decode_job g (Some l)) processed 0 s.
Proof.
  intros HT. apply rg_bind. eapply acc_read; [done..|]. intros s1 HT1 _.
  apply rg_bind. eapply acc_read; [done..|]. intros s2 HT2 _.
  destruct (job_is_cancel_requested _ _) eqn:Hc; [by apply finish_canceled|].
  apply rg_bind.
  eapply (acc_lift _ _ _ _ _ _ (fun r k => match r with inl _ => 0 <= k | inr ex => k = ex_blocks ex end));
    [done| | |].
  { intros w Hcrc. eapply wp_conseq; [by apply stego_decode_spec|].
    intros [e|ex] w'; cbn [decode_post].
    - intros (k & (Hk & _ & Hw) & _). eexists k, _; split_and!; [done|exact Hw|done].
    - intros [Hw _]. eexists _, _; split_and!; [done|exact Hw|done]. }
  { intros [e|ex] k; [lia|]. intros ->. unfold ex_blocks. case_match; lia. }
  intros [e|ex] k s3 Hk HT3; [by apply finish_failed|]. subst k.
  apply rg_bind. eapply acc_id; [done..|]. intros s4 HT4.
  destruct (storage_make_result_path _ _ _ _) as [out|] eqn:Hout.
  2: { apply rg_bind. eapply acc_free; [done..|]. intros _ s5 HT5. by apply finish_failed. }
  apply rg_bind. eapply write_decoded; [exact Hout|done|]. intros wr s5 HT5. destruct (wr <? 0).
  { apply rg_bind. eapply acc_free; [done..|]. intros _ s6 HT6. by apply finish_failed. }
  apply rg_bind. eapply acc_set_output_path; [done..|]. intros s6 HT6.
  apply rg_bind. eapply acc_set_result_meta; [done..|]. intros s7 HT7.
  apply rg_bind. eapply acc_finish; [done..|]. intros s8 HT8 _.
  apply rg_bind. eapply acc_free; [done..|]. intros _ s9 HT9. apply rg_ret.
  split; [done..|]. by eexists.
Qed.

Lemma process_job_spec type s :
  running 0 s -> worker (process_job g worker_index type (Some l)) processed 0 s.
Proof.
  intros HT. destruct type; cbn [process_job];
    eauto using process_text_spec, process_validate_spec, process_capacity_spec,
      process_encode_text_spec, process_encode_file_spec, process_decode_spec.
  by apply finish_failed.
Qed.
End process.

(** ** Events *)

(** The loop of [write_event] is that of [write_all] with another result. *)
Lemma write_event_loop_eq fuel data total c :
  0 <= total ->
  write_event_loop fuel data c =
  (fun rc => (if fst rc =? total + Z.of_nat (length data) then 0 else -1, snd rc)) <$>
    write_loop fuel data total c.
Proof.
  revert data total c. induction fuel as [|fuel IH]; intros data total c Ht; [done|].
  cbn [write_event_loop write_loop]. destruct (Z.ltb_spec 0 (Z.of_nat (length data))) as [Hpos|Hz].
  2: { cbn -[Z.eqb Z.add Z.of_nat]. by rewrite (proj2 (Z.eqb_eq _ _)) by lia. }
  destruct (write data c) as [r c'] eqn:E. destruct r as [| |n]; [by apply IH| |].
  - cbn -[Z.eqb Z.add Z.of_nat]. by rewrite (proj2 (Z.eqb_neq _ _)) by lia.
  - assert (Hn : 0 <= n <= Z.of_nat (length data))
      by (unfold write in E; destruct (cn_wsched c) as [|[] ?]; inversion E; clear E; try case_match; lia).
    destruct (Z.eqb_spec n 0) as [->|Hne].
    { cbn -[Z.eqb Z.add Z.of_nat]. by rewrite (proj2 (Z.eqb_neq _ _)) by lia. }
    rewrite (IH _ (total + n)) by lia. rewrite length_drop.
    by replace (total + n + Z.of_nat (length data - Z.to_nat n)) with (total + Z.of_nat (length data)) by lia.
Qed.

(** One event went to the pipe: the whole of it on a pipe that does not
    fail, a part of it otherwise. *)
Definition event_sent (ev : worker_event) (c c' : conn) : Prop :=
  exists sent, cn_out c' = cn_out c ++ sent /\ sent `prefix_of` event_bytes ev /\
    (quiet (cn_wsched c) -> sent = event_bytes ev /\ quiet (cn_wsched c')).

Lemma write_event_correct c ev :
  exists r c', write_event c (Some ev) = Some (r, c') /\ event_sent ev c c'.
Proof.
  unfold write_event. rewrite (write_event_loop_eq _ _ 0) by lia.
  destruct (write_loop_total (S (length (cn_wsched c) + length (event_bytes ev))) (event_bytes ev) 0 c
    ltac:(lia)) as (r & sent & c' & -> & Hout & Hpre & _ & Hq & _).
  eexists _, c'. split; [done|]. exists sent. split_and!; try done. tauto.
Qed.

(** ** A job from the queue to its event *)

Section job.
Context {L : LibPng} {LL : LibPngLaws L} (g : storage_globals) (worker_index : Z).
Context (l : loc) (id : Z) (R : wk -> wk -> Prop) T {RL : Rely g l id R T}.
Implicit Types (k : Z) (o : option job_state) (s : wk).

(** The job is in its final state and was announced. *)
Record reported (s : wk) (k : Z) (o : option job_state) (s' : wk) : Prop := Reported {
  rp_event : exists s1 st, T k o s1 /\ o = Some st /\ s' = set_pipe s1 (wk_pipe s') /\
    event_sent (WorkerEvent id st) (wk_pipe s1) (wk_pipe s');
  rp_final : forall st, o = Some st -> state_is_final st = true;
  rp_leak : o <> Some JOB_STATE_FAILED -> k = 0;
  rp_cancel : o = Some JOB_STATE_CANCELED -> cancelled l s';
  rp_early : cancelled l s -> o = Some JOB_STATE_CANCELED
}.

Lemma rg_notify st Q k o s :
  T k o s ->
  (forall s1 c, T k o s1 -> (cancelled l s -> cancelled l s1) ->
     event_sent (WorkerEvent id st) (wk_pipe s1) c -> Q tt k o (set_pipe s1 c)) ->
  rg g l id R (notify (Some l) st) Q k o s.
Proof.
  intros HT HQ. apply rg_bind. apply (acc_act g l id R T); [done|]. intros s1 HT1 Hc1. exists 0, None.
  pose proof (rl_leak _ _ _ HT1). split_and!; [apply wstep_refl|lia|done|]. rewrite Z.add_0_r. cbn [fst snd].
  destruct (rl_job _ _ _ HT1) as (j & Hj & Hid & _). cbn -[write_event]. rewrite Hj, Hid. intros _ _ s2 HR.
  pose proof (rl_rely _ _ _ _ HT1 HR) as HT2. assert (Hc2 : cancelled l s1 -> cancelled l s2) by by eapply rl_cancel.
  destruct (write_event_correct (wk_pipe s2) (WorkerEvent id st)) as (r & c & -> & Hsent).
  exists 0, None. rewrite Z.add_0_r. split; [|apply (HQ s2 c); auto].
  constructor; [|lia|done]. change (set_pipe _ (wk_pipe s2)) with (set_pipe s2 (wk_pipe s2)).
  destruct s2. apply wstep_refl.
Qed.

(** Reading the state of the job and announcing it. *)
Lemma report_spec s0 k st s :
  T k (Some st) s -> state_is_final st = true -> (st <> JOB_STATE_FAILED -> k = 0) ->
  (st = JOB_STATE_CANCELED -> cancelled l s) -> (cancelled l s0 -> st = JOB_STATE_CANCELED) ->
  rg g l id R (st ← job_read (Some l) (job_get_state (Some l)); notify (Some l) st)
    (fun _ => reported s0) k (Some st) s.
Proof.
  intros HT Hf Hk Hc He. apply rg_bind. eapply acc_read; [done..|]. intros s1 HT1 Hc1.
  destruct (rl_job _ _ _ HT1) as (j & Hj & _ & Hst). unfold job_get_state, read_job. rewrite Hj, (Hst st eq_refl).
  apply rg_notify; [done|]. intros s2 c HT2 Hc2 Hsent. constructor.
  - by exists s2, st.
  - by intros ? [= <-].
  - intros Hne. apply Hk. by intros ->.
  - intros [= ->]. by apply Hc2, Hc1, Hc.
  - intros H. by rewrite He.
Qed.

Lemma worker_job_rg s :
  T 0 None s -> rg g l id R (worker_job g worker_index (Some l)) (fun _ => reported s) 0 None s.
Proof.
  intros HT. apply rg_bind. eapply acc_read; [done..|]. intros s1 HT1 Hc1. fold (cancelled l s1) in *.
  destruct (job_is_cancel_requested (Some l) (wk_jobs s1)) eqn:Hc.
  - apply rg_bind. eapply acc_finish; [done|by right|done|]. intros s2 HT2 Hc2.
    apply rg_notify; [done|]. intros s3 c HT3 Hc3 Hsent. constructor.
    + by exists s3, JOB_STATE_CANCELED.
    + by intros ? [= <-].
    + done.
    + intros _. by apply Hc3, Hc2.
    + done.
  - apply rg_bind. eapply acc_set_state; [done|by left|done|]. intros s2 HT2 _.
    apply rg_bind. eapply acc_read; [done..|]. intros s3 HT3 _.
    apply rg_bind. eapply rg_conseq; [by eapply process_job_spec|].
    intros rc k o s4 (HT4 & st & -> & Hf & Hk & Hcan).
    assert (He : cancelled l s -> st = JOB_STATE_CANCELED).
    { intros H. specialize (Hc1 H). unfold cancelled in Hc1. by rewrite Hc in Hc1. }
    apply rg_bind. destruct (rc <? 0); [|apply rg_ret; by apply report_spec].
    apply rg_bind. eapply acc_read; [done..|]. intros s5 HT5 Hc5.
    destruct (rl_job _ _ _ HT5) as (j & Hj & _ & Hst).
    assert (Heq : job_get_state (Some l) (wk_jobs s5) = st)
      by (unfold job_get_state, read_job; rewrite Hj; by apply Hst).
    rewrite Heq, bool_decide_false by (by intros ->).
    apply rg_ret, report_spec; auto.
Qed.
End job.

(** ** A worker that is alone *)

(** The part of the worker that only sees the jobs keeps the files. *)
Definition keeps_world {A} (m : W A) : Prop := forall s, wpW m (fun _ s' => wk_world s' = wk_world s) s.

Lemma keeps_world_bind {A B} (m : W A) (f : A -> W B) :
  keeps_world m -> (forall a, keeps_world (f a)) -> keeps_world (m ≫= f).
Proof.
  intros Hm Hf s. apply wpW_bind. eapply wpW_conseq; [apply Hm|]. intros a s1 H1.
  eapply wpW_conseq; [apply Hf|]. intros b s2 H2. simpl in *. congruence.
Qed.

Lemma interfere_world p s : wk_world (interfere p s) = wk_world s.
Proof. unfold interfere. by destruct (wk_env s). Qed.

Lemma keeps_write p f : keeps_world (job_write p f).
Proof. intros s. apply interfere_world. Qed.

Lemma keeps_finish p r st rc : keeps_world (finish p r st rc).
Proof.
  apply keeps_world_bind; [apply keeps_write|]. intros [].
  apply keeps_world_bind; [|by intros [] s]. apply keeps_world_bind; [by intros s|].
  intros now. apply keeps_write.
Qed.

Lemma keeps_notify p st : keeps_world (notify p st).
Proof.
  apply keeps_world_bind; [by intros s|]. intros id s. unfold wpW. cbn -[write_event].
  by destruct (write_event _ _) as [[? ?]|].
Qed.

Section alone.
Context {L : LibPng} {LL : LibPngLaws L} (g : storage_globals) (worker_index : Z).

(** What the processing of the job at [l] amounts to: the job ends in the
    final state [st], the frame of the worker is respected up to [k] blocks
    lost by libpng errors, and one event is sent.  A job cancelled before
    it starts is not processed at all. *)
Record job_processed (l : loc) (id : Z) (st : job_state) (k : Z) (s s' : wk) : Prop := JobProcessed {
  jp_step : exists s1, wstep g l id k (Some st) s s1 /\ s' = set_pipe s1 (wk_pipe s');
  jp_final : state_is_final st = true;
  jp_leak : 0 <= k /\ (st <> JOB_STATE_FAILED -> k = 0);
  jp_cancel : st = JOB_STATE_CANCELED -> cancelled l s';
  jp_early : cancelled l s -> st = JOB_STATE_CANCELED /\ wk_world s' = wk_world s;
  jp_event : event_sent (WorkerEvent id st) (wk_pipe s) (wk_pipe s')
}.

Lemma job_state_read l id s k st s1 :
  is_Some (wk_jobs s !! l) -> wstep g l id k (Some st) s s1 ->
  job_get_state (Some l) (wk_jobs s1) = st.
Proof.
  intros [j Hj] Hs. destruct (ws_job _ _ _ _ _ _ _ Hs j Hj) as (j' & Hj' & _ & Hst).
  unfold job_get_state, read_job. by rewrite Hj'.
Qed.

Lemma worker_job_early l s :
  is_Some (wk_jobs s !! l) -> cancelled l s ->
  wpW (worker_job g worker_index (Some l)) (fun _ s' => wk_world s' = wk_world s) s.
Proof.
  intros Hlive Hc. apply wpW_bind. set (s1 := interfere (Some l) s).
  pose proof (wstep_cancel _ _ _ _ _ _ _ (interfere_step g l 0 s) Hlive Hc) as Hc1.
  unfold wpW at 1. cbn -[interfere job_is_cancel_requested]. fold s1. fold s1 in Hc1. rewrite Hc1.
  assert (H : keeps_world (_ ← finish (Some l) "job canceled" JOB_STATE_CANCELED 0; notify (Some l) JOB_STATE_CANCELED))
    by (apply keeps_world_bind; intros; [apply keeps_finish|apply keeps_notify]).
  eapply wpW_conseq; [apply (H s1)|]. intros _ s2 ->. apply interfere_world.
Qed.

Lemma worker_job_spec l id s :
  is_Some (wk_jobs s !! l) -> crc_inv (w_crc (wk_world s)) ->
  (forall j, wk_jobs s !! l = Some j -> job_id j = id) ->
  wpW (worker_job g worker_index (Some l))
    (fun _ s' => exists st k, job_processed l id st k s s') s.
Proof.
  intros Hlive Hcrc Hid. pose proof (rely_alone g l id s Hlive Hcrc Hid) as RL.
  pose proof (worker_job_rg g worker_index l id eq _ s (conj (Z.le_refl 0) (wstep_refl g l id s))) as H.
  apply rg_run in H.
  assert (Hw : wpW (worker_job g worker_index (Some l)) (fun _ s' => cancelled l s -> wk_world s' = wk_world s) s).
  { destruct (job_is_cancel_requested (Some l) (wk_jobs s)) eqn:Hc; unfold cancelled; rewrite Hc.
    - eapply wpW_conseq; [by apply worker_job_early|done].
    - eapply (wpW_conseq _ (fun _ _ => True)); [|done]. unfold wpW. by destruct (wrun _ s). }
  eapply wpW_conseq; [exact (wpW_and _ _ _ _ H Hw)|].
  intros _ s' [(k & o & [(s1 & st & [Hk Hs1] & -> & Heq & Hsent) Hf Hk0 Hc He]) Hworld].
  rewrite (ws_pipe _ _ _ _ _ _ _ Hs1) in Hsent. exists st, k. constructor; auto.
  - by exists s1.
  - split; [done|]. intros Hne. apply Hk0. by intros [= ->].
  - intros ->. by apply Hc.
  - intros H0. split; [|by apply Hworld]. specialize (He H0). by injection He.
Qed.

(** The states the job goes through meanwhile. *)
Lemma worker_job_states l j s :
  wk_jobs s !! l = Some j -> crc_inv (w_crc (wk_world s)) ->
  wpW (worker_job g worker_index (Some l)) (fun _ s' => exists n m k,
    job_states l (worker_job g worker_index (Some l)) s =
      replicate n (job_st j) ++ replicate m JOB_STATE_RUNNING ++
      replicate (S k) (job_get_state (Some l) (wk_jobs s'))) s.
Proof.
  intros Hj Hcrc. assert (Hid : forall j', wk_jobs s !! l = Some j' -> job_id j' = job_id j) by congruence.
  pose proof (rely_alone g l (job_id j) s (mk_is_Some _ _ Hj) Hcrc Hid) as RL.
  pose proof (worker_job_rg g worker_index l (job_id j) eq _ s (conj (Z.le_refl 0) (wstep_refl g l (job_id j) s))) as H.
  destruct (rg_states g l (job_id j) (job_st j) _ _ _ _ _ j H Hj eq_refl) as (a & s' & k & o & Hrun & Hrep & Hm).
  unfold wpW. rewrite Hrun. destruct Hrep as [(s1 & st & [_ Hs1] & -> & -> & _) Hf _ _ _].
  cbn [wk_jobs set_pipe]. rewrite (job_state_read l (job_id j) s k st s1 (mk_is_Some _ _ Hj) Hs1).
  by apply path_once; [apply Hf|].
Qed.
End alone.

(** ** The properties *)

Section properties.
Context {L : LibPng} {LL : LibPngLaws L} (g : storage_globals) (worker_index : Z).

(** C11: a worker brings a job to exactly one final state, whatever
    cancellations arrive meanwhile and whatever fails: between its actions the
    job is first in the state it had, then possibly RUNNING, then in one final
    state which it keeps.  The job is CANCELED only if that was requested, and
    always if it was requested before the job was taken, in which case no file
    is touched.  What goes to the pipe is the event with the identifier and the
    final state of the job: all of it unless the pipe fails, and otherwise a
    beginning of it, possibly nothing. *)
Theorem worker_job_final l j s :
  wk_jobs s !! l = Some j -> crc_inv (w_crc (wk_world s)) ->
  wpW (worker_job g worker_index (Some l)) (fun _ s' =>
    exists j', wk_jobs s' !! l = Some j' /\ same_job j j' /\ state_is_final (job_st j') = true /\
      (exists n m k, job_states l (worker_job g worker_index (Some l)) s =
         replicate n (job_st j) ++ replicate m JOB_STATE_RUNNING ++ replicate (S k) (job_st j')) /\
      (job_st j' = JOB_STATE_CANCELED -> job_cancel_requested j' = true) /\
      (job_cancel_requested j = true ->
         job_st j' = JOB_STATE_CANCELED /\ w_fs (wk_world s') = w_fs (wk_world s)) /\
      event_sent (WorkerEvent (job_id j) (job_st j')) (wk_pipe s) (wk_pipe s')) s.
Proof.
  intros Hj Hcrc. eapply wpW_conseq; [apply wpW_and; [|exact (worker_job_states g worker_index l j s Hj Hcrc)]|].
  { apply (worker_job_spec g worker_index l (job_id j)); [by exists j|done|congruence]. }
  intros _ s' ((st & k & [(s1 & Hs1 & Heq) Hf _ Hc He Hev]) & Hstates).
  destruct (ws_job _ _ _ _ _ _ _ Hs1 j Hj) as (j' & Hj' & Hsame & Hst).
  assert (Hjs : wk_jobs s' !! l = Some j') by (by rewrite Heq).
  simpl in Hst. subst st. unfold cancelled, job_is_cancel_requested, job_get_state, read_job in *.
  rewrite Hj, Hjs in *. exists j'. split_and!; try done.
  intros Hreq. destruct (He Hreq) as [-> ->]. done.
Qed.

(** C24: while it processes a job a worker leaves every other job, the queue,
    and every file alone except the results of its own job; it acts on the
    job table only through the operations of job.c, so that the invariant of
    the table is kept; it closes every handle, and loses memory only when
    the job fails. *)
Theorem worker_job_isolated t l j s :
  wk_jobs s !! l = Some j -> crc_inv (w_crc (wk_world s)) -> job_inv (t, wk_jobs s) ->
  wpW (worker_job g worker_index (Some l)) (fun _ s' =>
    job_inv (t, wk_jobs s') /\
    (forall l', l' <> l -> wk_jobs s' !! l' = wk_jobs s !! l') /\
    wk_queue s' = wk_queue s /\ wk_nodes s' = wk_nodes s /\
    (forall q, (forall x, q <> job_path (g_storage_results g) (job_id j) (Some x)) ->
       w_fs (wk_world s') !! q = w_fs (wk_world s) !! q) /\
    w_files (wk_world s') = w_files (wk_world s) /\
    w_live (wk_world s) <= w_live (wk_world s') /\
    (job_get_state (Some l) (wk_jobs s') <> JOB_STATE_FAILED ->
       w_live (wk_world s') = w_live (wk_world s))) s.
Proof.
  intros Hj Hcrc Hinv. eapply wpW_conseq;
    [apply (worker_job_spec g worker_index l (job_id j)); [by exists j|done|congruence]|].
  intros _ s' (st & k & [(s1 & Hs1 & Heq) Hf [Hk Hk0] _ _ _]).
  assert (Hst : job_get_state (Some l) (wk_jobs s') = st)
    by (rewrite Heq; simpl; eapply (job_state_read g); [by exists j|exact Hs1]).
  rewrite Hst. rewrite Heq. simpl. destruct Hs1 as [(fs & Hw & Hfs) Hsteps Hother _ Hq Hn _ _ _].
  destruct Hw as [Hwfs Hwl Hwf _ _ _ _]. split_and!; try done.
  - eapply job_steps_inv; [apply Hsteps|exact Hinv].
  - intros q Hq'. rewrite Hwfs. apply Hfs. intros [x ->]. by eapply Hq'.
  - lia.
  - lia.
  - intros Hne. rewrite Hwl, Hk0 by done. lia.
Qed.

(** The event that announces a finished job. *)
Definition job_event (j : job) : list Z := event_bytes (WorkerEvent (job_id j) (job_st j)).

Definition drained (js : list loc) (jobs : list job) (s : wk) (r : option worker_outcome) (s' : wk)
    : Prop :=
  r = Some WorkerWaits /\ queue_holds (wk_queue s') (wk_nodes s') [] /\
  (forall l, l ∉ js -> wk_jobs s' !! l = wk_jobs s !! l) /\
  exists jobs', Forall2 (fun l j' => wk_jobs s' !! l = Some j') js jobs' /\
    Forall2 (fun j j' => same_job j j' /\ state_is_final (job_st j') = true) jobs jobs' /\
    (quiet (cn_wsched (wk_pipe s)) ->
       cn_out (wk_pipe s') = cn_out (wk_pipe s) ++ concat (job_event <$> jobs')).

Lemma is_running_true s :
  wk_running s = [] ->
  wpW is_running (fun b s1 => b = true /\ s1 = s) s.
Proof. intros Hr. unfold wpW. cbn. rewrite Hr. split; [done|]. destruct s. simpl in *. by subst. Qed.

(** The next job is taken. *)
Lemma pop_next s l js (Q : option pop_outcome -> wk -> Prop) :
  queue_holds (wk_queue s) (wk_nodes s) (l :: js) -> q_stopped (wk_queue s) = false ->
  (forall q nodes, queue_holds q nodes js -> q_stopped q = false ->
     Q (Some (PopReturns (Some l) q nodes))
       (Wk (wk_world s) (wk_jobs s) (wk_clock s) (wk_env s) q nodes (wk_pipe s) (wk_running s))) ->
  wpW pop Q s.
Proof.
  intros Hq Hst HQ. destruct (holds_pop _ _ _ _ Hq Hst) as (q & nodes & Hp & Hq' & Hst').
  unfold wpW. cbn. rewrite Hp. by apply HQ.
Qed.

Lemma pop_waits s (Q : option pop_outcome -> wk -> Prop) :
  queue_holds (wk_queue s) (wk_nodes s) [] -> q_stopped (wk_queue s) = false ->
  Q (Some PopWaits) s -> wpW pop Q s.
Proof. intros Hq Hst HQ. unfold wpW. cbn. by rewrite (holds_empty _ _ Hq Hst). Qed.

(** C13: a running worker empties the queue: it takes the jobs in the order of
    the queue, terminates them all, reports each one in that order, and then
    waits; as many iterations as jobs, and one, are enough. *)
Theorem worker_drains_queue fuel js jobs s :
  queue_holds (wk_queue s) (wk_nodes s) js -> q_stopped (wk_queue s) = false -> wk_running s = [] ->
  NoDup js -> Forall2 (fun l j => wk_jobs s !! l = Some j) js jobs ->
  crc_inv (w_crc (wk_world s)) -> (length js < fuel)%nat ->
  wpW (worker_main g worker_index fuel) (drained js jobs s) s.
Proof.
  revert js jobs s. induction fuel as [|fuel IH]; intros js jobs s Hq Hst Hr Hnd Hjs Hcrc Hlen; [lia|].
  cbn [worker_main]. apply wpW_bind, wpW_bind. eapply wpW_conseq; [by apply is_running_true|].
  intros b s1 [-> ->]. cbn [negb]. apply wpW_bind. destruct js as [|l js].
  { apply pop_waits; [done..|]. apply wpW_ret, wpW_ret. apply Forall2_nil_inv_l in Hjs as ->.
    split_and!; try done. exists []. split_and!; [done|done|]. intros _. by rewrite app_nil_r. }
  eapply pop_next; [done..|]. intros q' nodes' Hq' Hst'.
  apply Forall2_cons_inv_l in Hjs as (j & jobs0 & Hj & Hjs & ->).
  apply NoDup_cons in Hnd as [Hl Hnd]. set (s1 := Wk _ _ _ _ _ _ _ _).
  apply wpW_bind. eapply wpW_conseq;
    [apply (worker_job_spec g worker_index l (job_id j) s1); [by exists j|done|simpl; congruence]|].
  intros _ s3 (st & k & [(s2 & Hs2 & Heq) Hf _ _ _ Hev]).
  destruct (ws_job _ _ _ _ _ _ _ Hs2 j Hj) as (j' & Hj' & Hsame & Hst2). simpl in Hst2. subst st.
  assert (Hj3 : wk_jobs s3 !! l = Some j') by (by rewrite Heq).
  assert (Hother : forall l', l' <> l -> wk_jobs s3 !! l' = wk_jobs s !! l')
    by (intros l' Hne; rewrite Heq; apply (ws_other _ _ _ _ _ _ _ Hs2 l' Hne)).
  apply wpW_ret. eapply wpW_conseq; [apply (IH js jobs0 s3)|]; try done.
  - rewrite Heq. simpl. by rewrite (ws_queue _ _ _ _ _ _ _ Hs2), (ws_nodes _ _ _ _ _ _ _ Hs2).
  - rewrite Heq. simpl. by rewrite (ws_queue _ _ _ _ _ _ _ Hs2).
  - rewrite Heq. simpl. by rewrite (ws_running _ _ _ _ _ _ _ Hs2).
  - apply Forall2_same_length_lookup. apply Forall2_same_length_lookup in Hjs as [Hlj Hjs].
    split; [done|]. intros n l' j1 Hn Hj1. rewrite Hother; [by eapply Hjs|]. intros ->.
    by apply Hl, (list_elem_of_lookup_2 _ n).
  - rewrite Heq. simpl. by eapply wstep_crc.
  - simpl in Hlen. lia.
  - intros r s4 (-> & Hq4 & Hother4 & jobs' & Hjs' & Hfin & Hout). split_and!; try done.
    { intros l' Hl'. apply not_elem_of_cons in Hl' as [Hne Hl']. by rewrite Hother4, Hother. }
    exists (j' :: jobs'). split_and!.
    + constructor; [by rewrite Hother4|done].
    + by constructor.
    + intros Hquiet. destruct Hev as (sent & Hsent & _ & Hall).
      destruct (Hall Hquiet) as [-> Hquiet3]. rewrite (Hout Hquiet3), Hsent, <-app_assoc.
      unfold job_event at 2. cbn [fmap list_fmap concat]. by destruct Hsame as [-> _].
Qed.

(** An ENCODE job whose image has room for its payload, run alone and without
    failing system calls, is done with a PNG that decodes to the payload. *)
Lemma worker_encodes l j out type data s :
  wk_env s = [] -> wk_jobs s !! l = Some j -> hide_request g j out type data (wk_world s) ->
  wpW (worker_job g worker_index (Some l)) (fun _ s' => exists j',
    wk_jobs s' !! l = Some j' /\ encoded out (extracted type (hidden_name type j) data) j' (wk_world s')) s.
Proof.
  intros He Hj Hr. eapply wpW_conseq.
  { apply (wpR_run (fun _ => True) l (encoded out (extracted type (hidden_name type j) data))).
    apply (hide_completes g worker_index l _ j out I I I type data). by constructor. }
  intros _ s' [j' [_ Hj' Hd]]. by exists j'.
Qed.
End properties.

(** ** Concrete workers *)

Definition demo_globals : storage_globals := storage_globals_init.

(** The job at 10 asks for "Hi" to be hidden in [in.png]. *)
Definition demo_text_job : job :=
  with_stored_path "t.txt" (Job 1 4 JOB_TYPE_ENCODE_TEXT JOB_STATE_QUEUED false EmptyString "in.png"
    EmptyString EmptyString EmptyString JOB_RESULT_NONE 0 EmptyString "127.0.0.1"
    (Timespec 1 0) zero_time zero_time).

Definition demo_wk (h : job_heap) (env : list bool) (q : job_queue) (nodes : node_heap) : wk :=
  Wk (demo_world {["in.png" := demo_png 7; "t.txt" := [72; 105]]}) h [] env q nodes
    (Conn [] [] [] [IoIntr; IoSome 3]) [].

Definition demo_decode_job : job :=
  Job 2 5 JOB_TYPE_DECODE JOB_STATE_QUEUED false EmptyString "no.png" EmptyString EmptyString
    EmptyString JOB_RESULT_NONE 0 EmptyString "127.0.0.1" (Timespec 2 0) zero_time zero_time.

Definition demo_two_jobs : job_heap := {[10 := demo_text_job; 20 := demo_decode_job]}.

(** The run is not only covered by the theorem but can be executed: two jobs,
    the second of which fails, a cancellation that comes too late, and a pipe
    that takes the first event in two parts. *)
Example demo_run :
  let q := JobQueue (Some 1) (Some 2) false in
  let s := demo_wk demo_two_jobs (replicate 10 false ++ [true]) q
             {[1 := JobNode 10 (Some 2); 2 := JobNode 20 None]} in
  let s' := snd (wrun (worker_main demo_globals 0 3) s) in
  (job_st <$> wk_jobs s' !! 10, job_st <$> wk_jobs s' !! 20, cn_out (wk_pipe s')) =
  (Some JOB_STATE_DONE, Some JOB_STATE_FAILED,
   [1; 0; 0; 0; 0; 0; 0; 0; 2; 0; 0; 0; 0; 0; 0; 0; 2; 0; 0; 0; 0; 0; 0; 0; 3; 0; 0; 0; 0; 0; 0; 0]).
Proof. vm_compute. reflexivity. Qed.

Lemma worker_job_final_witness :
  let s := demo_wk {[10 := demo_text_job]} [false; true] (JobQueue None None false) ∅ in
  wpW (worker_job demo_globals 0 (Some 10)) (fun _ s' =>
    exists j', wk_jobs s' !! 10 = Some j' /\ same_job demo_text_job j' /\
      state_is_final (job_st j') = true /\
      (exists n m k, job_states 10 (worker_job demo_globals 0 (Some 10)) s =
         replicate n (job_st demo_text_job) ++ replicate m JOB_STATE_RUNNING ++ replicate (S k) (job_st j')) /\
      (job_st j' = JOB_STATE_CANCELED -> job_cancel_requested j' = true) /\
      (job_cancel_requested demo_text_job = true ->
         job_st j' = JOB_STATE_CANCELED /\ w_fs (wk_world s') = w_fs (wk_world s)) /\
      event_sent (WorkerEvent 1 (job_st j')) (wk_pipe s) (wk_pipe s')) s.
Proof.
  intros s. apply (worker_job_final demo_globals 0 10 demo_text_job s);
    [vm_compute; reflexivity | exact crc_inv_init].
Defined.

Definition demo_third : job := Eval vm_compute in default job_zero (snd demo_table !! 30).

Lemma worker_job_isolated_witness :
  let s := demo_wk (snd demo_table) [] (JobQueue None None false) ∅ in
  wpW (worker_job demo_globals 0 (Some 30)) (fun _ s' =>
    job_inv (fst demo_table, wk_jobs s') /\
    (forall l', l' <> 30 -> wk_jobs s' !! l' = wk_jobs s !! l') /\
    wk_queue s' = wk_queue s /\ wk_nodes s' = wk_nodes s /\
    (forall q, (forall x, q <> job_path (g_storage_results demo_globals) 3 (Some x)) ->
       w_fs (wk_world s') !! q = w_fs (wk_world s) !! q) /\
    w_files (wk_world s') = w_files (wk_world s) /\
    w_live (wk_world s) <= w_live (wk_world s') /\
    (job_get_state (Some 30) (wk_jobs s') <> JOB_STATE_FAILED ->
       w_live (wk_world s') = w_live (wk_world s))) s.
Proof.
  intros s. refine (worker_job_isolated demo_globals 0 (fst demo_table) 30 demo_third s _ _ _).
  - vm_compute. reflexivity.
  - exact crc_inv_init.
  - exact demo_wf.
Defined.

Lemma worker_drains_queue_witness :
  let s := demo_wk demo_two_jobs [] (JobQueue (Some 1) (Some 2) false)
             {[1 := JobNode 10 (Some 2); 2 := JobNode 20 None]} in
  wpW (worker_main demo_globals 0 3) (drained [10; 20] [demo_text_job; demo_decode_job] s) s.
Proof.
  intros s. apply (worker_drains_queue demo_globals 0 3 [10; 20] _ s); try reflexivity.
  - exists [(1, 10); (2, 20)]. split; [|reflexivity]. constructor.
    + split; [reflexivity|]. exists (Some 2). split; [vm_compute; reflexivity|].
      split; [reflexivity|]. exists None. split; vm_compute; reflexivity.
    + reflexivity.
    + eapply bool_decide_unpack. vm_compute. exact I.
    + intros n. cbn -[lookup]. rewrite !elem_of_cons, lookup_insert_is_Some, lookup_singleton_is_Some.
      split; [intros [<-|[_ <-]]; auto|]. intros [->|[->|H]]; [by left|by right|by inversion H].
  - eapply bool_decide_unpack. vm_compute. exact I.
  - repeat constructor; vm_compute; reflexivity.
  - exact crc_inv_init.
  - simpl. lia.
Defined.
