(* ===== verification/ServerState.v ===== *)
(** * The state of the server thread (src/src/server/server.c, include/server.h)

    The server thread owns the sockets, the client sessions and the block
    list, and shares the job table, the queue and the files with the workers.
    A function of server.c is a computation [Srv A] over the whole state; its
    result is [None] only if it reaches undefined behaviour or exhausts the
    fuel of a loop, which the theorems exclude.  The workers act
    between the iterations of the event loop (Threads.v); logging is not modelled.  This file holds the state, the
    responses, the block list and the sessions. *)

From S2P Require Export Protocol Storage Queue Worker Inotify.
#[local] Open Scope Z_scope.

(** ** Constants of include/config.h and include/server.h *)

Definition MAX_CLIENTS : Z := 128.
Definition MAX_POLL_FDS : Z := 256.
Definition MAX_FILENAME_BYTES : Z := 255.
Definition MAX_BLOCKED_IPS : Z := 32.
Definition SMALL_BUFFER_SIZE : Z := 256.

(** ** State *)

Record client_session := ClientSession {
  cs_fd : Z;
  cs_type : client_type;
  cs_active : bool;
  cs_kick_requested : bool;
  cs_addr_str : string;
  cs_connected_at : timespec
}.

(** What [accept] returns: a descriptor, which depends on those that are open,
    its stream, and the address [inet_ntop] gives, if it does. *)
Record accepted := Accepted { ac_fd : gset Z -> Z; ac_conn : conn; ac_addr : option string }.

(** The read end of the pipe of the workers, the reads of the INotify
    descriptor to come, and the lines logged for both. *)
Record notifications := Notifications {
  nt_pipe : conn;
  nt_inotify : list (io_result (list Z));
  nt_watches : watches;
  nt_log : list log_line
}.

Record server := Server {
  sv_world : world;
  sv_storage : storage_globals;
  sv_jobs : job_table;
  sv_heap : job_heap;
  sv_queue : job_queue;
  sv_nodes : node_heap;
  sv_blocklist : list string;          (* the first [count] entries of [ips] *)
  sv_clients : list client_session;    (* the array of [MAX_CLIENTS] sessions *)
  sv_socks : gmap Z conn;              (* the open client sockets *)
  sv_max_upload : Z;                   (* [config.max_upload_bytes] *)
  sv_allocs : list bool;               (* outcome of the next [calloc]s and
                                          mutex initialisations; they succeed
                                          when the list is exhausted *)
  sv_clock : list timespec;            (* the readings of the clock to come *)
  sv_notif : notifications
}.

Definition Srv (A : Type) : Type := server -> option (A * server).

#[export] Instance Srv_ret : MRet Srv := fun A a s => Some (a, s).
#[export] Instance Srv_bind : MBind Srv := fun A B f m s =>
  match m s with Some (a, s) => f a s | None => None end.

Definition gets {A} (f : server -> A) : Srv A := fun s => Some (f s, s).
Definition modify (f : server -> server) : Srv unit := fun s => Some (tt, f s).

Definition sv_set_world (w : world) (s : server) : server :=
  Server w (sv_storage s) (sv_jobs s) (sv_heap s) (sv_queue s) (sv_nodes s) (sv_blocklist s)
    (sv_clients s) (sv_socks s) (sv_max_upload s) (sv_allocs s) (sv_clock s) (sv_notif s).
Definition sv_set_jobs (t : job_table) (h : job_heap) (s : server) : server :=
  Server (sv_world s) (sv_storage s) t h (sv_queue s) (sv_nodes s) (sv_blocklist s)
    (sv_clients s) (sv_socks s) (sv_max_upload s) (sv_allocs s) (sv_clock s) (sv_notif s).
Definition sv_set_queue (q : job_queue) (nodes : node_heap) (s : server) : server :=
  Server (sv_world s) (sv_storage s) (sv_jobs s) (sv_heap s) q nodes (sv_blocklist s)
    (sv_clients s) (sv_socks s) (sv_max_upload s) (sv_allocs s) (sv_clock s) (sv_notif s).
Definition sv_set_blocklist (b : list string) (s : server) : server :=
  Server (sv_world s) (sv_storage s) (sv_jobs s) (sv_heap s) (sv_queue s) (sv_nodes s) b
    (sv_clients s) (sv_socks s) (sv_max_upload s) (sv_allocs s) (sv_clock s) (sv_notif s).
Definition sv_set_clients (cs : list client_session) (s : server) : server :=
  Server (sv_world s) (sv_storage s) (sv_jobs s) (sv_heap s) (sv_queue s) (sv_nodes s) (sv_blocklist s)
    cs (sv_socks s) (sv_max_upload s) (sv_allocs s) (sv_clock s) (sv_notif s).
Definition sv_set_socks (m : gmap Z conn) (s : server) : server :=
  Server (sv_world s) (sv_storage s) (sv_jobs s) (sv_heap s) (sv_queue s) (sv_nodes s) (sv_blocklist s)
    (sv_clients s) m (sv_max_upload s) (sv_allocs s) (sv_clock s) (sv_notif s).
Definition sv_set_oracles (allocs : list bool) (clock : list timespec) (s : server) : server :=
  Server (sv_world s) (sv_storage s) (sv_jobs s) (sv_heap s) (sv_queue s) (sv_nodes s) (sv_blocklist s)
    (sv_clients s) (sv_socks s) (sv_max_upload s) allocs clock (sv_notif s).
Definition sv_set_notif (n : notifications) (s : server) : server :=
  Server (sv_world s) (sv_storage s) (sv_jobs s) (sv_heap s) (sv_queue s) (sv_nodes s) (sv_blocklist s)
    (sv_clients s) (sv_socks s) (sv_max_upload s) (sv_allocs s) (sv_clock s) n.

(** ** Sockets *)

(** A call on the socket [fd]; [bad] is the result on a closed descriptor. *)
Definition on_sock {A} (fd : Z) (bad : A) (f : conn -> option (A * conn)) : Srv A := fun s =>
  match sv_socks s !! fd with
  | None => Some (bad, s)
  | Some c =>
      match f c with
      | Some (a, c) => Some (a, sv_set_socks (<[fd := c]> (sv_socks s)) s)
      | None => None
      end
  end.

(** The same for a call that also uses the files. *)
Definition on_sock_files {A} (fd : Z) (bad : A) (f : conn -> M (option (A * conn))) : Srv A := fun s =>
  match sv_socks s !! fd with
  | None => Some (bad, s)
  | Some c =>
      match f c (sv_world s) with
      | (Some (a, c), w) => Some (a, sv_set_world w (sv_set_socks (<[fd := c]> (sv_socks s)) s))
      | (None, _) => None
      end
  end.

Definition files {A} (m : M A) : Srv A := fun s =>
  let (a, w) := m (sv_world s) in Some (a, sv_set_world w s).

Definition close_fd (fd : Z) : Srv unit := modify (fun s => sv_set_socks (delete fd (sv_socks s)) s).

(** [send_responsef] of the formatted text. *)
Definition send_responsef (fd : Z) (text : string) : Srv Z :=
  if BUFFER_SIZE <=? strlen text then mret (-1) else
  rc ← on_sock fd (-1) (fun c => write_all c (Some (bytes_of_string text)));
  mret (if (rc : Z) <? 0 then -1 else 0).

(** [parse_int_arg]: on a 64-bit machine [long] holds every [int]. *)
Definition parse_int_arg (text : string) : option Z :=
  if strlen text =? 0 then None else
  let r := strtol text in
  if st_erange r || negb (st_any r) || negb (strlen (st_end r) =? 0)
     || (st_value r <? 0) || (2147483647 <? st_value r)
  then None else Some (st_value r).

(** ** The block list *)

(** The index of the first entry equal to [ip]. *)
Fixpoint blocklist_index (bl : list string) (ip : string) : option nat :=
  match bl with
  | [] => None
  | x :: bl => if String.eqb x ip then Some O else Nat.succ <$> blocklist_index bl ip
  end.

Definition blocklist_add (bl : list string) (ip : string) : Z * list string :=
  if strlen ip =? 0 then (-1, bl) else
  match blocklist_index bl ip with
  | Some _ => (0, bl)
  | None =>
      if Z.of_nat (length bl) <? MAX_BLOCKED_IPS then (0, bl ++ [snprintf_s 64 ip]) else (-1, bl)
  end.

(** The inner loop moves the entries after [i] down by one. *)
Definition blocklist_remove (bl : list string) (ip : string) : Z * list string :=
  if strlen ip =? 0 then (-1, bl) else
  match blocklist_index bl ip with
  | Some i => (0, take i bl ++ drop (S i) bl)
  | None => (-1, bl)
  end.

Definition blocklist_contains (bl : list string) (ip : string) : bool :=
  match blocklist_index bl ip with Some _ => true | None => false end.

(** The loops that separate items by [sep] and stop at the first one that
    does not fit. *)
Fixpoint join_loop (sep : string) (items : list string) (size : Z) (buf : string) : string :=
  match items with
  | [] => buf
  | item :: items =>
      let n := if strlen buf =? 0 then 0 else 1 in
      if size <=? strlen buf + n + strlen item + 1 then buf
      else join_loop sep items size
             (snprintf_s size ((if strlen buf =? 0 then EmptyString else buf +:+ sep) +:+ item))
  end.

Definition blocklist_format (bl : list string) (out_size : Z) : string :=
  match bl with
  | [] => snprintf_s out_size "empty"
  | _ => join_loop "," bl out_size EmptyString
  end.

(** ** Sessions *)

(** An entry of the zeroed array, with [fd] set to [-1]. *)
Definition session_zero : client_session :=
  ClientSession (-1) CLIENT_TYPE_UNKNOWN false false EmptyString zero_time.

Definition clients_init : list client_session := replicate (Z.to_nat MAX_CLIENTS) session_zero.

(** [clients[i]]. *)
Definition client_at (i : nat) : Srv client_session := gets (fun s => nth i (sv_clients s) session_zero).
Definition update_client (i : nat) (f : client_session -> client_session) : Srv unit :=
  modify (fun s => sv_set_clients (alter f i (sv_clients s)) s).

Definition closed_session (c : client_session) : client_session :=
  ClientSession (-1) CLIENT_TYPE_UNKNOWN false false EmptyString (cs_connected_at c).

Definition close_client (i : nat) : Srv unit :=
  c ← client_at i;
  if negb (cs_active c) then mret tt else
  _ ← close_fd (cs_fd c);
  update_client i closed_session.

(** The first free slot. *)
Fixpoint free_slot_from (i : nat) (cs : list client_session) : option nat :=
  match cs with
  | [] => None
  | c :: cs => if negb (cs_active c) then Some i else free_slot_from (S i) cs
  end.

Definition next_clock : Srv timespec := fun s =>
  Some (hd zero_time (sv_clock s), sv_set_oracles (sv_allocs s) (tl (sv_clock s)) s).

Definition add_client (fd : Z) (type : client_type) (addr_str : string) : Srv Z :=
  slot ← gets (fun s => free_slot_from 0 (sv_clients s));
  match slot with
  | None => mret (-1)
  | Some i =>
      now ← next_clock;
      _ ← update_client i (fun _ => ClientSession fd type true false (snprintf_s 64 addr_str) now);
      mret 0
  end.

Definition kick (c : client_session) : client_session :=
  ClientSession (cs_fd c) (cs_type c) (cs_active c) true (cs_addr_str c) (cs_connected_at c).

(** [format_client_list]: [active] is counted while the items are printed. *)
Definition client_item (c : client_session) : string :=
  snprintf_s SMALL_BUFFER_SIZE
    ("fd=" +:+ print_d (cs_fd c) +:+ ",type=" +:+
     (if bool_decide (cs_type c = CLIENT_TYPE_ADMIN) then "admin" else "user") +:+
     ",addr=" +:+ cs_addr_str c).

Definition active_clients (cs : list client_session) : list client_session :=
  filter (fun c => cs_active c = true) cs.

Definition format_client_list (cs : list client_session) (buf_size : Z) : string :=
  match active_clients cs with
  | [] => snprintf_s buf_size "empty"
  | l => join_loop ";" (client_item <$> l) buf_size EmptyString
  end.
