(* ===== verification/BlockList.v ===== *)
(** * The block list as a set (src/src/server/server.c)

    The specification of the block list is a set of at most [MAX_BLOCKED_IPS]
    addresses; the array of the server refines it, for addresses that fit an
    entry. *)

From S2P Require Export ServerState.
#[local] Open Scope Z_scope.

(** ** The specification *)

Inductive block_op := OpAdd (ip : string) | OpRemove (ip : string) | OpContains (ip : string).

Definition set_op (op : block_op) (X : gset string) : Z * gset string :=
  match op with
  | OpAdd ip =>
      if bool_decide (ip = EmptyString) then (-1, X)
      else if bool_decide (ip ∈ X) then (0, X)
      else if Z.of_nat (size X) <? MAX_BLOCKED_IPS then (0, {[ip]} ∪ X) else (-1, X)
  | OpRemove ip =>
      if bool_decide (ip = EmptyString) then (-1, X)
      else if bool_decide (ip ∈ X) then (0, X ∖ {[ip]}) else (-1, X)
  | OpContains ip => (if bool_decide (ip ∈ X) then 1 else 0, X)
  end.

(** ** The implementation *)

Definition list_op (op : block_op) (bl : list string) : Z * list string :=
  match op with
  | OpAdd ip => blocklist_add bl ip
  | OpRemove ip => blocklist_remove bl ip
  | OpContains ip => (if blocklist_contains bl ip then 1 else 0, bl)
  end.

(** The results of a sequence of operations. *)
Fixpoint run {S} (step : block_op -> S -> Z * S) (ops : list block_op) (s : S) : list Z * S :=
  match ops with
  | [] => ([], s)
  | op :: ops =>
      let (r, s) := step op s in
      let (rs, s) := run step ops s in (r :: rs, s)
  end.

Record block_rep (bl : list string) (X : gset string) : Prop := BlockRep {
  br_nodup : NoDup bl;
  br_set : X = list_to_set bl;
  br_short : Forall (fun ip => strlen ip < 64) bl
}.

Lemma blocklist_index_spec bl ip :
  match blocklist_index bl ip with
  | Some i => bl !! i = Some ip /\ ip ∉ take i bl
  | None => ip ∉ bl
  end.
Proof.
  induction bl as [|x bl IH]; simpl; [apply not_elem_of_nil|].
  destruct (String.eqb_spec x ip) as [->|Hne]; [split; [done|apply not_elem_of_nil]|].
  destruct (blocklist_index bl ip) as [i|]; simpl.
  - destruct IH as [Hi Hni]. split; [done|]. apply not_elem_of_cons. by split.
  - apply not_elem_of_cons. by split.
Qed.

Lemma strlen_is_zero ip : (strlen ip =? 0) = bool_decide (ip = EmptyString).
Proof.
  destruct ip as [|a s]; [done|]. rewrite strlen_cons, bool_decide_false by done.
  pose proof (strlen_nonneg s). by destruct (Z.eqb_spec (1 + strlen s) 0); [lia|].
Qed.

Lemma rep_member bl X ip :
  block_rep bl X ->
  bool_decide (ip ∈ X) = match blocklist_index bl ip with Some _ => true | None => false end.
Proof.
  intros [_ -> _]. pose proof (blocklist_index_spec bl ip) as H.
  destruct (blocklist_index bl ip) as [i|].
  - apply bool_decide_true, elem_of_list_to_set. destruct H as [H _]. by eapply list_elem_of_lookup_2.
  - apply bool_decide_false. by rewrite elem_of_list_to_set.
Qed.

(** Adding and removing, when they change the list. *)
Lemma rep_add bl X ip :
  block_rep bl X -> ip ∉ bl -> strlen ip < 64 -> block_rep (bl ++ [snprintf_s 64 ip]) ({[ip]} ∪ X).
Proof.
  intros [Hnd -> Hs] Hni Hip. rewrite snprintf_s_fits by done. constructor.
  - apply NoDup_app. split_and!; [done| |apply NoDup_singleton]. by intros x Hx ->%list_elem_of_singleton.
  - rewrite list_to_set_app_L. simpl. set_solver.
  - apply Forall_app. split; [done|]. by apply Forall_singleton.
Qed.

Lemma rep_remove bl X ip i :
  block_rep bl X -> bl !! i = Some ip -> block_rep (take i bl ++ drop (S i) bl) (X ∖ {[ip]}).
Proof.
  intros [Hnd -> Hs] Hi. pose proof (take_drop_middle bl i ip Hi) as Hbl. rewrite <-Hbl in Hnd, Hs.
  apply NoDup_app in Hnd as (H1 & H12 & H2). apply NoDup_cons in H2 as [Hni H2].
  apply Forall_app in Hs as [Hs1 Hs2]. apply Forall_cons in Hs2 as [_ Hs2]. constructor.
  - apply NoDup_app. split_and!; [done| |done]. intros x Hx Hx'. apply (H12 x Hx). by apply elem_of_cons; right.
  - assert (Hni1 : ip ∉ take i bl) by (intros Hin; apply (H12 ip Hin); by left).
    rewrite <-Hbl at 1. rewrite !list_to_set_app_L. simpl. set_solver.
  - by apply Forall_app.
Qed.

Lemma rep_size bl X : block_rep bl X -> size X = length bl.
Proof. intros [Hnd -> _]. by apply size_list_to_set. Qed.

(** An operation on the list is one on the set. *)
Lemma op_refines op bl X :
  block_rep bl X -> (forall ip, op = OpAdd ip -> strlen ip < 64) ->
  fst (list_op op bl) = fst (set_op op X) /\ block_rep (snd (list_op op bl)) (snd (set_op op X)).
Proof.
  intros Hr Hop. destruct op as [ip|ip|ip]; cbn [list_op set_op]; rewrite (rep_member bl X ip Hr);
    pose proof (blocklist_index_spec bl ip) as Hidx.
  - unfold blocklist_add. rewrite strlen_is_zero. destruct (bool_decide (ip = EmptyString)); [done|].
    destruct (blocklist_index bl ip); [done|]. rewrite (rep_size _ _ Hr).
    destruct (_ <? _); [|done]. split; [done|]. apply rep_add; [done|done|by apply Hop].
  - unfold blocklist_remove. rewrite strlen_is_zero. destruct (bool_decide (ip = EmptyString)); [done|].
    destruct (blocklist_index bl ip); [|done]. split; [done|]. apply rep_remove; [done|apply Hidx].
  - unfold blocklist_contains. by destruct (blocklist_index bl ip).
Qed.

(** C20: the block list refines a bounded set of addresses: whatever sequence of
    operations runs, with addresses that fit an entry, the array gives the
    results that the set gives, and represents it without duplicates. *)
Theorem blocklist_refines ops bl X :
  block_rep bl X -> Forall (fun op => forall ip, op = OpAdd ip -> strlen ip < 64) ops ->
  fst (run list_op ops bl) = fst (run set_op ops X) /\
  block_rep (snd (run list_op ops bl)) (snd (run set_op ops X)).
Proof.
  intros Hr Hops. revert bl X Hr. induction Hops as [|op ops Hop _ IH]; intros bl X Hr; [done|].
  destruct (op_refines op bl X Hr Hop) as [H1 H2]. cbn [run].
  destruct (list_op op bl) as [r bl1], (set_op op X) as [r' X1]. simpl in H1, H2. subst r'.
  destruct (IH bl1 X1 H2) as [H3 H4]. destruct (run list_op ops bl1), (run set_op ops X1).
  simpl in *. by subst.
Qed.

(** An address that does not fit is stored truncated, and never found. *)
Lemma long_address_not_blocked bl ip :
  64 <= strlen ip -> Forall (fun ip => strlen ip < 64) bl ->
  blocklist_contains (snd (blocklist_add bl ip)) ip = false.
Proof.
  intros Hip Hs. assert (Hni : forall bl, Forall (fun ip => strlen ip < 64) bl -> blocklist_contains bl ip = false).
  { intros bl' Hs'. unfold blocklist_contains. pose proof (blocklist_index_spec bl' ip) as H.
    destruct (blocklist_index bl' ip) as [i|]; [|done]. destruct H as [H _].
    rewrite Forall_forall in Hs'. specialize (Hs' ip (list_elem_of_lookup_2 _ _ _ H)). lia. }
  unfold blocklist_add. destruct (strlen ip =? 0); [by apply Hni|].
  destruct (blocklist_index bl ip); [by apply Hni|]. destruct (_ <? _); [|by apply Hni].
  apply Hni, Forall_app. split; [done|]. apply Forall_singleton, snprintf_s_len. lia.
Qed.

Lemma blocklist_refines_witness :
  fst (run list_op [OpAdd "10.0.0.1"; OpAdd "10.0.0.1"; OpRemove "10.0.0.2"; OpContains "10.0.0.1";
                    OpRemove "10.0.0.1"; OpContains "10.0.0.1"] []) = [0; 0; -1; 1; 0; 0].
Proof.
  assert (Hr : block_rep [] ∅) by (constructor; [apply NoDup_nil_2|done|apply Forall_nil_2]).
  refine (eq_trans (proj1 (blocklist_refines _ [] ∅ Hr _)) _).
  - repeat (apply Forall_cons_2; [intros ip Hip; simplify_eq; by vm_compute|]). apply Forall_nil_2.
  - vm_compute. reflexivity.
Defined.
