(* ===== verification/Handlers.v ===== *)
(** * Command handlers (src/src/server/server.c)

    What the server does with one request of a user or of an administrator:
    [handle_user_command], [handle_admin_command] and the functions they call.
    A client is named by its index in the array of sessions. *)

From Stdlib Require Import SpecFloat.
From S2P Require Export ServerState.
#[local] Open Scope Z_scope.

(** ** Jobs *)

(** The outcome of an allocation. *)
Definition alloc : Srv bool := fun s =>
  Some (hd true (sv_allocs s), sv_set_oracles (tl (sv_allocs s)) (sv_clock s) s).

(** A job in the block that [calloc] returns, if any. *)
Definition create_job (client : client_session) (type : job_type) (payload input_path : option string)
    : Srv (option loc) :=
  ok ← alloc;
  mutex_ok ← alloc;
  now ← next_clock;
  ((fun s =>
    let addr := if ok : bool then Some (fresh (dom (sv_heap s))) else None in
    let '(r, t, h) := job_table_create_job addr mutex_ok now (sv_jobs s) (sv_heap s)
                        (cs_fd client) (Some (cs_addr_str client)) type payload input_path in
    Some (r, sv_set_jobs t h s)) : Srv (option loc)).

(** A call of job.c that writes the job. *)
Definition job_update_call (f : job_heap -> job_heap) : Srv unit :=
  modify (fun s => sv_set_jobs (sv_jobs s) (f (sv_heap s)) s).
Definition job_call {A} (f : job_heap -> A) : Srv A := gets (fun s => f (sv_heap s)).

Definition queue_push (job : option loc) : Srv Z :=
  ok ← alloc;
  ((fun s =>
    let addr := if ok : bool then Some (fresh (dom (sv_nodes s))) else None in
    match job_queue_push addr (sv_queue s) (sv_nodes s) job with
    | Some (rc, q, nodes) => Some (rc, sv_set_queue q nodes s)
    | None => None
    end) : Srv Z).

Definition enqueue_job (i : nat) (type : job_type) (payload input_path stored_path : option string)
    : Srv Z :=
  client ← client_at i;
  job ← create_job client type payload input_path;
  match job with
  | None => send_responsef (cs_fd client) ("ERR cannot create job" +:+ nl)
  | Some _ =>
      _ ← match stored_path with
          | Some _ => job_update_call (job_set_stored_path job stored_path)
          | None => mret tt
          end;
      rc ← queue_push job;
      if rc <? 0 then
        now ← next_clock;
        _ ← job_update_call (job_set_result job (Some "enqueue failed"%string));
        _ ← job_update_call (job_set_state now job JOB_STATE_FAILED);
        send_responsef (cs_fd client) ("ERR cannot enqueue job" +:+ nl)
      else
        id ← job_call (read_job job 0 job_id);
        send_responsef (cs_fd client) ("JOB " +:+ print_u id +:+ nl)
  end.

(** ** Uploads *)

Definition next_job_id : Srv Z := gets (fun s => jt_next_id (sv_jobs s)).

(** The path of the upload, or [None] for [-1]. *)
Definition receive_png_to_upload (i : nat) (png_size : Z) : Srv (option string) :=
  client ← client_at i;
  max ← gets sv_max_upload;
  if (png_size =? 0) || ((max : Z) <? png_size) then
    _ ← send_responsef (cs_fd client) ("ERR invalid png size" +:+ nl); mret None
  else
    next_id ← next_job_id;
    g ← gets sv_storage;
    match storage_make_upload_path g next_id (Some "png"%string) MAX_JOB_PATH with
    | None => _ ← send_responsef (cs_fd client) ("ERR path build failed" +:+ nl); mret None
    | Some out_path =>
        rc ← on_sock_files (cs_fd client) (-1)
               (fun c => storage_receive_to_file c png_size (Some out_path));
        if (rc : Z) <? 0 then
          _ ← send_responsef (cs_fd client) ("ERR upload failed" +:+ nl); mret None
        else mret (Some out_path)
    end.

(** The empty file made for a size of zero: 0, or the error reported. *)
Definition create_empty (path : string) : M (option string) :=
  fp ← fopen_wb path;
  if negb fp then mret (Some ("ERR cannot create file" +:+ nl)%string) else
  ok ← stdio;
  _ ← fclose;
  if negb ok then mret (Some ("ERR cannot close file" +:+ nl)%string) else mret None.

Definition receive_extra_to_file (fd size max : Z) (label : string) (job_seq : Z) (suffix : string)
    : Srv (option string) :=
  if max <? size then
    _ ← send_responsef fd ("ERR " +:+ label +:+ " too large" +:+ nl); mret None
  else
    g ← gets sv_storage;
    match storage_make_upload_path g job_seq (Some suffix) MAX_JOB_PATH with
    | None => _ ← send_responsef fd ("ERR path build failed" +:+ nl); mret None
    | Some out_path =>
        if size =? 0 then
          err ← files (create_empty out_path);
          match err with
          | Some text => _ ← send_responsef fd text; mret None
          | None => mret (Some out_path)
          end
        else
          rc ← on_sock_files fd (-1) (fun c => storage_receive_to_file c size (Some out_path));
          if (rc : Z) <? 0 then
            _ ← send_responsef fd ("ERR " +:+ label +:+ " receive failed" +:+ nl); mret None
          else mret (Some out_path)
    end.

(** ** Help *)

Definition send_help (fd : Z) : Srv Z :=
  send_responsef fd
    ("OK help user: PING QUIT | ENCODE_TEXT <png_len> <text_len> | " +:+
     "ENCODE_FILE <png_len> <name_len> <file_len> | DECODE <png_len> | " +:+
     "VALIDATE <png_len> | CAPACITY <png_len> | STATUS <id> | RESULT <id> | " +:+
     "META <id> | DOWNLOAD <id> | CANCEL <id>" +:+ nl).

Definition send_admin_help (fd : Z) : Srv Z :=
  send_responsef fd
    ("OK help admin: PING QUIT STATS LISTJOBS HISTORY AVGDURATION LISTCLIENTS | " +:+
     "CANCEL <id> | KICK <fd> | BLOCKIP <ip> | UNBLOCKIP <ip>" +:+ nl).

(** ** Commands of users *)

Definition find_job (id : Z) : Srv (option loc) := gets (fun s => job_table_find (sv_jobs s) (sv_heap s) id).

(** The three commands that upload one image. *)
Definition submit_png (i : nat) (type : job_type) (size : Z) : Srv Z :=
  png ← receive_png_to_upload i size;
  match png with
  | None => mret 0
  | Some png_path => enqueue_job i type None (Some png_path) None
  end.

Definition user_encode_text (i : nat) (fd : Z) (r : protocol_request) : Srv Z :=
  png ← receive_png_to_upload i (rq_size1 r);
  match png with
  | None => mret 0
  | Some png_path =>
      next_id ← next_job_id;
      text ← receive_extra_to_file fd (rq_size2 r) MAX_TEXT_BYTES "text" next_id "txt";
      match text with
      | None => mret 0
      | Some text_path => enqueue_job i JOB_TYPE_ENCODE_TEXT None (Some png_path) (Some text_path)
      end
  end.

(** The name read from the socket: a buffer of zeros receives its bytes. *)
Definition read_filename (fd size : Z) : Srv (option string) :=
  if 0 <? size then
    got ← on_sock fd (-1, []) (fun c =>
            match read_exact c size with
            | Some (rc, bytes, c) => Some ((rc, bytes), c)
            | None => None
            end);
    if negb (fst (got : Z * list Z) =? size) then mret None
    else mret (Some (cstr_of_bytes (snd got)))
  else mret (Some EmptyString).

Definition user_encode_file (i : nat) (fd : Z) (r : protocol_request) : Srv Z :=
  if MAX_FILENAME_BYTES <? rq_size2 r then
    _ ← on_sock fd (-1) (fun c => discard_exact c (u64 (rq_size1 r + rq_size2 r + rq_size3 r)));
    send_responsef fd ("ERR filename too long" +:+ nl)
  else
    png ← receive_png_to_upload i (rq_size1 r);
    match png with
    | None => mret 0
    | Some png_path =>
        name ← read_filename fd (rq_size2 r);
        match name with
        | None => send_responsef fd ("ERR filename read failed" +:+ nl)
        | Some filename =>
            next_id ← next_job_id;
            max ← gets sv_max_upload;
            file ← receive_extra_to_file fd (rq_size3 r) max "file" next_id "data";
            match file with
            | None => mret 0
            | Some file_path =>
                enqueue_job i JOB_TYPE_ENCODE_FILE (Some filename) (Some png_path) (Some file_path)
            end
        end
    end.

(** The two commands whose argument is a path of the server. *)
Definition submit_path (i : nat) (fd : Z) (type : job_type) (r : protocol_request) : Srv Z :=
  if strlen (rq_argument1 r) =? 0 then send_responsef fd ("ERR empty path" +:+ nl)
  else enqueue_job i type None (Some (rq_argument1 r)) None.

Definition user_status (fd id : Z) : Srv Z :=
  job ← find_job id;
  match job with
  | None => send_responsef fd ("ERR job not found" +:+ nl)
  | Some _ =>
      st ← job_call (job_get_state job);
      send_responsef fd ("STATUS " +:+ print_u id +:+ " " +:+ job_state_to_string st +:+ nl)
  end.

Definition user_result (fd id : Z) : Srv Z :=
  job ← find_job id;
  match job with
  | None => send_responsef fd ("ERR job not found" +:+ nl)
  | Some _ =>
      st ← job_call (job_get_state job);
      if negb (state_is_final st) then
        send_responsef fd ("ERR job not finished state=" +:+ job_state_to_string st +:+ nl)
      else
        result ← job_call (job_get_result job EmptyString MAX_JOB_RESULT);
        send_responsef fd ("RESULT " +:+ print_u id +:+ " state=" +:+ job_state_to_string st +:+
                           " msg=" +:+ result +:+ nl)
  end.

Definition user_meta (fd id : Z) : Srv Z :=
  job ← find_job id;
  match job with
  | None => send_responsef fd ("ERR job not found" +:+ nl)
  | Some _ =>
      st ← job_call (job_get_state job);
      if negb (bool_decide (st = JOB_STATE_DONE)) then send_responsef fd ("ERR job not done" +:+ nl)
      else
        meta ← job_call (job_get_result_meta job (JOB_RESULT_NONE, 0, EmptyString) MAX_JOB_FILENAME);
        let '(kind, size, filename) := (meta : job_result_kind * Z * string) in
        send_responsef fd ("META " +:+ print_u id +:+ " type=" +:+ job_result_kind_to_string kind +:+
                           " size=" +:+ print_u size +:+ " name=" +:+ filename +:+ nl)
  end.

Definition user_download (fd id : Z) : Srv Z :=
  job ← find_job id;
  match job with
  | None => send_responsef fd ("ERR job not found" +:+ nl)
  | Some _ =>
      st ← job_call (job_get_state job);
      if negb (bool_decide (st = JOB_STATE_DONE)) then send_responsef fd ("ERR job not done" +:+ nl)
      else
        path ← job_call (job_get_output_path job EmptyString MAX_JOB_PATH);
        if strlen path =? 0 then send_responsef fd ("ERR no output" +:+ nl) else
        size ← files (get_file_size_bytes path);
        match size with
        | None => send_responsef fd ("ERR stat failed" +:+ nl)
        | Some size =>
            rc ← send_responsef fd ("DATA " +:+ print_d size +:+ nl);
            if rc <? 0 then mret (-1) else
            rc ← on_sock_files fd (-1) (fun c => storage_send_file c (Some path));
            if (rc : Z) <? 0 then mret (-1) else mret 0
        end
  end.

(** CANCEL of a user and of an administrator differ in one message. *)
Definition cancel_job (fd id : Z) (refused : string) : Srv Z :=
  job ← find_job id;
  match job with
  | None => send_responsef fd ("ERR job not found" +:+ nl)
  | Some _ =>
      ok ← job_call (fun h => fst (job_request_cancel job h));
      if negb ok then send_responsef fd (refused +:+ nl) else
      _ ← job_update_call (fun h => snd (job_request_cancel job h));
      send_responsef fd ("OK cancel requested " +:+ print_u id +:+ nl)
  end.

Definition handle_user_command (i : nat) (r : protocol_request) : Srv Z :=
  client ← client_at i;
  let fd := cs_fd client in
  match rq_command r with
  | PROTO_CMD_PING => send_responsef fd ("PONG" +:+ nl)
  | PROTO_CMD_HELP => send_help fd
  | PROTO_CMD_SUBMIT =>
      if strlen (rq_argument1 r) =? 0 then send_responsef fd ("ERR empty payload" +:+ nl)
      else enqueue_job i JOB_TYPE_TEXT (Some (rq_argument1 r)) None None
  | PROTO_CMD_ENCODE_TEXT => user_encode_text i fd r
  | PROTO_CMD_ENCODE_FILE => user_encode_file i fd r
  | PROTO_CMD_DECODE => submit_png i JOB_TYPE_DECODE (rq_size1 r)
  | PROTO_CMD_VALIDATE => submit_png i JOB_TYPE_VALIDATE_IMAGE (rq_size1 r)
  | PROTO_CMD_CAPACITY => submit_png i JOB_TYPE_ANALYZE_CAPACITY (rq_size1 r)
  | PROTO_CMD_VALIDATE_IMAGE => submit_path i fd JOB_TYPE_VALIDATE_IMAGE r
  | PROTO_CMD_ANALYZE_CAPACITY => submit_path i fd JOB_TYPE_ANALYZE_CAPACITY r
  | PROTO_CMD_STATUS => user_status fd (rq_job_id r)
  | PROTO_CMD_RESULT => user_result fd (rq_job_id r)
  | PROTO_CMD_META => user_meta fd (rq_job_id r)
  | PROTO_CMD_DOWNLOAD => user_download fd (rq_job_id r)
  | PROTO_CMD_CANCEL => cancel_job fd (rq_job_id r) "ERR cannot cancel job"
  | PROTO_CMD_QUIT => _ ← send_responsef fd ("BYE" +:+ nl); _ ← close_client i; mret 0
  | PROTO_CMD_LISTJOBS | PROTO_CMD_STATS | PROTO_CMD_LISTCLIENTS | PROTO_CMD_HISTORY
  | PROTO_CMD_AVGDURATION | PROTO_CMD_KICK | PROTO_CMD_BLOCKIP | PROTO_CMD_UNBLOCKIP =>
      send_responsef fd ("ERR admin command" +:+ nl)
  | PROTO_CMD_UNKNOWN => send_responsef fd ("ERR unknown command" +:+ nl)
  end.

(** ** Commands of administrators *)

(** [printf("%.2f", x)]. *)
Definition print_f2 (x : double) : string :=
  let minus (s : bool) := if s then "-"%string else EmptyString in
  match x with
  | S754_zero s => minus s +:+ "0.00"
  | S754_infinity s => minus s +:+ "inf"
  | S754_nan => "nan"
  | S754_finite s m e =>
      let n := if 0 <=? e then 100 * (Z.pos m * 2 ^ e)
               else round_half_even (100 * Z.pos m) (2 ^ (- e)) in
      minus s +:+ print_u (n / 100) +:+ "." +:+ print_u (n mod 100 / 10) +:+ print_u (n mod 10)
  end.

Definition admin_stats (fd : Z) : Srv Z :=
  st ← gets (fun s => job_table_collect_stats (sv_jobs s) (sv_heap s));
  n ← gets (fun s => Z.of_nat (length (active_clients (sv_clients s))));
  send_responsef fd
    ("STATS total=" +:+ print_u (st_total st) +:+ " queued=" +:+ print_u (st_queued st) +:+
     " running=" +:+ print_u (st_running st) +:+ " done=" +:+ print_u (st_done st) +:+
     " failed=" +:+ print_u (st_failed st) +:+ " canceled=" +:+ print_u (st_canceled st) +:+
     " avg_ms=" +:+ print_f1 (st_avg_duration_ms st) +:+ " clients=" +:+ print_u n +:+ nl).

Definition admin_avgduration (fd : Z) : Srv Z :=
  st ← gets (fun s => job_table_collect_stats (sv_jobs s) (sv_heap s));
  send_responsef fd ("AVGDURATION ms=" +:+ print_f2 (st_avg_duration_ms st) +:+
                     " samples=" +:+ print_u (u64 (st_done st + st_failed st)) +:+ nl).

Definition admin_listjobs (fd : Z) : Srv Z :=
  list ← gets (fun s => job_table_format_list (sv_jobs s) (sv_heap s) (BUFFER_SIZE * 2));
  match list with
  | None => send_responsef fd ("ERR list failed" +:+ nl)
  | Some list => send_responsef fd ("JOBS " +:+ list +:+ nl)
  end.

Definition admin_history (fd : Z) : Srv Z :=
  hist ← gets (fun s => job_table_format_history (sv_jobs s) (sv_heap s) (BUFFER_SIZE * 2) 50);
  match hist with
  | None => send_responsef fd ("ERR history failed" +:+ nl)
  | Some hist => send_responsef fd ("HISTORY " +:+ hist +:+ nl)
  end.

(** The first session the loop of KICK accepts. *)
Definition kick_target (fd : Z) (c : client_session) : bool :=
  cs_active c && (cs_fd c =? fd) && bool_decide (cs_type c = CLIENT_TYPE_USER).

Definition admin_kick (fd : Z) (arg : string) : Srv Z :=
  match parse_int_arg arg with
  | None => send_responsef fd ("ERR invalid fd" +:+ nl)
  | Some target_fd =>
      target ← gets (fun s => list_find (fun c => kick_target target_fd c = true) (sv_clients s));
      match target with
      | None => send_responsef fd ("ERR client not found" +:+ nl)
      | Some (i, _) =>
          _ ← update_client i kick;
          _ ← send_responsef target_fd ("ERR kicked by admin" +:+ nl);
          send_responsef fd ("OK kicked fd=" +:+ print_d target_fd +:+ nl)
      end
  end.

(** The sessions BLOCKIP marks. *)
Definition blocked_session (ip : string) (c : client_session) : bool :=
  cs_active c && bool_decide (cs_type c = CLIENT_TYPE_USER) && String.eqb (cs_addr_str c) ip.

Definition admin_blockip (fd : Z) (ip : string) : Srv Z :=
  if strlen ip =? 0 then send_responsef fd ("ERR empty ip" +:+ nl) else
  bl ← gets sv_blocklist;
  let (rc, bl) := blocklist_add bl ip in
  _ ← modify (sv_set_blocklist bl);
  if rc <? 0 then send_responsef fd ("ERR blocklist full" +:+ nl) else
  kicked ← gets (fun s => Z.of_nat (length (filter (fun c => blocked_session ip c = true) (sv_clients s))));
  _ ← modify (fun s => sv_set_clients
        ((fun c => if blocked_session ip c then kick c else c) <$> sv_clients s) s);
  send_responsef fd ("OK blocked ip=" +:+ ip +:+ " kicked=" +:+ print_d kicked +:+ nl).

Definition admin_unblockip (fd : Z) (ip : string) : Srv Z :=
  if strlen ip =? 0 then send_responsef fd ("ERR empty ip" +:+ nl) else
  bl ← gets sv_blocklist;
  let (rc, bl) := blocklist_remove bl ip in
  _ ← modify (sv_set_blocklist bl);
  if rc <? 0 then send_responsef fd ("ERR not in blocklist" +:+ nl) else
  send_responsef fd ("OK unblocked ip=" +:+ ip +:+ " blocklist=" +:+ blocklist_format bl BUFFER_SIZE +:+ nl).

Definition handle_admin_command (i : nat) (r : protocol_request) : Srv Z :=
  admin ← client_at i;
  let fd := cs_fd admin in
  match rq_command r with
  | PROTO_CMD_PING => send_responsef fd ("PONG" +:+ nl)
  | PROTO_CMD_HELP => send_admin_help fd
  | PROTO_CMD_STATS => admin_stats fd
  | PROTO_CMD_AVGDURATION => admin_avgduration fd
  | PROTO_CMD_LISTJOBS => admin_listjobs fd
  | PROTO_CMD_HISTORY => admin_history fd
  | PROTO_CMD_LISTCLIENTS =>
      list ← gets (fun s => format_client_list (sv_clients s) (BUFFER_SIZE * 2));
      send_responsef fd ("CLIENTS " +:+ list +:+ nl)
  | PROTO_CMD_CANCEL => cancel_job fd (rq_job_id r) "ERR cannot cancel"
  | PROTO_CMD_KICK => admin_kick fd (rq_argument1 r)
  | PROTO_CMD_BLOCKIP => admin_blockip fd (rq_argument1 r)
  | PROTO_CMD_UNBLOCKIP => admin_unblockip fd (rq_argument1 r)
  | PROTO_CMD_QUIT => _ ← send_responsef fd ("BYE" +:+ nl); _ ← close_client i; mret 0
  | _ => send_responsef fd ("ERR unknown admin command" +:+ nl)
  end.

(** ** One line of a client *)

Definition handle_client_command (i : nat) : Srv unit :=
  client ← client_at i;
  line ← on_sock (cs_fd client) (-1, []) (fun c =>
           match read_line c BUFFER_SIZE with
           | Some (rc, bytes, c) => Some ((rc, bytes), c)
           | None => None
           end);
  let (rc, bytes) := (line : Z * list Z) in
  if rc <=? 0 then close_client i else
  match protocol_parse_line (Some (cstr_of_bytes bytes)) with
  | None => _ ← send_responsef (cs_fd client) ("ERR parse failed" +:+ nl); mret tt
  | Some request =>
      if bool_decide (cs_type client = CLIENT_TYPE_ADMIN)
      then _ ← handle_admin_command i request; mret tt
      else _ ← handle_user_command i request; mret tt
  end.
