(* ===== verification/ServerLoop.v ===== *)
(** * The event loop (src/src/server/server.c)

    Accepting connections, the array of [pollfd]s, the notifications of the
    workers and of INotify, one iteration of the loop of [server_run], and the
    release of the sessions, the queue and the jobs.  What [server_run] does
    before and after is in Startup.v and ServerMain.v. *)

From S2P Require Export Handlers.
#[local] Open Scope Z_scope.

(** ** Connections *)

(** The descriptor that [accept] returns. *)
Definition open_fd (a : accepted) : Srv Z := fun s =>
  let fd := ac_fd a (dom (sv_socks s)) in
  Some (fd, sv_set_socks (<[fd := ac_conn a]> (sv_socks s)) s).

(** A connection that is turned away. *)
Definition reject (fd : Z) (text : string) : Srv Z :=
  _ ← send_responsef fd (text +:+ nl); _ ← close_fd fd; mret 0.

Definition is_admin (c : client_session) : bool :=
  cs_active c && bool_decide (cs_type c = CLIENT_TYPE_ADMIN).

Definition accept_new_inet_connection (acc : option accepted) (type : client_type)
    (single_admin_only : bool) : Srv Z :=
  match acc with
  | None => mret (-1)
  | Some a =>
      client_fd ← open_fd a;
      let addr_str := default "unknown"%string (ac_addr a) in
      bl ← gets sv_blocklist;
      if bool_decide (type = CLIENT_TYPE_USER) && blocklist_contains bl addr_str then
        reject client_fd "ERR ip blocked"
      else
        admin ← gets (fun s => existsb is_admin (sv_clients s));
        if single_admin_only && admin then reject client_fd "ERR admin already connected" else
        rc ← add_client client_fd type addr_str;
        if rc <? 0 then reject client_fd "ERR server full" else
        _ ← send_responsef client_fd ("OK connected" +:+ nl); mret 0
  end.

Definition accept_new_unix_connection (acc : option accepted) : Srv Z :=
  match acc with
  | None => mret (-1)
  | Some a =>
      client_fd ← open_fd a;
      rc ← add_client client_fd CLIENT_TYPE_USER "unix-local";
      if rc <? 0 then reject client_fd "ERR server full" else
      _ ← send_responsef client_fd ("OK connected" +:+ nl); mret 0
  end.

(** ** The array of [pollfd]s *)

Definition POLLIN : Z := 1.
Definition POLLERR : Z := 8.
Definition POLLHUP : Z := 16.

Record pollfd := Pollfd { pfd_fd : Z; pfd_events : Z; pfd_revents : Z }.

Definition watch (fd : Z) : pollfd := Pollfd fd POLLIN 0.

(** The stores of [rebuild_pollfds] for one descriptor after the other. *)
Fixpoint rebuild_loop (fds : list Z) (pfds : list pollfd) (idx : nat) : list pollfd * nat :=
  match fds with
  | [] => (pfds, idx)
  | fd :: fds => rebuild_loop fds (<[idx := watch fd]> pfds) (S idx)
  end.

(** [fixed] are the three listening sockets, the pipe and the INotify
    descriptor; [pfds] is what the array holds before. *)
Definition rebuild_pollfds (fixed : list Z) (clients : list client_session) (pfds : list pollfd)
    : list pollfd * nat :=
  let (pfds, idx) := rebuild_loop fixed pfds 0 in
  rebuild_loop (cs_fd <$> active_clients clients) pfds idx.

(** [poll] sets [revents] in the entries it was given. *)
Fixpoint set_revents (revents : list Z) (pfds : list pollfd) : list pollfd :=
  match revents, pfds with
  | r :: revents, p :: pfds => Pollfd (pfd_fd p) (pfd_events p) r :: set_revents revents pfds
  | _, _ => pfds
  end.

Definition revents_at (pfds : list pollfd) (idx : nat) : Z :=
  pfd_revents (nth idx pfds (Pollfd 0 0 0)).

Definition readable (pfds : list pollfd) (idx : nat) : bool :=
  negb (Z.land (revents_at pfds idx) POLLIN =? 0).
Definition has_events (pfds : list pollfd) (idx : nat) : bool :=
  negb (Z.land (revents_at pfds idx) (Z.lor (Z.lor POLLIN POLLHUP) POLLERR) =? 0).

(** ** Notifications of the workers *)

Definition event_of_bytes (bytes : list Z) : log_line :=
  LogEvent (from_le (take 8 bytes)) (from_le (take 4 (drop 8 bytes))).

(** The loop of [handle_worker_pipe]; an empty pipe ends it like the end of
    the stream does. *)
Fixpoint drain_loop (fuel : nat) (c : conn) (log : list log_line) : option (list log_line * conn) :=
  match fuel with
  | O => None
  | S fuel =>
      match read 16 c with
      | (IoEINTR, c) => drain_loop fuel c log
      | (IoFAIL, c) => Some (log ++ [LogPipeFailed], c)
      | (IoOK [], c) => Some (log, c)
      | (IoOK bytes, c) =>
          if Z.of_nat (length bytes) =? 16 then drain_loop fuel c (log ++ [event_of_bytes bytes])
          else drain_loop fuel c (log ++ [LogPartial])
      end
  end.

Definition handle_worker_pipe (c : conn) : option (list log_line * conn) :=
  drain_loop (S (length (cn_rsched c) + length (cn_in c))) c [].

(** The two handlers of notifications in the loop. *)
Definition on_pipe : Srv unit := fun s =>
  let n := sv_notif s in
  match handle_worker_pipe (nt_pipe n) with
  | Some (log, c) =>
      Some (tt, sv_set_notif (Notifications c (nt_inotify n) (nt_watches n) (nt_log n ++ log)) s)
  | None => None
  end.
Definition on_inotify : Srv unit := fun s =>
  let n := sv_notif s in
  match handle_inotify_events (sv_storage s) (nt_watches n) (nt_inotify n) with
  | Some (log, reads) =>
      Some (tt, sv_set_notif (Notifications (nt_pipe n) reads (nt_watches n) (nt_log n ++ log)) s)
  | None => None
  end.

(** ** One iteration *)

(** What the system answers in an iteration. *)
Record poll_input := PollInput {
  pi_stack : list pollfd;            (* the array [pfds] before it is filled *)
  pi_ready : option Z;               (* what [poll] returns; [None] with EINTR *)
  pi_revents : list Z;
  pi_user : option accepted;
  pi_admin : option accepted;
  pi_unix : option accepted
}.

(** The loop over the clients: [n] slots from [i] on, with the index [idx]
    into [pfds]. *)
Fixpoint client_loop (n i idx : nat) (pfds : list pollfd) : Srv unit :=
  match n with
  | O => mret tt
  | S n =>
      c ← client_at i;
      if negb (cs_active c) then client_loop n (S i) idx pfds else
      _ ← (if has_events pfds idx then handle_client_command i else mret tt);
      client_loop n (S i) (S idx) pfds
  end.

(** The loop that closes the sessions marked by KICK and BLOCKIP. *)
Fixpoint kick_loop (n i : nat) : Srv unit :=
  match n with
  | O => mret tt
  | S n =>
      c ← client_at i;
      _ ← (if cs_active c && cs_kick_requested c then close_client i else mret tt);
      kick_loop n (S i)
  end.

Inductive loop_outcome := LoopContinue | LoopBreak.

Definition poll_iteration (fixed : list Z) (inp : poll_input) : Srv loop_outcome :=
  clients ← gets sv_clients;
  let (pfds, nfds) := rebuild_pollfds fixed clients (pi_stack inp) in
  match pi_ready inp with
  | None => mret LoopContinue
  | Some ready =>
      if ready <? 0 then mret LoopBreak else
      let pfds := set_revents (take nfds (pi_revents inp)) pfds in
      _ ← (if 0 <? ready then
             _ ← (if readable pfds 0 then accept_new_inet_connection (pi_user inp) CLIENT_TYPE_USER false
                  else mret 0);
             _ ← (if readable pfds 1 then accept_new_inet_connection (pi_admin inp) CLIENT_TYPE_ADMIN true
                  else mret 0);
             _ ← (if readable pfds 2 then accept_new_unix_connection (pi_unix inp) else mret 0);
             _ ← (if readable pfds 3 then on_pipe else mret tt);
             _ ← (if readable pfds 4 then on_inotify else mret tt);
             client_loop (Z.to_nat MAX_CLIENTS) 0 5 pfds
           else mret tt);
      _ ← kick_loop (Z.to_nat MAX_CLIENTS) 0;
      mret LoopContinue
  end.

(** The loop of [server_run]; [inputs] are its iterations until a signal clears
    [g_running]. *)
Fixpoint server_loop (fixed : list Z) (inputs : list poll_input) : Srv loop_outcome :=
  match inputs with
  | [] => mret LoopContinue
  | inp :: inputs =>
      o ← poll_iteration fixed inp;
      match o with LoopBreak => mret LoopBreak | LoopContinue => server_loop fixed inputs end
  end.

(** ** The release of the resources *)

Fixpoint close_clients (n i : nat) : Srv unit :=
  match n with
  | O => mret tt
  | S n => _ ← close_client i; close_clients n (S i)
  end.

(** What [stop_workers] does in the server thread before it joins the workers;
    the actions of the workers and the joins are [stopping] and [joined] of
    ServerMain.v. *)
Definition stop_workers : Srv unit :=
  modify (fun s => sv_set_queue (job_queue_stop (sv_queue s)) (sv_nodes s) s).

Definition cleanup_server_state (workers_started queue_initialized jobs_initialized : bool) : Srv unit :=
  _ ← (if workers_started then stop_workers else mret tt);
  _ ← close_clients (Z.to_nat MAX_CLIENTS) 0;
  _ ← (if queue_initialized then
         ((fun s => match job_queue_destroy (sv_queue s) (sv_nodes s) with
                    | Some (q, nodes) => Some (tt, sv_set_queue q nodes s)
                    | None => None
                    end) : Srv unit)
       else mret tt);
  if jobs_initialized then
    modify (fun s => let (t, h) := job_table_destroy (sv_jobs s) (sv_heap s) in sv_set_jobs t h s)
  else mret tt.

(** The state before the first iteration. *)
Definition server_init (w : world) (g : storage_globals) (max_upload : Z) (allocs : list bool)
    (clock : list timespec) (n : notifications) : server :=
  Server w g job_table_init ∅ (snd (job_queue_init true true)) ∅ [] clients_init ∅ max_upload allocs clock n.
