(* ===== verification/ServerSafe.v ===== *)
(** * Safety of the command handlers (src/src/server/server.c)

    The logic of the server monad, the invariant of the state of the server,
    the frame of a command (what the command of one client may change), and
    the proof that every handler keeps the invariant and respects the frame. *)

From S2P Require Export ServerLoop WorkerCorrect.
#[local] Open Scope Z_scope.

(** ** The logic of [Srv]: total correctness *)

Definition wpS {A} (m : Srv A) (Q : A -> server -> Prop) (s : server) : Prop :=
  match m s with Some (a, s') => Q a s' | None => False end.

Section wpS_rules.
Context {A B : Type}.

Lemma wpS_ret (a : A) (Q : A -> server -> Prop) s : Q a s -> wpS (mret a) Q s.
Proof. done. Qed.

Lemma wpS_bind (m : Srv A) (f : A -> Srv B) (Q : B -> server -> Prop) s :
  wpS m (fun a => wpS (f a) Q) s -> wpS (m ≫= f) Q s.
Proof. unfold wpS, mbind, Srv_bind. by destruct (m s) as [[]|]. Qed.

Lemma wpS_conseq (m : Srv A) (P Q : A -> server -> Prop) s :
  wpS m P s -> (forall a s', P a s' -> Q a s') -> wpS m Q s.
Proof. unfold wpS. destruct (m s) as [[]|]; auto. Qed.
Lemma wpS_and (m : Srv A) (P Q : A -> server -> Prop) s :
  wpS m P s -> wpS m Q s -> wpS m (fun a s' => P a s' /\ Q a s') s.
Proof. unfold wpS. by destruct (m s) as [[]|]. Qed.

Lemma wpS_gets (f : server -> A) (k : A -> Srv B) (Q : B -> server -> Prop) s :
  wpS (k (f s)) Q s -> wpS (gets f ≫= k) Q s.
Proof. done. Qed.
End wpS_rules.

(** ** The invariant *)

Definition session (s : server) (i : nat) : client_session := nth i (sv_clients s) session_zero.

Record srv_inv (s : server) : Prop := SrvInv {
  si_jobs : job_inv (sv_jobs s, sv_heap s);
  si_queue : exists js, queue_holds (sv_queue s) (sv_nodes s) js /\
    Forall (fun l => is_Some (sv_heap s !! l)) js;
  si_clients : length (sv_clients s) = Z.to_nat MAX_CLIENTS;
  (** Each open socket belongs to one active session. *)
  si_open : forall fd, is_Some (sv_socks s !! fd) <->
    exists i, cs_active (session s i) = true /\ cs_fd (session s i) = fd;
  si_distinct : forall i j, cs_active (session s i) = true -> cs_active (session s j) = true ->
    cs_fd (session s i) = cs_fd (session s j) -> i = j;
  si_admin : forall i j, is_admin (session s i) = true -> is_admin (session s j) = true -> i = j;
  si_block : Z.of_nat (length (sv_blocklist s)) <= MAX_BLOCKED_IPS /\
    Forall (fun ip => strlen ip < 64) (sv_blocklist s);
  si_inotify : inotify_reads_ok (nt_inotify (sv_notif s))
}.

(** Each job is queued, or in a final state: no job is lost.  (A worker that
    holds a job keeps it for one step of the system.) *)
Definition tracked (s : server) : Prop :=
  forall js, queue_holds (sv_queue s) (sv_nodes s) js -> NoDup js /\
    forall l j, sv_heap s !! l = Some j ->
      if bool_decide (l ∈ js) then job_st j = JOB_STATE_QUEUED else state_is_final (job_st j) = true.

(** ** The frame of a command of the client at [i] with descriptor [fd] *)

(** Another session may only be marked for removal. *)
Definition marked (c c' : client_session) : Prop := c' = c \/ c' = kick c.

(** Another socket may only get output. *)
Definition only_output (c c' : option conn) : Prop :=
  match c, c' with
  | None, None => True
  | Some c, Some c' => cn_in c' = cn_in c /\ cn_rsched c' = cn_rsched c
  | _, _ => False
  end.

(** No job changes its state. *)
Definition states_kept (h h' : job_heap) : Prop :=
  forall l, is_Some (h !! l) -> job_st <$> h' !! l = job_st <$> h !! l.

Lemma states_kept_refl h : states_kept h h.
Proof. done. Qed.

Lemma states_kept_trans h1 h2 h3 : states_kept h1 h2 -> states_kept h2 h3 -> states_kept h1 h3.
Proof.
  intros H1 H2 l Hl. rewrite H2, H1; [done..|]. specialize (H1 l Hl). destruct Hl as [j Hj].
  rewrite Hj in H1. destruct (h2 !! l); [by eexists|done].
Qed.

(** ** Submissions

    What a command does to the jobs, as far as the workers are concerned: it
    may add jobs, each with the next identifier, which are queued or have
    failed; it changes neither the state of a job nor the jobs that wait.  A
    job that is queued works on uploads of its own. *)

Definition jobs_view : Type := job_table * job_heap * job_queue * node_heap.
Definition view_of (s : server) : jobs_view := (sv_jobs s, sv_heap s, sv_queue s, sv_nodes s).

Definition ident (j : job) : Z * job_state := (job_id j, job_st j).

(** A job but for the flag of cancellation. *)
Definition body (j : job) : job := with_cancel j.

(** The suffixes of the uploads of a kind of job: the image, and the payload. *)
Definition upload_suffixes (type : job_type) : option (option string) :=
  match type with
  | JOB_TYPE_ENCODE_TEXT => Some (Some "txt"%string)
  | JOB_TYPE_ENCODE_FILE => Some (Some "data"%string)
  | JOB_TYPE_DECODE => Some None
  | _ => None
  end.

(** A job that hides or extracts reads the uploads made for its identifier. *)
Definition own_uploads (g : storage_globals) (j : job) : Prop :=
  let upload x := job_path (g_storage_uploads g) (job_id j) (Some x) in
  match upload_suffixes (job_kind j) with
  | None => True
  | Some payload => job_input_path j = upload "png"%string /\
      match payload with Some x => job_stored_path j = upload x | None => True end
  end.

Lemma own_uploads_body g j j' : body j' = body j -> own_uploads g j -> own_uploads g j'.
Proof.
  destruct j, j'. unfold body, with_cancel, own_uploads. cbn. intros H. injection H. intros. by subst.
Qed.

Inductive submit_step (g : storage_globals) : jobs_view -> jobs_view -> Prop :=
  | submit_none t h q n t' h' q' n' :
      (forall l, body <$> h' !! l = body <$> h !! l) -> jt_next_id t' = jt_next_id t ->
      (forall js, queue_holds q n js -> queue_holds q' n' js) ->
      submit_step g (t, h, q, n) (t', h', q', n')
  | submit_job l (queued : bool) t h q n t' h' q' n' :
      h !! l = None ->
      ident <$> h' !! l = Some (jt_next_id t, if queued then JOB_STATE_QUEUED else JOB_STATE_FAILED) ->
      (forall l', l' <> l -> body <$> h' !! l' = body <$> h !! l') ->
      jt_next_id t' = jt_next_id t + 1 ->
      (forall js, queue_holds q n js -> queue_holds q' n' (if queued then (js ++ [l])%list else js)) ->
      (queued = true -> forall j, h' !! l = Some j -> own_uploads g j) ->
      submit_step g (t, h, q, n) (t', h', q', n').

Abbreviation submits s s' := (rtc (submit_step (sv_storage s)) (view_of s) (view_of s')).

(** [held] are the jobs that workers took from the queue and have not finished. *)
Definition tracked_but (held : gset loc) (v : jobs_view) : Prop :=
  let '(_, h, q, n) := v in exists js, queue_holds q n js /\ NoDup js /\
    (forall l, l ∈ js -> (l ∉ held) /\ is_Some (h !! l)) /\ (forall l, l ∈ held -> is_Some (h !! l)) /\
    forall l j, h !! l = Some j ->
      if bool_decide (l ∈ js) then job_st j = JOB_STATE_QUEUED else l ∈ held \/ state_is_final (job_st j) = true.

Lemma body_live (h h' : job_heap) l : body <$> h' !! l = body <$> h !! l -> is_Some (h !! l) -> is_Some (h' !! l).
Proof. intros H [j Hj]. rewrite Hj in H. destruct (h' !! l); [by eexists|done]. Qed.

Lemma body_ident (h h' : job_heap) l : body <$> h' !! l = body <$> h !! l -> ident <$> h' !! l = ident <$> h !! l.
Proof.
  intros H. destruct (h' !! l) as [j'|], (h !! l) as [j|]; try done. injection H. intros. unfold ident. cbn. congruence.
Qed.

Lemma ident_of (h h' : job_heap) l j :
  ident <$> h' !! l = ident <$> h !! l -> h' !! l = Some j ->
  exists j0, h !! l = Some j0 /\ job_id j = job_id j0 /\ job_st j = job_st j0.
Proof. intros H Hj. rewrite Hj in H. destruct (h !! l) as [j0|]; [|done]. injection H as ??. by exists j0. Qed.

Lemma submit_step_tracked g held v v' : submit_step g v v' -> tracked_but held v -> tracked_but held v'.
Proof.
  destruct 1 as [t h q n t' h' q' n' Hh _ Hq|l queued t h q n t' h' q' n' Hl Hnew Hh _ Hq _];
    intros (js & Hjs & Hnd & Hlive & Hheld & Hall).
  - exists js. split_and!; [by apply Hq|done| | |].
    + intros l [? Hl]%Hlive. split; [done|]. by apply (body_live h).
    + intros l Hl%Hheld. by apply (body_live h).
    + intros l j Hj. destruct (ident_of _ _ _ _ (body_ident _ _ _ (Hh l)) Hj) as (j0 & Hj0 & _ & ->). by apply Hall.
  - assert (Hfresh : l ∉ js) by (intros [_ Hin]%Hlive; rewrite Hl in Hin; by destruct Hin).
    assert (Hnh : l ∉ held) by (intros Hin%Hheld; rewrite Hl in Hin; by destruct Hin).
    assert (Hne : forall l', is_Some (h !! l') -> l' <> l) by (intros l' [? ?] ->; congruence).
    assert (Hkeep : forall l', is_Some (h !! l') -> is_Some (h' !! l'))
      by (intros l' Hl'; eapply body_live; [by apply Hh, Hne|done]).
    assert (Hnl : is_Some (h' !! l)) by (destruct (h' !! l); [by eexists|done]).
    assert (Hin : forall l', l' ∈ (if queued then js ++ [l] else js) <-> l' ∈ js \/ queued = true /\ l' = l).
    { intros l'. destruct queued; [rewrite elem_of_app, list_elem_of_singleton; tauto|].
      split; [by left|by intros [?|[? _]]]. }
    exists (if queued then js ++ [l] else js). split_and!; [by apply Hq| | | |].
    + destruct queued; [|done]. apply NoDup_app. split_and!; [done| |apply NoDup_singleton].
      by intros x Hx ->%list_elem_of_singleton.
    + intros l' [[? Hl']%Hlive|[_ ->]]%Hin; auto.
    + intros l' Hl'%Hheld. auto.
    + intros l' j Hj. rewrite (bool_decide_ext _ _ (Hin l')). destruct (decide (l' = l)) as [->|Hll].
      * rewrite Hj in Hnew. injection Hnew as _ ->. destruct queued.
        -- by rewrite bool_decide_true by auto.
        -- rewrite bool_decide_false by (by intros [?|[? _]]). by right.
      * destruct (ident_of _ _ _ _ (body_ident _ _ _ (Hh l' Hll)) Hj) as (j0 & Hj0 & _ & ->). specialize (Hall l' j0 Hj0).
        rewrite (bool_decide_ext _ (l' ∈ js)) by tauto. done.
Qed.

Lemma submits_tracked_but g held v v' : rtc (submit_step g) v v' -> tracked_but held v -> tracked_but held v'.
Proof. induction 1; eauto using submit_step_tracked. Qed.

Lemma submits_kept s s' : submits s s' -> states_kept (sv_heap s) (sv_heap s').
Proof.
  assert (Hb : forall (h h' : job_heap) l, body <$> h' !! l = body <$> h !! l -> job_st <$> h' !! l = job_st <$> h !! l).
  { intros h h' l H%body_ident. apply (f_equal (fmap snd)) in H. by rewrite <-!option_fmap_compose in H. }
  assert (Hone : forall v v', submit_step (sv_storage s) v v' -> states_kept v.1.1.2 v'.1.1.2).
  { destruct 1 as [???????? Hh _ _|l ????????? Hl _ Hh _ _ _]; intros l' Hl'; cbn in *; apply Hb, Hh.
    intros ->. rewrite Hl in Hl'. by destruct Hl'. }
  intros H. change (states_kept (view_of s).1.1.2 (view_of s').1.1.2). induction H as [|v1 v2 v3 H _ IH]; [done|].
  eapply states_kept_trans; [by apply Hone|done].
Qed.

(** Without workers in the middle of a job. *)
Lemma tracked_view s : srv_inv s -> tracked s <-> tracked_but ∅ (view_of s).
Proof.
  intros Hi. destruct (si_queue _ Hi) as (js & Hjs & Hlive). rewrite Forall_forall in Hlive. split.
  - intros Ht. destruct (Ht js Hjs) as [Hnd Hall]. exists js. split_and!; try done.
    + intros l Hl. split; [set_solver|by apply Hlive].
    + intros l j Hj. specialize (Hall l j Hj). case_bool_decide; [done|by right].
  - intros (js0 & Hjs0 & Hnd & _ & _ & Hall) js' Hjs'. rewrite (queue_holds_fun _ _ _ _ Hjs' Hjs0). split; [done|].
    intros l j Hj. specialize (Hall l j Hj). case_bool_decide; [done|]. destruct Hall; [set_solver|done].
Qed.

Lemma submits_tracked s s' : srv_inv s -> srv_inv s' -> submits s s' -> tracked s -> tracked s'.
Proof. intros Hi Hi' H. rewrite !tracked_view by done. by eapply submits_tracked_but. Qed.

Record effect (i : nat) (fd : Z) (s s' : server) : Prop := Effect {
  fr_sessions : forall j, j <> i -> marked (session s j) (session s' j);
  fr_socks : forall fd', fd' <> fd -> only_output (sv_socks s !! fd') (sv_socks s' !! fd');
  fr_jobs : rtc job_step (sv_jobs s, sv_heap s) (sv_jobs s', sv_heap s');
  fr_next : jt_next_id (sv_jobs s) <= jt_next_id (sv_jobs s');
  fr_queue : forall js, queue_holds (sv_queue s) (sv_nodes s) js ->
    exists js', queue_holds (sv_queue s') (sv_nodes s') (js ++ js');
  fr_world : exists fs, step fs 0 0 (sv_world s) (sv_world s');
  fr_fs : forall q, (forall id x, jt_next_id (sv_jobs s) <= id ->
      q <> job_path (g_storage_uploads (sv_storage s)) id (Some x)) ->
    w_fs (sv_world s') !! q = w_fs (sv_world s) !! q;
  fr_storage : sv_storage s' = sv_storage s;
  fr_notif : sv_notif s' = sv_notif s;
  fr_stopped : q_stopped (sv_queue s') = q_stopped (sv_queue s)
}.

Record frame (i : nat) (fd : Z) (s s' : server) : Prop := Frame {
  fr_effect :> effect i fd s s';
  fr_submits : submits s s'
}.

Lemma marked_refl c : marked c c.
Proof. by left. Qed.

Lemma marked_trans c1 c2 c3 : marked c1 c2 -> marked c2 c3 -> marked c1 c3.
Proof. intros [->| ->] [->| ->]; unfold marked; auto. Qed.

Lemma only_output_refl c : only_output c c.
Proof. by destruct c. Qed.

Lemma only_output_trans c1 c2 c3 : only_output c1 c2 -> only_output c2 c3 -> only_output c1 c3.
Proof. destruct c1, c2, c3; simpl; try done. intuition congruence. Qed.

Create HintDb server.
#[export] Hint Resolve marked_refl only_output_refl states_kept_refl : server.

Lemma step_same w : exists fs, step fs 0 0 w w.
Proof. exists (w_fs w). apply step_refl. Qed.

#[export] Hint Resolve step_same : server.

Lemma effect_refl i fd s : effect i fd s s.
Proof.
  constructor; auto with server; try done. intros js Hjs. exists []. by rewrite app_nil_r.
Qed.

Lemma effect_trans i fd s1 s2 s3 : effect i fd s1 s2 -> effect i fd s2 s3 -> effect i fd s1 s3.
Proof.
  intros [Hc1 Hk1 Hj1 Hn1 Hq1 [fs1 Hf1] Hw1 Hg1 Hp1 Hs1] [Hc2 Hk2 Hj2 Hn2 Hq2 [fs2 Hf2] Hw2 Hg2 Hp2 Hs2]. constructor.
  - intros j Hj. eapply marked_trans; eauto.
  - intros fd' Hfd. eapply only_output_trans; eauto.
  - by etrans.
  - lia.
  - intros js Hjs. destruct (Hq1 js Hjs) as [js1 H1]. destruct (Hq2 _ H1) as [js2 H2].
    exists (js1 ++ js2). by rewrite app_assoc.
  - exists fs2. by eapply (step_trans fs1 fs2 0 0 0 0).
  - intros q Hq. rewrite Hw2, Hw1; [done|done|]. intros id x Hid. rewrite Hg1. apply Hq. lia.
  - congruence.
  - congruence.
  - congruence.
Qed.

Lemma frame_refl i fd s : frame i fd s s.
Proof. split; [apply effect_refl|done]. Qed.

Lemma frame_trans i fd s1 s2 s3 : frame i fd s1 s2 -> frame i fd s2 s3 -> frame i fd s1 s3.
Proof.
  intros [H1 S1] [H2 S2]. split; [by eapply effect_trans|]. rewrite (fr_storage _ _ _ _ H1) in S2. by etrans.
Qed.

(** The frame of a change of a component that leaves the others alone. *)
Ltac effect_intro :=
  constructor; simpl; auto with server; try done;
  try (intros js Hjs; exists []; by rewrite app_nil_r).
Ltac frame_intro := split; [effect_intro|exact (rtc_refl (submit_step _) (view_of _))].

(** ** Safe computations

    [safe i fd m]: from a state that satisfies the invariant, in which the
    client at [i] is active with descriptor [fd], [m] keeps both facts and
    respects the frame. *)

Definition own (i : nat) (fd : Z) (s : server) : Prop :=
  cs_active (session s i) = true /\ cs_fd (session s i) = fd.

Definition safe {A} (i : nat) (fd : Z) (m : Srv A) : Prop :=
  forall s, srv_inv s -> own i fd s ->
    wpS m (fun _ s' => srv_inv s' /\ own i fd s' /\ frame i fd s s') s.

Section safe.
Context (i : nat) (fd : Z).

Lemma safe_ret {A} (a : A) : safe i fd (mret a).
Proof. intros s Hi Ho. apply wpS_ret. split_and!; try done. apply frame_refl. Qed.

Lemma safe_gets {A} (f : server -> A) : safe i fd (gets f).
Proof. intros s Hi Ho. split_and!; try done. apply frame_refl. Qed.

Lemma safe_bind {A B} (m : Srv A) (f : A -> Srv B) :
  safe i fd m -> (forall a, safe i fd (f a)) -> safe i fd (m ≫= f).
Proof.
  intros Hm Hf s Hi Ho. apply wpS_bind. eapply wpS_conseq; [by apply Hm|].
  intros a s1 (Hi1 & Ho1 & H1). eapply wpS_conseq; [by apply Hf|].
  intros b s2 (Hi2 & Ho2 & H2). split_and!; try done. by eapply frame_trans.
Qed.

(** The client of the command. *)
Lemma safe_client {A} (f : client_session -> Srv A) :
  (forall c, cs_fd c = fd -> cs_active c = true -> safe i fd (f c)) -> safe i fd (client_at i ≫= f).
Proof.
  intros Hf s Hi Ho. apply wpS_bind. unfold wpS, client_at, gets. by apply (Hf _ (proj2 Ho) (proj1 Ho)).
Qed.

(** A change of the sockets only. *)
Lemma inv_socks s m :
  srv_inv s -> (forall fd', is_Some (m !! fd') <-> is_Some (sv_socks s !! fd')) ->
  srv_inv (sv_set_socks m s).
Proof.
  intros [Hj Hq Hc Ho Hd Ha Hb Hn] Hm. constructor; try done. intros fd'. simpl. rewrite Hm. apply Ho.
Qed.

Lemma insert_open (m : gmap Z conn) fd' c c1 :
  m !! fd' = Some c -> forall fd2, is_Some (<[fd' := c1]> m !! fd2) <-> is_Some (m !! fd2).
Proof.
  intros Hc fd2. destruct (decide (fd2 = fd')) as [->|Hne].
  - rewrite lookup_insert_eq, Hc. split; by eexists.
  - by rewrite lookup_insert_ne.
Qed.

Lemma frame_socks s m :
  (forall fd', fd' <> fd -> only_output (sv_socks s !! fd') (m !! fd')) ->
  frame i fd s (sv_set_socks m s).
Proof.
  intros Hm. frame_intro.
Qed.

(** A call on one's own socket. *)
Lemma safe_on_sock {A} (bad : A) (f : conn -> option (A * conn)) :
  (forall c, exists a c', f c = Some (a, c')) -> safe i fd (on_sock fd bad f).
Proof.
  intros Hf s Hi Ho. unfold wpS, on_sock. destruct (sv_socks s !! fd) as [c|] eqn:Hc.
  2: { split_and!; try done. apply frame_refl. }
  destruct (Hf c) as (a & c' & ->). split_and!.
  - apply inv_socks; [done|]. by eapply insert_open.
  - done.
  - apply frame_socks. intros fd' Hne. rewrite lookup_insert_ne by done. apply only_output_refl.
Qed.

(** Output on any socket. *)
Lemma safe_send fd' text : safe i fd (send_responsef fd' text).
Proof.
  unfold send_responsef. destruct (BUFFER_SIZE <=? strlen text); [apply safe_ret|].
  apply safe_bind; [|intros; apply safe_ret].
  intros s Hi Ho. unfold wpS, on_sock. destruct (sv_socks s !! fd') as [c|] eqn:Hc.
  2: { split_and!; try done. apply frame_refl. }
  destruct (write_loop_total (S (length (cn_wsched c) + length (bytes_of_string text)))
    (bytes_of_string text) 0 c ltac:(lia)) as (r & sent & c' & Heq & _ & _ & _ & _ & Hin & Hrs).
  unfold write_all. rewrite Heq. split_and!.
  - apply inv_socks; [done|]. by eapply insert_open.
  - done.
  - apply frame_socks. intros fd2 Hne. destruct (decide (fd2 = fd')) as [->|Hne2].
    + by rewrite lookup_insert_eq, Hc.
    + rewrite lookup_insert_ne by done. apply only_output_refl.
Qed.
End safe.

#[export] Hint Resolve safe_ret safe_gets safe_send : server.

(** ** Jobs *)

(** A job that exists stays. *)
Lemma steps_live s s' l :
  rtc job_step s s' -> job_inv s -> is_Some (snd s !! l) -> is_Some (snd s' !! l).
Proof.
  induction 1 as [|s1 s2 s3 H _ IH]; [done|]. intros Hi [j Hj].
  destruct (job_step_same _ _ _ _ Hi H Hj) as (j' & Hj' & _).
  apply IH; [by eapply job_step_inv|by exists j'].
Qed.

(** The identifiers do not wrap around. *)
Lemma next_id_succ t h : job_inv (t, h) -> u64 (jt_next_id t + 1) = jt_next_id t + 1.
Proof.
  intros [(ls & js & H) _]. pose proof (tr_next _ _ _ _ H). pose proof (tr_count _ _ _ _ H).
  pose proof (tr_max _ _ _ _ H) as Hmax. unfold u64, MAX_JOBS in *. simpl in *.
  apply wrap_small. unfold bounded. lia.
Qed.

Lemma next_id_mono s s' :
  job_inv s -> job_step s s' -> jt_next_id (fst s) <= jt_next_id (fst s').
Proof.
  destruct s as [t h], s' as [t' h']. intros Hi Hs. pose proof (next_id_succ _ _ Hi) as Hn.
  destruct (job_step_cases _ _ _ _ Hs) as [(l & j & _ & Hmax & _ & _ & -> & _)|[[-> _]|[-> _]]];
    simpl in *; lia.
Qed.

Section jobs.
Context (i : nat) (fd : Z).

(** A change of the jobs by one step. *)
Lemma inv_jobs s t h :
  srv_inv s -> job_step (sv_jobs s, sv_heap s) (t, h) -> srv_inv (sv_set_jobs t h s).
Proof.
  intros [Hj (js & Hq & Hlive) Hc Ho Hd Ha Hb Hn] Hs. constructor; try done; simpl.
  - by eapply job_step_inv.
  - exists js. split; [done|]. eapply Forall_impl; [exact Hlive|]. intros l Hl.
    apply (steps_live _ _ _ (rtc_once _ _ Hs) Hj Hl).
Qed.

Lemma effect_jobs s t h :
  srv_inv s -> job_step (sv_jobs s, sv_heap s) (t, h) -> effect i fd s (sv_set_jobs t h s).
Proof.
  intros Hi Hs. effect_intro.
  - by apply rtc_once.
  - apply (next_id_mono _ _ (si_jobs _ Hi) Hs).
Qed.

Lemma safe_job_update f :
  (forall t h, job_step (t, h) (t, f h)) ->
  (forall h l, body <$> f h !! l = body <$> h !! l) -> safe i fd (job_update_call f).
Proof.
  intros Hf Hst s Hi Ho. unfold wpS, job_update_call, modify.
  split_and!; [by apply inv_jobs|done|]. split; [by apply effect_jobs|].
  apply rtc_once, submit_none; [apply Hst|done|done].
Qed.

Lemma safe_oracles allocs clock s :
  srv_inv s -> own i fd s ->
  srv_inv (sv_set_oracles allocs clock s) /\ own i fd (sv_set_oracles allocs clock s) /\
  frame i fd s (sv_set_oracles allocs clock s).
Proof.
  intros [] Ho. split_and!; [by constructor|done|]. frame_intro.
Qed.

Lemma safe_alloc : safe i fd alloc.
Proof. intros s Hi Ho. by apply safe_oracles. Qed.

Lemma safe_clock : safe i fd next_clock.
Proof. intros s Hi Ho. by apply safe_oracles. Qed.

(** A new job is queued, and at an address that was free. *)
Lemma create_job_spec client type payload path s :
  srv_inv s ->
  wpS (create_job client type payload path) (fun r s1 => exists allocs clock t h,
    s1 = sv_set_jobs t h (sv_set_oracles allocs clock s) /\
    job_step (sv_jobs s, sv_heap s) (t, h) /\
    match r with
    | None => t = sv_jobs s /\ h = sv_heap s
    | Some l => sv_heap s !! l = None /\ jt_next_id t = jt_next_id (sv_jobs s) + 1 /\
        exists j, h = <[l := j]> (sv_heap s) /\ ident j = (jt_next_id (sv_jobs s), JOB_STATE_QUEUED) /\
          job_kind j = type /\ job_input_path j = copy_opt MAX_JOB_PATH path
    end) s.
Proof.
  intros Hi. unfold create_job, wpS, mbind, Srv_bind, alloc, next_clock. cbv beta iota zeta.
  set (addr := if hd true (sv_allocs s) then _ else None).
  assert (Haddr : forall l, addr = Some l -> sv_heap s !! l = None).
  { intros l Hl. subst addr. destruct (hd true (sv_allocs s)); [|done]. injection Hl as <-.
    cbn [sv_heap sv_set_oracles]. apply not_elem_of_dom, is_fresh. }
  clearbody addr. destruct (job_table_create_job _ _ _ _ _ _ _ _ _ _) as [[r t] h] eqn:E. simpl in E.
  eexists _, _, t, h. split; [reflexivity|]. split; [by eapply step_create|].
  unfold job_table_create_job in E. repeat case_match; simplify_eq; try done. split; [by apply Haddr|].
  split; [exact (next_id_succ _ _ (si_jobs _ Hi))|]. eexists. split; [reflexivity|done].
Qed.

Lemma queue_push_spec l s :
  srv_inv s -> own i fd s -> is_Some (sv_heap s !! l) ->
  wpS (queue_push (Some l)) (fun rc s' => srv_inv s' /\ own i fd s' /\ effect i fd s s' /\
    sv_heap s' = sv_heap s /\ sv_jobs s' = sv_jobs s /\
    forall js, queue_holds (sv_queue s) (sv_nodes s) js ->
      queue_holds (sv_queue s') (sv_nodes s') (if rc <? 0 then js else js ++ [l])) s.
Proof.
  intros Hi Ho Hl. unfold queue_push, alloc. unfold wpS, mbind, Srv_bind. cbv beta iota zeta.
  set (s1 := sv_set_oracles _ _ s).
  destruct (safe_oracles (tl (sv_allocs s)) (sv_clock s) s Hi Ho) as (Hi1 & Ho1 & H1). fold s1 in Hi1, Ho1, H1.
  destruct (si_queue _ Hi1) as (js & (ql & Hrep & <-) & Hlive).
  destruct (hd true (sv_allocs s)).
  2: { simpl. split_and!; try done; apply H1. }
  destruct (push_rep _ _ _ (fresh (dom (sv_nodes s1))) l Hrep) as (q' & nodes' & -> & Hstop & Hrep').
  { apply not_elem_of_dom, is_fresh. }
  assert (Hq : queue_holds q' nodes' (if q_stopped (sv_queue s1) then ql.*2 else ql.*2 ++ [l])).
  { destruct (q_stopped (sv_queue s1)); [by exists ql|]. eexists. split; [exact Hrep'|by rewrite fmap_app]. }
  assert (Hfun : forall js, queue_holds (sv_queue s1) (sv_nodes s1) js -> js = ql.*2)
    by (intros js Hjs; exact (queue_holds_fun _ _ _ _ Hjs (ex_intro _ ql (conj Hrep eq_refl)))).
  split_and!; try done.
  - destruct Hi1. constructor; try done. eexists. split; [exact Hq|]. clear Hstop.
    destruct (q_stopped (sv_queue s1)); [done|]. apply Forall_app. split; [done|]. by apply Forall_singleton.
  - eapply effect_trans; [exact H1|]. effect_intro. intros js Hjs. rewrite (Hfun js Hjs).
    destruct (q_stopped (sv_queue s1)); [exists []; by rewrite app_nil_r|by exists [l]].
  - intros js Hjs. rewrite (Hfun js Hjs). by destruct (q_stopped (sv_queue s1)).
Qed.

End jobs.

#[export] Hint Resolve safe_alloc safe_clock safe_job_update : server.

(** ** The handlers are safe *)

(** Follow the structure of a computation. *)
Ltac safe_step :=
  first
    [ solve [auto with server]
    | lazymatch goal with |- safe _ _ (client_at _ ≫= _) => apply safe_client; intros ? ? ? end
    | lazymatch goal with |- safe _ _ (_ ≫= _) => apply safe_bind; [|intros ?] end
    | lazymatch goal with |- safe _ _ (match ?x with _ => _ end) => destruct x end
    | lazymatch goal with |- safe _ _ (if ?b then _ else _) => destruct b end ].
Ltac safe_auto := repeat (cbv zeta; safe_step).

Lemma step_cancel_call p t h : job_step (t, h) (t, snd (job_request_cancel p h)).
Proof. apply step_request_cancel. Qed.

#[export] Hint Resolve step_set_result step_set_state step_set_stored_path step_cancel_call : server.

(** What the calls of job.c do to the states of the jobs. *)
Lemma on_job_fmap {A} (v : job -> A) p f h l :
  (forall j, v (f j) = v j) -> v <$> on_job p f h !! l = v <$> h !! l.
Proof.
  intros Hf. unfold on_job. destruct p as [l0|]; [|done]. destruct (decide (l = l0)) as [->|Hne].
  - rewrite lookup_alter_eq. destruct (h !! l0); simpl; [by rewrite Hf|done].
  - by rewrite lookup_alter_ne.
Qed.

Lemma on_job_other l l' f h : l' <> l -> on_job (Some l) f h !! l' = h !! l'.
Proof. intros. unfold on_job. by rewrite lookup_alter_ne. Qed.

Lemma set_result_ident p r h l : ident <$> job_set_result p r h !! l = ident <$> h !! l.
Proof. unfold job_set_result. repeat case_match; try done; by apply on_job_fmap. Qed.

Lemma set_result_other l r h l' : l' <> l -> job_set_result (Some l) r h !! l' = h !! l'.
Proof. intros. unfold job_set_result. repeat case_match; try done; by apply on_job_other. Qed.

Lemma set_stored_path_ident p r h l : ident <$> job_set_stored_path p r h !! l = ident <$> h !! l.
Proof. unfold job_set_stored_path. repeat case_match; try done; by apply on_job_fmap. Qed.

Lemma set_stored_path_other l r h l' : l' <> l -> job_set_stored_path (Some l) r h !! l' = h !! l'.
Proof. intros. unfold job_set_stored_path. repeat case_match; try done; by apply on_job_other. Qed.

Lemma request_cancel_body p h l :
  body <$> snd (job_request_cancel p h) !! l = body <$> h !! l.
Proof. unfold job_request_cancel. repeat case_match; try done; by apply on_job_fmap. Qed.

Lemma set_state_other now l l' st h : l' <> l -> job_set_state now (Some l) st h !! l' = h !! l'.
Proof. intros. unfold job_set_state, on_job. by rewrite lookup_alter_ne. Qed.

Lemma set_state_ident now l st h id s :
  ident <$> h !! l = Some (id, s) -> ident <$> job_set_state now (Some l) st h !! l = Some (id, st).
Proof.
  intros H. unfold job_set_state, on_job. rewrite lookup_alter_eq. destruct (h !! l); [|done].
  injection H as <- _. by destruct st.
Qed.

#[export] Hint Resolve request_cancel_body : server.

Section handlers.
Context (i : nat) (fd : Z).

Lemma safe_conseq {A} (m : Srv A) s :
  wpS m (fun _ s' => srv_inv s' /\ own i fd s' /\ frame i fd s s') s ->
  forall s0, frame i fd s0 s -> wpS m (fun _ s' => srv_inv s' /\ own i fd s' /\ frame i fd s0 s') s.
Proof.
  intros H s0 H0. eapply wpS_conseq; [exact H|]. intros a s' (Hi & Ho & H1). split_and!; try done.
  by eapply frame_trans.
Qed.

(** A call of job.c that keeps the states of the jobs other than [l]. *)
Lemma update_call_spec f l s :
  (forall t h, job_step (t, h) (t, f h)) ->
  (forall h l', l' <> l -> body <$> f h !! l' = body <$> h !! l') ->
  srv_inv s -> own i fd s ->
  wpS (job_update_call f) (fun _ s' => s' = sv_set_jobs (sv_jobs s) (f (sv_heap s)) s /\
    srv_inv s' /\ own i fd s' /\ effect i fd s s') s.
Proof.
  intros Hf Hst Hi Ho. unfold wpS, job_update_call, modify.
  split_and!; [done|by apply inv_jobs|done|by apply effect_jobs].
Qed.

(** The path of the upload of the job [id] with the suffix [x]. *)
Definition own_path (g : storage_globals) (id : Z) (x : string) (p : option string) : Prop :=
  exists q, p = Some q /\ storage_make_upload_path g id (Some x) MAX_JOB_PATH = Some q.

Lemma own_path_job g id x p :
  own_path g id x p -> copy_opt MAX_JOB_PATH p = job_path (g_storage_uploads g) id (Some x).
Proof.
  intros (q & -> & Hq). unfold storage_make_upload_path in Hq. repeat case_match; simplify_eq.
  apply snprintf_s_fits. lia.
Qed.

(** The paths handed over for a job of a kind are those of its uploads. *)
Definition own_paths (g : storage_globals) (id : Z) (type : job_type) (input stored : option string) : Prop :=
  match upload_suffixes type with
  | None => True
  | Some payload => own_path g id "png" input /\
      match payload with Some x => own_path g id x stored | None => True end
  end.

Lemma own_paths_uploads g j type input stored :
  job_kind j = type -> job_input_path j = copy_opt MAX_JOB_PATH input ->
  own_paths g (job_id j) type input stored ->
  own_uploads g (match stored with Some p => with_stored_path (snprintf_s MAX_JOB_PATH p) j | None => j end).
Proof.
  intros <- Hinput Hown. unfold own_paths, own_uploads in *. set (j' := match stored with Some _ => _ | None => _ end).
  assert (job_kind j' = job_kind j /\ job_id j' = job_id j /\ job_input_path j' = job_input_path j /\
    (is_Some stored -> job_stored_path j' = copy_opt MAX_JOB_PATH stored)) as (-> & -> & -> & Hst)
    by (subst j'; destruct stored; split_and!; try done; by intros [??]).
  destruct (upload_suffixes (job_kind j)) as [payload|]; [|done]. destruct Hown as [Hin Hpay]. split.
  - rewrite Hinput. by apply own_path_job.
  - destruct payload as [x|]; [|done]. rewrite Hst; [by apply own_path_job|]. destruct Hpay as (q & -> & _). by eexists.
Qed.

(** The end of [enqueue_job], for a new job at [l]. *)
Lemma enqueue_rest l s0 s :
  srv_inv s0 -> sv_heap s0 !! l = None -> effect i fd s0 s -> srv_inv s -> own i fd s ->
  sv_queue s = sv_queue s0 -> sv_nodes s = sv_nodes s0 ->
  jt_next_id (sv_jobs s) = jt_next_id (sv_jobs s0) + 1 ->
  (forall l', l' <> l -> body <$> sv_heap s !! l' = body <$> sv_heap s0 !! l') ->
  ident <$> sv_heap s !! l = Some (jt_next_id (sv_jobs s0), JOB_STATE_QUEUED) ->
  (forall j, sv_heap s !! l = Some j -> own_uploads (sv_storage s0) j) ->
  wpS (rc ← queue_push (Some l);
       if rc <? 0 then
         now ← next_clock;
         _ ← job_update_call (job_set_result (Some l) (Some "enqueue failed"%string));
         _ ← job_update_call (job_set_state now (Some l) JOB_STATE_FAILED);
         send_responsef fd ("ERR cannot enqueue job" +:+ nl)
       else
         id ← job_call (read_job (Some l) 0 job_id);
         send_responsef fd ("JOB " +:+ print_u id +:+ nl))
    (fun _ s' => srv_inv s' /\ own i fd s' /\ frame i fd s0 s') s.
Proof.
  intros Hi0 Hl0 H0 Hi Ho Hq Hn Hnext Hother Hst Hown.
  assert (Hl : is_Some (sv_heap s !! l)) by (destruct (sv_heap s !! l); [by eexists|done]).
  apply wpS_bind. eapply wpS_conseq; [by apply queue_push_spec|].
  intros rc s1 (Hi1 & Ho1 & H1 & Hh1 & Hj1 & Hq1). rewrite Hq, Hn in Hq1.
  assert (H01 : effect i fd s0 s1) by by eapply effect_trans.
  destruct (rc <? 0).
  - apply wpS_bind. unfold next_clock, wpS at 1. set (s2 := sv_set_oracles _ _ s1).
    destruct (safe_oracles i fd (sv_allocs s1) (tl (sv_clock s1)) s1 Hi1 Ho1) as (Hi2 & Ho2 & H2).
    fold s2 in Hi2, Ho2, H2. set (now := hd zero_time (sv_clock s1)).
    apply wpS_bind. eapply wpS_conseq; [apply (update_call_spec _ l); [auto with server| |done..]|].
    { intros h l' Hne. by rewrite set_result_other. }
    intros [] s3 (Heq3 & Hi3 & Ho3 & H3). apply wpS_bind.
    eapply wpS_conseq; [apply (update_call_spec _ l); [auto with server| |done..]|].
    { intros h l' Hne. by rewrite set_state_other. }
    intros [] s4 (Heq4 & Hi4 & Ho4 & H4).
    apply safe_conseq; [by apply safe_send|]. split.
    { refine (effect_trans _ _ _ _ _ H01 (effect_trans _ _ _ _ _ H2 (effect_trans _ _ _ _ _ H3 H4))). }
    apply rtc_once, (submit_job _ l false); [done|..].
    + rewrite Heq4, Heq3. cbn [sv_set_jobs sv_heap].
      apply (set_state_ident _ _ _ _ _ JOB_STATE_QUEUED). rewrite set_result_ident. cbn. by rewrite Hh1.
    + intros l' Hne. rewrite <-Hother by done. rewrite Heq4, Heq3. cbn [sv_set_jobs sv_heap].
      rewrite set_state_other, set_result_other by done. by rewrite <-Hh1.
    + rewrite Heq4, Heq3. cbn. by rewrite Hj1.
    + intros js Hjs. rewrite Heq4, Heq3. by apply Hq1.
    + done.
  - apply wpS_gets. apply safe_conseq; [by apply safe_send|]. split; [done|].
    apply rtc_once, (submit_job _ l true); [done|..].
    + by rewrite Hh1.
    + intros l' Hne. by rewrite Hh1, Hother.
    + by rewrite Hj1.
    + exact Hq1.
    + intros _. by rewrite Hh1.
Qed.

Lemma enqueue_spec type payload path stored s :
  srv_inv s -> own i fd s -> own_paths (sv_storage s) (jt_next_id (sv_jobs s)) type path stored ->
  wpS (enqueue_job i type payload path stored) (fun _ s' => srv_inv s' /\ own i fd s' /\ frame i fd s s') s.
Proof.
  intros Hi Ho Hown. unfold enqueue_job, client_at. apply wpS_gets. change (nth i _ session_zero) with (session s i).
  rewrite (proj2 Ho). apply wpS_bind. eapply wpS_conseq; [by apply create_job_spec|].
  intros job s1 (allocs & clock & t & h & -> & Hstep & Hjob). set (so := sv_set_oracles allocs clock s).
  destruct (safe_oracles i fd allocs clock s Hi Ho) as (Hio & Hoo & Hso). fold so in Hio, Hoo, Hso.
  destruct job as [l|].
  2: { destruct Hjob as [-> ->]. assert (sv_set_jobs (sv_jobs s) (sv_heap s) so = so) as -> by done.
       apply safe_conseq; [by apply safe_send|done]. }
  destruct Hjob as (Hl & Hnext & j & -> & Hj & Hk & Hp).
  assert (Hi1 : srv_inv (sv_set_jobs t (<[l:=j]> (sv_heap s)) so)) by by apply inv_jobs.
  assert (H1 : effect i fd s (sv_set_jobs t (<[l:=j]> (sv_heap s)) so))
    by (eapply effect_trans; [exact Hso|by apply effect_jobs]).
  set (s1 := sv_set_jobs t _ so) in *. apply wpS_bind.
  set (j' := match stored with Some p => with_stored_path (snprintf_s MAX_JOB_PATH p) j | None => j end).
  assert (Hj' : ident j' = ident j) by (unfold j'; by destruct stored).
  assert (Hown' : own_uploads (sv_storage s) j').
  { eapply own_paths_uploads; [done..|]. apply (f_equal fst) in Hj. cbn in Hj. by rewrite Hj. }
  eapply wpS_conseq.
  { instantiate (1 := fun _ s2 => srv_inv s2 /\ own i fd s2 /\ effect i fd s1 s2 /\
      sv_queue s2 = sv_queue s1 /\ sv_nodes s2 = sv_nodes s1 /\ sv_jobs s2 = sv_jobs s1 /\
      sv_heap s2 !! l = Some j' /\ forall l', l' <> l -> sv_heap s2 !! l' = sv_heap s1 !! l').
    destruct stored as [path'|].
    - eapply wpS_conseq; [apply (update_call_spec _ l); [auto with server| |done..]|].
      { intros h l' Hne. by rewrite set_stored_path_other. }
      intros [] s2 (-> & Hi2 & Ho2 & H2). split_and!; try done.
      + unfold s1, job_set_stored_path, on_job. cbn. by rewrite lookup_alter_eq, lookup_insert_eq.
      + intros l' Hne. by apply set_stored_path_other.
    - apply wpS_ret. split_and!; try done; [apply effect_refl|]. unfold s1. cbn. apply lookup_insert_eq. }
  intros [] s2 (Hi2 & Ho2 & H2 & Hq2 & Hn2 & Hj2 & Hst2 & Hoth2).
  eapply (enqueue_rest l s); try done.
  - by eapply effect_trans.
  - by rewrite Hj2.
  - intros l' Hne. rewrite Hoth2 by done. unfold s1. cbn. by rewrite lookup_insert_ne.
  - rewrite Hst2. cbn. by rewrite Hj', Hj.
  - rewrite Hst2. by intros ? [= <-].
Qed.

(** A job that takes no upload. *)
Lemma safe_enqueue type payload path stored :
  upload_suffixes type = None -> safe i fd (enqueue_job i type payload path stored).
Proof. intros Htype s Hi Ho. apply enqueue_spec; [done..|]. unfold own_paths. by rewrite Htype. Qed.

(** A call that receives on one's own socket into an upload. *)
Lemma safe_receive size path id x :
  0 <= size -> forall s, srv_inv s -> own i fd s -> jt_next_id (sv_jobs s) <= id ->
  path = job_path (g_storage_uploads (sv_storage s)) id (Some x) ->
  wpS (on_sock_files fd (-1) (fun c => storage_receive_to_file c size (Some path)))
    (fun _ s' => srv_inv s' /\ own i fd s' /\ frame i fd s s') s.
Proof.
  intros Hsize s Hi Ho Hid Hpath. unfold wpS, on_sock_files.
  destruct (sv_socks s !! fd) as [c|] eqn:Hc; [|split_and!; try done; apply frame_refl].
  pose proof (storage_receive_spec c size path (sv_world s) Hsize) as H. unfold wp in H.
  destruct (storage_receive_to_file _ _ _ _) as [r w]. destruct H as (rc & c' & fs & -> & Hst & Hfs & _).
  split_and!.
  - assert (Hi' : srv_inv (sv_set_socks (<[fd:=c']> (sv_socks s)) s))
      by (apply inv_socks; [done|by eapply insert_open]). destruct Hi'. by constructor.
  - done.
  - frame_intro.
    + intros fd' Hne. rewrite lookup_insert_ne by done. apply only_output_refl.
    + by exists fs.
    + intros q Hq. rewrite (step_fs _ _ _ _ _ Hst). apply Hfs. subst path. by apply Hq.
Qed.

Lemma upload_path_eq g id x n path :
  storage_make_upload_path g id (Some x) n = Some path -> path = job_path (g_storage_uploads g) id (Some x).
Proof. unfold storage_make_upload_path. intros H. repeat case_match; by simplify_eq. Qed.

(** *** Receiving

    While a command receives its uploads neither the jobs nor the storage
    change, so the next identifier is that of the job the uploads are for. *)
Definition same_intake (s s' : server) : Prop := sv_storage s' = sv_storage s /\ sv_jobs s' = sv_jobs s.

Definition intake {A} (s : server) (m : Srv A) (P : A -> Prop) : Prop :=
  match m s with Some (a, s') => same_intake s s' /\ P a | None => True end.

Lemma intake_ret {A} s (a : A) (P : A -> Prop) : P a -> intake s (mret a) P.
Proof. done. Qed.

Lemma intake_gets {A B} s (f : server -> A) (k : A -> Srv B) P : intake s (k (f s)) P -> intake s (gets f ≫= k) P.
Proof. done. Qed.

Lemma intake_bind {A B} s (m : Srv A) (f : A -> Srv B) P :
  intake s m (fun _ => True) -> (forall a s', same_intake s s' -> intake s' (f a) P) -> intake s (m ≫= f) P.
Proof.
  unfold intake, mbind, Srv_bind. destruct (m s) as [[a s1]|]; [|done]. intros [Hs _] Hf.
  specialize (Hf a s1 Hs). destruct (f a s1) as [[b s2]|]; [|done].
  destruct Hf as [[H1 H2] HP], Hs as [H3 H4]. split; [split; congruence|done].
Qed.

Lemma intake_sock {A} s fd' (bad : A) f : intake s (on_sock fd' bad f) (fun _ => True).
Proof. unfold intake, on_sock. repeat case_match; simplify_eq; done. Qed.

Lemma intake_sock_files {A} s fd' (bad : A) f : intake s (on_sock_files fd' bad f) (fun _ => True).
Proof. unfold intake, on_sock_files. repeat case_match; simplify_eq; done. Qed.

Lemma intake_files {A} s (m : M A) : intake s (files m) (fun _ => True).
Proof. unfold intake, files. by destruct (m (sv_world s)). Qed.

Lemma intake_send s fd' text : intake s (send_responsef fd' text) (fun _ => True).
Proof.
  unfold send_responsef. case_match; [by apply intake_ret|]. apply intake_bind; [apply intake_sock|].
  intros. by apply intake_ret.
Qed.

(** Follow the structure of a computation that ends in [None] or in a path. *)
Ltac intake_step :=
  first
    [ apply intake_ret; done
    | apply intake_gets
    | apply intake_bind; [first [apply intake_send|apply intake_sock_files|apply intake_sock|apply intake_files]|intros ? ? ?]
    | lazymatch goal with |- intake _ (if ?b then _ else _) _ => destruct b end
    | lazymatch goal with |- intake _ (match ?x with _ => _ end) _ => destruct x eqn:? end ].

Definition received (g : storage_globals) (id : Z) (x : string) (r : option string) : Prop :=
  forall q, r = Some q -> own_path g id x (Some q).

Lemma intake_png s size :
  intake s (receive_png_to_upload i size) (received (sv_storage s) (jt_next_id (sv_jobs s)) "png").
Proof.
  unfold receive_png_to_upload, next_job_id, client_at. apply intake_gets, intake_gets.
  repeat intake_step. apply intake_ret. intros q [= <-]. by eexists.
Qed.

Lemma intake_extra s fd' size max label suffix :
  intake s (receive_extra_to_file fd' size max label (jt_next_id (sv_jobs s)) suffix)
    (received (sv_storage s) (jt_next_id (sv_jobs s)) suffix).
Proof. unfold receive_extra_to_file. repeat intake_step; apply intake_ret; intros q [= <-]; by eexists. Qed.

Lemma intake_filename s fd' size : intake s (read_filename fd' size) (fun _ => True).
Proof. unfold read_filename. repeat intake_step. Qed.

(** A safe computation that receives, and what comes after. *)
Lemma wpS_intake {A B} (m : Srv A) (f : A -> Srv B) P s :
  wpS m (fun _ s' => srv_inv s' /\ own i fd s' /\ frame i fd s s') s -> intake s m P ->
  (forall a s', srv_inv s' -> own i fd s' -> same_intake s s' -> P a ->
     wpS (f a) (fun _ s2 => srv_inv s2 /\ own i fd s2 /\ frame i fd s' s2) s') ->
  wpS (m ≫= f) (fun _ s' => srv_inv s' /\ own i fd s' /\ frame i fd s s') s.
Proof.
  intros Hm HP Hf. apply wpS_bind. unfold wpS in Hm |- * at 1. unfold intake in HP.
  destruct (m s) as [[a s1]|]; [|done]. destruct Hm as (Hi & Ho & Hfr), HP as [Hs Ha].
  apply safe_conseq; [|done]. by apply Hf.
Qed.

(** The rest of a computation after one step. *)
Lemma wpS_then {A B} (m : Srv A) (f : A -> Srv B) s :
  wpS m (fun _ s' => srv_inv s' /\ own i fd s' /\ frame i fd s s') s -> (forall a, safe i fd (f a)) ->
  wpS (m ≫= f) (fun _ s' => srv_inv s' /\ own i fd s' /\ frame i fd s s') s.
Proof.
  intros Hm Hf. apply wpS_bind. eapply wpS_conseq; [exact Hm|]. intros a s1 (Hi1 & Ho1 & H1).
  apply safe_conseq; [by apply Hf|done].
Qed.

Lemma safe_receive_png size : 0 <= size -> safe i fd (receive_png_to_upload i size).
Proof.
  intros Hsize. unfold receive_png_to_upload, next_job_id. apply safe_client. intros c -> _.
  intros s Hi Ho. apply wpS_gets.
  match goal with |- context [if ?b then _ else _] => destruct b end; [apply safe_bind; auto with server|].
  apply wpS_gets, wpS_gets.
  destruct (storage_make_upload_path _ _ _ _) as [path|] eqn:E; [|apply safe_bind; auto with server].
  apply wpS_then; [|intros rc; safe_auto].
  eapply safe_receive; [done..| |by eapply upload_path_eq]. lia.
Qed.

Lemma create_empty_frame path w :
  wp (create_empty path) (fun _ w' => exists fs, step fs 0 0 w w' /\ only_file path (w_fs w) fs) w.
Proof.
  unfold create_empty. apply wp_bind, wp_fopen_wb.
  - intros w1 _ Hs1. cbn [negb]. wp_auto; exists (<[path := []]> (w_fs w));
      (split; [steps|intros q Hq; by rewrite lookup_insert_ne]).
  - intros _. cbn [negb]. wp_step. exists (w_fs w). split; [apply step_refl|apply only_file_refl].
Qed.

Lemma receive_extra_spec size max label suffix s :
  0 <= size -> srv_inv s -> own i fd s ->
  wpS (receive_extra_to_file fd size max label (jt_next_id (sv_jobs s)) suffix)
    (fun _ s' => srv_inv s' /\ own i fd s' /\ frame i fd s s') s.
Proof.
  intros Hsize Hi Ho. unfold receive_extra_to_file. destruct (max <? size).
  { apply safe_bind; auto with server. }
  apply wpS_gets. destruct (storage_make_upload_path _ _ _ _) as [path|] eqn:E; [|apply safe_bind; auto with server].
  apply upload_path_eq in E. destruct (size =? 0).
  - apply wpS_then; [|intros err; safe_auto]. unfold wpS, files.
    pose proof (create_empty_frame path (sv_world s)) as H. unfold wp in H.
    destruct (create_empty path (sv_world s)) as [err w]. destruct H as (fs & Hst & Hfs).
    split_and!; [by destruct Hi|done|].
    frame_intro.
    + by exists fs.
    + intros q Hq. rewrite (step_fs _ _ _ _ _ Hst). apply Hfs. subst path. apply Hq. lia.
  - apply wpS_then; [|intros rc; safe_auto]. eapply safe_receive; [done..| |exact E]. lia.
Qed.
End handlers.

(** ** Sessions *)

Lemma nth_alter (f : client_session -> client_session) k cs j :
  (k < length cs)%nat ->
  nth j (alter f k cs) session_zero = if decide (j = k) then f (nth k cs session_zero) else nth j cs session_zero.
Proof.
  intros Hk. rewrite !nth_lookup. case_decide as Hj.
  - subst. rewrite list_lookup_alter_eq. destruct (cs !! k) eqn:E; [done|]. apply lookup_ge_None in E. lia.
  - by rewrite list_lookup_alter_ne.
Qed.

Lemma session_active_lt s k :
  cs_active (session s k) = true -> (k < length (sv_clients s))%nat.
Proof.
  intros H. destruct (decide (k < length (sv_clients s))%nat) as [?|Hge]; [done|].
  unfold session in H. by rewrite nth_overflow in H by lia.
Qed.

Lemma session_update s k f j :
  cs_active (session s k) = true ->
  session (sv_set_clients (alter f k (sv_clients s)) s) j =
  if decide (j = k) then f (session s k) else session s j.
Proof. intros Hk. apply nth_alter. by apply session_active_lt. Qed.

(** Closing a session closes its socket and frees its slot. *)
Lemma close_client_spec k s :
  srv_inv s ->
  wpS (close_client k) (fun _ s' => srv_inv s' /\ frame k (cs_fd (session s k)) s s' /\
    cs_active (session s' k) = false /\ (forall j, j <> k -> session s' j = session s j)) s.
Proof.
  intros Hi. unfold close_client, client_at. apply wpS_gets. fold (session s k).
  destruct (cs_active (session s k)) eqn:Ha; cbn [negb].
  2: { apply wpS_ret. split_and!; try done. apply frame_refl. }
  unfold wpS, close_fd, update_client, modify, mbind, Srv_bind. cbv beta iota.
  set (s' := sv_set_clients _ _).
  assert (Hs : forall j, session s' j = if decide (j = k) then closed_session (session s k) else session s j)
    by (intros j; apply (session_update s k closed_session j Ha)).
  assert (Hact : forall j, cs_active (session s' j) = true -> j <> k /\ session s' j = session s j).
  { intros j. rewrite Hs. case_decide as Hj; [by subst|done]. }
  destruct Hi as [Hj Hq Hc Ho Hd Had Hb Hn]. split_and!.
  - constructor; try done.
    + simpl. by rewrite length_alter.
    + intros fd'. simpl. destruct (decide (fd' = cs_fd (session s k))) as [->|Hne].
      * rewrite lookup_delete_eq. split; [by intros []|]. intros (j & Hj1 & Hj2).
        destruct (Hact j Hj1) as [Hjk Heq]. rewrite Heq in *. destruct Hjk. by apply Hd.
      * rewrite lookup_delete_ne by done. rewrite Ho. split; intros (j & Hj1 & Hj2).
        -- exists j. rewrite Hs, decide_False by (by intros ->). done.
        -- destruct (Hact j Hj1) as [Hjk Heq]. rewrite Heq in *. by exists j.
    + intros j1 j2 H1 H2. destruct (Hact j1 H1) as [_ E1], (Hact j2 H2) as [_ E2].
      rewrite E1, E2 in *. by apply Hd.
    + intros j1 j2 H1 H2. unfold is_admin in *.
      pose proof (proj1 (andb_prop _ _ H1)) as A1. pose proof (proj1 (andb_prop _ _ H2)) as A2.
      destruct (Hact j1 A1) as [_ E1], (Hact j2 A2) as [_ E2]. rewrite E1, E2 in *. by apply Had.
  - frame_intro.
    + intros j Hjk. rewrite Hs, decide_False by done. apply marked_refl.
    + intros fd' Hne. rewrite lookup_delete_ne by done. apply only_output_refl.
  - by rewrite Hs, decide_True.
  - intros j Hjk. by rewrite Hs, decide_False.
Qed.

(** Marking sessions for removal. *)
Lemma mark_clients i fd s cs' :
  srv_inv s -> own i fd s -> length cs' = length (sv_clients s) ->
  (forall j, marked (session s j) (nth j cs' session_zero)) ->
  srv_inv (sv_set_clients cs' s) /\ own i fd (sv_set_clients cs' s) /\
  frame i fd s (sv_set_clients cs' s).
Proof.
  intros [Hj Hq Hc Ho Hd Ha Hb Hn] [Hown1 Hown2] Hlen Hm. set (s' := sv_set_clients cs' s).
  assert (Hs : forall j, cs_active (session s' j) = cs_active (session s j) /\
    cs_fd (session s' j) = cs_fd (session s j) /\ is_admin (session s' j) = is_admin (session s j)).
  { intros j. change (session s' j) with (nth j cs' session_zero). by destruct (Hm j) as [-> | ->]. }
  split_and!.
  - constructor; try done.
    + simpl. congruence.
    + intros fd'. simpl. rewrite Ho. split; intros (j & H1 & H2); exists j;
        destruct (Hs j) as (E1 & E2 & _); rewrite ?E1, ?E2 in *; done.
    + intros j1 j2. destruct (Hs j1) as (E1 & E2 & _), (Hs j2) as (E3 & E4 & _).
      rewrite E1, E2, E3, E4. apply Hd.
    + intros j1 j2. destruct (Hs j1) as (_ & _ & E1), (Hs j2) as (_ & _ & E2). rewrite E1, E2. apply Ha.
  - destruct (Hs i) as (E1 & E2 & _). split; congruence.
  - frame_intro.
Qed.

Section commands.
Context (i : nat) (fd : Z).

Lemma safe_kick j : safe i fd (update_client j kick).
Proof.
  intros s Hi Ho. unfold wpS, update_client, modify. apply mark_clients; [done..|apply length_alter|].
  intros k. unfold session. rewrite !nth_lookup. destruct (decide (k = j)) as [->|Hne].
  - rewrite list_lookup_alter_eq. destruct (sv_clients s !! j); [by right|by left].
  - rewrite list_lookup_alter_ne by done. apply marked_refl.
Qed.

Lemma safe_mark_all (p : client_session -> bool) :
  safe i fd (modify (fun s => sv_set_clients ((fun c => if p c then kick c else c) <$> sv_clients s) s)).
Proof.
  intros s Hi Ho. unfold wpS, modify. apply mark_clients; [done..|apply length_fmap|].
  intros k. unfold session. rewrite !nth_lookup, list_lookup_fmap.
  destruct (sv_clients s !! k) as [c|]; simpl; [|apply marked_refl]. destruct (p c); [by right|by left].
Qed.

Lemma blocklist_add_ok bl ip :
  Z.of_nat (length bl) <= MAX_BLOCKED_IPS /\ Forall (fun ip => strlen ip < 64) bl ->
  let bl' := snd (blocklist_add bl ip) in
  Z.of_nat (length bl') <= MAX_BLOCKED_IPS /\ Forall (fun ip => strlen ip < 64) bl'.
Proof.
  intros [Hl Hf]. unfold blocklist_add. destruct (strlen ip =? 0); [done|].
  destruct (blocklist_index bl ip); [done|]. destruct (Z.ltb_spec (Z.of_nat (length bl)) MAX_BLOCKED_IPS); [|done].
  simpl. rewrite length_app. simpl. split; [lia|]. apply Forall_app. split; [done|].
  apply Forall_singleton, snprintf_s_len. lia.
Qed.

Lemma blocklist_remove_ok bl ip :
  Z.of_nat (length bl) <= MAX_BLOCKED_IPS /\ Forall (fun ip => strlen ip < 64) bl ->
  let bl' := snd (blocklist_remove bl ip) in
  Z.of_nat (length bl') <= MAX_BLOCKED_IPS /\ Forall (fun ip => strlen ip < 64) bl'.
Proof.
  intros [Hl Hf]. unfold blocklist_remove. destruct (strlen ip =? 0); [done|].
  destruct (blocklist_index bl ip) as [n|]; [|done]. cbn [snd]. cbv zeta. split.
  - rewrite length_app, length_take, length_drop. lia.
  - apply Forall_app. split; [by apply Forall_take|by apply Forall_drop].
Qed.

(** A change of the block list, read just before. *)
Lemma safe_blocklist {A} (f : list string -> Z * list string) (k : Z -> list string -> Srv A) :
  (forall bl, Z.of_nat (length bl) <= MAX_BLOCKED_IPS /\ Forall (fun ip => strlen ip < 64) bl ->
    Z.of_nat (length (snd (f bl))) <= MAX_BLOCKED_IPS /\ Forall (fun ip => strlen ip < 64) (snd (f bl))) ->
  (forall rc bl, safe i fd (k rc bl)) ->
  safe i fd (bl ← gets sv_blocklist; let (rc, bl) := f bl in _ ← modify (sv_set_blocklist bl); k rc bl).
Proof.
  intros Hf Hk s Hi Ho. apply wpS_gets. specialize (Hf _ (si_block _ Hi)).
  destruct (f (sv_blocklist s)) as [rc bl]. simpl in Hf. apply wpS_then; [|done].
  unfold wpS, modify. split_and!; [by destruct Hi|done|]. frame_intro.
Qed.

Lemma safe_admin_blockip ip : safe i fd (admin_blockip fd ip).
Proof.
  unfold admin_blockip. destruct (strlen ip =? 0); [auto with server|].
  apply (safe_blocklist (fun bl => blocklist_add bl ip)); [intros; by apply blocklist_add_ok|].
  intros rc bl. destruct (rc <? 0); [auto with server|]. apply safe_bind; [auto with server|intros n].
  apply safe_bind; [apply safe_mark_all|auto with server].
Qed.

Lemma safe_admin_unblockip ip : safe i fd (admin_unblockip fd ip).
Proof.
  unfold admin_unblockip. destruct (strlen ip =? 0); [auto with server|].
  apply (safe_blocklist (fun bl => blocklist_remove bl ip)); [intros; by apply blocklist_remove_ok|].
  intros rc bl. safe_auto.
Qed.

Lemma safe_download id : safe i fd (user_download fd id).
Proof.
  unfold user_download, find_job, job_call.
  assert (Hsize : forall path, safe i fd (files (get_file_size_bytes path))).
  { intros path s Hi Ho. unfold wpS, files, get_file_size_bytes. simpl.
    assert (Heq : sv_set_world (sv_world s) s = s) by (by destruct s). rewrite Heq.
    split_and!; [done..|apply frame_refl]. }
  assert (Hsend : forall path, safe i fd (on_sock_files fd (-1) (fun c => storage_send_file c (Some path)))).
  { intros path s Hi Ho. unfold wpS, on_sock_files. destruct (sv_socks s !! fd) as [c|] eqn:Hc.
    2: { split_and!; try done. apply frame_refl. }
    pose proof (storage_send_frame c path (sv_world s)) as H. unfold wp in H.
    destruct (storage_send_file _ _ _) as [r w]. destruct H as (rc & c' & -> & Hst).
    split_and!; [|done|].
    - assert (Hi' : srv_inv (sv_set_socks (<[fd:=c']> (sv_socks s)) s))
        by (apply inv_socks; [done|by eapply insert_open]). destruct Hi'. by constructor.
    - frame_intro.
      + intros fd' Hne. rewrite lookup_insert_ne by done. apply only_output_refl.
      + by eexists.
      + intros q _. by rewrite (step_fs _ _ _ _ _ Hst). }
  safe_auto.
Qed.

Lemma safe_cancel id text : safe i fd (cancel_job fd id text).
Proof. unfold cancel_job, find_job, job_call. safe_auto. Qed.

Lemma safe_admin_kick arg : safe i fd (admin_kick fd arg).
Proof.
  unfold admin_kick. destruct (parse_int_arg arg) as [target|]; [|apply safe_send].
  apply safe_bind; [apply safe_gets|]. intros [[j c']|]; [|apply safe_send].
  apply safe_bind; [apply safe_kick|intros _]. apply safe_bind; intros; apply safe_send.
Qed.

(** A report computed from the state. *)
Lemma safe_report {A} (f : server -> A) (text : A -> string) :
  safe i fd (x ← gets f; send_responsef fd (text x)).
Proof. apply safe_bind; [apply safe_gets|intros; apply safe_send]. Qed.

Lemma safe_admin_stats : safe i fd (admin_stats fd).
Proof. apply safe_bind; [apply safe_gets|intros st]. apply safe_report. Qed.

Lemma safe_admin_listjobs : safe i fd (admin_listjobs fd).
Proof. apply safe_bind; [apply safe_gets|]. intros [list|]; apply safe_send. Qed.

Lemma safe_admin_history : safe i fd (admin_history fd).
Proof. apply safe_bind; [apply safe_gets|]. intros [list|]; apply safe_send. Qed.

Lemma safe_admin r : rq_command r <> PROTO_CMD_QUIT -> safe i fd (handle_admin_command i r).
Proof.
  intros Hquit. unfold handle_admin_command. apply safe_client. intros c -> _. cbv zeta.
  destruct (rq_command r);
    lazymatch goal with
    | |- safe _ _ (send_responsef _ _) => apply safe_send
    | |- safe _ _ (send_admin_help _) => apply safe_send
    | |- safe _ _ (admin_stats _) => apply safe_admin_stats
    | |- safe _ _ (admin_listjobs _) => apply safe_admin_listjobs
    | |- safe _ _ (admin_history _) => apply safe_admin_history
    | |- safe _ _ (cancel_job _ _ _) => apply safe_cancel
    | |- safe _ _ (admin_kick _ _) => apply safe_admin_kick
    | |- safe _ _ (admin_blockip _ _) => apply safe_admin_blockip
    | |- safe _ _ (admin_unblockip _ _) => apply safe_admin_unblockip
    | |- safe _ _ (mbind _ (gets _)) => apply safe_report
    | |- safe _ _ (admin_avgduration _) => apply safe_report
    | _ => by destruct Hquit
    end.
Qed.

(** *** Commands of users *)

Lemma safe_report_job {A} (f : option loc -> Srv A) id :
  (forall job, safe i fd (f job)) -> safe i fd (find_job id ≫= f).
Proof. intros Hf. by apply safe_bind; [apply safe_gets|]. Qed.

Lemma safe_user_status id : safe i fd (user_status fd id).
Proof. apply safe_report_job. intros [l|]; [apply safe_report|apply safe_send]. Qed.

Lemma safe_user_result id : safe i fd (user_result fd id).
Proof.
  apply safe_report_job. intros [l|]; [|apply safe_send]. apply safe_bind; [apply safe_gets|intros st].
  destruct (negb _); [apply safe_send|apply safe_report].
Qed.

Lemma safe_user_meta id : safe i fd (user_meta fd id).
Proof.
  apply safe_report_job. intros [l|]; [|apply safe_send]. apply safe_bind; [apply safe_gets|intros st].
  destruct (negb _); [apply safe_send|]. apply safe_bind; [apply safe_gets|]. intros [[k n] name].
  apply safe_send.
Qed.

(** A job whose only upload is the image. *)
Lemma safe_submit_png type size :
  0 <= size -> type <> JOB_TYPE_ENCODE_TEXT -> type <> JOB_TYPE_ENCODE_FILE -> safe i fd (submit_png i type size).
Proof.
  intros Hsize Ht Hf s Hi Ho. eapply wpS_intake; [by apply safe_receive_png|apply intake_png|].
  intros [path|] s1 Hi1 Ho1 [Hg Hj] HP; [|by apply safe_ret]. apply enqueue_spec; [done..|].
  unfold own_paths. rewrite Hg, Hj. specialize (HP path eq_refl). by destruct type.
Qed.

Lemma safe_submit_path type r : upload_suffixes type = None -> safe i fd (submit_path i fd type r).
Proof. intros Ht. unfold submit_path. destruct (_ =? 0); [apply safe_send|by apply safe_enqueue]. Qed.

(** A job whose uploads are the image and the payload. *)
Lemma submit_extra type suffix payload label png size max s g id :
  0 <= size -> upload_suffixes type = Some (Some suffix) -> srv_inv s -> own i fd s ->
  sv_storage s = g -> jt_next_id (sv_jobs s) = id -> own_path g id "png" (Some png) ->
  wpS (extra ← receive_extra_to_file fd size max label (jt_next_id (sv_jobs s)) suffix;
       match extra with
       | None => mret 0
       | Some path => enqueue_job i type payload (Some png) (Some path)
       end) (fun _ s' => srv_inv s' /\ own i fd s' /\ frame i fd s s') s.
Proof.
  intros Hsize Ht Hi Ho <- <- Hpng. eapply wpS_intake; [by apply receive_extra_spec|apply intake_extra|].
  intros [path|] s1 Hi1 Ho1 [Hg Hj] HP; [|by apply safe_ret]. apply enqueue_spec; [done..|].
  unfold own_paths. rewrite Ht, Hg, Hj. split; [done|]. by apply HP.
Qed.

Lemma safe_encode_text r : request_wf r -> safe i fd (user_encode_text i fd r).
Proof.
  intros [_ H1 H2 _ _ _]. unfold bounded in *. intros s Hi Ho. unfold user_encode_text.
  eapply wpS_intake; [apply safe_receive_png; [lia|done..]|apply intake_png|].
  intros [png|] s1 Hi1 Ho1 [Hg Hj] HP; [|by apply safe_ret]. unfold next_job_id. apply wpS_gets.
  eapply submit_extra; [lia|done..|by rewrite Hj|by apply HP].
Qed.

Lemma safe_read_filename size : safe i fd (read_filename fd size).
Proof.
  unfold read_filename. destruct (Z.ltb_spec 0 size); [|apply safe_ret]. apply safe_bind.
  - apply safe_on_sock. intros c. unfold read_exact.
    destruct (read_exact_loop_total (S (length (cn_rsched c) + Z.to_nat size)) size [] c)
      as (r & got & c' & -> & _); simpl length; [lia|lia|]. eauto.
  - intros [rc got]. destruct (negb _); apply safe_ret.
Qed.

Lemma safe_discard size : 0 <= size -> safe i fd (on_sock fd (-1) (fun c => discard_exact c size)).
Proof.
  intros Hsize. apply safe_on_sock. intros c. unfold discard_exact.
  destruct (discard_loop_total (S (length (cn_rsched c) + length (cn_in c))) size c)
    as (r & c' & -> & _); [lia|lia|]. eauto.
Qed.

Lemma safe_encode_file r : request_wf r -> safe i fd (user_encode_file i fd r).
Proof.
  intros [_ H1 H2 H3 _ _]. unfold bounded in *. unfold user_encode_file. destruct (_ <? _).
  { apply safe_bind; [|intros; apply safe_send]. by apply safe_discard, wrap_bounded. }
  intros s Hi Ho. eapply wpS_intake; [apply safe_receive_png; [lia|done..]|apply intake_png|].
  intros [png|] s1 Hi1 Ho1 [Hg1 Hj1] HP; [|by apply safe_ret].
  eapply wpS_intake; [by apply safe_read_filename|apply intake_filename|].
  intros [name|] s2 Hi2 Ho2 [Hg2 Hj2] _; [|by apply safe_send]. unfold next_job_id. apply wpS_gets, wpS_gets.
  eapply submit_extra; [lia|done..|by rewrite Hj2, Hj1|]. rewrite Hg1. by apply HP.
Qed.

Lemma safe_user r :
  request_wf r -> rq_command r <> PROTO_CMD_QUIT -> safe i fd (handle_user_command i r).
Proof.
  intros Hwf Hquit. unfold handle_user_command. apply safe_client. intros c -> _. cbv zeta.
  assert (Hsize : 0 <= rq_size1 r) by apply Hwf.
  destruct (rq_command r);
    first [ apply safe_send | by apply safe_encode_text | by apply safe_encode_file
          | by apply safe_submit_png | by apply safe_submit_path | apply safe_user_status
          | apply safe_user_result | apply safe_user_meta | apply safe_download | apply safe_cancel
          | by destruct Hquit | idtac ].
  destruct (_ =? 0); [apply safe_send|by apply safe_enqueue].
Qed.
End commands.
