(* ===== verification/ServerCorrect.v ===== *)
(** * What the server thread guarantees (src/src/server/server.c)

    Every line of a client is handled without undefined behaviour and within a
    frame that says what it may do to the others; connections are admitted according to the block list,
    the limit of one administrator and the number of sessions, and never leak
    a descriptor; every iteration of the loop keeps the invariant. *)

From S2P Require Export ServerSafe.
#[local] Open Scope Z_scope.

(** ** One line of a client *)

Lemma own_frame_fd i fd s s' : own i fd s -> frame i fd s s' -> frame i (cs_fd (session s i)) s s'.
Proof. by intros [_ ->]. Qed.

Lemma close_own i fd s0 s :
  srv_inv s -> own i fd s -> frame i fd s0 s ->
  wpS (close_client i) (fun _ s' => srv_inv s' /\ frame i fd s0 s') s.
Proof.
  intros Hi Ho H0. eapply wpS_conseq; [by apply close_client_spec|]. intros _ s' (Hi' & H1 & _ & _).
  split; [done|]. rewrite (proj2 Ho) in H1. by eapply frame_trans.
Qed.

(** QUIT answers, and closes the session. *)
Lemma quit_spec i fd s0 s (f : unit -> Srv Z) :
  srv_inv s -> own i fd s -> frame i fd s0 s -> (forall u, f u = mret 0) ->
  wpS (_ ← send_responsef fd ("BYE" +:+ nl); (u ← close_client i; f u))
    (fun _ s' => srv_inv s' /\ frame i fd s0 s') s.
Proof.
  intros Hi Ho H0 Hf. apply wpS_bind. eapply wpS_conseq; [by apply (safe_send i fd)|].
  intros rc s1 (Hi1 & Ho1 & H1). apply wpS_bind. eapply wpS_conseq.
  { apply (close_own i fd s0); [done..|]. by apply (frame_trans _ _ _ s). }
  intros u s2 H2. rewrite Hf. by apply wpS_ret.
Qed.

Lemma handle_command_spec i fd r type s0 s :
  request_wf r -> srv_inv s -> own i fd s -> frame i fd s0 s ->
  wpS (if bool_decide (type = CLIENT_TYPE_ADMIN)
       then _ ← handle_admin_command i r; mret tt
       else _ ← handle_user_command i r; mret tt)
    (fun _ s' => srv_inv s' /\ frame i fd s0 s') s.
Proof.
  intros Hwf Hi Ho H0. destruct (decide (rq_command r = PROTO_CMD_QUIT)) as [Hq|Hq].
  - unfold handle_admin_command, handle_user_command, client_at. rewrite Hq.
    destruct (bool_decide _); apply wpS_bind, wpS_gets; fold (session s i); rewrite (proj2 Ho);
      (eapply wpS_conseq; [by apply (quit_spec i fd s0)|]); intros rc s' H; by apply wpS_ret.
  - destruct (bool_decide _); apply wpS_bind;
      (eapply wpS_conseq; [first [by apply (safe_admin i fd)|by apply (safe_user i fd)]|]);
      intros rc s' (Hi' & _ & H'); apply wpS_ret; (split; [done|by eapply frame_trans]).
Qed.

Lemma handle_client_command_spec i s :
  srv_inv s -> cs_active (session s i) = true ->
  wpS (handle_client_command i)
    (fun _ s' => srv_inv s' /\ frame i (cs_fd (session s i)) s s') s.
Proof.
  intros Hi Ha. set (fd := cs_fd (session s i)). assert (Ho : own i fd s) by done.
  unfold handle_client_command, client_at. apply wpS_gets. fold (session s i) fd.
  apply wpS_bind. eapply wpS_conseq.
  { assert (Hread : safe i fd (on_sock fd (-1, []) (fun c =>
      match read_line c BUFFER_SIZE with Some (rc, bytes, c) => Some ((rc, bytes), c) | None => None end))).
    { apply safe_on_sock. intros c. unfold read_line.
      destruct (read_line_loop_total (S (length (cn_rsched c) + Z.to_nat BUFFER_SIZE)) BUFFER_SIZE [] c)
        as (r & got & c' & -> & _); simpl length; [done|lia|]. eauto. }
    by apply Hread. }
  intros [rc bytes] s1 (Hi1 & Ho1 & H1). destruct (rc <=? 0); [by apply (close_own i fd s)|].
  destruct (parse_wf (cstr_of_bytes bytes)) as (r & -> & Hwf).
  by apply (handle_command_spec i fd r (cs_type (session s i)) s).
Qed.

(** ** What a command shares with the other clients

    [within K m]: whatever [m] returns, it went from a state to one that [K]
    relates to it, where [K] allows every change but those of the block list
    and of the sessions other than [i]. *)

Class Shares (i : nat) (K : server -> server -> Prop) : Prop := {
  sh_pre :: PreOrder K;
  sh_same s s' : sv_clients s' = sv_clients s -> sv_blocklist s' = sv_blocklist s -> K s s';
  sh_own f s : K s (sv_set_clients (alter f i (sv_clients s)) s)
}.

Definition same_blocklist (s s' : server) : Prop := sv_blocklist s' = sv_blocklist s.

Definition others_kept (i : nat) (s s' : server) : Prop :=
  sv_blocklist s' = sv_blocklist s /\ forall k, k <> i -> session s' k = session s k.

#[export] Instance same_blocklist_shares i : Shares i same_blocklist.
Proof.
  split; [split; [done|intros ???; unfold same_blocklist; congruence]|done|done].
Qed.

#[export] Instance others_kept_shares i : Shares i (others_kept i).
Proof.
  split.
  - split; [done|]. intros s1 s2 s3 [H1 H1'] [H2 H2']. split; [congruence|].
    intros k Hk. by rewrite H2', H1'.
  - intros s s' Hc Hb. split; [done|]. intros k _. unfold session. by rewrite Hc.
  - intros f s. split; [done|]. intros k Hk. unfold session. cbn.
    rewrite !nth_lookup. by rewrite list_lookup_alter_ne.
Qed.

Definition within {A} (K : server -> server -> Prop) (m : Srv A) : Prop :=
  forall s, match m s with Some (_, s') => K s s' | None => True end.

Section within.
Context (i : nat) (K : server -> server -> Prop) {HK : Shares i K}.

Lemma within_ret {A} (a : A) : within K (mret a).
Proof. intros s. cbn. reflexivity. Qed.

Lemma within_gets {A} (f : server -> A) : within K (gets f).
Proof. intros s. cbn. reflexivity. Qed.

Lemma within_bind {A B} (m : Srv A) (f : A -> Srv B) :
  within K m -> (forall a, within K (f a)) -> within K (m ≫= f).
Proof.
  intros Hm Hf s. unfold mbind, Srv_bind. specialize (Hm s). destruct (m s) as [[a s1]|]; [|done].
  specialize (Hf a s1). destruct (f a s1) as [[b s2]|]; [|done]. by etrans.
Qed.

(** Anything that keeps the sessions and the block list. *)
Definition aside {A} (m : Srv A) : Prop := forall s, match m s with
  | Some (_, s') => sv_clients s' = sv_clients s /\ sv_blocklist s' = sv_blocklist s
  | None => True
  end.

Lemma within_aside {A} (m : Srv A) : aside m -> within K m.
Proof. intros H s. specialize (H s). destruct (m s) as [[a s']|]; [|done]. by apply sh_same; apply H. Qed.

Lemma aside_sock {A} fd (bad : A) f : aside (on_sock fd bad f).
Proof. intros s. unfold on_sock. repeat case_match; simplify_eq; done. Qed.

Lemma aside_sock_files {A} fd (bad : A) f : aside (on_sock_files fd bad f).
Proof. intros s. unfold on_sock_files. repeat case_match; simplify_eq; done. Qed.

Lemma aside_files {A} (m : M A) : aside (files m).
Proof. intros s. unfold files. by destruct (m (sv_world s)). Qed.

Lemma aside_update f : aside (job_update_call f).
Proof. done. Qed.

Lemma aside_create c type payload path s : match create_job c type payload path s with
  | Some (_, s') => sv_clients s' = sv_clients s /\ sv_blocklist s' = sv_blocklist s
  | None => True
  end.
Proof. unfold create_job, alloc, next_clock, mbind, Srv_bind. by destruct (job_table_create_job _ _ _ _ _ _ _ _ _ _) as [[r t] h]. Qed.

Lemma aside_push job : aside (queue_push job).
Proof.
  intros s. unfold queue_push, alloc, mbind, Srv_bind. cbn -[job_queue_push].
  by destruct (job_queue_push _ _ _ _) as [[[rc q] nodes]|].
Qed.

Lemma aside_clock : aside next_clock.
Proof. done. Qed.

Lemma within_send fd text : within K (send_responsef fd text).
Proof.
  unfold send_responsef. case_match; [apply within_ret|].
  apply within_bind; [apply within_aside, aside_sock|intros; apply within_ret].
Qed.

Lemma within_close : within K (close_client i).
Proof.
  unfold close_client, client_at. apply within_bind; [apply within_gets|]. intros c.
  case_match; [apply within_ret|]. apply within_bind; [by apply within_aside|].
  intros _ s. unfold update_client, modify. apply sh_own.
Qed.

Ltac within_step :=
  lazymatch goal with
  | |- within _ (mret _) => apply within_ret
  | |- within _ (gets _) => apply within_gets
  | |- within _ (send_responsef _ _) => apply within_send
  | |- within _ (close_client _) => apply within_close
  | |- within _ (on_sock _ _ _) => apply within_aside, aside_sock
  | |- within _ (on_sock_files _ _ _) => apply within_aside, aside_sock_files
  | |- within _ (files _) => apply within_aside, aside_files
  | |- within _ (job_update_call _) => apply within_aside, aside_update
  | |- within _ (queue_push _) => apply within_aside, aside_push
  | |- within _ next_clock => apply within_aside, aside_clock
  | |- within _ (create_job ?c ?t ?p ?q) => apply within_aside; exact (aside_create c t p q)
  | |- within _ (mbind _ _) => apply within_bind; [|intros ?]
  | |- within _ (if ?b then _ else _) => destruct b
  | |- within _ (match ?x with _ => _ end) => destruct x
  end.
Ltac within_auto := cbv zeta; repeat within_step.

Lemma within_enqueue type payload input stored : within K (enqueue_job i type payload input stored).
Proof. unfold enqueue_job, client_at, job_call. within_auto. Qed.

Lemma within_png size : within K (receive_png_to_upload i size).
Proof. unfold receive_png_to_upload, client_at, next_job_id. within_auto. Qed.

Lemma within_extra fd size max label id suffix : within K (receive_extra_to_file fd size max label id suffix).
Proof. unfold receive_extra_to_file. within_auto. Qed.

Lemma within_filename fd size : within K (read_filename fd size).
Proof. unfold read_filename. within_auto. Qed.

Lemma within_cancel fd id text : within K (cancel_job fd id text).
Proof. unfold cancel_job, find_job, job_call. within_auto. Qed.

Lemma within_user r : within K (handle_user_command i r).
Proof.
  unfold handle_user_command, client_at, send_help. apply within_bind; [apply within_gets|intros c]. cbv zeta.
  destruct (rq_command r); unfold user_encode_text, user_encode_file, submit_png, submit_path,
    user_status, user_result, user_meta, user_download, find_job, job_call, next_job_id;
    repeat lazymatch goal with
    | |- within _ (cancel_job _ _ _) => apply within_cancel
    | |- within _ (enqueue_job _ _ _ _ _) => apply within_enqueue
    | |- within _ (receive_png_to_upload _ _) => apply within_png
    | |- within _ (receive_extra_to_file _ _ _ _ _ _) => apply within_extra
    | |- within _ (read_filename _ _) => apply within_filename
    | _ => within_step
    end.
Qed.

End within.

(** The block list of an administrator's command. *)
Definition blocklist_changed (s s' : server) : Prop :=
  same_blocklist s s' \/ exists ip, sv_blocklist s' = snd (blocklist_add (sv_blocklist s) ip) \/
                                   sv_blocklist s' = snd (blocklist_remove (sv_blocklist s) ip).

Lemma same_changed {A} (m : Srv A) : within same_blocklist m -> within blocklist_changed m.
Proof. intros H s. specialize (H s). destruct (m s) as [[a s']|]; [by left|done]. Qed.

Lemma within_change {A} (f : list string -> Z * list string) (k : Z -> list string -> Srv A) :
  (forall bl, exists ip, snd (f bl) = snd (blocklist_add bl ip) \/ snd (f bl) = snd (blocklist_remove bl ip)) ->
  (forall rc bl, within same_blocklist (k rc bl)) ->
  within blocklist_changed (bl ← gets sv_blocklist; let (rc, bl) := f bl in _ ← modify (sv_set_blocklist bl); k rc bl).
Proof.
  intros Hf Hk s. unfold gets, modify, mbind, Srv_bind. specialize (Hf (sv_blocklist s)).
  destruct (f (sv_blocklist s)) as [rc bl]. specialize (Hk rc bl (sv_set_blocklist bl s)).
  destruct (k rc bl _) as [[a s']|]; [|done]. destruct Hf as [ip Hip]. right. exists ip. cbn in Hip.
  unfold same_blocklist in Hk. rewrite Hk. exact Hip.
Qed.

Lemma within_read {A B} (K : server -> server -> Prop) (f : server -> A) (k : A -> Srv B) :
  (forall a, within K (k a)) -> within K (gets f ≫= k).
Proof. intros H s. apply (H (f s) s). Qed.

(** One that may change the sessions. *)
Lemma within_sessions (f : server -> list client_session) : within same_blocklist (modify (fun s => sv_set_clients (f s) s)).
Proof. done. Qed.

Lemma send_same fd text : within same_blocklist (send_responsef fd text).
Proof. apply (within_send 0 same_blocklist). Qed.

Lemma within_admin_blockip fd ip : within blocklist_changed (admin_blockip fd ip).
Proof.
  unfold admin_blockip. destruct (_ =? 0); [apply same_changed, send_same|].
  refine (within_change (fun bl => blocklist_add bl ip) _ _ _); [intros bl; by exists ip; left|].
  intros rc bl. destruct (rc <? 0); [apply send_same|].
  apply within_read. intros n. apply (within_bind 0 same_blocklist); [apply within_sessions|intros _; apply send_same].
Qed.

Lemma within_admin_unblockip fd ip : within blocklist_changed (admin_unblockip fd ip).
Proof.
  unfold admin_unblockip. destruct (_ =? 0); [apply same_changed, send_same|].
  refine (within_change (fun bl => blocklist_remove bl ip) _ _ _); [intros bl; by exists ip; right|].
  intros rc bl. destruct (rc <? 0); apply send_same.
Qed.

Lemma within_admin_kick fd arg : within same_blocklist (admin_kick fd arg).
Proof.
  unfold admin_kick. destruct (parse_int_arg arg); [|apply send_same].
  apply within_read. intros [[k c]|]; [|apply send_same].
  apply (within_bind 0 same_blocklist); [apply within_sessions|intros _]. apply (within_bind 0 same_blocklist); intros; apply send_same.
Qed.

Lemma within_admin i r : within blocklist_changed (handle_admin_command i r).
Proof.
  unfold handle_admin_command, client_at. apply within_read. intros c. cbv zeta.
  destruct (rq_command r);
    lazymatch goal with
    | |- within _ (admin_blockip _ _) => apply within_admin_blockip
    | |- within _ (admin_unblockip _ _) => apply within_admin_unblockip
    | |- _ => apply same_changed
    end;
    lazymatch goal with
    | |- within _ (admin_kick _ _) => apply within_admin_kick
    | |- within _ (cancel_job _ _ _) => apply (within_cancel i same_blocklist)
    | |- within _ (send_responsef _ _) => apply send_same
    | |- within _ (send_admin_help _) => apply send_same
    | |- within _ (admin_listjobs _) => apply within_read; intros [?|]; apply send_same
    | |- within _ (admin_history _) => apply within_read; intros [?|]; apply send_same
    | |- within _ (admin_stats _) => apply within_read; intros ?; apply within_read; intros ?; apply send_same
    | |- within _ (admin_avgduration _) => apply within_read; intros ?; apply send_same
    | |- within _ (mbind _ (gets _)) => apply within_read; intros ?; apply send_same
    | |- within blocklist_changed _ => idtac
    | |- _ => apply (within_bind i same_blocklist); [apply send_same|intros _];
              apply (within_bind i same_blocklist); [apply (within_close i same_blocklist)|intros _; apply (within_ret i same_blocklist)]
    end.
Qed.

(** What the line of a client may change of what the clients share. *)
Definition shared_effect (i : nat) (s s' : server) : Prop :=
  (cs_type (session s i) <> CLIENT_TYPE_ADMIN -> others_kept i s s') /\ blocklist_changed s s'.

Lemma handle_client_shared i s s' :
  handle_client_command i s = Some (tt, s') -> shared_effect i s s'.
Proof.
  set (tail := fun c (line : Z * list Z) => let (rc, bytes) := line in
    if rc <=? 0 then close_client i else
    match protocol_parse_line (Some (cstr_of_bytes bytes)) with
    | None => _ ← send_responsef (cs_fd c) ("ERR parse failed" +:+ nl); mret tt
    | Some request =>
        if bool_decide (cs_type c = CLIENT_TYPE_ADMIN)
        then _ ← handle_admin_command i request; mret tt
        else _ ← handle_user_command i request; mret tt
    end).
  intros H. unfold handle_client_command, client_at, mbind at 1, Srv_bind at 1, gets at 1 in H. fold (session s i) in H.
  set (c := session s i) in H. unfold mbind at 1, Srv_bind at 1 in H.
  set (r := on_sock _ _ _ s) in H. assert (Hread : match r with
    | Some (_, s1) => sv_clients s1 = sv_clients s /\ sv_blocklist s1 = sv_blocklist s | None => True end)
    by (subst r; apply aside_sock).
  clearbody r. destruct r as [[line s1]|]; [|done]. destruct Hread as [Hc1 Hb1].
  change (tail c line s1 = Some (tt, s')) in H. unfold shared_effect. fold c. split.
  - intros Hu. etrans; [by apply (sh_same (i := i) s s1)|].
    assert (Hw : within (others_kept i) (tail c line)).
    { subst tail. destruct line as [rc bytes]. cbn beta. destruct (rc <=? 0); [apply (within_close i _)|].
      destruct (protocol_parse_line _) as [r|]; [|apply (within_bind i _); [apply (within_send i _)|intros; apply (within_ret i _)]].
      rewrite bool_decide_false by done. apply (within_bind i _); [apply (within_user i _)|intros; apply (within_ret i _)]. }
    specialize (Hw s1). by rewrite H in Hw.
  - assert (Hw : within blocklist_changed (tail c line)).
    { subst tail. destruct line as [rc bytes]. cbn beta. destruct (rc <=? 0); [apply same_changed, (within_close i _)|].
      destruct (protocol_parse_line _) as [r|].
      2: { apply same_changed, (within_bind i _); [apply (within_send i _)|intros; apply (within_ret i _)]. }
      case_bool_decide; [|apply same_changed, (within_bind i _); [apply (within_user i _)|intros; apply (within_ret i _)]].
      intros s2. unfold mbind, Srv_bind. pose proof (within_admin i r s2) as Ha.
      destruct (handle_admin_command i r s2) as [[rc' s3]|]; [exact Ha|done]. }
    specialize (Hw s1). rewrite H in Hw. unfold blocklist_changed, same_blocklist in *. by rewrite <-Hb1.
Qed.

(** A job that was there is the same, but for a request to cancel it. *)
Definition job_kept (j j' : job) : Prop := j' = j \/ j' = with_cancel j.

Lemma submits_jobs_kept s s' l j :
  submits s s' -> rtc job_step (sv_jobs s, sv_heap s) (sv_jobs s', sv_heap s') ->
  job_inv (sv_jobs s, sv_heap s) -> sv_heap s !! l = Some j ->
  exists j', sv_heap s' !! l = Some j' /\ job_kept j j'.
Proof.
  intros Hsub Hsteps [Hwf Hjobs] Hj.
  destruct (job_identity _ _ _ _ l j Hwf Hjobs Hsteps Hj) as (j' & Hj' & Hsame). exists j'. split; [done|].
  assert (Hb : body j' = body j).
  { assert (Hone : forall v v', rtc (submit_step (sv_storage s)) v v' -> body <$> v.1.1.2 !! l = Some (body j) ->
      body <$> v'.1.1.2 !! l = Some (body j)).
    { induction 1 as [|v1 v2 v3 H12 _ IH]; [done|]. intros H1. apply IH.
      destruct H12 as [???????? Hh _ _|l0 ????????? Hl _ Hh _ _ _]; cbn in *; rewrite Hh; try done.
      intros ->. by rewrite Hl in H1. }
    specialize (Hone _ _ Hsub). cbn [view_of fst snd] in Hone. rewrite Hj, Hj' in Hone.
    apply (inj Some). by apply Hone. }
  destruct (job_cancel_requested j') eqn:Hc.
  - right. unfold body in Hb. rewrite <-Hb. destruct j'. cbn in *. by subst.
  - left. destruct (job_cancel_requested j) eqn:Hc0; [destruct Hsame as (_&_&_&_&_&_&_&Hs); by rewrite (Hs Hc0) in Hc|].
    destruct j, j'. unfold body, with_cancel in Hb. cbn in *. subst. injection Hb as. by subst.
Qed.

(** C15: a line of a client is always handled, without undefined behaviour, and
    what it may do to the others is bounded.  (The client sends what it announced
    or closes; one that stays silent instead blocks the server.)  If the client is not an
    administrator the other sessions and the block list stay as they are; an
    administrator may mark other sessions for removal and add or remove one
    address of the block list.  Nothing is consumed from another socket.  Every
    job that was there keeps all its fields, except that its cancellation may be
    requested: since CANCEL does not ask who owns a job, this holds of the jobs of
    every client.  New jobs may appear, the queue is only appended to, and the
    files change only at upload paths of identifiers that no job has yet. *)
Theorem command_isolated i s :
  srv_inv s -> cs_active (session s i) = true ->
  exists s', handle_client_command i s = Some (tt, s') /\ srv_inv s' /\ (tracked s -> tracked s') /\
    (cs_type (session s i) <> CLIENT_TYPE_ADMIN ->
       sv_blocklist s' = sv_blocklist s /\ forall j, j <> i -> session s' j = session s j) /\
    (forall j, j <> i -> session s' j = session s j \/ session s' j = kick (session s j)) /\
    (sv_blocklist s' = sv_blocklist s \/ exists ip,
       sv_blocklist s' = snd (blocklist_add (sv_blocklist s) ip) \/
       sv_blocklist s' = snd (blocklist_remove (sv_blocklist s) ip)) /\
    (forall fd, fd <> cs_fd (session s i) -> only_output (sv_socks s !! fd) (sv_socks s' !! fd)) /\
    rtc job_step (sv_jobs s, sv_heap s) (sv_jobs s', sv_heap s') /\
    (forall l j, sv_heap s !! l = Some j ->
       exists j', sv_heap s' !! l = Some j' /\ (j' = j \/ j' = with_cancel j)) /\
    (forall js, queue_holds (sv_queue s) (sv_nodes s) js ->
       exists js', queue_holds (sv_queue s') (sv_nodes s') (js ++ js')) /\
    (w_files (sv_world s') = w_files (sv_world s) /\ w_live (sv_world s') = w_live (sv_world s)) /\
    (forall q, (forall id x, jt_next_id (sv_jobs s) <= id ->
         q <> job_path (g_storage_uploads (sv_storage s)) id (Some x)) ->
       w_fs (sv_world s') !! q = w_fs (sv_world s) !! q).
Proof.
  intros Hi Ha. pose proof (handle_client_command_spec i s Hi Ha) as H. unfold wpS in H.
  pose proof (handle_client_shared i s) as Hsh.
  destruct (handle_client_command i s) as [[[] s']|]; [|done]. destruct (Hsh s' eq_refl) as [Hu Hb].
  destruct H as [Hi' [[Hc Hk Hj _ Hq [fs Hf] Hw _ _ _] Ht]]. exists s'.
  split_and!; try done; [by apply submits_tracked| |destruct Hf; lia..].
  intros l j Hl. by apply (submits_jobs_kept s s'); [..|apply Hi|].
Qed.

(** ** Connections *)

(** Output on a stream: all of it, unless the connection fails. *)
Definition sent (text : string) (c c' : conn) : Prop :=
  cn_in c' = cn_in c /\ cn_rsched c' = cn_rsched c /\
  (quiet (cn_wsched c) -> strlen text < BUFFER_SIZE ->
     cn_out c' = cn_out c ++ bytes_of_string text /\ quiet (cn_wsched c')).

Lemma send_spec fd text c s :
  sv_socks s !! fd = Some c ->
  wpS (send_responsef fd text) (fun rc s' => exists c', sent text c c' /\
    (quiet (cn_wsched c) -> strlen text < BUFFER_SIZE -> rc = 0) /\
    s' = sv_set_socks (<[fd := c']> (sv_socks s)) s) s.
Proof.
  intros Hc. unfold send_responsef. destruct (Z.leb_spec BUFFER_SIZE (strlen text)) as [Hlong|Hshort].
  - apply wpS_ret. exists c. unfold sent. split_and!; try done; [intros; lia..|]. rewrite insert_id by done. by destruct s.
  - apply wpS_bind. unfold wpS at 1, on_sock. rewrite Hc. unfold write_all.
    destruct (write_loop_total (S (length (cn_wsched c) + length (bytes_of_string text)))
      (bytes_of_string text) 0 c ltac:(lia)) as (r & out & c' & -> & Hout & _ & _ & Hquiet & Hin & Hrs).
    apply wpS_ret. exists c'. unfold sent. split_and!; try done.
    + intros Hq _. destruct (Hquiet Hq) as (-> & -> & Hq'). done.
    + intros Hq _. destruct (Hquiet Hq) as (-> & _ & _). by destruct (Z.ltb_spec (0 + Z.of_nat (length (bytes_of_string text))) 0); [lia|].
Qed.

(** A connection that is turned away leaves no trace. *)
Lemma reject_spec fd text c s :
  sv_socks s !! fd = None ->
  wpS (reject fd text) (fun rc s' => rc = 0 /\ s' = s) (sv_set_socks (<[fd := c]> (sv_socks s)) s).
Proof.
  intros Hfd. unfold reject. apply wpS_bind. eapply wpS_conseq.
  { apply (send_spec fd _ c). apply lookup_insert_eq. }
  intros rc s1 (c' & _ & _ & ->). unfold wpS, close_fd, modify. simpl.
  rewrite delete_insert_eq, delete_insert_id by done. by destruct s.
Qed.

Lemma free_slot_some cs i k :
  free_slot_from i cs = Some k ->
  exists j, k = (i + j)%nat /\ (j < length cs)%nat /\ cs_active (nth j cs session_zero) = false.
Proof.
  revert i. induction cs as [|c cs IH]; intros i; simpl; [done|].
  destruct (cs_active c) eqn:E; simpl.
  - intros (j & -> & Hj & Hc)%IH. exists (S j). simpl. split_and!; [lia|lia|done].
  - intros [= <-]. exists 0%nat. split_and!; [lia|lia|done].
Qed.

Lemma no_admin s i : existsb is_admin (sv_clients s) = false -> is_admin (session s i) = false.
Proof.
  intros H. destruct (is_admin (session s i)) eqn:E; [|done]. rewrite <-H. symmetry. apply existsb_exists.
  exists (session s i). split; [|done]. unfold session. apply nth_In.
  apply session_active_lt. by apply andb_prop in E as [E _].
Qed.

(** The state with a new session in slot [k]. *)
Definition new_session (fd : Z) (type : client_type) (addr : string) (now : timespec) : client_session :=
  ClientSession fd type true false (snprintf_s 64 addr) now.

Definition with_session (k : nat) (fd : Z) (type : client_type) (addr : string) (c : conn) (s : server) : server :=
  sv_set_clients (alter (fun _ => new_session fd type addr (hd zero_time (sv_clock s))) k (sv_clients s))
    (sv_set_oracles (sv_allocs s) (tl (sv_clock s)) (sv_set_socks (<[fd := c]> (sv_socks s)) s)).

Lemma with_session_inv k fd type addr c s :
  srv_inv s -> free_slot_from 0 (sv_clients s) = Some k -> sv_socks s !! fd = None ->
  (type = CLIENT_TYPE_ADMIN -> existsb is_admin (sv_clients s) = false) ->
  srv_inv (with_session k fd type addr c s).
Proof.
  intros [Hj Hq Hc Ho Hd Ha Hb Hn] Hslot Hfd Htype.
  destruct (free_slot_some _ _ _ Hslot) as (j & -> & Hjl & Hfree). simpl (0 + j)%nat in *.
  set (new := new_session fd type addr (hd zero_time (sv_clock s))). set (s' := with_session j fd type addr c s).
  assert (Hs : forall i, session s' i = if decide (i = j) then new else session s i)
    by (intros i; apply (nth_alter (fun _ => new) j (sv_clients s) i Hjl)).
  assert (Hold : forall i, cs_active (session s i) = true -> i <> j /\ cs_fd (session s i) <> fd).
  { intros i Hi. split; [intros ->; unfold session in Hi; congruence|]. intros Heq.
    assert (is_Some (sv_socks s !! fd)) as [? ?] by (apply Ho; eauto). congruence. }
  constructor; try done.
  - simpl. by rewrite length_alter.
  - intros fd'. simpl. destruct (decide (fd' = fd)) as [->|Hne].
    + rewrite lookup_insert_eq. split; [|by eexists]. intros _. exists j. by rewrite Hs, decide_True.
    + rewrite lookup_insert_ne, Ho by done. split; intros (i & Hi1 & Hi2); exists i; rewrite Hs in *.
      * rewrite decide_False by (by apply Hold). done.
      * case_decide; [by subst|done].
  - intros i1 i2. rewrite !Hs. intros H1 H2 Heq. case_decide; case_decide; subst; try done.
    + destruct (Hold _ H2) as [_ Hne]. by destruct Hne.
    + destruct (Hold _ H1) as [_ Hne]. by destruct Hne.
    + by apply Hd.
  - intros i1 i2. rewrite !Hs. intros H1 H2. case_decide; case_decide; [by subst|..|by apply Ha].
    + apply andb_prop in H2 as [_ H2%bool_decide_eq_true].
      by rewrite (no_admin s i1 (Htype H2)) in H1.
    + apply andb_prop in H1 as [_ H1%bool_decide_eq_true].
      by rewrite (no_admin s i2 (Htype H1)) in H2.
Qed.

(** [add_client] on a descriptor that was just opened. *)
Lemma add_client_spec fd type addr c s :
  wpS (add_client fd type addr) (fun rc s' =>
    match free_slot_from 0 (sv_clients s) with
    | Some k => rc = 0 /\ s' = with_session k fd type addr c s
    | None => rc = -1 /\ s' = sv_set_socks (<[fd := c]> (sv_socks s)) s
    end) (sv_set_socks (<[fd := c]> (sv_socks s)) s).
Proof.
  unfold add_client. apply wpS_gets. cbn [sv_clients sv_set_socks].
  by destruct (free_slot_from 0 (sv_clients s)) as [k|].
Qed.

(** What becomes of a new connection. *)
Definition outcome (ok : bool) (fd : Z) (type : client_type) (addr : string) (c : conn) (s s' : server) : Prop :=
  match (if ok then free_slot_from 0 (sv_clients s) else None) with
  | Some k => exists c', sent ("OK connected" +:+ nl) c c' /\ s' = with_session k fd type addr c' s
  | None => s' = s
  end.

Lemma with_session_sent k fd type addr c c' s :
  sv_set_socks (<[fd := c']> (sv_socks (with_session k fd type addr c s))) (with_session k fd type addr c s) =
  with_session k fd type addr c' s.
Proof. unfold with_session, sv_set_socks, sv_set_clients. simpl. by rewrite insert_insert_eq. Qed.

(** The common end of the two functions. *)
Lemma accept_end fd type addr c s :
  sv_socks s !! fd = None ->
  wpS (rc ← add_client fd type addr;
       if rc <? 0 then reject fd "ERR server full" else
       _ ← send_responsef fd ("OK connected" +:+ nl); mret 0)
    (fun rc s' => rc = 0 /\ outcome true fd type addr c s s') (sv_set_socks (<[fd := c]> (sv_socks s)) s).
Proof.
  intros Hfd. apply wpS_bind. eapply wpS_conseq; [apply add_client_spec|]. unfold outcome.
  intros rc s1. destruct (free_slot_from 0 (sv_clients s)) as [k|]; intros [-> ->].
  - change (0 <? 0) with false. apply wpS_bind. eapply wpS_conseq.
    { apply (send_spec fd _ c). apply lookup_insert_eq. }
    intros rc s2 (c' & Hsent & _ & ->). apply wpS_ret. split; [done|]. exists c'. by rewrite with_session_sent.
  - change (-1 <? 0) with true. by apply reject_spec.
Qed.

(** What the specification asks of the user and administrator ports (the local
    socket has no such check): a user is refused from a blocked address, and an
    administrator while another one is connected. *)
Definition policy (type : client_type) (single : bool) (addr : string) (s : server) : bool :=
  negb (bool_decide (type = CLIENT_TYPE_USER) && blocklist_contains (sv_blocklist s) addr) &&
  negb (single && existsb is_admin (sv_clients s)).

Lemma accept_inet_spec a type single s :
  let fd := ac_fd a (dom (sv_socks s)) in
  let addr := default "unknown"%string (ac_addr a) in
  (forall X, ac_fd a X ∉ X) ->
  wpS (accept_new_inet_connection (Some a) type single)
    (fun rc s' => rc = 0 /\ outcome (policy type single addr s) fd type addr (ac_conn a) s s') s.
Proof.
  cbv zeta. intros Hfresh. set (fd := ac_fd a _). set (addr := default _ _).
  assert (Hfd : sv_socks s !! fd = None) by (apply not_elem_of_dom, Hfresh).
  unfold accept_new_inet_connection, open_fd. apply wpS_bind. unfold wpS at 1. fold fd. cbv zeta.
  apply wpS_gets. cbn [sv_blocklist sv_set_socks]. unfold outcome, policy. fold addr.
  destruct (bool_decide (type = CLIENT_TYPE_USER) && blocklist_contains (sv_blocklist s) addr).
  { by apply reject_spec. }
  apply wpS_gets. cbn [sv_clients sv_set_socks]. destruct (single && existsb is_admin (sv_clients s)).
  { by apply reject_spec. }
  by apply accept_end.
Qed.

Lemma accept_unix_spec a s :
  let fd := ac_fd a (dom (sv_socks s)) in
  (forall X, ac_fd a X ∉ X) ->
  wpS (accept_new_unix_connection (Some a))
    (fun rc s' => rc = 0 /\ outcome true fd CLIENT_TYPE_USER "unix-local" (ac_conn a) s s') s.
Proof.
  cbv zeta. intros Hfresh. apply wpS_bind. unfold wpS at 1, open_fd. cbv zeta.
  apply accept_end. apply not_elem_of_dom, Hfresh.
Qed.
