(* ===== verification/ServerPoll.v ===== *)
(** * Polling (src/src/server/server.c)

    The array of [pollfd]s is filled within its bounds, and the index with
    which the loop over the clients reads it finds the entry of each client,
    as long as no connection is accepted in between. *)

From S2P Require Export ServerCorrect.
#[local] Open Scope Z_scope.

(** ** The array *)

Lemma rebuild_loop_eq fds pfds idx :
  (idx + length fds <= length pfds)%nat ->
  rebuild_loop fds pfds idx =
  (take idx pfds ++ (watch <$> fds) ++ drop (idx + length fds) pfds, (idx + length fds)%nat).
Proof.
  revert pfds idx. induction fds as [|fd fds IH]; intros pfds idx Hl; simpl in *.
  - by rewrite Nat.add_0_r, take_drop.
  - rewrite IH by (rewrite length_insert; lia). f_equal; [|lia].
    rewrite (take_S_r _ _ (watch fd)) by (apply list_lookup_insert_eq; lia).
    rewrite take_insert_ge, drop_insert_lt by lia. rewrite <-app_assoc. simpl.
    by replace (idx + S (length fds))%nat with (S (idx + length fds)) by lia.
Qed.

Lemma active_bound cs : (length (active_clients cs) <= length cs)%nat.
Proof. apply length_filter. Qed.

Definition watched (fixed : list Z) (cs : list client_session) : list Z :=
  fixed ++ (cs_fd <$> active_clients cs).

Lemma rebuild_pollfds_eq fixed cs pfds :
  (length fixed + length cs <= length pfds)%nat ->
  rebuild_pollfds fixed cs pfds =
  ((watch <$> watched fixed cs) ++ drop (length (watched fixed cs)) pfds, length (watched fixed cs)).
Proof.
  intros Hl. pose proof (active_bound cs). unfold rebuild_pollfds, watched.
  rewrite rebuild_loop_eq by (simpl; lia). rewrite take_0, Nat.add_0_l, app_nil_l.
  rewrite rebuild_loop_eq by (rewrite length_app, !length_fmap, length_drop; lia).
  rewrite take_app_length' by (by rewrite length_fmap).
  rewrite !length_app, !length_fmap. f_equal. rewrite fmap_app, <-app_assoc. do 2 f_equal.
  rewrite <-(length_fmap watch fixed) at 1. by rewrite drop_app_add, drop_drop.
Qed.

(** [rebuild_pollfds] stays within its array of [MAX_POLL_FDS] entries,
    whatever the sessions are: it writes the five fixed descriptors and those
    of the active sessions, in order and without events, and leaves the rest of
    the array as it was. *)
Theorem pollfds_in_bounds fixed s stack :
  srv_inv s -> length fixed = 5%nat -> length stack = Z.to_nat MAX_POLL_FDS ->
  exists n pfds, rebuild_pollfds fixed (sv_clients s) stack = (pfds, n) /\
    (n <= Z.to_nat MAX_POLL_FDS)%nat /\ length pfds = Z.to_nat MAX_POLL_FDS /\
    take n pfds = watch <$> (fixed ++ (cs_fd <$> active_clients (sv_clients s))) /\
    drop n pfds = drop n stack.
Proof.
  intros Hi Hf Hs. pose proof (si_clients _ Hi) as Hc. pose proof (active_bound (sv_clients s)) as Ha.
  rewrite rebuild_pollfds_eq by (rewrite Hf, Hc, Hs; vm_compute; lia).
  set (l := watched fixed (sv_clients s)).
  assert (Hl : (length l <= 5 + Z.to_nat MAX_CLIENTS)%nat).
  { unfold l, watched. rewrite length_app, length_fmap. lia. }
  assert (Hl' : (length l <= length stack)%nat) by (rewrite Hs; change (Z.to_nat MAX_POLL_FDS) with 256%nat;
    change (Z.to_nat MAX_CLIENTS) with 128%nat in Hl; lia).
  exists (length l), ((watch <$> l) ++ drop (length l) stack). split_and!.
  - done.
  - lia.
  - rewrite length_app, length_fmap, length_drop. lia.
  - apply take_app_length'. by rewrite length_fmap.
  - apply drop_app_length'. by rewrite length_fmap.
Qed.

(** ** The events of a descriptor *)

Definition has_event (p : pollfd) : bool :=
  negb (Z.land (pfd_revents p) (Z.lor (Z.lor POLLIN POLLHUP) POLLERR) =? 0).

(** Whether [poll] reported events for [fd] in these entries. *)
Definition reported (entries : list pollfd) (fd : Z) : bool :=
  existsb (fun p => (pfd_fd p =? fd) && has_event p) entries.

Lemma reported_eq entries p :
  NoDup (pfd_fd <$> entries) -> p ∈ entries -> reported entries (pfd_fd p) = has_event p.
Proof.
  induction entries as [|q entries IH]; intros Hnd Hp; [by apply elem_of_nil in Hp|].
  apply NoDup_cons in Hnd as [Hq Hnd]. unfold reported. cbn [existsb]. fold (reported entries (pfd_fd p)).
  apply elem_of_cons in Hp as [->|Hp].
  - rewrite Z.eqb_refl. cbn [andb]. destruct (has_event q) eqn:Eq; [done|]. cbn [orb].
    destruct (reported entries (pfd_fd q)) eqn:E; [|done]. apply existsb_exists in E as (p & Hp & Hb).
    apply andb_prop in Hb as [Hb%Z.eqb_eq _]. destruct Hq. rewrite <-Hb. apply list_elem_of_fmap.
    exists p. by rewrite list_elem_of_In.
  - destruct (Z.eqb_spec (pfd_fd q) (pfd_fd p)) as [Heq|]; [|by apply IH].
    destruct Hq. rewrite Heq. by apply list_elem_of_fmap_2.
Qed.

(** The loop over the clients as it is meant: the events are those of the
    descriptor of the client. *)
Fixpoint by_descriptor (n i : nat) (events : Z -> bool) : Srv unit :=
  match n with
  | O => mret tt
  | S n =>
      c ← client_at i;
      _ ← (if cs_active c && events (cs_fd c) then handle_client_command i else mret tt);
      by_descriptor n (S i) events
  end.

Definition fds_from (k : nat) (s : server) : list Z := cs_fd <$> active_clients (drop k (sv_clients s)).

Lemma active_marked (cs cs' : list client_session) :
  Forall2 marked cs cs' -> cs_fd <$> active_clients cs' = cs_fd <$> active_clients cs.
Proof.
  unfold active_clients. induction 1 as [|c c' cs cs' [-> | ->] _ IH]; [done|..]; rewrite !filter_cons;
    cbn [kick cs_active]; destruct (decide (cs_active c = true)); rewrite ?fmap_cons; by rewrite IH.
Qed.

Lemma fds_marked k s s' :
  srv_inv s -> srv_inv s' -> (forall j, (k <= j)%nat -> marked (session s j) (session s' j)) ->
  fds_from k s' = fds_from k s.
Proof.
  intros Hi Hi' Hm. apply active_marked. apply Forall2_same_length_lookup_2.
  - rewrite !length_drop, (si_clients _ Hi), (si_clients _ Hi'). done.
  - intros j c c'. rewrite !lookup_drop. intros H H'. specialize (Hm (k + j)%nat ltac:(lia)).
    unfold session in Hm. by rewrite (nth_lookup_Some _ _ _ _ H), (nth_lookup_Some _ _ _ _ H') in Hm.
Qed.

Lemma drop_session k s :
  srv_inv s -> (k < Z.to_nat MAX_CLIENTS)%nat ->
  drop k (sv_clients s) = session s k :: drop (S k) (sv_clients s).
Proof.
  intros Hi Hk. apply drop_S. unfold session. destruct (sv_clients s !! k) eqn:E.
  - by rewrite (nth_lookup_Some _ _ _ _ E).
  - apply lookup_ge_None in E. rewrite (si_clients _ Hi) in E. lia.
Qed.

(** The entries from [idx] on are those of the active sessions from [i] on. *)
Lemma client_loop_aligned n i idx entries pfds events s :
  srv_inv s -> (i + n = Z.to_nat MAX_CLIENTS)%nat ->
  take (length entries) (drop idx pfds) = entries ->
  Forall2 (fun fd p => events fd = has_event p) (fds_from i s) entries ->
  client_loop n i idx pfds s = by_descriptor n i events s.
Proof.
  revert i idx entries s. induction n as [|n IH]; intros i idx entries s Hi Hn Hent Hfds; [done|].
  cbn [client_loop by_descriptor]. unfold client_at, mbind, Srv_bind, gets. fold (session s i).
  unfold fds_from in Hfds. rewrite (drop_session i s Hi ltac:(lia)) in Hfds.
  unfold active_clients in Hfds. rewrite filter_cons in Hfds. destruct (cs_active (session s i)) eqn:Ha; cbn [negb andb].
  2: { rewrite decide_False in Hfds by done. cbn [mret Srv_ret]. by apply (IH _ _ entries); [|lia|..]. }
  rewrite decide_True in Hfds by done. rewrite fmap_cons in Hfds.
  inversion Hfds as [|? p ? entries' Hev Hfds' E1 E2]; subst. clear Hfds. rename entries' into entries, Hfds' into Hfds.
  assert (Hp : pfds !! idx = Some p).
  { rewrite <-(Nat.add_0_r idx), <-lookup_drop, <-(lookup_take_lt _ (length (p :: entries))) by (simpl; lia).
    by rewrite Hent. }
  assert (Hhas : has_events pfds idx = events (cs_fd (session s i))).
  { rewrite Hev. unfold has_events, revents_at, has_event. by rewrite (nth_lookup_Some _ _ _ _ Hp). }
  assert (Hent' : take (length entries) (drop (S idx) pfds) = entries).
  { rewrite (drop_S _ _ _ Hp) in Hent. simpl in Hent. congruence. }
  rewrite Hhas. destruct (events (cs_fd (session s i))).
  2: { cbn [mret Srv_ret]. by apply (IH _ _ entries); [|lia|..]. }
  pose proof (handle_client_command_spec i s Hi Ha) as H. unfold wpS in H.
  destruct (handle_client_command i s) as [[[] s']|]; [|done]. destruct H as [Hi' H].
  apply (IH _ _ entries); [done|lia|done|]. rewrite (fds_marked (S i) s s'); [done..|].
  intros j Hj. apply (fr_sessions _ _ _ _ H). lia.
Qed.

Lemma set_revents_fds revents pfds : pfd_fd <$> set_revents revents pfds = pfd_fd <$> pfds.
Proof.
  revert pfds. induction revents as [|r revents IH]; intros [|p pfds]; simpl; try done. f_equal. apply IH.
Qed.

Lemma length_set_revents revents pfds : length (set_revents revents pfds) = length pfds.
Proof. rewrite <-(length_fmap pfd_fd), set_revents_fds. apply length_fmap. Qed.

Lemma fds_nodup_list cs :
  (forall i j c d, cs !! i = Some c -> cs !! j = Some d -> cs_active c = true -> cs_active d = true ->
     cs_fd c = cs_fd d -> i = j) ->
  NoDup (cs_fd <$> active_clients cs).
Proof.
  unfold active_clients. induction cs as [|c cs IH]; intros Hd; [apply NoDup_nil_2|].
  assert (IH' : NoDup (cs_fd <$> filter (fun c => cs_active c = true) cs)).
  { apply IH. intros i j d e Hi Hj. intros. by apply Nat.succ_inj, (Hd (S i) (S j) d e). }
  rewrite filter_cons. destruct (decide (cs_active c = true)) as [Hc|]; [|done].
  rewrite fmap_cons. apply NoDup_cons_2; [|done]. intros Hin.
  apply list_elem_of_fmap in Hin as (d & Heq & Hin). apply list_elem_of_filter in Hin as [Hd' Hin].
  apply list_elem_of_lookup in Hin as [j Hj]. by specialize (Hd 0%nat (S j) c d eq_refl Hj Hc Hd' Heq).
Qed.

Lemma fds_nodup s : srv_inv s -> NoDup (fds_from 0 s).
Proof.
  intros Hi. apply fds_nodup_list. rewrite drop_0. intros i j c d Hc Hd Ac Ad Heq.
  apply nth_lookup_Some with (d := session_zero) in Hc as Sc, Hd as Sd.
  apply (si_distinct _ Hi); unfold session; rewrite ?Sc, ?Sd; done.
Qed.

(** The entries of the clients after [poll]: they hold the descriptors of the
    active sessions, in order. *)
Lemma client_entries fixed s stack revents :
  srv_inv s -> length fixed = 5%nat -> length stack = Z.to_nat MAX_POLL_FDS ->
  let n := length (watched fixed (sv_clients s)) in
  let (pfds, n') := rebuild_pollfds fixed (sv_clients s) stack in
  let pfds := set_revents (take n revents) pfds in let entries := drop 5 (take n pfds) in
  n' = n /\ (n < length pfds)%nat /\ n = (5 + length entries)%nat /\
  take (length entries) (drop 5 pfds) = entries /\ pfd_fd <$> entries = fds_from 0 s.
Proof.
  intros Hi Hf Hs n. pose proof (si_clients _ Hi) as Hc. pose proof (active_bound (sv_clients s)) as Hb.
  rewrite rebuild_pollfds_eq by (rewrite Hf, Hc, Hs; vm_compute; lia).
  subst n. set (l := watched fixed (sv_clients s)). set (pfds0 := (watch <$> l) ++ _).
  cbv zeta. set (pfds := set_revents _ pfds0). set (entries := drop 5 (take (length l) pfds)).
  assert (Hfds : pfd_fd <$> entries = fds_from 0 s).
  { unfold entries. rewrite fmap_drop, fmap_take. unfold pfds. rewrite set_revents_fds. unfold pfds0.
    rewrite fmap_app, <-list_fmap_compose. rewrite take_app_length' by (by rewrite length_fmap).
    assert (Hid : pfd_fd ∘ watch <$> l = l) by (rewrite <-list_fmap_id; by apply list_fmap_ext).
    rewrite Hid. unfold l, watched. by rewrite drop_app_length' by done. }
  assert (Hl : length l = (5 + length entries)%nat).
  { rewrite <-(length_fmap pfd_fd), Hfds. unfold l, watched. rewrite length_app, Hf. unfold fds_from. by rewrite drop_0. }
  assert (Hle : (length l <= 5 + Z.to_nat MAX_CLIENTS)%nat) by (unfold l, watched; rewrite length_app, length_fmap; lia).
  split_and!; try done.
  - unfold pfds. rewrite length_set_revents. unfold pfds0. rewrite length_app, length_fmap, length_drop, Hs.
    change (Z.to_nat MAX_POLL_FDS) with 256%nat. change (Z.to_nat MAX_CLIENTS) with 128%nat in Hle. lia.
  - rewrite take_drop_commute. unfold entries at 2. by rewrite Hl.
Qed.

Lemma entries_events fds entries :
  NoDup fds -> pfd_fd <$> entries = fds -> Forall2 (fun fd p => reported entries fd = has_event p) fds entries.
Proof.
  intros Hnd <-. assert (H : forall l, (forall p, p ∈ l -> p ∈ entries) ->
    Forall2 (fun fd p => reported entries fd = has_event p) (pfd_fd <$> l) l).
  { induction l as [|p l IH]; intros Hl; constructor.
    - apply reported_eq; [done|]. apply Hl, elem_of_cons. by left.
    - apply IH. intros q Hq. apply Hl, elem_of_cons. by right. }
  by apply H.
Qed.

(** By position and by descriptor. *)
Lemma loop_by_descriptor fixed s stack revents :
  srv_inv s -> length fixed = 5%nat -> length stack = Z.to_nat MAX_POLL_FDS ->
  let (pfds, n) := rebuild_pollfds fixed (sv_clients s) stack in
  let pfds := set_revents (take n revents) pfds in
  client_loop (Z.to_nat MAX_CLIENTS) 0 5 pfds s =
  by_descriptor (Z.to_nat MAX_CLIENTS) 0 (reported (drop 5 (take n pfds))) s.
Proof.
  intros Hi Hf Hs. pose proof (client_entries fixed s stack revents Hi Hf Hs) as H. cbv zeta in H.
  destruct (rebuild_pollfds _ _ _) as [pfds n]. destruct H as (-> & _ & _ & Hent & Hfds).
  eapply client_loop_aligned; [done|done|exact Hent|]. apply entries_events; [by apply fds_nodup|done].
Qed.

(** ** A connection accepted meanwhile *)

(** The descriptor that follows [fd] in a list. *)
Fixpoint next_in (fds : list Z) (fd : Z) : option Z :=
  match fds with
  | x :: (y :: _) as rest => if x =? fd then Some y else next_in rest fd
  | _ => None
  end.

(** The events the loop finds for [fd], when [late] are the descriptors from the
    new one on, [before] the others, and [stale] is what the first entry that
    was not filled says. *)
Definition late_events (before late : list Z) (events : Z -> bool) (stale : bool) (fd : Z) : bool :=
  if bool_decide (fd ∈ before) then events fd
  else match next_in late fd with Some fd' => events fd' | None => stale end.

Lemma shifted_events fd fds entries p events f :
  NoDup (fd :: fds) -> pfd_fd <$> entries = fds ->
  Forall2 (fun fd p => events fd = has_event p) fds entries ->
  (forall x, x ∈ fd :: fds ->
     f x = match next_in (fd :: fds) x with Some fd' => events fd' | None => has_event p end) ->
  Forall2 (fun fd p => f fd = has_event p) (fd :: fds) (entries ++ [p]).
Proof.
  revert fd entries. induction fds as [|fd' fds IH]; intros fd entries Hnd Hfds Hev Hf;
    destruct entries as [|q entries]; try done; cbn [app].
  - constructor; [|constructor]. apply (Hf fd), elem_of_cons. by left.
  - apply NoDup_cons in Hnd as [Hne Hnd]. inversion Hev; subst. constructor.
    + rewrite (Hf fd) by (apply elem_of_cons; by left). cbn. by rewrite Z.eqb_refl.
    + rewrite !fmap_cons in Hfds. injection Hfds as _ Hfds. apply IH; try done. intros x Hx.
      rewrite (Hf x) by (apply elem_of_cons; by right). cbn [next_in].
      rewrite (proj2 (Z.eqb_neq fd x)); [done|]. by intros ->.
Qed.

(** C16: when no connection is accepted, the loop over the clients handles a line
    of exactly the clients for which [poll] reported an event: reading the
    array by position, as the code does, is the same as looking up the
    descriptor of each client in it, although clients may leave and be marked
    during the loop. *)
Theorem events_attributed fixed s stack revents :
  srv_inv s -> length fixed = 5%nat -> length stack = Z.to_nat MAX_POLL_FDS ->
  let (pfds, n) := rebuild_pollfds fixed (sv_clients s) stack in
  let pfds := set_revents (take n revents) pfds in
  client_loop (Z.to_nat MAX_CLIENTS) 0 5 pfds s =
  by_descriptor (Z.to_nat MAX_CLIENTS) 0 (reported (drop 5 (take n pfds))) s.
Proof. apply loop_by_descriptor. Qed.
