(* ===== verification/ServerRun.v ===== *)
(** * The life of the server (src/src/server/server.c)

    Connections are admitted according to the policy, every iteration of the
    event loop succeeds and keeps the invariant, the events of an iteration in
    which a connection was accepted go to the wrong clients, and the final
    cleanup releases everything. *)

From S2P Require Export ServerPoll BlockList.
#[local] Open Scope Z_scope.

(** ** What the iterations do to the state shared with the workers *)

Record progress (s s' : server) : Prop := Progress {
  pg_jobs : rtc job_step (sv_jobs s, sv_heap s) (sv_jobs s', sv_heap s');
  pg_next : jt_next_id (sv_jobs s) <= jt_next_id (sv_jobs s');
  pg_queue : forall js, queue_holds (sv_queue s) (sv_nodes s) js ->
    exists js', queue_holds (sv_queue s') (sv_nodes s') (js ++ js');
  pg_world : exists fs, step fs 0 0 (sv_world s) (sv_world s');
  pg_fs : forall q, (forall id x, jt_next_id (sv_jobs s) <= id ->
      q <> job_path (g_storage_uploads (sv_storage s)) id (Some x)) ->
    w_fs (sv_world s') !! q = w_fs (sv_world s) !! q;
  pg_storage : sv_storage s' = sv_storage s;
  pg_stopped : q_stopped (sv_queue s') = q_stopped (sv_queue s);
  pg_submits : submits s s'
}.

#[export] Instance progress_preorder : PreOrder progress.
Proof.
  split.
  - intros s. constructor; auto with server; try done. intros js Hjs. exists []. by rewrite app_nil_r.
  - intros s1 s2 s3 [Hj1 Hn1 Hq1 [fs1 Hf1] Hw1 Hg1 Hs1 Ht1] [Hj2 Hn2 Hq2 [fs2 Hf2] Hw2 Hg2 Hs2 Ht2]. constructor.
    + by etrans.
    + lia.
    + intros js Hjs. destruct (Hq1 js Hjs) as [js1 H1]. destruct (Hq2 _ H1) as [js2 H2].
      exists (js1 ++ js2). by rewrite app_assoc.
    + exists fs2. by eapply (step_trans fs1 fs2 0 0 0 0).
    + intros q Hq. rewrite Hw2, Hw1; [done|done|]. intros id x Hid. rewrite Hg1. apply Hq. lia.
    + congruence.
    + congruence.
    + rewrite Hg1 in Ht2. by etrans.
Qed.

Lemma pg_files s s' :
  progress s s' -> w_files (sv_world s') = w_files (sv_world s) /\ w_live (sv_world s') = w_live (sv_world s).
Proof. intros [_ _ _ [fs []] _ _ _ _]. lia. Qed.

Lemma pg_crc s s' : progress s s' -> crc_inv (w_crc (sv_world s)) -> crc_inv (w_crc (sv_world s')).
Proof. intros [_ _ _ [fs []] _ _ _ _]. done. Qed.

Lemma pg_tracked s s' : srv_inv s -> srv_inv s' -> progress s s' -> tracked s -> tracked s'.
Proof. intros Hi Hi' H. apply submits_tracked; [done..|]. apply H. Qed.

Lemma frame_progress i fd s s' : frame i fd s s' -> progress s s'.
Proof. intros [[] ?]. by constructor. Qed.

Definition good (s s' : server) : Prop := srv_inv s' /\ progress s s'.

Lemma wpS_good {A B} (m : Srv A) (f : A -> Srv B) s0 s :
  progress s0 s -> wpS m (fun _ s' => good s s') s ->
  (forall a s', srv_inv s' -> progress s0 s' -> wpS (f a) (fun _ s' => good s0 s') s') ->
  wpS (m ≫= f) (fun _ s' => good s0 s') s.
Proof.
  intros H0 Hm Hf. apply wpS_bind. eapply wpS_conseq; [exact Hm|]. intros a s' [Hi H]. apply Hf; [done|by etrans].
Qed.

Lemma good_ret {A} (a : A) s0 s : srv_inv s -> progress s0 s -> wpS (mret a) (fun _ s' => good s0 s') s.
Proof. by split. Qed.

(** ** Connections *)

Lemma outcome_good ok fd type addr c s s' :
  srv_inv s -> sv_socks s !! fd = None ->
  (ok = true -> type = CLIENT_TYPE_ADMIN -> existsb is_admin (sv_clients s) = false) ->
  outcome ok fd type addr c s s' -> good s s'.
Proof.
  intros Hi Hfd Htype. unfold outcome. destruct ok; [|by intros ->].
  destruct (free_slot_from 0 (sv_clients s)) as [k|] eqn:E; [|by intros ->].
  intros (c' & _ & ->). split; [apply with_session_inv; auto|]. constructor; auto with server; try done.
  intros js Hjs. exists []. by rewrite app_nil_r.
Qed.

(** An administrator is only accepted where a single one is allowed. *)
Lemma policy_admin type single addr s :
  (type = CLIENT_TYPE_ADMIN -> single = true) ->
  policy type single addr s = true -> type = CLIENT_TYPE_ADMIN -> existsb is_admin (sv_clients s) = false.
Proof.
  unfold policy. intros Hs [_ Hp]%andb_prop Ht. rewrite (Hs Ht) in Hp. by apply negb_true_iff in Hp.
Qed.

(** The kernel returns descriptors that are not open. *)
Definition accepted_ok (acc : option accepted) : Prop :=
  match acc with Some a => forall X, ac_fd a X ∉ X | None => True end.

Lemma accept_inet_good acc type single s :
  srv_inv s -> accepted_ok acc -> (type = CLIENT_TYPE_ADMIN -> single = true) ->
  wpS (accept_new_inet_connection acc type single) (fun _ s' => good s s') s.
Proof.
  intros Hi Ha Hs. destruct acc as [a|]; [|by apply wpS_ret].
  eapply wpS_conseq; [by apply accept_inet_spec|]. intros rc s' [_ H].
  eapply outcome_good; [done| |by apply policy_admin|exact H]. apply not_elem_of_dom, Ha.
Qed.

Lemma accept_unix_good acc s :
  srv_inv s -> accepted_ok acc -> wpS (accept_new_unix_connection acc) (fun _ s' => good s s') s.
Proof.
  intros Hi Ha. destruct acc as [a|]; [|by apply wpS_ret].
  eapply wpS_conseq; [by apply accept_unix_spec|]. intros rc s' [_ H].
  refine (outcome_good _ _ _ _ _ _ _ Hi _ _ H); [apply not_elem_of_dom, Ha|done].
Qed.

(** C18: a new connection is turned away, without any trace, exactly when it is a
    user from a blocked address, or an administrator while another one is
    connected, or all sessions are taken; otherwise the first free slot holds
    its session and it is greeted.  In both cases the invariant is kept: one
    administrator at most, and no descriptor is leaked or used twice. *)
Theorem connection_admitted a type single s :
  srv_inv s -> (forall X, ac_fd a X ∉ X) -> (type = CLIENT_TYPE_ADMIN -> single = true) ->
  let fd := ac_fd a (dom (sv_socks s)) in
  let addr := default "unknown"%string (ac_addr a) in
  exists s', accept_new_inet_connection (Some a) type single s = Some (0, s') /\ srv_inv s' /\
    match (if policy type single addr s then free_slot_from 0 (sv_clients s) else None) with
    | None => s' = s
    | Some k => cs_active (session s k) = false /\
        session s' k = new_session fd type addr (hd zero_time (sv_clock s)) /\
        (forall j, j <> k -> session s' j = session s j) /\
        (forall fd', fd' <> fd -> sv_socks s' !! fd' = sv_socks s !! fd') /\
        exists c', sv_socks s' !! fd = Some c' /\ sent ("OK connected" +:+ nl) (ac_conn a) c'
    end.
Proof.
  cbv zeta. intros Hi Ha Hs. pose proof (accept_inet_spec a type single s Ha) as H.
  pose proof (accept_inet_good (Some a) type single s Hi Ha Hs) as Hg. unfold wpS in *.
  destruct (accept_new_inet_connection _ _ _ s) as [[rc s']|]; [|done]. destruct H as [-> H].
  exists s'. split; [done|]. split; [apply Hg|]. revert H. unfold outcome.
  destruct (policy _ _ _ s); [|done]. destruct (free_slot_from 0 (sv_clients s)) as [k|] eqn:E; [|done].
  intros (c' & Hsent & ->). destruct (free_slot_some _ _ _ E) as (j & -> & Hj & Hfree). split_and!.
  - exact Hfree.
  - unfold session, with_session. cbn [sv_clients sv_set_clients]. rewrite nth_alter by done. by rewrite decide_True.
  - intros j' Hj'. unfold session, with_session. cbn [sv_clients sv_set_clients]. rewrite nth_alter by done.
    by rewrite decide_False.
  - intros fd' Hne. unfold with_session. simpl. by rewrite lookup_insert_ne.
  - exists c'. split; [|done]. unfold with_session. simpl. apply lookup_insert_eq.
Qed.

(** The sessions after a connection was put into the slot [k]. *)
Lemma fds_with_session k fd type addr c s :
  (k < length (sv_clients s))%nat -> cs_active (session s k) = false ->
  fds_from 0 s = (cs_fd <$> active_clients (take k (sv_clients s))) ++ (cs_fd <$> active_clients (drop k (sv_clients s))) /\
  fds_from 0 (with_session k fd type addr c s) =
    (cs_fd <$> active_clients (take k (sv_clients s))) ++ fd :: (cs_fd <$> active_clients (drop k (sv_clients s))).
Proof.
  intros Hk Hfree. unfold fds_from, with_session. cbn [sv_clients sv_set_clients]. rewrite !drop_0.
  assert (Happ : forall l l', active_clients (l ++ l') = active_clients l ++ active_clients l')
    by (intros; apply filter_app).
  split.
  - by rewrite <-fmap_app, <-Happ, take_drop.
  - rewrite <-list_insert_alter, insert_take_drop by done. rewrite Happ, fmap_app. f_equal.
    destruct (lookup_lt_is_Some_2 _ _ Hk) as [c0 Hc0]. unfold session in Hfree. rewrite (nth_lookup_Some _ _ _ _ Hc0) in Hfree.
    rewrite (drop_S _ _ _ Hc0). unfold active_clients. rewrite !filter_cons, decide_True by done.
    rewrite (decide_False (P := cs_active c0 = true)) by (by rewrite Hfree). done.
Qed.

(** C17: when a connection is accepted in an iteration, the events of that
    iteration go to the wrong clients.  The new session is in the first free
    slot, but the array was filled before it was there: the clients in the slots
    before it are handled by their own events, the new client by those of the
    next client, each later client by those of the client after it, and the last
    one by an entry of the array that was never filled. *)
Theorem events_misattributed fixed a type single s stack revents k :
  srv_inv s -> length fixed = 5%nat -> length stack = Z.to_nat MAX_POLL_FDS ->
  (forall X, ac_fd a X ∉ X) -> (type = CLIENT_TYPE_ADMIN -> single = true) ->
  let addr := default "unknown"%string (ac_addr a) in
  policy type single addr s = true -> free_slot_from 0 (sv_clients s) = Some k ->
  let before := cs_fd <$> active_clients (take k (sv_clients s)) in
  let after := cs_fd <$> active_clients (drop k (sv_clients s)) in
  let fd := ac_fd a (dom (sv_socks s)) in
  let (pfds, n) := rebuild_pollfds fixed (sv_clients s) stack in
  let pfds := set_revents (take n revents) pfds in
  exists s', accept_new_inet_connection (Some a) type single s = Some (0, s') /\
    client_loop (Z.to_nat MAX_CLIENTS) 0 5 pfds s' =
    by_descriptor (Z.to_nat MAX_CLIENTS) 0
      (late_events before (fd :: after) (reported (drop 5 (take n pfds))) (has_events pfds n)) s'.
Proof.
  intros Hi Hf Hs Ha Hsingle addr Hpol Hk before after fd.
  pose proof (client_entries fixed s stack revents Hi Hf Hs) as H. cbv zeta in H.
  destruct (rebuild_pollfds _ _ _) as [pfds0 n]. destruct H as (-> & Hlt & Hn & Hent & Hfds). cbv zeta.
  set (m := length (watched _ _)) in *. set (pfds := set_revents _ pfds0) in *.
  set (entries := drop 5 (take m pfds)) in *.
  pose proof (accept_inet_spec a type single s Ha) as Hacc. cbv zeta in Hacc. fold fd addr in Hacc.
  pose proof (accept_inet_good (Some a) type single s Hi Ha Hsingle) as Hg. unfold wpS in *.
  destruct (accept_new_inet_connection _ _ _ s) as [[rc s']|]; [|done]. destruct Hacc as [-> Hout].
  exists s'. split; [done|]. destruct Hg as [Hi' _]. unfold outcome in Hout. rewrite Hpol, Hk in Hout.
  destruct Hout as (c' & _ & ->). destruct (free_slot_some _ _ _ Hk) as (j & -> & Hj & Hfree).
  cbn [Nat.add] in *. destruct (fds_with_session j fd type addr c' s Hj Hfree) as [Hold Hnew].
  fold before after in Hold, Hnew. destruct (lookup_lt_is_Some_2 _ _ Hlt) as [p Hp].
  pose proof (fds_nodup s Hi) as Hnd. pose proof (fds_nodup _ Hi') as Hnd'. rewrite Hold in Hnd. rewrite Hnew in Hnd'.
  assert (Hstale : has_events pfds m = has_event p)
    by (unfold has_events, revents_at, has_event; by rewrite (nth_lookup_Some _ _ _ _ Hp)).
  apply (client_loop_aligned _ _ _ (entries ++ [p])); [done|done| |].
  { rewrite length_app. cbn [length]. rewrite Nat.add_1_r. rewrite <-Hent at 2.
    apply take_S_r. rewrite lookup_drop. rewrite Hn in Hp. exact Hp. }
  rewrite Hnew, Hstale. rewrite Hold in Hfds. pose proof (entries_events _ entries Hnd Hfds) as Hev.
  apply fmap_app_inv in Hfds as (eb & ea & Hb & Hafter & He).
  set (ev := reported entries) in *. clearbody ev. rewrite He in Hev |- *.
  apply Forall2_app_inv in Hev as [Hevb Heva]; [|by rewrite Hb, length_fmap].
  apply NoDup_app in Hnd' as (_ & Hdisj & Hnd2). rewrite <-app_assoc. apply Forall2_app.
  - apply Forall2_same_length_lookup. split; [by eapply Forall2_length|]. intros x fd0 q Hx Hq.
    unfold late_events. rewrite bool_decide_true by (by apply list_elem_of_lookup_2 in Hx).
    by apply (Forall2_lookup_lr _ _ _ _ _ _ Hevb Hx Hq).
  - apply (shifted_events fd after ea p ev); try done. intros x Hx. unfold late_events.
    rewrite bool_decide_false; [done|]. intros Hin. by apply (Hdisj x Hin).
Qed.

(** ** One iteration *)

Lemma drain_loop_total fuel c log :
  (length (cn_rsched c) + length (cn_in c) < fuel)%nat -> exists log' c', drain_loop fuel c log = Some (log', c').
Proof.
  revert c log. induction fuel as [|fuel IH]; intros c log Hf; [lia|]. cbn [drain_loop].
  pose proof (read_shape 16 c) as Hs. destruct (read 16 c) as [[| |bytes] c1]; [|eauto|].
  - destruct Hs as (Hin & _ & _ & Hl). apply IH. rewrite Hin. lia.
  - destruct bytes as [|b bytes]; [eauto|]. destruct Hs as (Hin & _ & _ & Hl).
    apply (f_equal length) in Hin. rewrite length_app in Hin. simpl in Hin.
    destruct (_ =? 16); apply IH; lia.
Qed.

Lemma notif_good s n :
  srv_inv s -> inotify_reads_ok (nt_inotify n) -> good s (sv_set_notif n s).
Proof.
  intros [] Hn. split; [by constructor|]. constructor; auto with server; try done.
  intros js Hjs. exists []. by rewrite app_nil_r.
Qed.

Lemma on_pipe_good s : srv_inv s -> wpS on_pipe (fun _ s' => good s s') s.
Proof.
  intros Hi. unfold wpS, on_pipe, handle_worker_pipe.
  destruct (drain_loop_total (S (length (cn_rsched (nt_pipe (sv_notif s))) + length (cn_in (nt_pipe (sv_notif s)))))
    (nt_pipe (sv_notif s)) []) as (log & c & ->); [lia|]. apply notif_good; [done|]. apply Hi.
Qed.

Lemma on_inotify_good s : srv_inv s -> wpS on_inotify (fun _ s' => good s s') s.
Proof.
  intros Hi. unfold wpS, on_inotify, handle_inotify_events.
  destruct (inotify_loop_total (sv_storage s) (nt_watches (sv_notif s)) (nt_inotify (sv_notif s)) [] (si_inotify _ Hi))
    as (log & rest & -> & Hrest). by apply notif_good.
Qed.

Lemma client_loop_good n i idx pfds s0 s :
  srv_inv s -> progress s0 s -> wpS (client_loop n i idx pfds) (fun _ s' => good s0 s') s.
Proof.
  revert i idx s. induction n as [|n IH]; intros i idx s Hi H0; [by apply good_ret|].
  cbn [client_loop]. unfold client_at. apply wpS_gets. fold (session s i).
  destruct (cs_active (session s i)) eqn:Ha; cbn [negb]; [|by apply IH].
  apply wpS_good; [done| |intros; by apply IH]. destruct (has_events pfds idx); [|by apply good_ret].
  eapply wpS_conseq; [by apply handle_client_command_spec|]. intros _ s' [Hi' H].
  split; [done|by eapply frame_progress].
Qed.

Lemma close_good i s : srv_inv s -> wpS (close_client i) (fun _ s' => good s s') s.
Proof.
  intros Hi. eapply wpS_conseq; [by apply close_client_spec|]. intros _ s' (Hi' & H & _).
  split; [done|by eapply frame_progress].
Qed.

Lemma kick_loop_good n i s0 s :
  srv_inv s -> progress s0 s -> wpS (kick_loop n i) (fun _ s' => good s0 s') s.
Proof.
  revert i s. induction n as [|n IH]; intros i s Hi H0; [by apply good_ret|].
  cbn [kick_loop]. unfold client_at. apply wpS_gets.
  apply wpS_good; [done| |intros; by apply IH]. destruct (_ && _); [by apply close_good|by apply good_ret].
Qed.

(** *** The sessions that are closed *)

Lemma close_client_lists i s :
  wpS (close_client i) (fun _ s' => sv_blocklist s' = sv_blocklist s) s.
Proof.
  unfold close_client, client_at. apply wpS_gets. destruct (negb _); [by apply wpS_ret|].
  by unfold wpS, close_fd, update_client, modify, mbind, Srv_bind.
Qed.

Definition kicked (c : client_session) : bool := cs_active c && cs_kick_requested c.

Lemma kick_loop_spec n i s :
  srv_inv s -> (i + n = Z.to_nat MAX_CLIENTS)%nat -> (forall j, (j < i)%nat -> kicked (session s j) = false) ->
  wpS (kick_loop n i) (fun _ s' => sv_blocklist s' = sv_blocklist s /\
    forall j, if kicked (session s j) then cs_active (session s' j) = false
              else session s' j = session s j) s.
Proof.
  revert i s. induction n as [|n IH]; intros i s Hi Hn Hj.
  - apply wpS_ret. split; [done|]. intros j. destruct (decide (j < i)%nat) as [Hlt|Hge]; [by rewrite Hj|].
    unfold session. rewrite nth_overflow; [done|]. rewrite (si_clients _ Hi). lia.
  - cbn [kick_loop]. unfold client_at. apply wpS_gets. fold (session s i) (kicked (session s i)).
    apply wpS_bind. destruct (kicked (session s i)) eqn:Hk.
    + eapply wpS_conseq; [exact (wpS_and _ _ _ _ (close_client_spec i s Hi) (close_client_lists i s))|].
      intros _ s1 [(Hi1 & _ & Hclosed & Hsame) Hb].
      eapply wpS_conseq; [apply (IH (S i) s1 Hi1); [lia|]|].
      * intros j Hlt. destruct (decide (j = i)) as [->|Hne]; [unfold kicked; by rewrite Hclosed|].
        rewrite Hsame by done. apply Hj. lia.
      * intros _ s2 [Hb2 H2]. split; [congruence|]. intros j. specialize (H2 j).
        destruct (decide (j = i)) as [->|Hne]; [|by rewrite Hsame in H2].
        rewrite Hk. unfold kicked in H2. rewrite Hclosed in H2. cbn [andb] in H2. by rewrite H2.
    + apply wpS_ret, IH; [done|lia|]. intros j Hlt. destruct (decide (j = i)) as [->|Hne]; [done|]. apply Hj. lia.
Qed.

(** No session waits to be closed. *)
Definition unmarked (s : server) : Prop := forall m, kicked (session s m) = false.

Lemma kick_loop_unmarked s : srv_inv s -> wpS (kick_loop (Z.to_nat MAX_CLIENTS) 0) (fun _ s' => unmarked s') s.
Proof.
  intros Hi. eapply wpS_conseq; [apply kick_loop_spec; [done|done|lia]|]. intros _ s' [_ H] m. specialize (H m).
  destruct (kicked (session s m)) eqn:Hk; [unfold kicked; by rewrite H|by rewrite H].
Qed.

Definition input_ok (inp : poll_input) : Prop :=
  accepted_ok (pi_user inp) /\ accepted_ok (pi_admin inp) /\ accepted_ok (pi_unix inp).

(** What [poll] reported is handled. *)
Lemma events_good (ready : Z) pfds inp s :
  srv_inv s -> input_ok inp ->
  wpS (if 0 <? ready then
         _ ← (if readable pfds 0 then accept_new_inet_connection (pi_user inp) CLIENT_TYPE_USER false else mret 0);
         _ ← (if readable pfds 1 then accept_new_inet_connection (pi_admin inp) CLIENT_TYPE_ADMIN true else mret 0);
         _ ← (if readable pfds 2 then accept_new_unix_connection (pi_unix inp) else mret 0);
         _ ← (if readable pfds 3 then on_pipe else mret tt);
         _ ← (if readable pfds 4 then on_inotify else mret tt);
         client_loop (Z.to_nat MAX_CLIENTS) 0 5 pfds
       else mret tt) (fun _ s' => good s s') s.
Proof.
  intros Hi (Hu & Ha & Hx). destruct (0 <? ready); [|by apply good_ret].
  apply wpS_good; [done| |intros ? s1 Hi1 H1; apply wpS_good; [done| |intros ? s2 Hi2 H2; apply wpS_good; [done| |
    intros ? s3 Hi3 H3; apply wpS_good; [done| |intros ? s4 Hi4 H4; apply wpS_good; [done| |
    intros ? s5 Hi5 H5; by apply client_loop_good]]]]].
  - destruct (readable pfds 0); [by apply accept_inet_good|by apply good_ret].
  - destruct (readable pfds 1); [by apply accept_inet_good|by apply good_ret].
  - destruct (readable pfds 2); [by apply accept_unix_good|by apply good_ret].
  - destruct (readable pfds 3); [by apply on_pipe_good|by apply good_ret].
  - destruct (readable pfds 4); [by apply on_inotify_good|by apply good_ret].
Qed.

Lemma poll_iteration_good fixed inp s :
  srv_inv s -> input_ok inp -> wpS (poll_iteration fixed inp) (fun _ s' => good s s') s.
Proof.
  intros Hi Hin. unfold poll_iteration. apply wpS_gets. destruct (rebuild_pollfds _ _ _) as [pfds nfds].
  destruct (pi_ready inp) as [ready|]; [|by apply good_ret]. destruct (ready <? 0); [by apply good_ret|].
  cbv zeta. apply wpS_good; [done|by apply events_good|]. intros u s1 Hi1 H1.
  apply wpS_good; [done|by apply kick_loop_good|]. intros; by apply good_ret.
Qed.

(** An iteration closes the sessions that were marked in it. *)
Lemma poll_unmarked fixed inp s :
  srv_inv s -> input_ok inp -> unmarked s -> wpS (poll_iteration fixed inp) (fun _ s' => unmarked s') s.
Proof.
  intros Hi Hin Hm. unfold poll_iteration. apply wpS_gets. destruct (rebuild_pollfds _ _ _) as [pfds nfds].
  destruct (pi_ready inp) as [ready|]; [|done]. destruct (ready <? 0); [done|].
  cbv zeta. apply wpS_bind. eapply wpS_conseq; [by apply events_good|]. intros u s1 [Hi1 _].
  apply wpS_bind. eapply wpS_conseq; [by apply kick_loop_unmarked|]. intros ? s2 H2. by apply wpS_ret.
Qed.

(** ** The whole run *)

Lemma session_init w g m al ck n i : session (server_init w g m al ck n) i = session_zero.
Proof.
  unfold session. cbn [server_init sv_clients]. unfold clients_init.
  destruct (decide (i < Z.to_nat MAX_CLIENTS)%nat).
  - by apply nth_replicate_lt || (rewrite nth_lookup, lookup_replicate_2 by done).
  - apply nth_overflow. rewrite length_replicate. lia.
Qed.

Lemma server_init_inv w g max allocs clock n :
  inotify_reads_ok (nt_inotify n) -> srv_inv (server_init w g max allocs clock n).
Proof.
  intros Hn. constructor; try done.
  - split; [apply table_init_wf|apply map_Forall_empty].
  - exists []. split; [|done]. exists []. split; [apply queue_init_rep|done].
  - intros fd. split; [by intros [? ?]|]. intros (i & Hi & _). by rewrite session_init in Hi.
  - intros i j. by rewrite session_init.
  - intros i j. by rewrite session_init.
Qed.

Lemma server_init_tracked w g max allocs clock n : tracked (server_init w g max allocs clock n).
Proof.
  intros js Hjs. assert (js = []) as ->.
  { eapply queue_holds_fun; [exact Hjs|]. exists []. split; [apply queue_init_rep|done]. }
  split; [apply NoDup_nil_2|done].
Qed.

Lemma server_loop_good fixed inputs s :
  srv_inv s -> Forall input_ok inputs -> wpS (server_loop fixed inputs) (fun _ s' => good s s') s.
Proof.
  intros Hi Hin. enough (H : forall s0, progress s0 s -> wpS (server_loop fixed inputs) (fun _ s' => good s0 s') s)
    by by apply H. revert s Hi. induction Hin as [|inp inputs Hinp _ IH]; intros s Hi s0 H0; [by apply good_ret|].
  cbn [server_loop]. apply wpS_good; [done|by apply poll_iteration_good|].
  intros [|] s' Hi' H'; [by apply IH|by apply good_ret].
Qed.

(** C14: the server never reaches undefined behaviour: from its initial state
    every sequence of iterations succeeds, whatever clients send, whatever
    fails and however events arrive.  Then an open socket belongs to exactly one
    session, there is at most one administrator, the block list is within its
    bound, the job table and the queue are well formed, every job is queued or
    final, and no handle and no block of memory is lost. *)
Theorem server_runs w g max allocs clock n fixed inputs :
  inotify_reads_ok (nt_inotify n) -> Forall input_ok inputs ->
  exists o s, server_loop fixed inputs (server_init w g max allocs clock n) = Some (o, s) /\
    srv_inv s /\ tracked s /\
    (forall i j, is_admin (session s i) = true -> is_admin (session s j) = true -> i = j) /\
    (forall fd, is_Some (sv_socks s !! fd) <->
       exists i, cs_active (session s i) = true /\ cs_fd (session s i) = fd) /\
    w_files (sv_world s) = w_files w /\ w_live (sv_world s) = w_live w.
Proof.
  intros Hn Hin. pose proof (server_init_inv w g max allocs clock n Hn) as Hi.
  pose proof (server_loop_good fixed inputs _ Hi Hin) as H. unfold wpS in H.
  destruct (server_loop _ _ _) as [[o s]|]; [|done]. destruct H as [Hi' Hp]. exists o, s.
  pose proof (pg_files _ _ Hp) as [Hf Hl]. split_and!; try done.
  - apply (pg_tracked _ _ Hi Hi' Hp), server_init_tracked.
  - apply (si_admin _ Hi').
  - apply (si_open _ Hi').
Qed.

(** ** The cleanup *)

Lemma close_clients_spec n i s :
  srv_inv s -> (forall j, (j < i)%nat -> cs_active (session s j) = false) ->
  (i + n = Z.to_nat MAX_CLIENTS)%nat ->
  wpS (close_clients n i) (fun _ s' => good s s' /\ forall j, cs_active (session s' j) = false) s.
Proof.
  intros Hi Hj Hn. enough (H : forall s0, progress s0 s ->
    wpS (close_clients n i) (fun _ s' => good s0 s' /\ forall j, cs_active (session s' j) = false) s) by by apply H.
  revert i s Hi Hj Hn. induction n as [|n IH]; intros i s Hi Hj Hn s0 H0.
  - apply wpS_ret. split; [done|]. intros j. destruct (decide (j < i)%nat); [by apply Hj|].
    unfold session. rewrite nth_overflow; [done|]. rewrite (si_clients _ Hi). lia.
  - cbn [close_clients]. apply wpS_bind. eapply wpS_conseq; [by apply close_client_spec|].
    intros _ s1 (Hi1 & H1 & Hclosed & Hsame). apply IH; [done| |lia|].
    + intros j Hlt. destruct (decide (j = i)) as [->|Hne]; [done|]. rewrite Hsame by done. apply Hj. lia.
    + etrans; [exact H0|by eapply frame_progress].
Qed.

(** The cleanup ends every session and releases every socket, every node of
    the queue and every job, whatever state the server was in. *)
Theorem cleanup_releases s started :
  srv_inv s ->
  exists s', cleanup_server_state started true true s = Some (tt, s') /\
    (forall i, cs_active (session s' i) = false) /\ sv_socks s' = ∅ /\ sv_nodes s' = ∅ /\ sv_heap s' = ∅.
Proof.
  intros Hi.
  assert (Hi0 : srv_inv (if started then sv_set_queue (job_queue_stop (sv_queue s)) (sv_nodes s) s else s)).
  { destruct started; [|done]. destruct Hi as [Hj (js & (l & Hq & Hl) & Hlive) Hc Ho Hd Ha Hb Hn].
    constructor; try done. exists js. split; [|done]. exists l. split; [by apply stop_rep|done]. }
  set (s0 := if started then _ else _) in Hi0.
  pose proof (close_clients_spec (Z.to_nat MAX_CLIENTS) 0 s0 Hi0 ltac:(intros; lia) ltac:(lia)) as H. unfold wpS in H.
  destruct (close_clients (Z.to_nat MAX_CLIENTS) 0 s0) as [[[] s1]|] eqn:E; [|done].
  destruct H as [[Hi1 _] Hclosed]. destruct (si_queue _ Hi1) as (js & Hq & _).
  pose proof (destroy_frees_nodes _ _ _ Hq) as Hd.
  destruct (job_table_destroy (sv_jobs s1) (sv_heap s1)) as [t h] eqn:Et.
  destruct (destroy_frees_all _ _ _ _ (proj1 (si_jobs _ Hi1)) Et) as [-> _].
  exists (sv_set_jobs t ∅ (sv_set_queue (JobQueue None None (q_stopped (sv_queue s1))) ∅ s1)). split.
  - unfold cleanup_server_state, mbind, Srv_bind.
    assert (Hfirst : (if started then stop_workers else mret tt) s = Some (tt, s0)) by by destruct started.
    rewrite Hfirst, E, Hd. unfold modify. cbn [sv_jobs sv_heap sv_set_queue]. by rewrite Et.
  - split; [exact Hclosed|]. split_and!; [|done..]. apply map_empty. intros fd.
    destruct (sv_socks s1 !! fd) as [c|] eqn:Es; [|exact Es].
    destruct (proj1 (si_open _ Hi1 fd)) as (i & Hi2 & _); [by eexists|]. by rewrite Hclosed in Hi2.
Qed.
