(* ===== verification/System.v ===== *)
(** * The whole server: the event loop and the workers together

    A run of the program interleaves iterations of the event loop with turns
    of the workers, which share the files, the jobs, the queue and the pipe of
    notifications.  A turn of a worker is one iteration of its loop, during
    which cancellations of its job may arrive at any point; Threads.v has the
    finer interleavings.  This file states
    what every interleaving guarantees: the invariants of both sides, and that
    no job is lost. *)

From S2P Require Export ServerRun.
#[local] Open Scope Z_scope.

(** ** Turns of a worker *)

(** What a turn depends on: the worker, its readings of the clock, the
    cancellations that arrive and what its writes to the pipe return. *)
Record turn_input := TurnInput {
  ti_index : Z;
  ti_clock : list timespec;
  ti_cancels : list bool;
  ti_wsched : list io_event
}.

(** The view of the worker of the shared state. *)
Definition wk_of (e : turn_input) (s : server) : wk :=
  Wk (sv_world s) (sv_heap s) (ti_clock e) (ti_cancels e) (sv_queue s) (sv_nodes s)
     (Conn [] [] [] (ti_wsched e)) [].

(** What the worker wrote to the pipe is there to be read. *)
Definition pipe_gets (bytes : list Z) (n : notifications) : notifications :=
  let c := nt_pipe n in
  Notifications (Conn (cn_in c ++ bytes) (cn_rsched c) (cn_out c) (cn_wsched c))
    (nt_inotify n) (nt_watches n) (nt_log n).

Definition write_back (k : wk) (s : server) : server :=
  Server (wk_world k) (sv_storage s) (sv_jobs s) (wk_jobs k) (wk_queue k) (wk_nodes k) (sv_blocklist s)
    (sv_clients s) (sv_socks s) (sv_max_upload s) (sv_allocs s) (sv_clock s)
    (pipe_gets (cn_out (wk_pipe k)) (sv_notif s)).

Section system.
Context {L : LibPng} {LL : LibPngLaws L}.

Definition worker_turn (e : turn_input) (s : server) : server :=
  write_back (snd (wrun (worker_main (sv_storage s) (ti_index e) 1) (wk_of e s))) s.

(** One step of the program. *)
Inductive sys_step (fixed : list Z) (s : server) : server -> Prop :=
| step_loop inp s' : input_ok inp -> poll_iteration fixed inp s = Some (LoopContinue, s') ->
    sys_step fixed s s'
| step_turn e : sys_step fixed s (worker_turn e s).

Record sys_inv (s : server) : Prop := SysInv {
  sy_srv : srv_inv s;
  sy_tracked : tracked s;
  sy_crc : crc_inv (w_crc (sv_world s));
  sy_running : q_stopped (sv_queue s) = false
}.

(** ** The effect of a turn *)

(** The job [l] at the head of the queue was processed. *)
Record turned (l : loc) (js : list loc) (s s' : server) : Prop := Turned {
  tu_job : exists j j', sv_heap s !! l = Some j /\ sv_heap s' !! l = Some j' /\ same_job j j' /\
    state_is_final (job_st j') = true;
  tu_other : forall l', l' <> l -> sv_heap s' !! l' = sv_heap s !! l';
  tu_queue : queue_holds (sv_queue s') (sv_nodes s') js;
  tu_running : q_stopped (sv_queue s') = q_stopped (sv_queue s);
  tu_jobs : rtc job_step (sv_jobs s, sv_heap s) (sv_jobs s', sv_heap s');
  tu_files : w_files (sv_world s') = w_files (sv_world s) /\ w_live (sv_world s) <= w_live (sv_world s');
  tu_denied : w_denied (sv_world s') = w_denied (sv_world s);
  tu_io : w_io (sv_world s) = [] -> w_io (sv_world s') = [];
  tu_crc : crc_inv (w_crc (sv_world s)) -> crc_inv (w_crc (sv_world s'));
  tu_fs : forall q, (forall id x, q <> job_path (g_storage_results (sv_storage s)) id (Some x)) ->
    w_fs (sv_world s') !! q = w_fs (sv_world s) !! q
}.

(** What no turn changes. *)
Record turn_kept (s s' : server) : Prop := TurnKept {
  tk_table : sv_jobs s' = sv_jobs s;
  tk_clients : sv_clients s' = sv_clients s;
  tk_socks : sv_socks s' = sv_socks s;
  tk_block : sv_blocklist s' = sv_blocklist s;
  tk_storage : sv_storage s' = sv_storage s;
  tk_inotify : nt_inotify (sv_notif s') = nt_inotify (sv_notif s)
}.

Lemma turn_kept_holds e s : turn_kept s (worker_turn e s).
Proof. by constructor. Qed.

Lemma turn_idle e s :
  queue_holds (sv_queue s) (sv_nodes s) [] -> q_stopped (sv_queue s) = false ->
  snd (wrun (worker_main (sv_storage s) (ti_index e) 1) (wk_of e s)) = wk_of e s.
Proof.
  intros Hq Hst.
  enough (H : wpW (worker_main (sv_storage s) (ti_index e) 1) (fun _ s' => s' = wk_of e s) (wk_of e s))
    by (unfold wpW in H; by destruct (wrun _ _)).
  cbn [worker_main]. apply wpW_bind, wpW_bind. eapply wpW_conseq; [by apply is_running_true|].
  intros b s1 [-> ->]. by apply wpW_bind, pop_waits.
Qed.

(** The worker's own view: one iteration takes the first job. *)
Lemma worker_main_once g i l js k (Q : wk -> Prop) :
  queue_holds (wk_queue k) (wk_nodes k) (l :: js) -> q_stopped (wk_queue k) = false -> wk_running k = [] ->
  (forall q nodes, queue_holds q nodes js -> q_stopped q = false ->
     wpW (worker_job g i (Some l)) (fun _ => Q)
       (Wk (wk_world k) (wk_jobs k) (wk_clock k) (wk_env k) q nodes (wk_pipe k) [])) ->
  Q (snd (wrun (worker_main g i 1) k)).
Proof.
  intros Hq Hst Hr HQ. enough (H : wpW (worker_main g i 1) (fun _ => Q) k)
    by (unfold wpW in H; by destruct (wrun _ _)).
  cbn [worker_main]. apply wpW_bind, wpW_bind. eapply wpW_conseq; [by apply is_running_true|].
  intros b s1 [-> ->]. apply wpW_bind. eapply pop_next; [done..|]. intros q nodes Hq' Hst'.
  rewrite Hr. apply wpW_bind. eapply wpW_conseq; [by apply HQ|]. done.
Qed.

Lemma turn_works e s l js :
  sys_inv s -> queue_holds (sv_queue s) (sv_nodes s) (l :: js) -> turned l js s (worker_turn e s).
Proof.
  intros [Hi Ht Hcrc Hrun] Hq.
  destruct (si_queue _ Hi) as (js0 & Hq0 & Hlive). rewrite <-(queue_holds_fun _ _ _ _ Hq Hq0) in Hlive.
  apply Forall_cons in Hlive as [[j Hj] _]. unfold worker_turn.
  apply (worker_main_once (sv_storage s) (ti_index e) l js (wk_of e s)); [done..|]. intros q nodes Hq' Hst'.
  eapply wpW_conseq; [apply (worker_job_spec (sv_storage s) (ti_index e) l (job_id j));
    [by exists j|done|intros j0 H0; simpl in H0; congruence]|].
  intros _ k (st & n & [(k1 & Hs1 & Hk) Hf [Hn _] _ _ _]).
  destruct (ws_job _ _ _ _ _ _ _ Hs1 j Hj) as (j' & Hj' & Hsame & Hst). simpl in Hst. subst st.
  pose proof (wstep_crc _ _ _ _ _ _ _ Hs1) as Hc. destruct Hs1 as [(fs & Hw & Hfs) Hsteps Hother _ Hqk Hnk _ _ _].
  cbn [wk_of wk_world wk_jobs wk_queue wk_nodes] in *. rewrite Hk. constructor; cbn; try done.
  - by exists j, j'.
  - by rewrite Hqk, Hnk.
  - rewrite Hqk. congruence.
  - destruct Hw as [_ -> -> _ _ _ _]. lia.
  - apply Hw.
  - apply Hw.
  - intros x Hx. rewrite (step_fs _ _ _ _ _ Hw). apply Hfs. intros [y ->]. by eapply Hx.
Qed.

Lemma turned_inv l js s s' :
  srv_inv s -> tracked s -> queue_holds (sv_queue s) (sv_nodes s) (l :: js) ->
  turned l js s s' -> turn_kept s s' -> srv_inv s' /\ tracked s'.
Proof.
  intros Hi Ht Hq [(j & j' & Hj & Hj' & _ & Hf) Hother Hq' _ Hsteps _ _ _ _ _] [Htab Hc Hk Hb _ Hn].
  destruct (Ht _ Hq) as [Hnd Hall]. apply NoDup_cons in Hnd as [Hl Hnd].
  destruct Hi as [Hjobs (js0 & Hq0 & Hlive) H3 H4 H5 H6 H7 H8]. split.
  - unfold session in *. rewrite <-Hc in *. constructor; rewrite ?Hk, ?Hb, ?Hn; try done.
    + eapply job_steps_inv; [exact Hsteps|exact Hjobs].
    + exists js. split; [exact Hq'|]. rewrite <-(queue_holds_fun _ _ _ _ Hq Hq0) in Hlive.
      apply Forall_cons in Hlive as [_ Hlive]. eapply Forall_impl; [exact Hlive|].
      intros l' Hl'. apply (steps_live _ _ _ Hsteps Hjobs Hl').
  - intros js' Hjs'. rewrite (queue_holds_fun _ _ _ _ Hjs' Hq'). split; [done|]. intros l' j0 Hj0.
    destruct (decide (l' = l)) as [->|Hne].
    + rewrite bool_decide_false by done. by assert (j0 = j') as -> by congruence.
    + rewrite Hother in Hj0 by done. specialize (Hall l' j0 Hj0).
      rewrite (bool_decide_ext _ (l' ∈ l :: js)); [done|]. rewrite elem_of_cons. tauto.
Qed.

(** ** Every interleaving *)

(** From one state to a later one: no job disappears or changes its identity,
    a finished job keeps its state, every handle is closed and the number of
    live blocks never falls. *)
Record evolves (s s' : server) : Prop := Evolves {
  ev_jobs : forall l j, sv_heap s !! l = Some j -> exists j', sv_heap s' !! l = Some j' /\ same_job j j' /\
    (state_is_final (job_st j) = true -> job_st j' = job_st j);
  ev_files : w_files (sv_world s') = w_files (sv_world s);
  ev_live : w_live (sv_world s) <= w_live (sv_world s')
}.

#[export] Instance evolves_preorder : PreOrder evolves.
Proof.
  split.
  - intros s. constructor; try done. intros l j Hj. by exists j.
  - intros s1 s2 s3 [H1 F1 L1] [H2 F2 L2]. constructor; [|congruence|lia].
    intros l j Hj. destruct (H1 l j Hj) as (j1 & Hj1 & Hs1 & Hf1). destruct (H2 l j1 Hj1) as (j2 & Hj2 & Hs2 & Hf2).
    exists j2. split; [done|]. split; [by transitivity j1|]. intros Hf. rewrite Hf2; rewrite Hf1; done.
Qed.

Lemma loop_evolves fixed inp s o s' :
  srv_inv s -> input_ok inp -> poll_iteration fixed inp s = Some (o, s') -> good s s' /\ evolves s s'.
Proof.
  intros Hi Hin Hrun. pose proof (poll_iteration_good fixed inp s Hi Hin) as H. unfold wpS in H.
  rewrite Hrun in H. split; [done|]. destruct H as [_ H]. constructor; [|apply (pg_files _ _ H)|by destruct (pg_files _ _ H) as [_ ->]].
  intros l j Hj. destruct (si_jobs _ Hi) as [Hwf Hall].
  destruct (job_identity _ _ _ _ l j Hwf Hall (pg_jobs _ _ H) Hj) as (j' & Hj' & Hs).
  exists j'. split; [done|]. split; [done|]. intros _.
  pose proof (submits_kept _ _ (pg_submits _ _ H) l (ex_intro _ j Hj)) as Hst. rewrite Hj, Hj' in Hst. by injection Hst.
Qed.

Lemma turn_evolves e s : sys_inv s -> sys_inv (worker_turn e s) /\ evolves s (worker_turn e s).
Proof.
  intros H. pose proof H as [Hi Ht Hc Hr]. destruct (si_queue _ Hi) as ([|l js] & Hq & Hlive).
  - unfold worker_turn. rewrite (turn_idle e s Hq Hr). split.
    + constructor; try done. destruct Hi. by constructor.
    + constructor; try done. intros l j Hj. by exists j.
  - pose proof (turn_works e s l js H Hq) as Htu. pose proof (turn_kept_holds e s) as Hk.
    destruct (turned_inv l js s _ Hi Ht Hq Htu Hk) as [Hi' Ht']. destruct Htu as [(j & j' & Hj & Hj' & Hs & Hf) Ho _ Hr' _ [Hfi Hli] _ _ Hc' _].
    split; [constructor; try done; [by apply Hc'|congruence]|]. constructor; [|done|done]. intros l' j0 Hj0.
    destruct (decide (l' = l)) as [->|Hne]; [|rewrite Ho by done; by exists j0].
    assert (j0 = j) as -> by congruence. exists j'. split; [done|]. split; [done|]. intros Hfin.
    destruct (Ht _ Hq) as [_ Hall]. specialize (Hall l j Hj). rewrite bool_decide_true in Hall by by left.
    by rewrite Hall in Hfin.
Qed.

(** A run of the loop that goes on is a run of the program. *)
Lemma loop_reaches fixed inputs s s' :
  Forall input_ok inputs -> server_loop fixed inputs s = Some (LoopContinue, s') -> rtc (sys_step fixed) s s'.
Proof.
  intros Hin. revert s. induction Hin as [|inp inputs Hinp _ IH]; intros s Hrun.
  - injection Hrun as ->. apply rtc_refl.
  - cbn [server_loop] in Hrun. unfold mbind, Srv_bind in Hrun.
    destruct (poll_iteration fixed inp s) as [[[|] s1]|] eqn:E; try done.
    eapply rtc_l; [by eapply step_loop|]. by apply IH.
Qed.

Lemma sys_step_evolves fixed s s' : sys_inv s -> sys_step fixed s s' -> sys_inv s' /\ evolves s s'.
Proof.
  intros H [inp s1 Hin Hrun|e]; [|by apply turn_evolves]. destruct H as [Hi Ht Hc Hr].
  destruct (loop_evolves _ _ _ _ _ Hi Hin Hrun) as [[Hi' Hp] He]. split; [|done].
  constructor; [done|by apply (pg_tracked s)|by apply (pg_crc _ _ Hp)|]. rewrite (pg_stopped _ _ Hp). done.
Qed.

Lemma sys_steps_evolve fixed s s' : rtc (sys_step fixed) s s' -> sys_inv s -> sys_inv s' /\ evolves s s'.
Proof.
  induction 1 as [|s1 s2 s3 H _ IH]; intros Hi; [done|]. destruct (sys_step_evolves _ _ _ Hi H) as [Hi2 H2].
  destruct (IH Hi2) as [Hi3 H3]. split; [done|by etrans].
Qed.

Lemma server_init_sys w g max allocs clock n :
  inotify_reads_ok (nt_inotify n) -> crc_inv (w_crc w) -> sys_inv (server_init w g max allocs clock n).
Proof. intros Hn Hc. constructor; [by apply server_init_inv|apply server_init_tracked|done|done]. Qed.

(** Whatever the order in which iterations of the event loop and turns of
    the workers alternate, and whatever clients, cancellations and the system
    do, every state that is reached satisfies the invariant of the server, in
    which each job is queued or finished, and the next iteration is defined;
    a job never disappears, changes its identity or, once finished, its state;
    every handle is closed again and the number of live blocks never falls
    below that of the start. *)
Theorem system_safe fixed w g max allocs clock n s s' :
  inotify_reads_ok (nt_inotify n) -> crc_inv (w_crc w) ->
  rtc (sys_step fixed) (server_init w g max allocs clock n) s -> rtc (sys_step fixed) s s' ->
  srv_inv s' /\ tracked s' /\
  (forall inp, input_ok inp -> is_Some (poll_iteration fixed inp s')) /\
  (forall l j, sv_heap s !! l = Some j -> exists j', sv_heap s' !! l = Some j' /\ same_job j j' /\
     (state_is_final (job_st j) = true -> job_st j' = job_st j)) /\
  w_files (sv_world s') = w_files w /\ w_live w <= w_live (sv_world s').
Proof.
  intros Hn Hc H1 H2. destruct (sys_steps_evolve _ _ _ H1 (server_init_sys w g max allocs clock n Hn Hc)) as [Hs Hev].
  destruct (sys_steps_evolve _ _ _ H2 Hs) as [Hs' Hev']. pose proof Hs' as [Hi Ht _ _]. split_and!; try done.
  - intros inp Hin. pose proof (poll_iteration_good fixed inp s' Hi Hin) as H. unfold wpS in H.
    destruct (poll_iteration _ _ _); [by eexists|done].
  - apply Hev'.
  - rewrite (ev_files _ _ Hev'), (ev_files _ _ Hev). done.
  - pose proof (ev_live _ _ Hev). pose proof (ev_live _ _ Hev'). simpl in *. lia.
Qed.

(** ** Every job ends *)

Lemma turns_drain es s js :
  sys_inv s -> queue_holds (sv_queue s) (sv_nodes s) js -> length es = length js ->
  let s' := foldl (fun s e => worker_turn e s) s es in
  sys_inv s' /\ evolves s s' /\ queue_holds (sv_queue s') (sv_nodes s') [] /\
  dom (sv_heap s') = dom (sv_heap s).
Proof.
  revert s js. induction es as [|e es IH]; intros s [|l js] Hi Hq Hlen; try done.
  cbn [foldl]. destruct (turn_evolves e s Hi) as [Hi1 H1]. pose proof (turn_works e s l js Hi Hq) as Htu.
  destruct (IH (worker_turn e s) js Hi1 (tu_queue _ _ _ _ Htu) ltac:(simpl in Hlen; lia)) as (Hi' & H' & Hq' & Hd).
  split_and!; try done; [by etrans|]. rewrite Hd. destruct (tu_job _ _ _ _ Htu) as (j & j' & Hj & Hj' & _).
  apply set_eq. intros l'. rewrite !elem_of_dom. destruct (decide (l' = l)) as [->|Hne].
  - rewrite Hj, Hj'. split; by eexists.
  - by rewrite (tu_other _ _ _ _ Htu).
Qed.

(** No job is forgotten: from any state the program reaches, as many turns
    of workers as there are queued jobs, each with any cancellations and
    failures, bring every job to a final state and leave the queue empty. *)
Theorem all_jobs_final fixed w g max allocs clock n s js es :
  inotify_reads_ok (nt_inotify n) -> crc_inv (w_crc w) ->
  rtc (sys_step fixed) (server_init w g max allocs clock n) s ->
  queue_holds (sv_queue s) (sv_nodes s) js -> length es = length js ->
  let s' := foldl (fun s e => worker_turn e s) s es in
  queue_holds (sv_queue s') (sv_nodes s') [] /\
  forall l j, sv_heap s !! l = Some j ->
    exists j', sv_heap s' !! l = Some j' /\ same_job j j' /\ state_is_final (job_st j') = true.
Proof.
  intros Hn Hc H1 Hq Hlen. destruct (sys_steps_evolve _ _ _ H1 (server_init_sys w g max allocs clock n Hn Hc)) as [Hs _].
  destruct (turns_drain es s js Hs Hq Hlen) as ([_ Ht _ _] & Hev & Hq' & _). split; [done|]. intros l j Hj.
  destruct (ev_jobs _ _ Hev l j Hj) as (j' & Hj' & Hsame & _). exists j'. split_and!; try done.
  by apply (proj2 (Ht _ Hq') l j' Hj').
Qed.
End system.
