(* ===== verification/Exchange.v ===== *)
(** * Undisturbed exchanges

    What the transfer loops do on a connection whose calls are at most
    interrupted or partial: a printed request is read back, an upload stores
    exactly its bytes, and what follows stays in the stream. *)

From S2P Require Export ServerRun.
#[local] Open Scope Z_scope.

(** A connection without failures. *)
Definition calm (c : conn) : Prop := quiet (cn_rsched c) /\ quiet (cn_wsched c).

(** ** Reading a request *)

(** Text without a terminator or a newline. *)
Definition one_line (s : string) : Prop := Forall (fun z => z <> 0 /\ z <> 10) (bytes_of_string s).

Lemma one_line_app s t : one_line s -> one_line t -> one_line (s +:+ t).
Proof. unfold one_line. rewrite bytes_of_string_app. intros. by apply Forall_app. Qed.

Lemma one_line_digits fuel n acc : 0 <= n -> one_line acc -> one_line (dec_digits fuel n acc).
Proof.
  revert n acc. induction fuel as [|fuel IH]; intros n acc Hn Ha; [done|]. cbn [dec_digits].
  assert (Hd : one_line (String (chr (48 + n mod 10)) acc)).
  { unfold one_line. cbn [bytes_of_string]. apply Forall_cons. split; [|done].
    pose proof (Z.mod_pos_bound n 10 ltac:(lia)). rewrite ord_chr by (unfold bounded; pow2; lia). lia. }
  destruct (n <? 10); [done|]. apply IH; [|done]. apply Z.div_pos; lia.
Qed.

Lemma one_line_print n : 0 <= n -> one_line (print_u n).
Proof. intros. apply one_line_digits; [done|]. apply Forall_nil_2. Qed.

Lemma line_of_newline l n rest :
  Forall (fun z => z <> 10) l -> (length l < n)%nat -> line_of n (l ++ 10 :: rest) = l ++ [10].
Proof.
  intros Hl. revert n. induction Hl as [|z l Hz _ IH]; intros [|n] Hn; simpl in *; try lia; [done|].
  rewrite (proj2 (Z.eqb_neq _ _) Hz). rewrite IH by lia. done.
Qed.

Lemma read_line_exact size body rest c :
  one_line body -> strlen (body +:+ nl) < size -> calm c ->
  cn_in c = bytes_of_string (body +:+ nl) ++ rest ->
  exists c', read_line c size = Some (strlen (body +:+ nl), bytes_of_string (body +:+ nl), c') /\
    cn_in c' = rest /\ cn_out c' = cn_out c /\ calm c'.
Proof.
  intros Hb Hlen [Hr Hw] Hin. pose proof (strlen_nonneg (body +:+ nl)) as Hpos.
  destruct (read_line_loop_total (S (length (cn_rsched c) + Z.to_nat size)) size [] c)
    as (r & got & c' & Heq & H1 & H2 & H3 & _ & _ & H6); [simpl; lia|simpl; lia|].
  destruct (H6 Hr) as (Hgot & Hrr & Hq). change (length []) with 0%nat in Hgot.
  assert (Hline : got = bytes_of_string (body +:+ nl)).
  { rewrite Hgot, Hin, bytes_of_string_app. change (bytes_of_string nl) with [10]. rewrite <-app_assoc.
    apply line_of_newline; [eapply Forall_impl; [exact Hb|]; tauto|].
    rewrite strlen_app in Hlen. change (strlen nl) with 1 in Hlen. rewrite length_bytes_of_string.
    unfold strlen in *. lia. }
  exists c'. unfold read_line. rewrite (proj2 (Z.eqb_neq size 0)) by lia. rewrite Heq. cbn [app] in *. clear Hgot H6. subst got. split_and!.
  - rewrite Hrr. unfold strlen. by rewrite length_bytes_of_string.
  - rewrite Hin in H1. by apply app_inv_head in H1.
  - done.
  - split; [done|]. by rewrite H3.
Qed.

Lemma read_request body rest c :
  one_line body -> strlen (body +:+ nl) < BUFFER_SIZE -> calm c ->
  cn_in c = bytes_of_string (body +:+ nl) ++ rest ->
  exists c', read_line c BUFFER_SIZE = Some (strlen (body +:+ nl), bytes_of_string (body +:+ nl), c') /\
    cn_in c' = rest /\ cn_out c' = cn_out c /\ calm c'.
Proof. apply read_line_exact. Qed.

Lemma one_line_cstr body : one_line body -> cstr_of_bytes (bytes_of_string (body +:+ nl)) = body +:+ nl.
Proof.
  intros Hb. assert (Hn : no_nul (body +:+ nl)).
  { unfold no_nul. rewrite bytes_of_string_app. apply Forall_app. split.
    - eapply Forall_impl; [exact Hb|]. by intros z [].
    - by apply Forall_singleton. }
  pose proof (cstr_of_bytes_string (body +:+ nl) [] Hn) as H. revert H.
  generalize (body +:+ nl). intros s. induction s as [|a s IH]; [done|]. cbn [bytes_of_string app cstr_of_bytes].
  destruct (ord a =? 0); [done|]. intros [= Ha H]. by rewrite Ha, IH.
Qed.

(** The first step of [handle_client_command]: the request is read and parsed. *)
Lemma handle_request i fd r body k rest s Q :
  own i fd s -> sv_socks s !! fd = Some k -> calm k ->
  print_request r = body +:+ nl -> one_line body -> request_canonical r ->
  strlen (print_request r) < BUFFER_SIZE -> cn_in k = bytes_of_string (print_request r) ++ rest ->
  (forall k', cn_in k' = rest -> cn_out k' = cn_out k -> calm k' ->
     wpS (if bool_decide (cs_type (session s i) = CLIENT_TYPE_ADMIN)
          then _ ← handle_admin_command i r; mret tt
          else _ ← handle_user_command i r; mret tt) Q (sv_set_socks (<[fd := k']> (sv_socks s)) s)) ->
  protocol_parse_line (Some (print_request r)) = Some r ->
  wpS (handle_client_command i) Q s.
Proof.
  intros [Ha Hfd] Hk Hcalm Hr Hbody Hcan Hlen Hin HQ Hparse. unfold handle_client_command, client_at.
  apply wpS_gets. fold (session s i). rewrite Hfd. apply wpS_bind. unfold wpS at 1, on_sock. rewrite Hk.
  rewrite Hr in Hlen, Hin, Hparse.
  destruct (read_request body rest k Hbody Hlen Hcalm Hin) as (k' & -> & H1 & H2 & H3).
  assert (Hpos : 0 < strlen (body +:+ nl)).
  { rewrite strlen_app. change (strlen nl) with 1. pose proof (strlen_nonneg body). lia. }
  destruct (Z.leb_spec (strlen (body +:+ nl)) 0); [lia|]. rewrite one_line_cstr by done. rewrite Hparse.
  by apply HQ.
Qed.

(** ** Uploads *)

Definition conn_same (c : conn) (r : option (Z * conn)) : Prop :=
  forall rc c', r = Some (rc, c') -> cn_out c' = cn_out c /\ (calm c -> calm c').

Lemma abandon_conn path c w : wp (abandon_file path c) (fun r _ => conn_same c r) w.
Proof. eapply wp_conseq; [apply abandon_spec|]. intros r w' [-> _] rc c' [= <- <-]. done. Qed.

Lemma conn_same_trans c c1 r :
  cn_out c1 = cn_out c -> (calm c -> calm c1) -> conn_same c1 r -> conn_same c r.
Proof. intros H1 H2 H rc c' Hr. destruct (H rc c' Hr) as [-> H3]. auto. Qed.

Lemma read_calm want c : 0 < want -> calm c -> calm (snd (read want c)).
Proof.
  intros Hw [Hr Hws]. destruct (read_quiet want c Hr Hw) as [(s & _ & -> & _ & Hs)|(n & s & _ & -> & _ & Hs & _)];
    by split.
Qed.

Lemma receive_loop_conn fuel size acc path c w :
  wp (receive_loop fuel size acc path c) (fun r _ => conn_same c r) w.
Proof.
  revert size acc c w. induction fuel as [|fuel IH]; intros size acc c w; [by apply wp_ret|].
  cbn [receive_loop]. destruct (Z.ltb_spec 0 size) as [Hpos|Hz].
  2: { wp_auto; by intros rc c' [= <- <-]. }
  cbv zeta. set (want := if size <? CHUNK_SIZE then size else CHUNK_SIZE).
  assert (Hwant : 0 < want) by (subst want; unfold CHUNK_SIZE; destruct (Z.ltb_spec size 65536); lia).
  pose proof (read_shape want c) as Hs. pose proof (read_calm want c Hwant) as Hc.
  destruct (read want c) as [[| |bytes] c1]; simpl in Hc.
  - eapply wp_conseq; [apply IH|]. intros r w'. apply conn_same_trans; [apply Hs|done].
  - eapply wp_conseq; [apply abandon_conn|]. intros r w'. apply conn_same_trans; [apply Hs|done].
  - destruct bytes as [|b bytes].
    + eapply wp_conseq; [apply abandon_conn|]. intros r w'. apply conn_same_trans; [apply Hs|done].
    + apply wp_bind, wp_stdio. intros ok w1 _ _. destruct ok; cbn [negb].
      * eapply wp_conseq; [apply IH|]. intros r w'. apply conn_same_trans; [apply Hs|done].
      * eapply wp_conseq; [apply abandon_conn|]. intros r w'. apply conn_same_trans; [apply Hs|done].
Qed.

Lemma upload_exact path data rest c w :
  cn_in c = data ++ rest -> calm c -> w_io w = [] -> path ∉ w_denied w ->
  wp (storage_receive_to_file c (Z.of_nat (length data)) (Some path)) (fun r w' => exists c',
    r = Some (0, c') /\ cn_in c' = rest /\ cn_out c' = cn_out c /\ calm c' /\
    step (<[path := data]> (w_fs w)) 0 0 w w') w.
Proof.
  intros Hin Hc Hio Hden.
  assert (H1 := storage_receive_spec c (Z.of_nat (length data)) path w ltac:(lia)).
  assert (H2 : wp (storage_receive_to_file c (Z.of_nat (length data)) (Some path)) (fun r _ => conn_same c r) w).
  { unfold storage_receive_to_file. apply wp_bind, wp_fopen_wb; [intros w1 _ _|intros _]; cbn [negb].
    - apply receive_loop_conn.
    - apply wp_ret. by intros rc c' [= <- <-]. }
  unfold wp in *. destruct (storage_receive_to_file _ _ _ _) as [r w'].
  destruct H1 as (rc & c' & fs & -> & Hst & Hother & Hrc & Hok).
  assert (rc = 0) as -> by (apply Hok; [apply Hc|done|rewrite Hin, length_app; lia|done]).
  destruct (H2 0 c' eq_refl) as [Hout Hcalm].
  destruct Hrc as [(_ & got & Hgot & Hlen & Hfs)|[? _]]; [|done].
  assert (got = data /\ cn_in c' = rest) as [-> Hrest].
  { rewrite Hin in Hgot. apply app_inj_1 in Hgot as [-> ->]; [done|lia]. }
  exists c'. split_and!; auto. replace (<[path := data]> (w_fs w)) with fs; [done|].
  apply map_eq. intros q. destruct (decide (q = path)) as [->|Hne].
  - by rewrite Hfs, lookup_insert_eq.
  - by rewrite lookup_insert_ne, Hother.
Qed.
