(* ===== verification/Threads.v ===== *)
(** * The worker threads (src/src/server/worker.c, server.c)

    The server thread and any number of worker threads run at the same time.
    A step of the program is one iteration of the event loop, or one atomic
    action of one worker: an access to a job, a call over the files, an
    operation of the queue, a write to the pipe.  A handler may thus see a job
    at any point of its processing, and several jobs are in progress at once.
    This file defines the steps and proves the invariant of all their
    interleavings. *)

From S2P Require Export System.
#[local] Open Scope Z_scope.

(** ** Threads and steps *)

(** A worker and the rest of its current iteration. *)
Record thread := Thread { th_index : Z; th_code : W (option worker_outcome) }.

Record program := Program { pr_server : server; pr_threads : list thread }.

(** What an action depends on: the readings of the clock and of
    [ctx->running], and what writes to the pipe return. *)
Record act_input := ActInput {
  ai_clock : list timespec;
  ai_running : list bool;
  ai_wsched : list io_event
}.

Definition seen (e : act_input) (s : server) : wk :=
  Wk (sv_world s) (sv_heap s) (ai_clock e) [] (sv_queue s) (sv_nodes s)
     (Conn [] [] [] (ai_wsched e)) (ai_running e).

Section threads.
Context {L : LibPng}.

(** The next action of a worker; [None] when the thread has returned, or has
    reached undefined behaviour.  A worker that waits tries again. *)
Definition thread_acts (e : act_input) (s : server) (t : thread) : option (thread * server) :=
  let i := th_index t in
  match th_code t with
  | Ret (Some WorkerNext) => Some (Thread i (worker_iteration (sv_storage s) i), s)
  | Ret (Some WorkerWaits) => Some (Thread i (worker_take (sv_storage s) i), s)
  | Ret _ => None
  | Act op k => let (b, w) := op (seen e s) in Some (Thread i (k b), write_back w s)
  end.

Definition worker_acts (n : nat) (e : act_input) (c : program) : option program :=
  t ← pr_threads c !! n;
  r ← thread_acts e (pr_server c) t;
  Some (Program r.2 (<[n := r.1]> (pr_threads c))).

Inductive program_step (fixed : list Z) (c : program) : program -> Prop :=
  | step_server inp s' : input_ok inp -> poll_iteration fixed inp (pr_server c) = Some (LoopContinue, s') ->
      program_step fixed c (Program s' (pr_threads c))
  | step_worker n e c' : worker_acts n e c = Some c' -> program_step fixed c c'.

(** [start_workers]: each thread enters its loop. *)
Definition program_init (s : server) (workers : nat) : program :=
  Program s ((fun n => Thread (Z.of_nat n) (Ret (Some WorkerNext))) <$> seq 0 workers).
End threads.

(** ** What a worker relies on *)

(** The others leave the job [l] in its state, and the table of the checksum. *)
Definition others (l : loc) (w w' : wk) : Prop :=
  (forall j, wk_jobs w !! l = Some j -> exists j', wk_jobs w' !! l = Some j' /\ same_job j j' /\
     job_st j' = job_st j) /\
  (crc_inv (w_crc (wk_world w)) -> crc_inv (w_crc (wk_world w'))).

#[export] Instance others_preorder l : PreOrder (others l).
Proof.
  split.
  - intros w. split; [|done]. intros j Hj. by exists j.
  - intros w1 w2 w3 [H1 C1] [H2 C2]. split; [|auto]. intros j Hj.
    destruct (H1 j Hj) as (j1 & Hj1 & S1 & E1). destruct (H2 j1 Hj1) as (j2 & Hj2 & S2 & E2).
    exists j2. split; [done|]. split; [by transitivity j1|congruence].
Qed.

(** A job in the hands of a worker: it is still queued until its state is set. *)
Definition in_hand (l : loc) (id k : Z) (o : option job_state) (w : wk) : Prop :=
  0 <= k /\ crc_inv (w_crc (wk_world w)) /\
  exists j, wk_jobs w !! l = Some j /\ ident j = (id, default JOB_STATE_QUEUED o).

Section rely.
Context (g : storage_globals) (l : loc) (id : Z).

Lemma in_hand_others k o w w' : in_hand l id k o w -> others l w w' -> in_hand l id k o w'.
Proof.
  intros (Hk & Hc & j & Hj & Hi) [H HC]. split; [done|]. split; [by apply HC|].
  destruct (H j Hj) as (j' & Hj' & Hs & Hst). exists j'. split; [done|].
  unfold ident in *. rewrite Hst. by destruct Hs as [-> _].
Qed.

#[export] Instance rely_others : Rely g l id (others l) (in_hand l id).
Proof.
  constructor.
  - apply in_hand_others.
  - intros k o k' o' w w' (_ & Hc & j & Hj & Hi) Hk Hs. split; [done|]. split; [by eapply wstep_crc|].
    destruct (ws_job _ _ _ _ _ _ _ Hs j Hj) as (j' & Hj' & Hsame & Hst). exists j'. split; [done|].
    injection Hi as <- Hst0. unfold ident. rewrite Hst, Hst0. destruct Hsame as [-> _]. by destruct o'.
  - by intros k o w [].
  - intros k o w (_ & _ & j & Hj & Hi). injection Hi as Hid Hst. exists j. split_and!; [done..|].
    by intros st ->.
  - by intros k o w (_ & Hc & _).
  - intros k o w w' (_ & _ & j & Hj & _) [H _] Hc. destruct (H j Hj) as (j' & Hj' & Hs & _).
    unfold cancelled, job_is_cancel_requested, read_job in *. rewrite Hj in Hc. rewrite Hj'. by apply Hs.
Qed.
End rely.

(** ** The invariant *)

(** A job in the hands of a worker: its address and identifier, the blocks of
    memory held for it, and the state that was given to it. *)
Record hand := Hand { hd_loc : loc; hd_id : Z; hd_blocks : Z; hd_state : option job_state }.

Definition locs (hs : list hand) : list loc := hd_loc <$> hs.
Definition blocks (hs : list hand) : Z := foldr Z.add 0 (hd_blocks <$> hs).

(** What the server and the jobs in hand satisfy; [live] blocks were there from
    the start, and the queue was [stopped] or not. *)
Record hands_inv_at (stopped : bool) (live : Z) (s : server) (hs : list hand) : Prop := HandsInv {
  hi_srv : srv_inv s;
  hi_crc : crc_inv (w_crc (sv_world s));
  hi_running : q_stopped (sv_queue s) = stopped;
  hi_distinct : NoDup (locs hs);
  hi_tracked : tracked_but (list_to_set (locs hs)) (view_of s);
  hi_live : live + blocks hs <= w_live (sv_world s)
}.
#[global] Arguments hi_srv {stopped} live s hs _.
#[global] Arguments hi_crc {stopped} live s hs _.
#[global] Arguments hi_running {stopped} live s hs _.
#[global] Arguments hi_distinct {stopped} live s hs _.
#[global] Arguments hi_tracked {stopped} live s hs _.
#[global] Arguments hi_live {stopped} live s hs _.

Abbreviation hands_inv := (hands_inv_at false).

Definition no_input : act_input := ActInput [] [] [].

Lemma blocks_perm hs hs' : hs ≡ₚ hs' -> blocks hs = blocks hs'.
Proof.
  unfold blocks. induction 1; cbn in *; lia.
Qed.

#[export] Instance hands_inv_perm stopped live s : Proper ((≡ₚ) ==> iff) (hands_inv_at stopped live s).
Proof.
  enough (H : forall hs hs', hs ≡ₚ hs' -> hands_inv_at stopped live s hs -> hands_inv_at stopped live s hs')
    by (intros hs hs' Hp; split; apply H; [done|by symmetry]).
  intros hs hs' Hp [? ? ? H1 H2 H3]. assert (Hl : locs hs ≡ₚ locs hs') by by apply fmap_Permutation.
  constructor; try done.
  - by rewrite <-Hl.
  - by replace (list_to_set (locs hs') : gset loc) with (list_to_set (locs hs) : gset loc)
      by (by apply list_to_set_perm_L).
  - by rewrite <-(blocks_perm _ _ Hp).
Qed.

(** *** Steps on the server *)

(** No job disappears, changes its identity or, once final, its state. *)
Definition jobs_evolve (h h' : job_heap) : Prop :=
  forall l j, h !! l = Some j -> exists j', h' !! l = Some j' /\ same_job j j' /\
    (state_is_final (job_st j) = true -> job_st j' = job_st j).

#[export] Instance jobs_evolve_preorder : PreOrder jobs_evolve.
Proof.
  split; [by intros h l j Hj; exists j|]. intros h1 h2 h3 H1 H2 l j Hj.
  destruct (H1 l j Hj) as (j1 & Hj1 & Hs1 & Hf1). destruct (H2 l j1 Hj1) as (j2 & Hj2 & Hs2 & Hf2).
  exists j2. split; [done|]. split; [by transitivity j1|]. intros Hf. rewrite Hf2; rewrite Hf1; done.
Qed.

Lemma write_back_inv w s js :
  srv_inv s -> rtc job_step (sv_jobs s, sv_heap s) (sv_jobs s, wk_jobs w) ->
  queue_holds (wk_queue w) (wk_nodes w) js -> (forall l, l ∈ js -> is_Some (sv_heap s !! l)) ->
  srv_inv (write_back w s).
Proof.
  intros [Hjobs _ H3 H4 H5 H6 H7 H8] Hsteps Hq Hlive. constructor; try done.
  - by eapply job_steps_inv.
  - exists js. split; [done|]. rewrite Forall_forall. intros l Hl%Hlive.
    apply (steps_live _ _ l Hsteps Hjobs Hl).
Qed.

Section steps.
Context {stopped : bool} (live : Z).

(** The job in hand. *)
Lemma hand_job s h hs :
  hands_inv_at stopped live s (h :: hs) -> exists j, sv_heap s !! hd_loc h = Some j.
Proof. intros [_ _ _ _ (js & _ & _ & _ & H & _) _]. apply H. cbn. set_solver. Qed.

Lemma hand_act g e s w h hs k' o' :
  hands_inv_at stopped live s (h :: hs) -> in_hand (hd_loc h) (hd_id h) (hd_blocks h) (hd_state h) (seen e s) ->
  own_step g (hd_loc h) (hd_id h) (hd_blocks h) (hd_state h) k' o' (seen e s) w ->
  let h' := Hand (hd_loc h) (hd_id h) (hd_blocks h + k') (last_state (hd_state h) o') in
  hands_inv_at stopped live (write_back w s) (h' :: hs) /\ jobs_evolve (sv_heap s) (wk_jobs w) /\
  w_files (wk_world w) = w_files (sv_world s) /\
  (forall l, l <> hd_loc h -> others l (seen no_input s) (seen no_input (write_back w s))).
Proof.
  destruct h as [l id k o]. cbn [hd_loc hd_id hd_blocks hd_state].
  intros [Hi Hcrc Hrun Hnd (js & Hq & Hjs & Hlive & Hheld & Hall) Hl] (_ & _ & j & Hj & Hid) [Hs _ Hmay].
  cbn [seen wk_jobs] in Hj. cbn in Hheld.
  pose proof (wstep_crc _ _ _ _ _ _ _ Hs) as Hc. destruct (ws_job _ _ _ _ _ _ _ Hs j Hj) as (j' & Hj' & Hsame & Hst).
  destruct Hs as [(fs & Hw & Hfs) Hsteps Hother _ Hqk Hnk _ _ _].
  cbn [seen set_pipe wk_world wk_jobs wk_queue wk_nodes] in *.
  assert (Hlive' : forall l', is_Some (sv_heap s !! l') -> is_Some (wk_jobs w !! l')).
  { intros l' Hl'. exact (steps_live _ _ l' (Hsteps (sv_jobs s)) (si_jobs _ Hi) Hl'). }
  assert (Hinj : l ∉ js) by (intros [Hn _]%Hlive; apply Hn; cbn; set_solver).
  split_and!.
  - constructor; cbn.
    + eapply write_back_inv; [done|done|rewrite Hqk, Hnk; exact Hq|]. intros l' Hl'. by apply Hlive.
    + by apply Hc.
    + by rewrite Hqk.
    + done.
    + exists js. rewrite Hqk, Hnk. split_and!; [done|done| | |].
      * intros l' [? ?]%Hlive. auto.
      * intros l' Hl'. by apply Hlive', Hheld.
      * intros l' j0 Hj0. destruct (decide (l' = l)) as [->|Hne].
        -- rewrite bool_decide_false by done. left. set_solver.
        -- rewrite Hother in Hj0 by done. by apply Hall.
    + cbn in Hl. rewrite (step_live _ _ _ _ _ Hw). unfold blocks in *. cbn in *. lia.
  - intros l' j0 Hj0. destruct (decide (l' = l)) as [->|Hne]; [|rewrite Hother by done; by exists j0].
    assert (j0 = j) as -> by congruence. exists j'. split; [done|]. split; [done|]. intros Hfin. rewrite Hst.
    destruct o' as [st|]; [|done]. injection Hid as _ Hst0. specialize (Hmay st eq_refl). rewrite Hst0 in Hfin.
    by destruct o as [[]|].
  - rewrite (step_files _ _ _ _ _ Hw). lia.
  - intros l' Hne. split; [|done]. cbn. intros j0 Hj0. rewrite Hother by done. by exists j0.
Qed.

(** A final job is given up. *)
Lemma hand_drop s h hs j :
  hands_inv_at stopped live s (h :: hs) -> sv_heap s !! hd_loc h = Some j -> state_is_final (job_st j) = true ->
  0 <= hd_blocks h -> hands_inv_at stopped live s hs.
Proof.
  intros [Hi Hcrc Hrun [Hn Hnd]%NoDup_cons (js & Hq & Hjs & Hlive & Hheld & Hall) Hl] Hj Hf Hb.
  constructor; try done; [|unfold blocks in *; cbn in Hl; lia]. cbn in Hlive, Hheld, Hall. exists js. split_and!; [done|done| | |].
  - intros l' [? ?]%Hlive. split; [set_solver|done].
  - intros l' Hl'. apply Hheld. set_solver.
  - intros l' j' Hj'. specialize (Hall l' j' Hj'). case_bool_decide; [done|].
    destruct Hall as [[->%elem_of_singleton|Hin]%elem_of_union|?]; [right; congruence|by left|by right].
Qed.

(** The first job of the queue is taken. *)
Lemma hand_take e s hs l js q nodes :
  hands_inv live s hs -> queue_holds (sv_queue s) (sv_nodes s) (l :: js) ->
  queue_holds q nodes js -> q_stopped q = false ->
  let s' := write_back (Wk (sv_world s) (sv_heap s) (ai_clock e) [] q nodes (Conn [] [] [] (ai_wsched e)) (ai_running e)) s in
  exists j, sv_heap s !! l = Some j /\ job_st j = JOB_STATE_QUEUED /\
    hands_inv live s' (Hand l (job_id j) 0 None :: hs).
Proof.
  intros [Hi Hcrc Hrun Hnd (js0 & Hq0 & Hjs & Hlive & Hheld & Hall) Hl] Hq Hq' Hst'.
  rewrite <-(queue_holds_fun _ _ _ _ Hq Hq0) in *. clear js0 Hq0. apply NoDup_cons in Hjs as [Hlj Hjs].
  destruct (Hlive l ltac:(by left)) as [Hnl [j Hj]]. exists j. split; [done|].
  pose proof (Hall l j Hj) as Hst. rewrite bool_decide_true in Hst by by left. split; [done|].
  constructor; cbn; try done.
  - eapply write_back_inv; [done|apply rtc_refl|exact Hq'|]. intros l' Hl'. apply Hlive. by right.
  - constructor; [|done]. intros Hin. apply Hnl. by apply elem_of_list_to_set.
  - exists js. split_and!; [done|done| | |].
    + intros l' Hl'. destruct (Hlive l') as [? ?]; [by right|]. split; [|done].
      rewrite not_elem_of_union, not_elem_of_singleton. split; [by intros ->|done].
    + intros l' [->%elem_of_singleton|?]%elem_of_union; [by exists j|by apply Hheld].
    + intros l' j' Hj'. specialize (Hall l' j' Hj'). destruct (decide (l' = l)) as [->|Hne].
      * rewrite bool_decide_false by done. left. set_solver.
      * rewrite (bool_decide_ext _ (l' ∈ js)) in Hall by (rewrite elem_of_cons; tauto).
        case_bool_decide; [done|]. destruct Hall; [left; set_solver|by right].
Qed.

(** An iteration of the event loop. *)
Lemma hands_poll fixed inp s o s' hs :
  hands_inv live s hs -> input_ok inp -> poll_iteration fixed inp s = Some (o, s') ->
  hands_inv live s' hs /\ jobs_evolve (sv_heap s) (sv_heap s') /\ progress s s' /\
  (forall l, others l (seen no_input s) (seen no_input s')).
Proof.
  intros [Hi Hcrc Hrun Hnd Ht Hl] Hin Hpoll.
  destruct (loop_evolves _ _ _ _ _ Hi Hin Hpoll) as [[Hi' Hp] [Hev _ _]]. split_and!; try done.
  - constructor; try done; [by apply (pg_crc _ _ Hp)|by rewrite (pg_stopped _ _ Hp)| |by destruct (pg_files _ _ Hp) as [_ ->]].
    eapply submits_tracked_but; [apply Hp|done].
  - intros l. split; [|apply (pg_crc _ _ Hp)]. cbn. intros j Hj. destruct (Hev l j Hj) as (j' & Hj' & Hs & _).
    exists j'. split; [done|]. split; [done|].
    pose proof (submits_kept _ _ (pg_submits _ _ Hp) l (ex_intro _ j Hj)) as Hst. rewrite Hj, Hj' in Hst. by injection Hst.
Qed.
End steps.

(** *** Threads *)

Section program.
Context {L : LibPng} {LL : LibPngLaws L}.

(** Where a worker is. *)
Inductive phase :=
  | AtNext | AtIteration | AtTake | AtWait | AtStop   (* without a job *)
  | Busy (h : hand).

Definition hand_of (p : phase) : option hand := match p with Busy h => Some h | _ => None end.

Definition idle_code (g : storage_globals) (i : Z) (p : phase) : W (option worker_outcome) :=
  match p with
  | AtNext | Busy _ => Ret (Some WorkerNext)
  | AtIteration => worker_iteration g i
  | AtTake => worker_take g i
  | AtWait => Ret (Some WorkerWaits)
  | AtStop => Ret (Some WorkerStopped)
  end.

(** When the iteration of the worker ends the job is final, and only a failure
    may have lost memory. *)
Definition job_over (l : loc) (id : Z) (r : option worker_outcome) (k : Z) (o : option job_state) (w : wk) : Prop :=
  r = Some WorkerNext /\ in_hand l id k o w /\
  exists st, o = Some st /\ state_is_final st = true /\ (st <> JOB_STATE_FAILED -> k = 0).

Definition thread_ok (s : server) (t : thread) (p : phase) : Prop :=
  match p with
  | Busy (Hand l id k o) =>
      in_hand l id k o (seen no_input s) /\
      rg (sv_storage s) l id (others l) (th_code t) (job_over l id) k o (seen no_input s)
  | p => th_code t = idle_code (sv_storage s) (th_index t) p
  end.

Record program_inv_at (stopped : bool) (live : Z) (c : program) (ps : list phase) : Prop := ProgramInv {
  pi_threads : Forall2 (thread_ok (pr_server c)) (pr_threads c) ps;
  pi_hands : hands_inv_at stopped live (pr_server c) (omap hand_of ps)
}.
#[global] Arguments pi_threads {stopped} live c ps _.
#[global] Arguments pi_hands {stopped} live c ps _.

Abbreviation program_inv := (program_inv_at false).

Lemma thread_others s s' t p :
  sv_storage s' = sv_storage s ->
  (forall x, hand_of p = Some x -> others (hd_loc x) (seen no_input s) (seen no_input s')) ->
  thread_ok s t p -> thread_ok s' t p.
Proof.
  intros Hg Ho. unfold thread_ok. rewrite Hg. destruct p as [| | | | |[l id k o]]; [done..|].
  specialize (Ho _ eq_refl). cbn in Ho. intros [Hh Hr]. split; [by eapply in_hand_others|].
  eapply rg_rely; [apply _| |exact Ho|exact Hr].
  intros r k' o' w w' (-> & Hw & H) Hww. split_and!; [done|by eapply in_hand_others|done].
Qed.

(** A worker that takes a job begins to process it. *)
Lemma worker_starts s l j k :
  crc_inv (w_crc (sv_world s)) -> sv_heap s !! l = Some j -> job_st j = JOB_STATE_QUEUED ->
  rg (sv_storage s) l (job_id j) (others l)
    (_ ← worker_job (sv_storage s) k (Some l); mret (Some WorkerNext)) (job_over l (job_id j)) 0 None
    (seen no_input s).
Proof.
  intros Hcrc Hj Hst. apply rg_bind. eapply rg_conseq.
  { apply (worker_job_rg _ _ _ _ _ (in_hand l (job_id j))). split; [done|]. split; [done|].
    exists j. split; [done|]. unfold ident. by rewrite Hst. }
  intros _ k' o' w [(w1 & st & (Hk & Hc & j' & Hj' & Hid) & -> & -> & _) Hf Hk0 _ _]. apply rg_ret.
  split; [done|]. split; [by split_and!; [..|exists j']|]. exists st. split_and!; [done|by apply Hf|].
  intros Hne. apply Hk0. congruence.
Qed.

(** The hands but for those of one thread. *)
Lemma hands_at (ps : list phase) n p :
  ps !! n = Some p ->
  exists rest, omap hand_of ps ≡ₚ option_list (hand_of p) ++ rest /\
    (forall p', omap hand_of (<[n := p']> ps) ≡ₚ option_list (hand_of p') ++ rest) /\
    (forall m y x, m <> n -> ps !! m = Some y -> hand_of y = Some x -> x ∈ rest).
Proof.
  intros Hn. pose proof (lookup_lt_Some _ _ _ Hn) as Hlt.
  assert (Hp : forall p', omap hand_of (<[n := p']> ps) ≡ₚ
    option_list (hand_of p') ++ omap hand_of (take n ps ++ drop (S n) ps)).
  { intros p'. rewrite insert_take_drop by done. rewrite !omap_app. cbn [omap list_omap].
    destruct (hand_of p') as [x|]; cbn [option_list app]; [|done]. by rewrite <-Permutation_middle. }
  exists (omap hand_of (take n ps ++ drop (S n) ps)). split_and!; [|exact Hp|].
  - specialize (Hp p). by rewrite list_insert_id in Hp.
  - intros m y x Hm Hy Hx. apply list_elem_of_omap. exists y. split; [|done]. apply elem_of_app.
    destruct (decide (m < n)%nat).
    + left. apply list_elem_of_lookup. exists m. by rewrite lookup_take_lt.
    + right. apply list_elem_of_lookup. exists (m - S n)%nat. rewrite lookup_drop. by replace (S n + (m - S n))%nat with m by lia.
Qed.

(** What a step of a worker keeps. *)
Record act_kept (s s' : server) : Prop := ActKept {
  ak_jobs : jobs_evolve (sv_heap s) (sv_heap s');
  ak_storage : sv_storage s' = sv_storage s;
  ak_files : w_files (sv_world s') = w_files (sv_world s);
  ak_denied : w_denied (sv_world s') = w_denied (sv_world s)
}.

(** The other threads keep what they know. *)
Lemma program_update {stopped} live s ts ps n t t' s' p p' rest :
  Forall2 (thread_ok s) ts ps -> ts !! n = Some t -> ps !! n = Some p ->
  omap hand_of (<[n := p']> ps) ≡ₚ option_list (hand_of p') ++ rest ->
  (forall m y x, m <> n -> ps !! m = Some y -> hand_of y = Some x -> x ∈ rest) ->
  act_kept s s' -> thread_ok s' t' p' -> hands_inv_at stopped live s' (option_list (hand_of p') ++ rest) ->
  (forall x, x ∈ rest -> others (hd_loc x) (seen no_input s) (seen no_input s')) ->
  program_inv_at stopped live (Program s' (<[n := t']> ts)) (<[n := p']> ps).
Proof.
  intros Hts Ht Hn Hp Hrest Hk Ht' Hhi Ho. constructor; cbn [pr_server pr_threads]; [|by rewrite Hp].
  apply Forall2_same_length_lookup in Hts as [Hlen Hts]. pose proof (lookup_lt_Some _ _ _ Ht) as Hlt.
  apply Forall2_same_length_lookup. split; [by rewrite !length_insert|].
  intros m x y Hx Hy. destruct (decide (m = n)) as [->|Hm].
  - rewrite list_lookup_insert_eq in Hx by done. rewrite list_lookup_insert_eq in Hy by congruence. by simplify_eq.
  - rewrite list_lookup_insert_ne in Hx by done. rewrite list_lookup_insert_ne in Hy by done.
    eapply thread_others; [by apply Hk| |by eapply Hts]. intros z Hz. apply Ho. by eapply Hrest.
Qed.

(** *** Steps of a worker *)

(** The ways a worker moves a job on. *)
Definition moves (st st' : job_state) : Prop :=
  match st with
  | JOB_STATE_QUEUED => st' = JOB_STATE_RUNNING \/ st' = JOB_STATE_CANCELED
  | JOB_STATE_RUNNING => state_is_final st' = true
  | _ => False
  end.

Definition same_idents (h h' : job_heap) : Prop := forall l, ident <$> h' !! l = ident <$> h !! l.

(** What an action means for the jobs: nothing, or a job is taken, or a job
    that was taken moves on. *)
Inductive act_effect (s s' : server) : Prop :=
  | effect_none :
      same_idents (sv_heap s) (sv_heap s') ->
      (forall js, queue_holds (sv_queue s) (sv_nodes s) js -> queue_holds (sv_queue s') (sv_nodes s') js) ->
      act_effect s s'
  | effect_take l js :
      same_idents (sv_heap s) (sv_heap s') -> queue_holds (sv_queue s) (sv_nodes s) (l :: js) ->
      queue_holds (sv_queue s') (sv_nodes s') js -> act_effect s s'
  | effect_move l id st st' js :
      ident <$> sv_heap s !! l = Some (id, st) -> ident <$> sv_heap s' !! l = Some (id, st') -> moves st st' ->
      (forall l', l' <> l -> ident <$> sv_heap s' !! l' = ident <$> sv_heap s !! l') ->
      queue_holds (sv_queue s) (sv_nodes s) js -> queue_holds (sv_queue s') (sv_nodes s') js -> l ∉ js ->
      act_effect s s'.

Lemma write_back_same s clock running pipe :
  cn_out pipe = [] ->
  write_back (Wk (sv_world s) (sv_heap s) clock [] (sv_queue s) (sv_nodes s) pipe running) s = s.
Proof.
  intros Hp. destruct s as [???????????? []]. unfold write_back, pipe_gets. cbn. rewrite Hp, app_nil_r.
  by destruct nt_pipe.
Qed.

Lemma act_kept_refl s : act_kept s s.
Proof. by constructor. Qed.

Lemma act_effect_refl s : act_effect s s.
Proof. by apply effect_none. Qed.

(** An action on the job in hand. *)
Lemma hand_effect {stopped} live g e s w h hs k' o' :
  hands_inv_at stopped live s (h :: hs) -> in_hand (hd_loc h) (hd_id h) (hd_blocks h) (hd_state h) (seen e s) ->
  own_step g (hd_loc h) (hd_id h) (hd_blocks h) (hd_state h) k' o' (seen e s) w ->
  act_effect s (write_back w s).
Proof.
  destruct h as [l id k o]. cbn [hd_loc hd_id hd_blocks hd_state].
  intros [_ _ _ _ (js & Hq & _ & Hlive & _) _] (_ & _ & j & Hj & Hid) [Hs _ Hmay].
  cbn [seen wk_jobs] in Hj. destruct (ws_job _ _ _ _ _ _ _ Hs j Hj) as (j' & Hj' & Hsame & Hst).
  destruct Hs as [_ _ Hother _ Hqk Hnk _ _ _]. cbn [seen set_pipe wk_world wk_jobs wk_queue wk_nodes] in *.
  assert (Hq' : queue_holds (wk_queue w) (wk_nodes w) js) by (by rewrite Hqk, Hnk).
  assert (Hid' : ident <$> wk_jobs w !! l = Some (id, default (job_st j) o')).
  { rewrite Hj'. injection Hid as Hid _. destruct Hsame as [Hsame _]. unfold ident. cbn. by rewrite Hsame, Hid, Hst. }
  destruct o' as [st|].
  - apply (effect_move _ _ l id (default JOB_STATE_QUEUED o) st js); cbn; try done.
    + by rewrite Hj, <-Hid.
    + specialize (Hmay st eq_refl). by destruct o as [[]|].
    + intros l' Hne. by rewrite Hother.
    + intros [Hn _]%Hlive. apply Hn. cbn. set_solver.
  - apply effect_none; cbn.
    + intros l'. destruct (decide (l' = l)) as [->|Hne]; [|by rewrite Hother].
      rewrite Hid', Hj. cbn. injection Hid as <- _. done.
    + intros js' Hjs'. by rewrite (queue_holds_fun _ _ _ _ Hjs' Hq).
Qed.

(** How far a worker without a job is from waiting, or from a job if some wait. *)
Definition rank (jobs_wait : bool) (p : phase) : nat :=
  match p with
  | AtNext => 4
  | AtIteration => 3
  | AtTake => if jobs_wait then 1 else 2
  | AtWait => if jobs_wait then 2 else 1
  | _ => 0
  end.

(** What is left after the first action. *)
Definition is_rest {A} (m' m : W A) : Prop :=
  match m with Ret _ => False | Act _ c => exists b, m' = c b end.

(** A worker gets ahead with its job, ends it, or comes closer to waiting. *)
Inductive descends (jobs_wait : bool) : thread * phase -> thread * phase -> Prop :=
  | descends_act t t' h h' :
      is_rest (th_code t') (th_code t) -> descends jobs_wait (t', Busy h') (t, Busy h)
  | descends_over t t' p h : hand_of p = None -> descends jobs_wait (t', p) (t, Busy h)
  | descends_idle t t' p p' :
      hand_of p = None -> hand_of p' = None -> (rank jobs_wait p' < rank jobs_wait p)%nat ->
      descends jobs_wait (t', p') (t, p).

Definition jobs_wait (s : server) : bool := bool_decide (q_head (sv_queue s) <> None).

(** The worker retries although no job waits. *)
Definition spins (s : server) (t : thread) : Prop :=
  th_code t = Ret (Some WorkerWaits) /\ jobs_wait s = false.

Lemma jobs_wait_holds s js :
  queue_holds (sv_queue s) (sv_nodes s) js -> jobs_wait s = bool_decide (js <> []).
Proof.
  intros (l & [Hc _ _ _] & <-). unfold jobs_wait. destruct l as [|[n j] l]; cbn in Hc.
  - rewrite Hc. by rewrite !bool_decide_false by (by intros []).
  - destruct Hc as [-> _]. by rewrite !bool_decide_true by done.
Qed.

(** What the action is: the worker goes on without a job, takes the first one,
    ends its iteration, or acts on the job in hand. *)
Inductive action (s s' : server) (t t' : thread) : phase -> phase -> Prop :=
  | action_idle p p' :
      hand_of p = None -> hand_of p' = None -> s' = s -> action s s' t t' p p'
  | action_take p l j js :
      hand_of p = None -> queue_holds (sv_queue s) (sv_nodes s) (l :: js) ->
      queue_holds (sv_queue s') (sv_nodes s') js -> sv_heap s !! l = Some j ->
      sv_heap s' = sv_heap s -> sv_world s' = sv_world s ->
      th_code t' = (_ ← worker_job (sv_storage s) (th_index t) (Some l); mret (Some WorkerNext)) ->
      action s s' t t' p (Busy (Hand l (job_id j) 0 None))
  | action_over h p' r : th_code t = Ret r -> hand_of p' = None -> s' = s -> action s s' t t' (Busy h) p'
  | action_job h h' e B (op : wk -> B * wk) c b w k o :
      th_code t = Act op c -> op (seen e s) = (b, w) -> th_code t' = c b -> s' = write_back w s ->
      hd_loc h' = hd_loc h -> hd_id h' = hd_id h ->
      in_hand (hd_loc h) (hd_id h) (hd_blocks h) (hd_state h) (seen e s) ->
      own_step (sv_storage s) (hd_loc h) (hd_id h) (hd_blocks h) (hd_state h) k o (seen e s) w ->
      action s s' t t' (Busy h) (Busy h').

(** What one action of a worker does. *)
Record acted (stopped : bool) (live : Z) (s s' : server) (t t' : thread) (p p' : phase) (rest : list hand) : Prop := Acted {
  ac_thread : thread_ok s' t' p';
  ac_hands : hands_inv_at stopped live s' (option_list (hand_of p') ++ rest);
  ac_kept : act_kept s s';
  ac_effect : act_effect s s';
  ac_action : action s s' t t' p p';
  ac_others : forall x, x ∈ rest -> others (hd_loc x) (seen no_input s) (seen no_input s');
  ac_descends : (stopped = false /\ exists l js, queue_holds (sv_queue s) (sv_nodes s) (l :: js) /\
                   queue_holds (sv_queue s') (sv_nodes s') js) \/
    (sv_queue s' = sv_queue s /\ sv_nodes s' = sv_nodes s /\
       (descends (stopped || jobs_wait s) (t', p') (t, p) \/ stopped = false /\ spins s t))
}.
#[global] Arguments ac_kept {stopped} live s s' t t' p p' rest _.
#[global] Arguments ac_effect {stopped} live s s' t t' p p' rest _.
#[global] Arguments ac_descends {stopped} live s s' t t' p p' rest _.

(** A worker that has a job. *)
Lemma busy_step {stopped} live e s t t' s' h rest :
  hands_inv_at stopped live s (h :: rest) -> thread_ok s t (Busy h) -> thread_acts e s t = Some (t', s') ->
  exists p', acted stopped live s s' t t' (Busy h) p' rest.
Proof.
  destruct t as [i code], h as [l id k o]. unfold thread_acts. cbn [th_code th_index]. intros Hhi [Hh Hrg] Hact.
  destruct code as [r|B op c].
  - cbn in Hrg. destruct Hrg as (-> & _ & st & -> & Hf & _). injection Hact as <- <-.
    destruct Hh as (Hk & _ & j & Hj & Hid). exists AtIteration. constructor; try done.
    + eapply hand_drop; [exact Hhi|exact Hj| |done]. injection Hid as _ ->. done.
    + apply act_effect_refl.
    + by eapply action_over.
    + right. split_and!; [done..|]. left. by apply descends_over.
  - assert (Hse : others l (seen no_input s) (seen e s)) by (split; [|done]; intros j Hj; by exists j).
    destruct (Hrg (seen e s) Hse) as (k' & o' & Hos). destruct (op (seen e s)) as [b w] eqn:Hop. destruct Hos as [Hos Hc].
    injection Hact as <- <-.
    assert (Hhe : in_hand l id k o (seen e s)) by by eapply in_hand_others.
    destruct (hand_act live _ e s w _ rest k' o' Hhi Hhe Hos) as (Hhi' & Hev & Hfiles & Ho).
    pose proof (hand_effect live _ e s w _ rest k' o' Hhi Hhe Hos) as Heff. cbn in Hhi', Ho.
    assert (Hw : others l w (seen no_input (write_back w s))) by (split; [|done]; intros j Hj; by exists j).
    pose proof Hos as [Hs Hk _]. pose proof (rl_step _ _ _ _ _ _ Hhe Hk Hs : in_hand _ _ _ _ w) as Hh'.
    assert (Hden : w_denied (wk_world w) = w_denied (sv_world s))
      by (destruct (ws_world _ _ _ _ _ _ _ Hs) as (fs & Hst & _); apply Hst).
    exists (Busy (Hand l id (k + k') (last_state o o'))). constructor; try done.
    + split; [by eapply in_hand_others|]. eapply rg_rely; [apply _| |exact Hw|exact Hc].
      intros r k1 o1 w1 w2 (-> & H1 & H2) H12. split_and!; [done|by eapply in_hand_others|done].
    + by eapply (action_job _ _ _ _ (Hand l id k o) _ e B op c b w k' o').
    + intros x Hx. apply Ho. intros Heq. pose proof (hi_distinct _ _ _ Hhi) as [Hn _]%NoDup_cons.
      apply Hn. change (l ∈ hd_loc <$> rest). rewrite <-Heq. by apply list_elem_of_fmap_2.
    + right. split; [by apply (ws_queue _ _ _ _ _ _ _ Hs)|]. split; [by apply (ws_nodes _ _ _ _ _ _ _ Hs)|].
      left. apply descends_act. by exists b.
Qed.

(** The actions between two jobs. *)
Lemma acts_iteration e s i :
  thread_acts e s (Thread i (worker_iteration (sv_storage s) i)) =
  Some (Thread i (if hd true (ai_running e) then worker_take (sv_storage s) i else Ret (Some WorkerStopped)), s).
Proof.
  transitivity (Some (Thread i (if negb (hd true (ai_running e)) then mret (Some WorkerStopped)
    else worker_take (sv_storage s) i), write_back (Wk (sv_world s) (sv_heap s) (ai_clock e) [] (sv_queue s) (sv_nodes s)
      (Conn [] [] [] (ai_wsched e)) (tl (ai_running e))) s)); [reflexivity|].
  rewrite write_back_same by done. by destruct (hd _ _).
Qed.

Lemma acts_wait e s i :
  queue_holds (sv_queue s) (sv_nodes s) [] -> q_stopped (sv_queue s) = false ->
  thread_acts e s (Thread i (worker_take (sv_storage s) i)) = Some (Thread i (Ret (Some WorkerWaits)), s).
Proof.
  intros Hq Hst. unfold thread_acts, worker_take, pop, act. cbn [th_code th_index mbind W_bind].
  cbn [seen wk_queue wk_nodes]. rewrite (holds_empty _ _ Hq Hst). unfold seen. by rewrite write_back_same.
Qed.

Lemma acts_take e s i l js :
  queue_holds (sv_queue s) (sv_nodes s) (l :: js) -> q_stopped (sv_queue s) = false ->
  exists q nodes, queue_holds q nodes js /\ q_stopped q = false /\
    thread_acts e s (Thread i (worker_take (sv_storage s) i)) =
    Some (Thread i (_ ← worker_job (sv_storage s) i (Some l); mret (Some WorkerNext)),
          write_back (Wk (sv_world s) (sv_heap s) (ai_clock e) [] q nodes (Conn [] [] [] (ai_wsched e))
                        (ai_running e)) s).
Proof.
  intros Hq Hst. destruct (holds_pop _ _ _ _ Hq Hst) as (q & nodes & Hp & Hq' & Hst'). exists q, nodes.
  split_and!; [done..|]. unfold thread_acts, worker_take, pop, act. cbn [th_code th_index mbind W_bind].
  cbn [seen wk_queue wk_nodes]. by rewrite Hp.
Qed.

Lemma acts_stopped e s i :
  q_stopped (sv_queue s) = true ->
  thread_acts e s (Thread i (worker_take (sv_storage s) i)) = Some (Thread i (Ret (Some WorkerStopped)), s).
Proof.
  intros Hst. unfold thread_acts, worker_take, pop, act. cbn [th_code th_index mbind W_bind].
  cbn [seen wk_queue wk_nodes].
  assert (Hpop : job_queue_pop (sv_queue s) (sv_nodes s) = Some (PopReturns None (sv_queue s) (sv_nodes s)))
    by (unfold job_queue_pop; by rewrite Hst, andb_false_r).
  rewrite Hpop. unfold seen. cbn [wk_world wk_jobs wk_clock wk_env wk_pipe wk_running]. by rewrite write_back_same.
Qed.

(** An action after which the worker still has no job. *)
Lemma idle_stays {stopped} live s t t' p p' rest :
  hands_inv_at stopped live s rest -> hand_of p = None -> hand_of p' = None ->
  th_code t' = idle_code (sv_storage s) (th_index t') p' ->
  ((rank (stopped || jobs_wait s) p' < rank (stopped || jobs_wait s) p)%nat \/ stopped = false /\ spins s t) ->
  exists p', acted stopped live s s t t' p p' rest.
Proof.
  intros Hhi Hp Hp' Hc Hrank. exists p'. constructor; try done.
  - by destruct p'.
  - by rewrite Hp'.
  - apply act_effect_refl.
  - by apply action_idle.
  - right. split_and!; [done..|]. destruct Hrank; [left; by apply descends_idle|by right].
Qed.

(** A worker without a job: the queue was stopped. *)
Lemma idle_stop live e s t t' s' p rest :
  hands_inv_at true live s rest -> hand_of p = None -> thread_ok s t p -> thread_acts e s t = Some (t', s') ->
  exists p', acted true live s s' t t' p p' rest.
Proof.
  destruct t as [i code]. intros Hhi Hp Hok Hact.
  destruct p; unfold thread_ok, idle_code in Hok; cbn [th_code th_index] in Hok; try done; subst code.
  - injection Hact as <- <-. apply (idle_stays live s _ _ _ AtIteration); try done. left. cbn. lia.
  - rewrite acts_iteration in Hact. injection Hact as <- <-. destruct (hd true (ai_running e)).
    + apply (idle_stays live s _ _ _ AtTake); try done. left. cbn. lia.
    + apply (idle_stays live s _ _ _ AtStop); try done. left. cbn. lia.
  - rewrite (acts_stopped e s i (hi_running _ _ _ Hhi)) in Hact. injection Hact as <- <-.
    apply (idle_stays live s _ _ _ AtStop); try done. left. cbn. lia.
  - injection Hact as <- <-. apply (idle_stays live s _ _ _ AtTake); try done. left. cbn. lia.
  - done.
Qed.

(** The same while it is not. *)
Lemma idle_step live e s t t' s' p rest :
  hands_inv live s rest -> hand_of p = None -> thread_ok s t p -> thread_acts e s t = Some (t', s') ->
  exists p', acted false live s s' t t' p p' rest.
Proof.
  destruct t as [i code]. intros Hhi Hp Hok Hact.
  assert (Hstay : forall t1 p1, hand_of p1 = None -> th_code t1 = idle_code (sv_storage s) (th_index t1) p1 ->
    ((rank (jobs_wait s) p1 < rank (jobs_wait s) p)%nat \/ spins s (Thread i code)) ->
    exists p', acted false live s s (Thread i code) t1 p p' rest).
  { intros t1 p1 Hp1 Hc Hrank. apply (idle_stays live s _ _ _ p1); try done. destruct Hrank; [by left|by right]. }
  destruct (si_queue _ (hi_srv _ _ _ Hhi)) as (js & Hq & _).
  pose proof (jobs_wait_holds s js Hq) as Hw.
  destruct p; unfold thread_ok, idle_code in Hok; cbn [th_code th_index] in Hok; try done; subst code.
  - injection Hact as <- <-. apply (Hstay _ AtIteration); [done..|]. left. cbn. lia.
  - rewrite acts_iteration in Hact. injection Hact as <- <-. destruct (hd true (ai_running e)).
    + apply (Hstay _ AtTake); [done..|]. left. cbn. destruct (jobs_wait s); lia.
    + apply (Hstay _ AtStop); [done..|]. left. cbn. lia.
  - destruct js as [|l js].
    + rewrite (acts_wait e s i Hq (hi_running _ _ _ Hhi)) in Hact. injection Hact as <- <-.
      apply (Hstay _ AtWait); [done..|]. left. rewrite Hw. cbn. lia.
    + destruct (acts_take e s i l js Hq (hi_running _ _ _ Hhi)) as (q & nodes & Hq' & Hst & Ha). rewrite Ha in Hact.
      injection Hact as <- <-. destruct (hand_take live e s rest l js q nodes Hhi Hq Hq' Hst) as (j & Hj & Hjst & Hhi').
      exists (Busy (Hand l (job_id j) 0 None)). constructor; try done.
      * split; [|exact (worker_starts _ l j i (hi_crc _ _ _ Hhi') Hj Hjst)].
        split; [done|]. split; [apply Hhi|]. exists j. split; [done|]. unfold ident. by rewrite Hjst.
      * by apply (effect_take _ _ l js).
      * by apply (action_take _ _ _ _ _ l j js).
      * intros x _. split; [|done]. intros j0 Hj0. by exists j0.
      * left. split; [done|]. by exists l, js.
  - injection Hact as <- <-. apply (Hstay _ AtTake); [done..|]. unfold spins. cbn.
    destruct (jobs_wait s); [left; lia|by right].
  - done.
Qed.

Lemma worker_acts_inv {stopped} live n e c c' ps :
  program_inv_at stopped live c ps -> worker_acts n e c = Some c' ->
  exists t t' p p' rest, pr_threads c !! n = Some t /\ ps !! n = Some p /\
    c' = Program (pr_server c') (<[n := t']> (pr_threads c)) /\
    program_inv_at stopped live c' (<[n := p']> ps) /\ acted stopped live (pr_server c) (pr_server c') t t' p p' rest.
Proof.
  intros [Hts Hhi] Hact. destruct c as [s ts]. unfold worker_acts in Hact. cbn [pr_server pr_threads] in *.
  destruct (ts !! n) as [t|] eqn:Ht; [|done]. cbn in Hact.
  destruct (thread_acts e s t) as [[t' s']|] eqn:Ha; [|done]. injection Hact as <-. cbn [fst snd pr_server].
  destruct (Forall2_lookup_l _ _ _ _ _ Hts Ht) as (p & Hp & Hok).
  destruct (hands_at ps n p Hp) as (rest & Hperm & Hins & Hrest). rewrite Hperm in Hhi.
  assert (H : exists p', acted stopped live s s' t t' p p' rest).
  { destruct (hand_of p) as [h|] eqn:Eh; 
      [|by destruct stopped; [exact (idle_stop live e s t t' s' p rest Hhi Eh Hok Ha)|exact (idle_step live e s t t' s' p rest Hhi Eh Hok Ha)]].
    destruct p; try done. injection Eh as ->. exact (busy_step live e s t t' s' h rest Hhi Hok Ha). }
  destruct H as (p' & H). exists t, t', p, p', rest. split_and!; try done.
  destruct H. by eapply (program_update live s ts ps n t t' s' p p' rest).
Qed.

(** The workers leave the table alone. *)
Lemma worker_acts_table n e c c' :
  worker_acts n e c = Some c' -> sv_jobs (pr_server c') = sv_jobs (pr_server c).
Proof.
  unfold worker_acts. destruct (pr_threads c !! n) as [t|]; [|done]. cbn.
  destruct (thread_acts e (pr_server c) t) as [[t1 s1]|] eqn:E; [|done]. intros [= <-]. cbn.
  unfold thread_acts in E. destruct (th_code t) as [[[]|]|B op k]; try discriminate E; try by injection E as _ <-.
  destruct (op _) as [b w]. by injection E as _ <-.
Qed.

Lemma poll_inv live fixed inp c o s' ps :
  program_inv live c ps -> input_ok inp -> poll_iteration fixed inp (pr_server c) = Some (o, s') ->
  program_inv live (Program s' (pr_threads c)) ps /\ jobs_evolve (sv_heap (pr_server c)) (sv_heap s') /\
  progress (pr_server c) s'.
Proof.
  intros [Hts Hhi] Hin Hpoll. destruct (hands_poll live _ _ _ _ _ _ Hhi Hin Hpoll) as (Hhi' & Hev & Hp & Ho).
  split; [|done]. constructor; [|done]. eapply Forall2_impl; [exact Hts|]. intros t p.
  apply thread_others; [by apply Hp|]. intros x _. apply Ho.
Qed.
End program.

(** While the queue is not stopped. *)
Abbreviation program_inv := (program_inv_at false).
