(* ===== verification/ThreadsCorrect.v ===== *)
(** * Every interleaving of the threads

    The theorems about the whole program with its worker threads: safety of
    all interleavings of their atomic actions with the event loop, and the
    end of every job. *)

From S2P Require Export Threads.
#[local] Open Scope Z_scope.

Section correct.
Context {L : LibPng} {LL : LibPngLaws L}.

(** ** Reachable states *)

Lemma program_init_inv s n :
  sys_inv s -> program_inv (w_live (sv_world s)) (program_init s n) (replicate n AtNext).
Proof.
  intros [Hi Ht Hc Hr]. assert (Hnil : omap hand_of (replicate n AtNext) = []) by (induction n; done).
  split.
  - cbn. apply Forall2_same_length_lookup. split; [by rewrite length_replicate, length_fmap, length_seq|].
    intros m x y Hx Hy. apply lookup_replicate in Hy as [-> _].
    cbn in Hx. rewrite list_lookup_fmap in Hx. destruct (seq 0 n !! m); [|done]. by injection Hx as <-.
  - rewrite Hnil. constructor; try done; [by apply NoDup_nil_2| |].
    + by apply tracked_view.
    + unfold blocks. cbn. lia.
Qed.

(** A run of the event loop that goes on is a run of the program. *)
Lemma loop_runs fixed inputs s s' ts :
  Forall input_ok inputs -> server_loop fixed inputs s = Some (LoopContinue, s') ->
  rtc (program_step fixed) (Program s ts) (Program s' ts).
Proof.
  intros Hin. revert s. induction Hin as [|inp inputs Hinp _ IH]; intros s Hrun.
  - injection Hrun as ->. apply rtc_refl.
  - cbn [server_loop] in Hrun. unfold mbind, Srv_bind in Hrun.
    destruct (poll_iteration fixed inp s) as [[[|] s1]|] eqn:E; try done.
    eapply rtc_l; [exact (step_server _ (Program s ts) _ _ Hinp E)|]. by apply IH.
Qed.

(** Actions of the workers, in the order of a schedule. *)
Fixpoint schedule (acts : list (nat * act_input)) (c : program) : option program :=
  match acts with
  | [] => Some c
  | (n, e) :: acts => c' ← worker_acts n e c; schedule acts c'
  end.

Lemma schedule_runs fixed acts c c' : schedule acts c = Some c' -> rtc (program_step fixed) c c'.
Proof.
  revert c. induction acts as [|[n e] acts IH]; intros c H; cbn in H; [by injection H as ->|].
  destruct (worker_acts n e c) as [c1|] eqn:E; [|done]. cbn in H.
  eapply rtc_l; [by eapply step_worker|]. by apply IH.
Qed.

(** What no step changes. *)
Record program_kept (c c' : program) : Prop := ProgramKept {
  pk_jobs : jobs_evolve (sv_heap (pr_server c)) (sv_heap (pr_server c'));
  pk_files : w_files (sv_world (pr_server c')) = w_files (sv_world (pr_server c));
  pk_storage : sv_storage (pr_server c') = sv_storage (pr_server c);
  pk_denied : w_denied (sv_world (pr_server c')) = w_denied (sv_world (pr_server c))
}.

#[export] Instance program_kept_preorder : PreOrder program_kept.
Proof.
  split; [by split|]. intros c1 c2 c3 [H1 F1 G1 D1] [H2 F2 G2 D2]. split; [by etrans|congruence..].
Qed.

Lemma program_step_inv live fixed c c' ps :
  program_inv live c ps -> program_step fixed c c' -> (exists ps', program_inv live c' ps') /\ program_kept c c'.
Proof.
  intros Hp [inp s' Hin Hpoll|n e c1 Hact].
  - destruct (poll_inv live _ _ _ _ _ _ Hp Hin Hpoll) as (Hp' & Hev & Hpr). split; [by exists ps|].
    split; [done|apply (pg_files _ _ Hpr)|apply Hpr|].
    destruct (pg_world _ _ Hpr) as [fs Hs]. apply Hs.
  - destruct (worker_acts_inv _ _ _ _ _ _ Hp Hact) as (t & t' & p & p' & rest & _ & _ & _ & Hp' & Ha).
    split; [by eexists|]. destruct (ac_kept _ _ _ _ _ _ _ _ Ha). by split.
Qed.

Lemma program_steps_inv live fixed c c' ps :
  rtc (program_step fixed) c c' -> program_inv live c ps -> (exists ps', program_inv live c' ps') /\ program_kept c c'.
Proof.
  intros H. revert ps. induction H as [c|c1 c2 c3 H1 _ IH]; intros ps Hp; [by split; [exists ps|]|].
  destruct (program_step_inv _ _ _ _ _ Hp H1) as [[ps2 Hp2] Hk]. destruct (IH ps2 Hp2) as [Hp3 Hk3].
  split; [done|by etrans].
Qed.

(** A thread can act unless it was told to stop. *)
Lemma thread_enabled {stopped} live c ps n t e :
  program_inv_at stopped live c ps -> pr_threads c !! n = Some t ->
  is_Some (worker_acts n e c) \/ th_code t = Ret (Some WorkerStopped).
Proof.
  intros [Hts _] Ht. destruct (Forall2_lookup_l _ _ _ _ _ Hts Ht) as (p & _ & Hok).
  unfold worker_acts. rewrite Ht. cbn. destruct t as [i code]. unfold thread_acts. cbn [th_code th_index].
  destruct code as [r|B op k]; [|left; destruct (op _); by eexists].
  destruct p as [| | | | |[l id b o]]; cbn in Hok; simplify_eq; auto; [left; by eexists..|].
  destruct Hok as [_ [-> _]]. left. by eexists.
Qed.

Lemma code_defined {stopped} live c ps t :
  program_inv_at stopped live c ps -> t ∈ pr_threads c -> th_code t <> Ret None.
Proof.
  intros [Hts _] [n Ht]%list_elem_of_lookup.
  destruct (Forall2_lookup_l _ _ _ _ _ Hts Ht) as (p & _ & Hok) . intros Hn. unfold thread_ok in Hok. rewrite Hn in Hok.
  destruct p as [| | | | |[l id b o]]; [done..|]. by destruct Hok as [_ [? _]].
Qed.

(** C5: whatever the number of workers and the order in which their accesses to
    jobs, files, queue and pipe interleave with each other and with the event
    loop, the invariant of the server holds, the next iteration of the loop is
    defined, no worker reaches undefined behaviour and none is stuck unless it
    was told to stop; no job disappears, changes its identity or, once
    finished, its state; every handle is closed, and the number of live blocks
    never falls below that of the start. *)
Theorem threads_safe fixed w g max allocs clock n workers c c' :
  inotify_reads_ok (nt_inotify n) -> crc_inv (w_crc w) ->
  rtc (program_step fixed) (program_init (server_init w g max allocs clock n) workers) c ->
  rtc (program_step fixed) c c' ->
  srv_inv (pr_server c') /\
  (forall inp, input_ok inp -> is_Some (poll_iteration fixed inp (pr_server c'))) /\
  (forall k t e, pr_threads c' !! k = Some t -> th_code t <> Ret None /\
     (is_Some (worker_acts k e c') \/ th_code t = Ret (Some WorkerStopped))) /\
  (forall l j, sv_heap (pr_server c) !! l = Some j -> exists j', sv_heap (pr_server c') !! l = Some j' /\
     same_job j j' /\ (state_is_final (job_st j) = true -> job_st j' = job_st j)) /\
  w_files (sv_world (pr_server c')) = w_files w /\ w_live w <= w_live (sv_world (pr_server c')).
Proof.
  intros Hn Hc H1 H2. pose proof (program_init_inv _ workers (server_init_sys w g max allocs clock n Hn Hc)) as H0.
  destruct (program_steps_inv _ _ _ _ _ H1 H0) as [[ps Hp] K1].
  destruct (program_steps_inv _ _ _ _ _ H2 Hp) as [[ps' Hp'] K2]. pose proof (pi_hands _ _ _ Hp') as Hh. split_and!.
  - apply Hh.
  - intros inp Hin. pose proof (poll_iteration_good fixed inp _ (hi_srv _ _ _ Hh) Hin) as H. unfold wpS in H.
    destruct (poll_iteration _ _ _); [by eexists|done].
  - intros k t e Ht. split; [|by eapply thread_enabled]. eapply code_defined; [done|]. by eapply list_elem_of_lookup_2.
  - apply K2.
  - by rewrite (pk_files _ _ K2), (pk_files _ _ K1).
  - pose proof (hi_live _ _ _ Hh) as Hl. cbn in Hl.
    assert (Hb : 0 <= blocks (omap hand_of ps')).
    { clear -Hp'. destruct Hp' as [Hts _]. induction Hts as [|t p ts ps Hok _ IH]; [done|].
      destruct p as [| | | | |[l id b o]]; cbn; try done. destruct Hok as [[Hb _] _]. unfold blocks in *. cbn. lia. }
    lia.
Qed.

(** ** Termination *)

(** An action of a worker other than to look again for a job when there is none. *)
Definition works (c c' : program) : Prop :=
  exists n e t, pr_threads c !! n = Some t /\ ~ spins (pr_server c) t /\ worker_acts n e c = Some c'.

Lemma idle_acc jw t p : hand_of p = None -> Acc (descends jw) (t, p).
Proof.
  remember (rank jw p) as r eqn:Er. revert t p Er. induction (lt_wf r) as [r _ IH]. intros t p -> Hp.
  constructor. intros y Hy. inversion Hy as [| |t1 t2 p1 p2 Hp1 Hp2 Hr]; subst; [discriminate Hp..|].
  exact (IH _ Hr t2 p2 eq_refl Hp2).
Qed.

Lemma busy_acc jw code : forall i h, Acc (descends jw) (Thread i code, Busy h).
Proof.
  induction code as [r|B op c IH]; intros i h; constructor; intros y Hy;
    inversion Hy as [t1 [i' m'] h1 h2 Hr|t1 t2 p1 h1 Hp1|t1 t2 p1 p2 Hp1]; subst;
    try (discriminate Hp1); try (apply idle_acc; exact Hp1).
  - destruct Hr.
  - destruct Hr as [b Hb]. cbn [th_code] in Hb. rewrite Hb. apply IH.
Qed.

Lemma descends_acc jw x : Acc (descends jw) x.
Proof. destruct x as [[i code] p]. destruct p; [by apply idle_acc..|apply busy_acc]. Qed.

(** One element of a list descends. *)
Definition list_descends {A} (R : A -> A -> Prop) (l' l : list A) : Prop :=
  exists n x y, l !! n = Some x /\ R y x /\ l' = <[n := y]> l.

Lemma list_acc {A} (R : A -> A -> Prop) l : Forall (Acc R) l -> Acc (list_descends R) l.
Proof.
  induction 1 as [|x l Hx _ IH]; [constructor; by intros l' (n & x & y & Hn & _)|].
  revert x Hx. induction IH as [l _ IHl]. intros x Hx. induction Hx as [x Hacc IHx].
  constructor. intros l' ([|n] & z & y & Hz & HR & ->); cbn in *.
  - injection Hz as ->. by apply IHx.
  - apply IHl; [by exists n, z, y|]. by constructor.
Qed.

Lemma works_acc live q : forall c ps js,
  program_inv live c ps -> queue_holds (sv_queue (pr_server c)) (sv_nodes (pr_server c)) js -> length js = q ->
  Acc (fun y x => works x y) c.
Proof.
  induction (lt_wf q) as [q _ IHq]. intros c ps js Hp Hjs Hlen.
  assert (Hacc : Acc (list_descends (descends (bool_decide (q <> 0%nat)))) (zip (pr_threads c) ps))
    by (apply list_acc, Forall_true; intros; apply descends_acc).
  remember (zip (pr_threads c) ps) as l eqn:El. revert c ps js Hp Hjs Hlen El.
  induction Hacc as [l _ IHl]. intros c ps js Hp Hjs Hlen ->. constructor.
  intros c' (n & e & t & Ht & Hspin & Hact).
  destruct (worker_acts_inv _ _ _ _ _ _ Hp Hact) as (t0 & t' & p & p' & rest & Ht0 & Hpn & Hc' & Hp' & Ha).
  assert (t0 = t) as -> by congruence.
  destruct (ac_descends _ _ _ _ _ _ _ _ Ha) as [(_ & l & js' & H1 & H2)|(Hq & Hn & [Hd|[_ ?]])]; [| |done].
  - eapply (IHq (length js')); [|exact Hp'|exact H2|done].
    rewrite (queue_holds_fun _ _ _ _ Hjs H1) in Hlen. cbn in Hlen. lia.
  - rewrite <-Hq, <-Hn in Hjs. eapply (IHl (zip (pr_threads c') _)); [|exact Hp'|exact Hjs|done|done].
    exists n, (t, p), (t', p'). split_and!.
    + rewrite lookup_zip_with, Ht. cbn. by rewrite Hpn.
    + rewrite Hq, Hn in Hjs. rewrite (jobs_wait_holds _ _ Hjs) in Hd. subst q.
      rewrite (bool_decide_ext _ (js <> [])); [done|]. by destruct js.
    + rewrite Hc'. cbn [pr_threads]. by rewrite insert_zip_with.
Qed.

Lemma works_step fixed c c' : works c c' -> program_step fixed c c'.
Proof. intros (n & e & t & _ & _ & H). by eapply step_worker. Qed.

(** At rest no job is in hand, and none waits if a worker does. *)
Lemma rest_final live c ps :
  program_inv live c ps -> (forall c', ~ works c c') ->
  (exists t, t ∈ pr_threads c /\ th_code t <> Ret (Some WorkerStopped)) ->
  queue_holds (sv_queue (pr_server c)) (sv_nodes (pr_server c)) [] /\
  map_Forall (fun _ j => state_is_final (job_st j) = true) (sv_heap (pr_server c)).
Proof.
  intros Hp Hrest (t0 & Hin & Hns).
  assert (Hall : forall t, t ∈ pr_threads c -> th_code t = Ret (Some WorkerStopped) \/ spins (pr_server c) t).
  { intros t [n Ht]%list_elem_of_lookup. destruct (thread_enabled _ _ _ _ _ no_input Hp Ht) as [[c' Hc']|?]; [|by left].
    right. assert (Hd : Decision (spins (pr_server c) t)).
    { unfold spins. destruct (th_code t) as [[[]|]|]; try (right; by intros []).
      destruct (jobs_wait (pr_server c)); [right; by intros []|by left]. }
    destruct Hd as [?|Hn]; [done|]. destruct (Hrest c'). by exists n, no_input, t. }
  destruct (Hall t0 Hin) as [?|[_ Hjw]]; [done|]. destruct Hp as [Hts Hhi].
  assert (Hnone : omap hand_of ps = []).
  { clear Hhi. assert (Hst : forall t, t ∈ pr_threads c -> exists r, th_code t = Ret r /\ r <> Some WorkerNext)
      by (intros t [?|[? _]]%Hall; eauto). clear -Hts Hst.
    induction Hts as [|t p ts ps Hok _ IH]; [done|]. cbn.
    destruct (Hst t ltac:(by left)) as (r & Hr & Hne).
    destruct p as [| | | | |[l id b o]]; cbn; try (apply IH; intros t' Ht'; apply Hst; by right).
    destruct Hok as [_ Hrg]. rewrite Hr in Hrg. by destruct Hrg. }
  rewrite Hnone in Hhi. destruct (hi_tracked _ _ _ Hhi) as (js & Hq & _ & _ & _ & Htr).
  rewrite (jobs_wait_holds _ _ Hq) in Hjw. apply bool_decide_eq_false in Hjw.
  destruct js as [|l js]; [|by destruct Hjw]. split; [done|]. intros l j Hj. specialize (Htr l j Hj).
  rewrite bool_decide_false in Htr by apply not_elem_of_nil. destruct Htr as [Hl|?]; [set_solver|done].
Qed.

(** C6: the workers terminate: from any state the program reaches, they cannot
    act for ever without a new request, however their actions interleave; and
    when they come to rest, unless all were told to stop, the queue is empty
    and every job is in a final state. *)
Theorem workers_terminate fixed w g max allocs clock n workers c :
  inotify_reads_ok (nt_inotify n) -> crc_inv (w_crc w) ->
  rtc (program_step fixed) (program_init (server_init w g max allocs clock n) workers) c ->
  Acc (fun y x => works x y) c /\
  forall c', rtc works c c' -> (forall c'', ~ works c' c'') ->
    (exists t, t ∈ pr_threads c' /\ th_code t <> Ret (Some WorkerStopped)) ->
    queue_holds (sv_queue (pr_server c')) (sv_nodes (pr_server c')) [] /\
    forall l j, sv_heap (pr_server c) !! l = Some j -> exists j', sv_heap (pr_server c') !! l = Some j' /\
      same_job j j' /\ state_is_final (job_st j') = true.
Proof.
  intros Hn Hc H1. pose proof (program_init_inv _ workers (server_init_sys w g max allocs clock n Hn Hc)) as H0.
  destruct (program_steps_inv _ _ _ _ _ H1 H0) as [[ps Hp] _].
  destruct (si_queue _ (hi_srv _ _ _ (pi_hands _ _ _ Hp))) as (js & Hq & _).
  split; [by eapply works_acc|]. intros c' Hw Hrest Ht.
  assert (Hs : rtc (program_step fixed) c c').
  { clear -Hw. induction Hw as [|c1 c2 c3 H _ IH]; [done|]. eapply rtc_l; [by apply works_step|done]. }
  destruct (program_steps_inv _ _ _ _ _ Hs Hp) as [[ps' Hp'] [Hk _ _]].
  destruct (rest_final _ _ _ Hp' Hrest Ht) as [He Hf]. split; [done|]. intros l j Hj.
  destruct (Hk l j Hj) as (j' & Hj' & Hsame & _). exists j'. split_and!; [done..|]. by apply (Hf l j').
Qed.
End correct.
