(* ===== verification/ServerMain.v ===== *)
(** * The whole of [server_run] (src/src/server/server.c)

    Start-up, the event loop together with the workers, and the end: the queue
    is stopped, the workers act until the last of them has returned and is
    joined, and everything is released.  The run is a relation, since the
    actions of the workers may come in any order.  Nobody reads the pipe of the
    notifications while the workers are joined; the pipe is taken to have room
    for their last events (it holds 4096 of them, and is emptied in every
    iteration in which it has some). *)

From S2P Require Export StartupCorrect ThreadsCorrect.
#[local] Open Scope Z_scope.

Definition EXIT_CODE_SUCCESS : Z := 0.
Definition EXIT_CODE_FAILURE : Z := 1.

(** What a run depends on: the files, the outcomes of allocations, the clock,
    and the notifications; what each iteration and each action depend on is in
    their steps. *)
Record run_input := RunInput {
  ri_world : world;
  ri_allocs : list bool;
  ri_clock : list timespec;
  ri_notif : notifications
}.

(** The descriptors of the first entries of the poll array. *)
Definition poll_fixed (fds : server_fds) : list Z :=
  [listen_fd_user fds; listen_fd_admin fds; listen_fd_unix fds; pipe_read_fd fds; inotify_fd fds].

Section run.
Context {L : LibPng}.

(** An action of some worker. *)
Definition workers_step (c c' : program) : Prop := exists n e, worker_acts n e c = Some c'.

(** Every [pthread_join] of [stop_workers] has returned. *)
Definition joined (c : program) : Prop := Forall (fun t => th_code t = Ret (Some WorkerStopped)) (pr_threads c).

(** The program when it enters its loop with the storage [g]. *)
Definition run_init (cfg : runtime_config) (g : storage_globals) (i : run_input) : program :=
  program_init (server_init (ri_world i) g (max_upload_bytes cfg) (ri_allocs i) (ri_clock i) (ri_notif i))
    (Z.to_nat (worker_count cfg)).

(** The loop may end in every state it reaches: a signal clears [g_running], or
    [poll] fails.  Then the server thread stops the queue and waits, and only the
    workers act. *)
Inductive stopping (fds : server_fds) (cfg : runtime_config) (g : storage_globals) (i : run_input) : program -> Prop :=
  | stopping_intro c s c' :
      rtc (program_step (poll_fixed fds)) (run_init cfg g i) c ->
      stop_workers (pr_server c) = Some (tt, s) ->
      rtc workers_step (Program s (pr_threads c)) c' -> stopping fds cfg g i c'.

(** The exit code, the state of the server if it was started, and the machine.
    What [cleanup_server_state] does after [stop_workers] is what it does without
    workers. *)
Inductive server_run (pick : gset Z -> Z) (cfg : runtime_config) (g : storage_globals) (i : run_input) (m : machine)
    : Z -> option server -> machine -> Prop :=
  | run_not_started m' :
      start_server pick cfg g m = Some (None, m') -> server_run pick cfg g i m EXIT_CODE_FAILURE None m'
  | run_started fds g' m1 c s m' :
      start_server pick cfg g m = Some (Some (fds, g'), m1) ->
      stopping fds cfg g' i c -> joined c ->
      cleanup_server_state false true true (pr_server c) = Some (tt, s) ->
      release cfg fds true true true true m1 = Some (tt, m') ->
      server_run pick cfg g i m EXIT_CODE_SUCCESS (Some s) m'.
End run.

(** ** The end of the workers *)

Section stop.
Context {L : LibPng} {LL : LibPngLaws L}.

Lemma stop_inv live s ts ps :
  program_inv live (Program s ts) ps ->
  program_inv_at true live (Program (sv_set_queue (job_queue_stop (sv_queue s)) (sv_nodes s) s) ts) ps.
Proof.
  intros [Hts [Hi Hcrc Hrun Hd (js & (l & Hq & Hl) & Ht) Hlive]]. cbn [pr_server pr_threads] in *.
  assert (Hq' : queue_holds (job_queue_stop (sv_queue s)) (sv_nodes s) js) by (exists l; split; [by apply stop_rep|done]).
  split; cbn [pr_server pr_threads].
  - eapply Forall2_impl; [exact Hts|]. intros t p. apply thread_others; [done|]. intros x _. split; [|done].
    intros j Hj. by exists j.
  - constructor; try done; [|by exists js].
    destruct Hi as [Hj (js0 & Hq0 & Hlive0) Hc Ho Hdi Ha Hb Hn]. constructor; try done.
    exists js. split; [done|]. by rewrite <-(queue_holds_fun _ _ _ _ Hq0 (ex_intro _ l (conj Hq Hl))).
Qed.

Lemma workers_step_inv {stopped} live c c' ps :
  program_inv_at stopped live c ps -> workers_step c c' -> exists ps', program_inv_at stopped live c' ps'.
Proof.
  intros Hp (n & e & Hact). destruct (worker_acts_inv _ _ _ _ _ _ Hp Hact) as (_ & _ & _ & p' & _ & _ & _ & _ & Hp' & _).
  by eexists.
Qed.

Lemma workers_steps_inv {stopped} live c c' ps :
  rtc workers_step c c' -> program_inv_at stopped live c ps -> exists ps', program_inv_at stopped live c' ps'.
Proof.
  intros H. revert ps. induction H as [c|c1 c2 c3 H1 _ IH]; intros ps Hp; [by exists ps|].
  destruct (workers_step_inv _ _ _ _ Hp H1) as [ps2 Hp2]. by eapply IH.
Qed.

(** Once the queue is stopped the workers act only finitely often. *)
Lemma stopping_acc live : forall c ps, program_inv_at true live c ps -> Acc (fun y x => workers_step x y) c.
Proof.
  intros c ps Hp. assert (Hacc : Acc (list_descends (descends true)) (zip (pr_threads c) ps))
    by (apply list_acc, Forall_true; intros; apply descends_acc).
  remember (zip (pr_threads c) ps) as l eqn:El. revert c ps Hp El.
  induction Hacc as [l _ IHl]. intros c ps Hp ->. constructor. intros c' (n & e & Hact).
  destruct (worker_acts_inv _ _ _ _ _ _ Hp Hact) as (t & t' & p & p' & rest & Ht & Hpn & Hc' & Hp' & Ha).
  destruct (ac_descends _ _ _ _ _ _ _ _ Ha) as [[? _]|(_ & _ & [Hd|[? _]])]; [done| |done].
  eapply (IHl (zip (pr_threads c') _)); [|exact Hp'|done]. exists n, (t, p), (t', p'). split_and!.
  - rewrite lookup_zip_with, Ht. cbn. by rewrite Hpn.
  - exact Hd.
  - rewrite Hc'. cbn [pr_threads]. by rewrite insert_zip_with.
Qed.

(** A worker is never stuck before it has returned. *)
Lemma joined_or_acts {stopped} live c ps :
  program_inv_at stopped live c ps -> joined c \/ exists c', workers_step c c'.
Proof.
  intros Hp. assert (Hdec : forall t, {th_code t = Ret (Some WorkerStopped)} + {th_code t <> Ret (Some WorkerStopped)}).
  { intros [i [[[]|]|B op k]]; cbn; first [by left|by right]. }
  destruct (Forall_Exists_dec _ _ Hdec (pr_threads c)) as [Hall|Hex]; [by left|right].
  apply Exists_exists in Hex as (t & [n Ht]%list_elem_of_lookup & Hns).
  destruct (thread_enabled _ _ _ _ _ no_input Hp Ht) as [[c' Hc']|?]; [|done]. by exists c', n, no_input.
Qed.

Lemma workers_join live c ps :
  program_inv_at true live c ps -> exists c' ps', rtc workers_step c c' /\ joined c' /\ program_inv_at true live c' ps'.
Proof.
  intros Hp. pose proof (stopping_acc live c ps Hp) as Hacc. revert ps Hp. induction Hacc as [c _ IH]. intros ps Hp.
  destruct (joined_or_acts _ _ _ Hp) as [Hj|[c1 H1]]; [by exists c, ps|].
  destruct (workers_step_inv _ _ _ _ Hp H1) as [ps1 Hp1]. destruct (IH c1 H1 ps1 Hp1) as (c' & ps' & Hs & Hj & Hp').
  exists c', ps'. split; [by eapply rtc_l|done].
Qed.

Section init.
Context (fds : server_fds) (cfg : runtime_config) (g : storage_globals) (i : run_input).
Context (Hn : inotify_reads_ok (nt_inotify (ri_notif i))) (Hc : crc_inv (w_crc (ri_world i))).

Lemma run_init_inv : exists live ps, program_inv live (run_init cfg g i) ps.
Proof. eexists _, _. apply program_init_inv. by apply server_init_sys. Qed.

Lemma stopping_inv c : stopping fds cfg g i c -> exists live ps, program_inv_at true live c ps.
Proof.
  intros [c0 s c' H1 Hs H2]. destruct run_init_inv as (live & ps & Hp).
  destruct (program_steps_inv _ _ _ _ _ H1 Hp) as [[ps1 Hp1] _]. destruct c0 as [s0 ts]. cbn in *.
  injection Hs as <-. apply stop_inv in Hp1. destruct (workers_steps_inv _ _ _ _ H2 Hp1) as [ps2 Hp2].
  by exists live, ps2.
Qed.

Lemma stopping_exists : exists c, stopping fds cfg g i c /\ joined c.
Proof.
  destruct run_init_inv as (live & ps & Hp). set (c0 := run_init cfg g i) in *.
  assert (Hp' : program_inv live (Program (pr_server c0) (pr_threads c0)) ps) by (by destruct c0).
  destruct (workers_join _ _ _ (stop_inv _ _ _ _ Hp')) as (c & ps' & Hs & Hj & _). exists c. split; [|done].
  by eapply (stopping_intro fds cfg g i c0).
Qed.
End init.

(** ** A run *)

(** A server that started can be released. *)
Lemma started_release pick cfg fds g m m1 :
  (forall X, 0 <= pick X /\ pick X ∉ X) -> config_wf cfg -> mc_threads m = [] ->
  start_server pick cfg g m = Some (Some fds, m1) ->
  exists m', release cfg fds.1 true true true true m1 = Some (tt, m') /\ held m None [] [] 0 m'.
Proof.
  intros Hpick Hwf Hth Hstart. destruct fds as [fds g'].
  pose proof (start_server_spec pick Hpick m cfg g Hwf) as H. unfold wpB in H.
  rewrite Hstart in H. destruct H as [Hlen Hh]. cbn [fst].
  assert (Hux : unix_file cfg fds = Some (unix_socket_path cfg)).
  { unfold unix_file. destruct (0 <=? listen_fd_unix fds) eqn:E; [done|]. exfalso. revert Hlen.
    unfold fd_list. cbn [List.filter]. rewrite E. repeat case_match; simpl; lia. }
  assert (Hr : wpB (release cfg fds true true true true) (fun _ m' => held m None [] [] 0 m') m1).
  { eapply (release_spec pick Hpick m cfg fds true true true (seqZ 0 (worker_count cfg))); [done| |done]. by rewrite Hux. }
  unfold wpB in Hr. destruct (release cfg fds true true true true m1) as [[[] m2]|]; [|done]. by exists m2.
Qed.

Section runs.
Context (pick : gset Z -> Z) (cfg : runtime_config) (g : storage_globals) (i : run_input) (m : machine).
Context (Hpick : forall X, 0 <= pick X /\ pick X ∉ X) (Hwf : config_wf cfg) (Hth : mc_threads m = []).
Context (Hn : inotify_reads_ok (nt_inotify (ri_notif i))) (Hc : crc_inv (w_crc (ri_world i))).

(** There is a run. *)
Lemma server_run_exists : exists code s m', server_run pick cfg g i m code s m'.
Proof.
  pose proof (start_server_spec pick Hpick m cfg g Hwf) as H. unfold wpB in H.
  destruct (start_server pick cfg g m) as [[[[fds g']|] m1]|] eqn:E; [| |done].
  - destruct (stopping_exists fds cfg g' i Hn Hc) as (c & Hs & Hj).
    destruct (stopping_inv fds cfg g' i Hn Hc c Hs) as (live & ps & Hp).
    destruct (cleanup_releases _ false (hi_srv _ _ _ (pi_hands _ _ _ Hp))) as (s & Hcl & _).
    destruct (started_release pick cfg _ g m m1 Hpick Hwf Hth E) as (m' & Hr & _).
    exists EXIT_CODE_SUCCESS, (Some s), m'. by eapply run_started.
  - exists EXIT_CODE_FAILURE, None, m1. by apply run_not_started.
Qed.

(** What a run has released at its end. *)
Definition run_released (s : option server) (m' : machine) : Prop :=
  mc_open m' = mc_open m /\ mc_locks m' = mc_locks m /\ mc_sockets m' ⊆ mc_sockets m /\
  match s with
  | None => exists k, 0 <= k /\ (k = 0 \/ k < worker_count cfg) /\ mc_threads m' = seqZ 0 k
  | Some s => mc_threads m' = [] /\ sv_socks s = ∅ /\ sv_heap s = ∅ /\ sv_nodes s = ∅ /\
      forall k, cs_active (session s k) = false
  end.

(** Every run releases what it acquired: whether the server was started or not,
    every descriptor it opened is closed, every mutex destroyed and no file of a
    socket is left.  After a start the workers have ended, no client is connected,
    and the jobs and the nodes of the queue are freed; a start that failed may
    leave threads behind. *)
Lemma server_run_releases code s m' :
  server_run pick cfg g i m code s m' ->
  run_released s m' /\ code = match s with None => EXIT_CODE_FAILURE | Some _ => EXIT_CODE_SUCCESS end.
Proof.
  unfold run_released. intros [m1 E|fds g' m1 c s1 m2 E Hs _ Hcl Hr].
  - pose proof (start_server_spec pick Hpick m cfg g Hwf) as H. unfold wpB in H. rewrite E in H.
    destruct H as (k & Hk0 & Hk & []). split; [|done]. split_and!; [set_solver|lia|set_solver|].
    exists k. rewrite Hth in *. by split_and!.
  - destruct (started_release pick cfg _ g m m1 Hpick Hwf Hth E) as (m2' & Hr' & [R1 R2 R3 R4 R5 R6 R7]).
    cbn [fst] in Hr'. assert (m2' = m2) as -> by congruence.
    destruct (stopping_inv fds cfg g' i Hn Hc c Hs) as (live & ps & Hp).
    destruct (cleanup_releases _ false (hi_srv _ _ _ (pi_hands _ _ _ Hp))) as (s2 & Hcl' & Hsess & Hsock & Hnodes & Hheap).
    assert (s2 = s1) as -> by congruence. split; [|done]. split_and!; [set_solver|lia|set_solver|by rewrite R4, Hth|done..].
Qed.
End runs.
End stop.
