(* ===== verification/Service.v ===== *)
(** * The job service: an abstract specification and its refinement

    Seen from outside, the program is a queue of jobs with identifiers and
    states, served first in first out: a job is accepted or refused, is taken
    once, and moves from QUEUED to RUNNING to a final state.  This file states
    that contract as a transition system over identifiers, without threads,
    memory, descriptors or files, and proves that every interleaving of the
    event loop and the workers refines it. *)

From stdpp Require Import sorting.
From S2P Require Export ThreadsCorrect.
#[local] Open Scope Z_scope.

(** ** The specification *)

Record service := MkService {
  svc_next : Z;                  (* the next identifier *)
  svc_jobs : gmap Z job_state;
  svc_queue : list Z             (* the jobs that wait, the first one first *)
}.

Definition service_init : service := MkService 1 ∅ [].

(** A request is accepted or refused. *)
Inductive service_request (a : service) : service -> Prop :=
  | request_submit :
      service_request a (MkService (svc_next a + 1) (<[svc_next a := JOB_STATE_QUEUED]> (svc_jobs a))
                           (svc_queue a ++ [svc_next a]))
  | request_refuse :
      service_request a (MkService (svc_next a + 1) (<[svc_next a := JOB_STATE_FAILED]> (svc_jobs a)) (svc_queue a)).

(** A worker takes the first job, or moves on a job that was taken. *)
Inductive service_work (a : service) : service -> Prop :=
  | work_take id ids :
      svc_queue a = id :: ids -> service_work a (MkService (svc_next a) (svc_jobs a) ids)
  | work_move id st st' :
      svc_jobs a !! id = Some st -> id ∉ svc_queue a -> moves st st' ->
      service_work a (MkService (svc_next a) (<[id := st']> (svc_jobs a)) (svc_queue a)).

Definition service_step (a a' : service) : Prop := service_request a a' \/ service_work a a'.

(** ** The order of service *)

Lemma sorted_lookup_lt (l : list Z) n m x y :
  StronglySorted Z.lt l -> l !! n = Some x -> l !! m = Some y -> (n < m)%nat -> x < y.
Proof.
  intros Hs. revert n m. induction Hs as [|z l _ IH Hf]; intros n m Hx Hy Hlt; [done|].
  destruct m as [|m]; [lia|]. cbn in Hy. destruct n as [|n]; cbn in Hx.
  - injection Hx as <-. rewrite Forall_forall in Hf. by eapply Hf, list_elem_of_lookup_2.
  - eapply (IH n m); [done..|lia].
Qed.

(** The identifiers in the queue increase, and a job that came after one that
    waits waits too, or was refused. *)
Record service_inv (a : service) : Prop := ServiceInv {
  sinv_sorted : StronglySorted Z.lt (svc_queue a);
  sinv_below : forall id st, svc_jobs a !! id = Some st -> id < svc_next a;
  sinv_queued : forall id, id ∈ svc_queue a -> svc_jobs a !! id = Some JOB_STATE_QUEUED;
  sinv_order : forall id1 id2 st, id1 ∈ svc_queue a -> id1 < id2 -> svc_jobs a !! id2 = Some st ->
    id2 ∈ svc_queue a \/ st = JOB_STATE_FAILED
}.

Lemma service_init_inv : service_inv service_init.
Proof.
  constructor; cbn; [constructor|..]; try by intros ? []%elem_of_nil.
  - intros id st. by rewrite lookup_empty.
  - by intros id1 id2 st []%elem_of_nil.
Qed.

(** Each job is before those of the queue that are submitted later. *)
Lemma service_request_inv a a' : service_inv a -> service_request a a' -> service_inv a'.
Proof.
  intros [Hs Hb Hq Ho] Hr.
  assert (Hnew : forall id, id ∈ svc_queue a -> id < svc_next a) by (intros id H; eapply Hb; by apply Hq).
  assert (Hb' : forall st0 id st, <[svc_next a := st0]> (svc_jobs a) !! id = Some st -> id < svc_next a + 1).
  { intros st0 id st [[<- _]|[_ H]]%lookup_insert_Some; [lia|]. apply Hb in H. lia. }
  assert (Hq' : forall st0 id, id ∈ svc_queue a -> <[svc_next a := st0]> (svc_jobs a) !! id = Some JOB_STATE_QUEUED).
  { intros st0 id H. rewrite lookup_insert_ne; [by apply Hq|]. apply Hnew in H. lia. }
  assert (Ho' : forall st0 id1 id2 st, id1 ∈ svc_queue a -> id1 < id2 ->
    <[svc_next a := st0]> (svc_jobs a) !! id2 = Some st ->
    id2 = svc_next a /\ st = st0 \/ id2 ∈ svc_queue a \/ st = JOB_STATE_FAILED).
  { intros st0 id1 id2 st H1 Hlt [[<- <-]|[_ H]]%lookup_insert_Some; [by left|]. right. by eapply Ho. }
  destruct Hr; constructor; cbn; try done; try by eauto.
  - apply StronglySorted_app_2; [|done|by repeat constructor].
    intros x y Hx ->%list_elem_of_singleton. by apply Hnew.
  - intros id [H| ->%list_elem_of_singleton]%elem_of_app; [by apply Hq'|apply lookup_insert_eq].
  - intros id1 id2 st H1 Hlt H2. rewrite elem_of_app, list_elem_of_singleton.
    apply elem_of_app in H1 as [H1| ->%list_elem_of_singleton].
    + destruct (Ho' _ _ _ _ H1 Hlt H2) as [[-> _]|[?|?]]; auto.
    + apply Hb' in H2. lia.
  - intros id1 id2 st H1 Hlt H2. destruct (Ho' _ _ _ _ H1 Hlt H2) as [[_ ->]|?]; auto.
Qed.

Lemma service_work_inv a a' : service_inv a -> service_work a a' -> service_inv a'.
Proof.
  intros [Hs Hb Hq Ho] [id ids E|id st st' Hid Hnq Hm]; constructor; cbn; try done.
  - rewrite E in Hs. by apply StronglySorted_inv in Hs as [Hs _].
  - intros id1 H. apply Hq. rewrite E. by right.
  - intros id1 id2 st H1 Hlt H2. rewrite E in *. destruct (Ho id1 id2 st ltac:(by right) Hlt H2) as [H|?]; [|by right].
    apply elem_of_cons in H as [->|?]; [|by left].
    apply StronglySorted_inv in Hs as [_ Hs]. rewrite Forall_forall in Hs. specialize (Hs id1 H1). lia.
  - intros id1 st1 [[<- _]|[_ H]]%lookup_insert_Some; eapply Hb; done.
  - intros id1 H1. rewrite lookup_insert_ne; [by apply Hq|]. by intros ->.
  - intros id1 id2 st2 H1 Hlt [[<- <-]|[_ H]]%lookup_insert_Some; [|by eapply Ho].
    destruct (Ho _ _ _ H1 Hlt Hid) as [?| ->]; [done|by destruct Hm].
Qed.

Lemma service_steps_inv a a' : rtc service_step a a' -> service_inv a -> service_inv a'.
Proof.
  induction 1 as [|a1 a2 a3 [H|H] _ IH]; intros Hi; [done|..]; apply IH;
    [by eapply service_request_inv|by eapply service_work_inv].
Qed.

(** ** The abstraction *)

Definition has_ident (h : job_heap) (id : Z) (st : job_state) : Prop :=
  exists l, ident <$> h !! l = Some (id, st).

Record represents (v : jobs_view) (a : service) : Prop := Represents {
  rep_next : svc_next a = jt_next_id v.1.1.1;
  rep_jobs : forall id st, svc_jobs a !! id = Some st <-> has_ident v.1.1.2 id st;
  rep_queue : exists js, queue_holds v.1.2 v.2 js /\
    Forall2 (fun l id => fst <$> (ident <$> v.1.1.2 !! l) = Some id) js (svc_queue a);
  rep_below : forall l id st, ident <$> v.1.1.2 !! l = Some (id, st) -> id < jt_next_id v.1.1.1;
  rep_inj : forall l l' id st st', ident <$> v.1.1.2 !! l = Some (id, st) ->
    ident <$> v.1.1.2 !! l' = Some (id, st') -> l = l'
}.

Lemma has_ident_same h h' id st : same_idents h h' -> has_ident h' id st <-> has_ident h id st.
Proof. intros H. unfold has_ident. split; intros [l Hl]; exists l; [by rewrite <-H|by rewrite H]. Qed.

Lemma queue_ids_same (h h' : job_heap) js ids :
  (forall l, l ∈ js -> fst <$> (ident <$> h' !! l) = fst <$> (ident <$> h !! l)) ->
  Forall2 (fun l id => fst <$> (ident <$> h !! l) = Some id) js ids ->
  Forall2 (fun l id => fst <$> (ident <$> h' !! l) = Some id) js ids.
Proof.
  intros H HF. induction HF as [|l id js ids Hl _ IH]; [constructor|]. constructor.
  - rewrite H; [done|by left].
  - apply IH. intros l' Hl'. apply H. by right.
Qed.

(** The same jobs, and [js] in the queue. *)
Lemma represents_same t h q n t' h' q' n' js ids a :
  represents (t, h, q, n) a -> same_idents h h' -> jt_next_id t' = jt_next_id t ->
  queue_holds q' n' js -> Forall2 (fun l id => fst <$> (ident <$> h !! l) = Some id) js ids ->
  represents (t', h', q', n') (MkService (svc_next a) (svc_jobs a) ids).
Proof.
  intros [Hn Hj _ Hb Hi] Hs Ht Hq Hids. constructor; cbn in *.
  - congruence.
  - intros id st. rewrite Hj. symmetry. by apply has_ident_same.
  - exists js. split; [done|]. eapply queue_ids_same; [|exact Hids]. intros l _. by rewrite Hs.
  - intros l id st. rewrite Hs, Ht. apply Hb.
  - intros l l' id st st'. rewrite !Hs. apply Hi.
Qed.

(** A new job. *)
Lemma submit_represents g held v v' a :
  tracked_but held v -> represents v a -> submit_step g v v' ->
  exists a', represents v' a' /\ (a' = a \/ service_request a a').
Proof.
  intros Htr Hrep Hs. destruct Hs as [t h q n t' h' q' n' Hh Ht Hq|l queued t h q n t' h' q' n' Hl Hnew Hh Ht Hq _].
  - destruct (rep_queue _ _ Hrep) as (js & Hjs & Hids). exists (MkService (svc_next a) (svc_jobs a) (svc_queue a)).
    split; [|left; by destruct a]. eapply represents_same; [exact Hrep|intros l; apply body_ident, Hh|done|by apply Hq|exact Hids].
  - destruct Htr as (js & Hjs & _ & Hlive & _). destruct Hrep as [Hn Hj (js0 & Hjs0 & Hids) Hb Hi]. cbn in *.
    rewrite <-(queue_holds_fun _ _ _ _ Hjs Hjs0) in Hids. clear js0 Hjs0.
    set (st := if queued then JOB_STATE_QUEUED else JOB_STATE_FAILED) in *.
    exists (MkService (svc_next a + 1) (<[svc_next a := st]> (svc_jobs a))
             (if queued then svc_queue a ++ [svc_next a] else svc_queue a)).
    split; [|right; subst st; destruct queued; constructor].
    assert (Hh' : forall l', l' <> l -> ident <$> h' !! l' = ident <$> h !! l') by (intros l' Hne; by apply body_ident, Hh).
    clear Hh. rename Hh' into Hh.
    assert (Hids' : Forall2 (fun l id => fst <$> (ident <$> h' !! l) = Some id) js (svc_queue a)).
    { eapply queue_ids_same; [|exact Hids]. intros l' [_ Hl']%Hlive. rewrite Hh; [done|].
      intros ->. rewrite Hl in Hl'. by destruct Hl'. }
    assert (Hcase : forall l' id st', ident <$> h' !! l' = Some (id, st') ->
      l' = l /\ id = jt_next_id t /\ st' = st \/ l' <> l /\ ident <$> h !! l' = Some (id, st')).
    { intros l' id st' H. destruct (decide (l' = l)) as [->|Hne].
      - left. rewrite Hnew in H. by injection H as <- <-.
      - right. split; [done|]. by rewrite <-Hh. }
    constructor; cbn.
    + congruence.
    + intros id st'. destruct (decide (id = svc_next a)) as [->|Hne].
      * rewrite lookup_insert_eq. split.
        -- intros [= <-]. exists l. by rewrite Hnew, Hn.
        -- intros [l' Hl']. destruct (Hcase _ _ _ Hl') as [(_ & _ & ->)|[_ H]]; [done|]. apply Hb in H. lia.
      * rewrite lookup_insert_ne, Hj by done. split; intros [l' Hl'].
        -- exists l'. rewrite Hh; [done|]. intros ->. by rewrite Hl in Hl'.
        -- destruct (Hcase _ _ _ Hl') as [(_ & -> & _)|[_ H]]; [congruence|by exists l'].
    + exists (if queued then js ++ [l] else js). split; [by apply Hq|]. destruct queued; [|done].
      apply Forall2_app; [done|]. constructor; [|constructor]. rewrite Hnew. cbn. by rewrite Hn.
    + intros l' id st' H. destruct (Hcase _ _ _ H) as [(_ & -> & _)|[_ H']]; [lia|]. apply Hb in H'. lia.
    + intros l1 l2 id st1 st2 H1 H2.
      destruct (Hcase _ _ _ H1) as [(-> & -> & _)|[_ H1']], (Hcase _ _ _ H2) as [(-> & E & _)|[_ H2']]; try done.
      * apply Hb in H2'. lia.
      * apply Hb in H1'. lia.
      * by eapply Hi.
Qed.

Lemma submits_represents g held v v' a :
  rtc (submit_step g) v v' -> tracked_but held v -> represents v a ->
  exists a', represents v' a' /\ rtc service_request a a'.
Proof.
  intros H. revert a. induction H as [v|v1 v2 v3 H _ IH]; intros a Ht Hr; [by exists a|].
  destruct (submit_represents _ _ _ _ _ Ht Hr H) as (a2 & Hr2 & H2).
  destruct (IH a2 (submit_step_tracked _ _ _ _ H Ht) Hr2) as (a3 & Hr3 & H3). exists a3. split; [done|].
  destruct H2 as [->|H2]; [done|by eapply rtc_l].
Qed.

(** A job moves on. *)
Lemma move_represents t h q n h' q' n' a l id st st' js :
  represents (t, h, q, n) a -> ident <$> h !! l = Some (id, st) -> ident <$> h' !! l = Some (id, st') ->
  moves st st' -> (forall l', l' <> l -> ident <$> h' !! l' = ident <$> h !! l') ->
  queue_holds q n js -> queue_holds q' n' js -> l ∉ js ->
  exists a', represents (t, h', q', n') a' /\ service_work a a'.
Proof.
  intros [Hn Hj (js0 & Hjs0 & Hids) Hb Hi] Hl Hl' Hm Ho Hq Hq' Hlj. cbn in *.
  rewrite <-(queue_holds_fun _ _ _ _ Hq Hjs0) in Hids. clear js0 Hjs0.
  exists (MkService (svc_next a) (<[id := st']> (svc_jobs a)) (svc_queue a)). split.
  - assert (Hcase : forall l1 id1 st1, ident <$> h' !! l1 = Some (id1, st1) ->
      l1 = l /\ id1 = id /\ st1 = st' \/ l1 <> l /\ ident <$> h !! l1 = Some (id1, st1)).
    { intros l1 id1 st1 H. destruct (decide (l1 = l)) as [->|Hne].
      - left. rewrite Hl' in H. by injection H as <- <-.
      - right. split; [done|]. by rewrite <-Ho. }
    assert (Hback : forall l1 id1 st1, ident <$> h' !! l1 = Some (id1, st1) ->
      exists st2, ident <$> h !! l1 = Some (id1, st2)).
    { intros l1 id1 st1 H. destruct (Hcase _ _ _ H) as [(-> & -> & _)|[_ H']]; eauto. }
    constructor; cbn; [done| | | |].
    + intros id1 st1. destruct (decide (id1 = id)) as [->|Hne].
      * rewrite lookup_insert_eq. split.
        -- intros [= <-]. by exists l.
        -- intros [l1 H1]. destruct (Hcase _ _ _ H1) as [(_ & _ & ->)|[Hne H]]; [done|].
           destruct Hne. by eapply Hi.
      * rewrite lookup_insert_ne, Hj by done. split; intros [l1 H1].
        -- exists l1. rewrite Ho; [done|]. intros ->. rewrite Hl in H1. congruence.
        -- destruct (Hcase _ _ _ H1) as [(_ & -> & _)|[_ H]]; [done|by exists l1].
    + exists js. split; [done|]. eapply queue_ids_same; [|exact Hids]. intros l1 H1. rewrite Ho; [done|]. by intros ->.
    + intros l1 id1 st1 H1. destruct (Hback _ _ _ H1) as [st2 H2]. by eapply Hb.
    + intros l1 l2 id1 st1 st2 H1 H2. destruct (Hback _ _ _ H1) as [? H1'], (Hback _ _ _ H2) as [? H2']. by eapply Hi.
  - eapply work_move; [|..|exact Hm].
    + apply Hj. by exists l.
    + intros Hin. apply Hlj. apply list_elem_of_lookup in Hin as [k Hk].
      destruct (Forall2_lookup_r _ _ _ _ _ Hids Hk) as (l1 & Hk1 & Hid1).
      destruct (ident <$> h !! l1) as [[id1 st1]|] eqn:E; [|done]. injection Hid1 as ->.
      rewrite (Hi l l1 id st st1 Hl E). by eapply list_elem_of_lookup_2.
Qed.

Lemma act_represents s s' a :
  sv_jobs s' = sv_jobs s -> represents (view_of s) a -> act_effect s s' ->
  exists a', represents (view_of s') a' /\ (a' = a \/ service_work a a').
Proof.
  unfold view_of. intros Htab Hr. destruct 1 as [Hh Hq|l js Hh Hq Hq'|l id st st' js Hl Hl' Hm Ho Hq Hq' Hlj].
  - destruct (rep_queue _ _ Hr) as (js & Hjs & Hids). exists (MkService (svc_next a) (svc_jobs a) (svc_queue a)).
    split; [|left; by destruct a]. eapply represents_same; [exact Hr|exact Hh|by rewrite Htab|by apply Hq|exact Hids].
  - destruct (rep_queue _ _ Hr) as (js0 & Hjs0 & Hids). cbn in Hjs0, Hids.
    rewrite <-(queue_holds_fun _ _ _ _ Hq Hjs0) in Hids. inversion Hids as [|? id ? ids Hid Hids' E1 E2]; subst.
    exists (MkService (svc_next a) (svc_jobs a) ids). split; [|right; by eapply work_take].
    eapply represents_same; [exact Hr|exact Hh|by rewrite Htab|exact Hq'|exact Hids'].
  - rewrite Htab. destruct (move_represents _ _ _ _ _ _ _ _ _ _ _ _ _ Hr Hl Hl' Hm Ho Hq Hq' Hlj) as (a' & Hr' & Hs).
    exists a'. by auto.
Qed.

(** ** Refinement *)

Section refinement.
Context {L : LibPng} {LL : LibPngLaws L}.

Definition abstracts (c : program) (a : service) : Prop := represents (view_of (pr_server c)) a.

Lemma init_abstracts w g max allocs clock n workers :
  abstracts (program_init (server_init w g max allocs clock n) workers) service_init.
Proof.
  unfold abstracts. constructor; cbn; [done| | | |].
  - intros id st. rewrite lookup_empty. split; [done|]. intros [l Hl]. by rewrite lookup_empty in Hl.
  - exists []. split; [|constructor]. exists []. split; [apply queue_init_rep|done].
  - intros l id st Hl. by rewrite lookup_empty in Hl.
  - intros l l' id st st' Hl. by rewrite lookup_empty in Hl.
Qed.

(** An iteration of the event loop is a sequence of requests, and an action of
    a worker at most one piece of work. *)
Lemma program_step_simulates live fixed c c' ps a :
  program_inv live c ps -> abstracts c a -> program_step fixed c c' ->
  exists a', abstracts c' a' /\ (rtc service_request a a' \/ service_work a a').
Proof.
  intros Hp Ha [inp s' Hin Hpoll|n e c1 Hact].
  - destruct (poll_inv live _ _ _ _ _ _ Hp Hin Hpoll) as (_ & _ & Hpr).
    destruct (submits_represents _ _ _ _ _ (pg_submits _ _ Hpr) (hi_tracked _ _ _ (pi_hands _ _ _ Hp)) Ha) as (a' & Ha' & H).
    exists a'. by auto.
  - destruct (worker_acts_inv _ _ _ _ _ _ Hp Hact) as (t & t' & p & p' & rest & _ & _ & _ & _ & Hac).
    pose proof (worker_acts_table _ _ _ _ Hact) as Htab.
    destruct (act_represents _ _ _ Htab Ha (ac_effect _ _ _ _ _ _ _ _ Hac)) as (a' & Ha' & H).
    exists a'. split; [done|]. destruct H as [->|H]; [by left|by right].
Qed.

(** The states of the program are those of reachable states of the service. *)
Lemma reached_service fixed c c0 ps a :
  rtc (program_step fixed) c0 c -> program_inv (w_live (sv_world (pr_server c0))) c0 ps -> abstracts c0 a ->
  exists live ps' a', program_inv live c ps' /\ abstracts c a' /\ rtc service_step a a'.
Proof.
  generalize (w_live (sv_world (pr_server c0))). intros live H. revert ps a.
  induction H as [c1|c1 c2 c3 Hs _ IH]; intros ps a Hp Ha; [by exists live, ps, a|].
  destruct (program_step_simulates _ _ _ _ _ _ Hp Ha Hs) as (a2 & Ha2 & H2).
  destruct (program_step_inv _ _ _ _ _ Hp Hs) as [[ps2 Hp2] _].
  destruct (IH ps2 a2 Hp2 Ha2) as (live' & ps3 & a3 & Hp3 & Ha3 & H3). exists live', ps3, a3. split_and!; [done..|].
  etrans; [|exact H3]. destruct H2 as [H2|H2]; [|by apply rtc_once; right]. eapply rtc_subrel; [|exact H2]. by left.
Qed.

(** C7: every run of the program with any number of workers refines the job
    service: at each step the jobs, their states and the queue of the program
    are those of a state that the specification reaches from the one before,
    by requests if the step is one of the event loop, and by taking the first
    job or moving a taken one on, or nothing, if it is an action of a worker. *)
Theorem threads_refine_service fixed w g max allocs clock n workers c c' a :
  inotify_reads_ok (nt_inotify n) -> crc_inv (w_crc w) ->
  rtc (program_step fixed) (program_init (server_init w g max allocs clock n) workers) c ->
  (abstracts (program_init (server_init w g max allocs clock n) workers) service_init) /\
  (abstracts c a -> program_step fixed c c' ->
     exists a', abstracts c' a' /\ (rtc service_request a a' \/ service_work a a')) /\
  exists a0, abstracts c a0 /\ rtc service_step service_init a0.
Proof.
  intros Hn Hc H1. pose proof (program_init_inv _ workers (server_init_sys w g max allocs clock n Hn Hc)) as H0.
  pose proof (init_abstracts w g max allocs clock n workers) as Ha. split; [done|].
  destruct (reached_service _ _ _ _ _ H1 H0 Ha) as (live & ps & a0 & Hp & Ha0 & Hr). split; [|by exists a0].
  intros Ha1 Hs. by eapply program_step_simulates.
Qed.

(** C12: no job is overtaken, whatever the interleaving: while a job waits in the
    queue, every job with a larger identifier, hence submitted later, waits
    behind it or has FAILED; so a job that is running, done or cancelled was
    taken after all those submitted before it. *)
Theorem jobs_in_order fixed w g max allocs clock n workers c js l1 l2 j1 j2 :
  inotify_reads_ok (nt_inotify n) -> crc_inv (w_crc w) ->
  rtc (program_step fixed) (program_init (server_init w g max allocs clock n) workers) c ->
  queue_holds (sv_queue (pr_server c)) (sv_nodes (pr_server c)) js ->
  sv_heap (pr_server c) !! l1 = Some j1 -> sv_heap (pr_server c) !! l2 = Some j2 ->
  l1 ∈ js -> job_id j1 < job_id j2 ->
  job_st j1 = JOB_STATE_QUEUED /\
  ((exists m1 m2, js !! m1 = Some l1 /\ js !! m2 = Some l2 /\ (m1 < m2)%nat) \/ job_st j2 = JOB_STATE_FAILED).
Proof.
  intros Hn Hc H1 Hq Hj1 Hj2 Hin Hlt.
  pose proof (program_init_inv _ workers (server_init_sys w g max allocs clock n Hn Hc)) as H0.
  destruct (reached_service _ _ _ _ _ H1 H0 (init_abstracts w g max allocs clock n workers))
    as (_ & _ & a & _ & Ha & Hr).
  destruct (service_steps_inv _ _ Hr service_init_inv) as [Hs _ Hqd Ho].
  destruct Ha as [_ Hjobs (js0 & Hq0 & Hids) _ Hinj]. cbn in *.
  rewrite <-(queue_holds_fun _ _ _ _ Hq Hq0) in Hids. clear js0 Hq0.
  assert (Hst : forall l j, sv_heap (pr_server c) !! l = Some j -> svc_jobs a !! job_id j = Some (job_st j)).
  { intros l j Hj. apply Hjobs. exists l. by rewrite Hj. }
  assert (Hat : forall m l j, js !! m = Some l -> sv_heap (pr_server c) !! l = Some j -> svc_queue a !! m = Some (job_id j)).
  { intros m l j Hm Hj. destruct (Forall2_lookup_l _ _ _ _ _ Hids Hm) as (id & Hid & Heq).
    rewrite Hj in Heq. cbn in Heq. congruence. }
  apply list_elem_of_lookup in Hin as [m1 Hm1]. pose proof (Hat _ _ _ Hm1 Hj1) as Hq1.
  assert (Hin1 : job_id j1 ∈ svc_queue a) by (by eapply list_elem_of_lookup_2). split.
  { pose proof (Hqd _ Hin1) as E. rewrite (Hst _ _ Hj1) in E. congruence. }
  destruct (Ho _ _ _ Hin1 Hlt (Hst _ _ Hj2)) as [Hin2|?]; [left|by right].
  apply list_elem_of_lookup in Hin2 as [m2 Hq2].
  destruct (Forall2_lookup_r _ _ _ _ _ Hids Hq2) as (l & Hm2 & Hl).
  assert (l = l2) as ->.
  { destruct (sv_heap (pr_server c) !! l) as [j|] eqn:E; [|done]. cbn in Hl. apply (Hinj l l2 (job_id j2) (job_st j) (job_st j2)).
    - rewrite E. unfold ident. cbn. congruence.
    - by rewrite Hj2. }
  exists m1, m2. split_and!; [done..|]. destruct (decide (m1 < m2)%nat) as [?|Hge]; [done|]. exfalso.
  assert (m1 = m2 \/ m2 < m1)%nat as [->|Hlt2] by lia.
  - rewrite Hq1 in Hq2. injection Hq2 as ?. lia.
  - pose proof (sorted_lookup_lt _ _ _ _ _ Hs Hq2 Hq1 Hlt2). lia.
Qed.
End refinement.
