(* ===== verification/ThreadsResult.v ===== *)
(** * Results whatever the interleaving

    A job whose files no other thread touches has the right result when it is
    done, however the actions of the workers and of the event loop interleave:
    the logic of WorkerQuiet.v carried over to the whole program.  The theorems
    are about the jobs that hide a payload and the jobs that extract it. *)

From S2P Require Export ThreadsCorrect WorkerResult.
#[local] Open Scope Z_scope.

(** ** Files that others leave alone *)

(** No upload to come and no worker of another job than [id] uses the path. *)
Record private (s : server) (id : Z) (q : string) : Prop := Private {
  pv_uploads : forall id' x, jt_next_id (sv_jobs s) <= id' ->
    q <> job_path (g_storage_uploads (sv_storage s)) id' (Some x);
  pv_results : forall id', 0 <= id' -> id' <> id -> ~ own_file (sv_storage s) id' q
}.

Lemma private_later s s' id q :
  jt_next_id (sv_jobs s) <= jt_next_id (sv_jobs s') -> sv_storage s' = sv_storage s ->
  private s id q -> private s' id q.
Proof. intros Hn Hg [Hu Hr]. split; rewrite Hg; [|done]. intros id' x Hid. apply Hu. lia. Qed.

(** The directories of a storage are its root followed by their names. *)
Definition rooted (g : storage_globals) : Prop :=
  exists root, g_storage_uploads g = root +:+ "/uploads" /\ g_storage_results g = root +:+ "/results".

Lemma uploads_not_results g id id' x x' :
  rooted g -> job_path (g_storage_uploads g) id (Some x) <> job_path (g_storage_results g) id' (Some x').
Proof.
  intros (root & -> & ->) H. unfold job_path in H. rewrite !(append_assoc root) in H.
  apply (f_equal (strip_prefix root)) in H. rewrite !strip_prefix_app in H. discriminate H.
Qed.

(** The uploads and the results of a job are private to it. *)
Lemma upload_private s id x :
  rooted (sv_storage s) -> 0 <= id < jt_next_id (sv_jobs s) ->
  private s id (job_path (g_storage_uploads (sv_storage s)) id (Some x)).
Proof.
  intros Hg Hid. split.
  - intros id' x' Hid' H. apply job_path_inj in H as [-> _]; lia.
  - intros id' _ _ [x' H]. by eapply uploads_not_results.
Qed.

Lemma result_private s id x :
  rooted (sv_storage s) -> 0 <= id -> private s id (job_path (g_storage_results (sv_storage s)) id (Some x)).
Proof.
  intros Hg Hid. split.
  - intros id' x' Hid' H. symmetry in H. by eapply uploads_not_results.
  - intros id' Hid' Hne [x' H]. apply job_path_inj in H as [-> _]; done.
Qed.

(** ** The server and the other workers *)

Lemma submits_body s s' l j :
  submits s s' -> sv_heap s !! l = Some j -> body <$> sv_heap s' !! l = Some (body j).
Proof.
  assert (Hone : forall g v v', submit_step g v v' -> body <$> v.1.1.2 !! l = Some (body j) -> body <$> v'.1.1.2 !! l = Some (body j)).
  { destruct 1 as [???????? Hh _ _|l' ????????? Hl _ Hh _ _ _]; cbn; intros Hj; [by rewrite Hh|].
    rewrite Hh; [done|]. intros ->. by rewrite Hl in Hj. }
  intros H Hj. assert (H0 : body <$> (view_of s).1.1.2 !! l = Some (body j)) by (cbn; by rewrite Hj).
  change (body <$> (view_of s').1.1.2 !! l = Some (body j)). clear Hj. induction H as [|v1 v2 v3 H _ IH]; [done|]. eauto.
Qed.

Lemma body_inj j j' :
  body j' = body j -> job_cancel_requested j' = job_cancel_requested j -> j' = j.
Proof. destruct j, j'. unfold body, with_cancel. cbn. intros H ->. injection H. intros. by subst. Qed.

Section apart.
Context {L : LibPng}.
Context (l : loc) (id : Z) (F : string -> Prop).

(** An iteration of the event loop. *)
Lemma poll_apart s s' j :
  progress s s' -> jobs_evolve (sv_heap s) (sv_heap s') -> sv_heap s !! l = Some j ->
  (forall q, F q -> private s id q) ->
  undisturbed F l (seen no_input s) (seen no_input s') \/
  exists j', sv_heap s' !! l = Some j' /\ job_cancel_requested j' = true.
Proof.
  intros Hp Hev Hj HF. pose proof (submits_body _ _ _ _ (pg_submits _ _ Hp) Hj) as Hb.
  destruct (Hev l j Hj) as (j' & Hj' & Hsame & _). rewrite Hj' in Hb. apply (inj Some) in Hb.
  destruct (job_cancel_requested j') eqn:Hc'; [right; by exists j'|]. left. constructor; [done| |].
  - cbn. rewrite Hj', Hj. f_equal. apply body_inj; [exact Hb|].
    destruct (job_cancel_requested j) eqn:Hc; [|done]. apply Hsame in Hc. congruence.
  - destruct (pg_world _ _ Hp) as [fs Hs]. exists fs, 0. split; [done|]. intros q Hq. cbn.
    rewrite <-(step_fs _ _ _ _ _ Hs). apply (pg_fs _ _ Hp). intros id' x Hid'. by apply (pv_uploads _ _ _ (HF q Hq)).
Qed.

(** An action of a worker that has another job in hand. *)
Lemma action_apart s s' t t' p p' :
  action s s' t t' p p' -> (forall h, hand_of p = Some h -> hd_loc h <> l /\ hd_id h <> id /\ 0 <= hd_id h) ->
  (forall q, F q -> private s id q) -> undisturbed F l (seen no_input s) (seen no_input s').
Proof.
  intros Ha Hne HF. destruct Ha as [p p' _ _ ->|p l1 j1 js _ _ _ _ Hh Hw _|h p' r _ _ ->|h h' e B op c b w k o _ Hop _ -> _ _ _ Hos].
  - reflexivity.
  - constructor; [done|by cbn; rewrite Hh|]. cbn. by rewrite Hw.
  - reflexivity.
  - destruct (Hne h eq_refl) as (Hl & Hid & H0). destruct Hos as [Hs _ _].
    destruct (ws_world _ _ _ _ _ _ _ Hs) as (fs & Hstep & Hfs). constructor; [done|by apply (ws_other _ _ _ _ _ _ _ Hs)|].
    exists fs, k. split; [done|]. intros q Hq. apply Hfs. by apply (pv_results _ _ _ (HF q Hq)).
Qed.
End apart.

(** ** The stages of a job *)

Section stages.
Context {L : LibPng} {LL : LibPngLaws L} (g : storage_globals).
Context (l : loc) (j0 : job) (F : string -> Prop) (Req : world -> Prop) (Done : job -> world -> Prop).
Context {SR : Stable F Req} {SD : forall j, Stable F (Done j)}.
Context (Hfinal : forall j w, Done j w -> state_is_final (job_st j) = true).
Abbreviation post := (fun s' => exists j', holds l j' (Done j') s').
Context (Hwork : forall i s, holds l j0 Req s -> wpR F l Done (worker_job g i (Some l)) (fun _ => post) s).

(** The job was cancelled, waits in the queue, is in the hands of a worker, or
    is done. *)
Inductive stage (c : program) (ps : list phase) : Prop :=
  | stage_cancelled j :
      sv_heap (pr_server c) !! l = Some j -> job_cancel_requested j = true -> stage c ps
  | stage_queued js :
      queue_holds (sv_queue (pr_server c)) (sv_nodes (pr_server c)) js -> l ∈ js ->
      holds l j0 Req (seen no_input (pr_server c)) -> stage c ps
  | stage_taken n t h :
      pr_threads c !! n = Some t -> ps !! n = Some (Busy h) -> hd_loc h = l ->
      wpR F l Done (th_code t) (fun _ => post) (seen no_input (pr_server c)) -> stage c ps
  | stage_over j :
      holds l j (Done j) (seen no_input (pr_server c)) -> l ∉ locs (omap hand_of ps) -> stage c ps.

Lemma post_rely s s' : undisturbed F l s s' -> post s -> post s'.
Proof. intros Hu [j Hj]. exists j. eapply holds_rely; [apply SD|exact Hj|exact Hu]. Qed.

(** The others keep the stage. *)
Lemma stage_rely s s' ts ps :
  undisturbed F l (seen no_input s) (seen no_input s') ->
  (forall js, queue_holds (sv_queue s) (sv_nodes s) js -> l ∈ js ->
     exists js', queue_holds (sv_queue s') (sv_nodes s') js' /\ l ∈ js') ->
  stage (Program s ts) ps -> stage (Program s' ts) ps.
Proof.
  intros Hu Hq [j Hj Hc|js Hjs Hl Hh|n t h Ht Hp Hl Hw|j Hj Hl]; cbn in *.
  - apply (stage_cancelled _ _ j); [|done]. cbn. pose proof (un_job _ _ _ _ Hu) as E. cbn in E. by rewrite E.
  - destruct (Hq js Hjs Hl) as (js' & Hjs' & Hl'). apply (stage_queued _ _ js'); [done..|]. by eapply holds_rely.
  - apply (stage_taken _ _ n t h); [done..|]. eapply wpR_rely; [apply _| |exact Hu|exact Hw].
    intros a s1 s2 H1 H2. by eapply post_rely.
  - apply (stage_over _ _ j); [|done]. eapply holds_rely; [apply SD|done..].
Qed.

Lemma stage_poll s s' ts ps :
  progress s s' -> jobs_evolve (sv_heap s) (sv_heap s') -> is_Some (sv_heap s !! l) ->
  (forall q, F q -> private s (job_id j0) q) ->
  stage (Program s ts) ps -> stage (Program s' ts) ps.
Proof.
  intros Hp Hev [j Hj] HF Hs.
  destruct (poll_apart l (job_id j0) F s s' j Hp Hev Hj HF) as [Hu|(j' & Hj' & Hc)]; [|by eapply stage_cancelled].
  eapply stage_rely; [exact Hu| |exact Hs]. intros js Hjs Hl. destruct (pg_queue _ _ Hp js Hjs) as [js' Hjs'].
  exists (js ++ js'). split; [done|]. apply elem_of_app. by left.
Qed.

(** *** The actions of the workers *)

(** Another worker: the queue keeps the job, and the job stays out of its hands. *)
Lemma stage_other s s' ts ps n t t' p p' rest :
  ts !! n = Some t -> ps !! n = Some p ->
  (forall p', omap hand_of (<[n := p']> ps) ≡ₚ option_list (hand_of p') ++ rest) ->
  omap hand_of ps ≡ₚ option_list (hand_of p) ++ rest ->
  action s s' t t' p p' -> undisturbed F l (seen no_input s) (seen no_input s') ->
  (forall h, hand_of p = Some h -> hd_loc h <> l) -> (forall h, hand_of p' = Some h -> hd_loc h <> l) ->
  stage (Program s ts) ps -> stage (Program s' (<[n := t']> ts)) (<[n := p']> ps).
Proof.
  intros Ht Hp Hins Hperm Ha Hu Hnl Hnl' Hs.
  assert (Hq : forall js, queue_holds (sv_queue s) (sv_nodes s) js -> l ∈ js ->
    exists js', queue_holds (sv_queue s') (sv_nodes s') js' /\ l ∈ js').
  { intros js Hjs Hl. destruct Ha as [? ? ? ? ->|p l1 j1 js1 _ Hq1 Hq2 _ _ _ _|? ? ? ? ? ->|h h' e B op c b w k o _ Hop _ -> _ _ _ Hos].
    - by exists js.
    - exists js1. split; [done|]. rewrite (queue_holds_fun _ _ _ _ Hjs Hq1) in Hl.
      apply elem_of_cons in Hl as [->|?]; [|done]. by destruct (Hnl' _ eq_refl).
    - by exists js.
    - exists js. split; [|done]. destruct Hos as [Hs1 _ _]. cbn.
      pose proof (ws_queue _ _ _ _ _ _ _ Hs1) as E1. pose proof (ws_nodes _ _ _ _ _ _ _ Hs1) as E2.
      cbn in E1, E2. by rewrite E1, E2. }
  pose proof (stage_rely s s' ts ps Hu Hq Hs) as [j Hj Hc|js Hjs Hl Hh|m t1 h Hm Hpm Hl Hw|j Hj Hl].
  - by apply (stage_cancelled _ _ j).
  - by apply (stage_queued _ _ js).
  - assert (m <> n) by (intros ->; rewrite Hp in Hpm; injection Hpm as ->; by destruct (Hnl h eq_refl)).
    apply (stage_taken _ _ m t1 h); cbn; [by rewrite list_lookup_insert_ne|by rewrite list_lookup_insert_ne|done..].
  - apply (stage_over _ _ j); [done|]. unfold locs. rewrite Hins, fmap_app. unfold locs in Hl. rewrite Hperm, fmap_app in Hl.
    rewrite not_elem_of_app in Hl |- *. split; [|apply Hl]. intros Hin. apply list_elem_of_fmap in Hin as (h & E & Hh).
    destruct (hand_of p') as [h'|] eqn:Ep; [|by apply elem_of_nil in Hh].
    apply list_elem_of_singleton in Hh as ->. by destruct (Hnl' h' eq_refl).
Qed.
(** The worker that takes the job. *)
Lemma stage_take s s' ts ps n t t' js j :
  (n < length ts)%nat -> (n < length ps)%nat -> sv_storage s = g ->
  queue_holds (sv_queue s) (sv_nodes s) (l :: js) -> holds l j0 Req (seen no_input s) ->
  sv_heap s' = sv_heap s -> sv_world s' = sv_world s ->
  th_code t' = (_ ← worker_job (sv_storage s) (th_index t) (Some l); mret (Some WorkerNext)) ->
  stage (Program s' (<[n := t']> ts)) (<[n := Busy (Hand l (job_id j) 0 None)]> ps).
Proof.
  intros Ht Hp Hg Hq [He Hj Hr] Hheap Hworld Hcode.
  eapply (stage_taken _ _ n t'); cbn; [by apply list_lookup_insert_eq|by apply list_lookup_insert_eq|done|].
  rewrite Hcode, Hg. apply wpR_bind. eapply wpR_conseq.
  - apply Hwork. constructor; cbn; [done|by rewrite Hheap|by rewrite Hworld].
  - intros _ s1 [j1 H1]. split; [eapply holds_sound; [exact H1|by intros _ w]|by exists j1].
Qed.

(** The worker that has it. *)
Lemma stage_own s s' ts ps n t t' h p' :
  ts !! n = Some t -> ps !! n = Some (Busy h) -> hd_loc h = l ->
  wpR F l Done (th_code t) (fun _ => post) (seen no_input s) ->
  l ∉ locs (omap hand_of (<[n := p']> ps)) \/ is_Some (hand_of p') ->
  action s s' t t' (Busy h) p' ->
  stage (Program s' (<[n := t']> ts)) (<[n := p']> ps).
Proof.
  intros Ht Hp Hl Hw Hout Ha.
  inversion Ha as [p1 p2 Hn|p1 l1 j1 js Hn|h1 p1 r Hcode Hp' Hs|h1 h2 e B op c b w k o Hcode Hop Hcode' Hs Hl' _ _ _]; subst; try discriminate Hn.
  - rewrite Hcode in Hw. destruct Hw as [_ [j Hj]]. apply (stage_over _ _ j); [exact Hj|].
    destruct Hout as [?|[x Hx]]; [done|]. by rewrite Hp' in Hx.
  - pose proof (lookup_lt_Some _ _ _ Ht). pose proof (lookup_lt_Some _ _ _ Hp).
    eapply (stage_taken _ _ n t'); cbn; [by apply list_lookup_insert_eq|by apply list_lookup_insert_eq|congruence|].
    rewrite Hcode in Hw. destruct Hw as [_ Hw]. specialize (Hw (seen e s)). rewrite Hop in Hw. rewrite Hcode'.
    eapply wpR_rely; [apply _| | |apply Hw].
    + intros a s1 s2 H1 H2. by eapply post_rely.
    + by constructor.
    + by constructor.
Qed.

(** A job that waits is in no hand. *)
Lemma queued_not_in_hand live c ps js :
  program_inv live c ps -> queue_holds (sv_queue (pr_server c)) (sv_nodes (pr_server c)) js -> l ∈ js ->
  (l ∉ locs (omap hand_of ps)) /\ exists j, sv_heap (pr_server c) !! l = Some j /\ job_st j = JOB_STATE_QUEUED.
Proof.
  intros [_ Hhi] Hq Hl. destruct (hi_tracked _ _ _ Hhi) as (js0 & Hq0 & _ & Hlive & _ & Hall).
  rewrite <-(queue_holds_fun _ _ _ _ Hq Hq0) in *. destruct (Hlive l Hl) as [Hn [j Hj]].
  split; [by rewrite elem_of_list_to_set in Hn|]. exists j. split; [done|]. specialize (Hall l j Hj).
  by rewrite bool_decide_true in Hall.
Qed.

(** What is kept of the job. *)
Record owned (c : program) : Prop := Owned {
  ow_storage : sv_storage (pr_server c) = g;
  ow_job : exists j, sv_heap (pr_server c) !! l = Some j /\ job_id j = job_id j0;
  ow_private : forall q, F q -> private (pr_server c) (job_id j0) q
}.

Lemma owned_later c c' :
  owned c -> jobs_evolve (sv_heap (pr_server c)) (sv_heap (pr_server c')) ->
  sv_storage (pr_server c') = sv_storage (pr_server c) ->
  jt_next_id (sv_jobs (pr_server c)) <= jt_next_id (sv_jobs (pr_server c')) -> owned c'.
Proof.
  intros [Hg (j & Hj & Hid) Hp] Hev Hs Hn. constructor; [congruence| |].
  - destruct (Hev l j Hj) as (j' & Hj' & [Hid' _] & _). exists j'. split; [done|congruence].
  - intros q Hq. eapply private_later; [exact Hn|done|by apply Hp].
Qed.

(** Distinct hands hold distinct jobs. *)
Lemma hand_ids live s hs h :
  hands_inv live s hs -> h ∈ hs -> (exists j, sv_heap s !! l = Some j /\ job_id j = job_id j0) ->
  in_hand (hd_loc h) (hd_id h) (hd_blocks h) (hd_state h) (seen no_input s) -> hd_loc h <> l ->
  hd_id h <> job_id j0 /\ 0 <= hd_id h.
Proof.
  intros Hhi Hh (j & Hj & Hid) (_ & _ & j' & Hj' & Hid') Hne. injection Hid' as Hid' _. cbn in Hj'.
  destruct (si_jobs _ (hi_srv _ _ _ Hhi)) as [Hwf _]. split.
  - intros E. apply Hne. eapply job_id_inj; [exact Hwf|exact Hj'|exact Hj|congruence].
  - destruct Hwf as (ls & js & Hr). destruct (table_rep_job _ _ _ _ _ _ Hr Hj') as [? _]. lia.
Qed.

(** The job is in the hand of the worker that acts. *)
Lemma stage_acts_own live c ps n t t' h p' rest s' :
  program_inv live c ps -> pr_threads c !! n = Some t -> ps !! n = Some (Busy h) -> hd_loc h = l ->
  omap hand_of ps ≡ₚ h :: rest ->
  (forall p', omap hand_of (<[n := p']> ps) ≡ₚ option_list (hand_of p') ++ rest) ->
  (forall m y x, m <> n -> ps !! m = Some y -> hand_of y = Some x -> x ∈ rest) ->
  action (pr_server c) s' t t' (Busy h) p' ->
  (forall j, sv_heap (pr_server c) !! l = Some j -> job_cancel_requested j = true ->
     exists j', sv_heap s' !! l = Some j' /\ job_cancel_requested j' = true) ->
  stage c ps -> stage (Program s' (<[n := t']> (pr_threads c))) (<[n := p']> ps).
Proof.
  intros Hp Ht Hpn Hl Hperm Hins Hrest Ha Hcan Hs. destruct c as [s ts]. cbn [pr_server pr_threads] in *.
  pose proof (pi_hands _ _ _ Hp) as Hhi. rewrite Hperm in Hhi.
  pose proof (hi_distinct _ _ _ Hhi) as [Hnd _]%NoDup_cons. rewrite Hl in Hnd.
  assert (Hin : l ∈ locs (omap hand_of ps)) by (unfold locs; rewrite Hperm; cbn; rewrite Hl; by left).
  destruct Hs as [j Hj Hc|js Hjs Hlj _|m t1 h1 Hm Hpm Hl1 Hw|j _ Hn]; cbn [pr_server pr_threads] in *.
  - destruct (Hcan j Hj Hc) as (j' & Hj' & Hc'). by apply (stage_cancelled _ _ j').
  - by destruct (queued_not_in_hand _ _ _ _ Hp Hjs Hlj) as [? _].
  - destruct (decide (m = n)) as [->|Hmn].
    + assert (t1 = t) as -> by congruence. rewrite Hpn in Hpm. injection Hpm as <-. eapply stage_own; [done..| |exact Ha].
      destruct (hand_of p') as [h'|] eqn:E; [right; by exists h'|]. left. unfold locs. rewrite Hins, E. exact Hnd.
    + destruct Hnd. rewrite <-Hl1. apply (list_elem_of_fmap_2 hd_loc). by eapply Hrest.
  - done.
Qed.

Lemma stage_acts live n e c c' ps :
  program_inv live c ps -> owned c -> stage c ps -> worker_acts n e c = Some c' ->
  exists ps', program_inv live c' ps' /\ stage c' ps'.
Proof.
  intros Hp Ho Hs Hact. destruct (worker_acts_inv _ _ _ _ _ _ Hp Hact) as (t & t' & p & p' & rest0 & Ht & Hpn & Hc' & Hp' & Ha).
  exists (<[n := p']> ps). split; [done|]. rewrite Hc'.
  destruct (hands_at ps n p Hpn) as (rest & Hperm & Hins & Hrest). pose proof (pi_hands _ _ _ Hp) as Hhi.
  destruct Ha as [_ _ [Hev _ _] _ Ha _ _].
  assert (Hcan : forall j, sv_heap (pr_server c) !! l = Some j -> job_cancel_requested j = true ->
    exists j', sv_heap (pr_server c') !! l = Some j' /\ job_cancel_requested j' = true).
  { intros j Hj Hc. destruct (Hev l j Hj) as (j' & Hj' & Hsame & _). exists j'. split; [done|]. by apply Hsame. }
  destruct (decide (hd_loc <$> hand_of p = Some l)) as [Hown|Hnot].
  { destruct p as [| | | | |h]; try discriminate Hown. injection Hown as Hown.
    exact (stage_acts_own live c ps n t t' h p' rest _ Hp Ht Hpn Hown Hperm Hins Hrest Ha Hcan Hs). }
  assert (Hnl : forall h, hand_of p = Some h -> hd_loc h <> l) by (intros h Hh E; apply Hnot; rewrite Hh; cbn; by f_equal).
  assert (Hu : undisturbed F l (seen no_input (pr_server c)) (seen no_input (pr_server c'))).
  { eapply action_apart; [exact Ha| |apply Ho]. intros h Hh. split; [by apply Hnl|]. eapply hand_ids; [exact Hhi| |apply Ho| |by apply Hnl].
    - rewrite Hperm, Hh. by left.
    - destruct (Forall2_lookup_r _ _ _ _ _ (pi_threads _ _ _ Hp) Hpn) as (t1 & _ & Hok).
      destruct p as [| | | | |h1]; try done. injection Hh as ->. destruct h as [lh idh bh oh]. by destruct Hok. }
  assert (Hcase : (exists h, hand_of p' = Some h /\ hd_loc h = l) \/ (forall h, hand_of p' = Some h -> hd_loc h <> l)).
  { destruct (hand_of p') as [h|]; [|by right]. destruct (decide (hd_loc h = l)) as [?|Hne]; [left; by exists h|].
    right. by intros ? [= <-]. }
  destruct Hcase as [(h & Hh & Hl)|Hnl']; 
    [|destruct c as [s ts]; exact (stage_other s _ ts ps n t t' p p' rest Ht Hpn Hins Hperm Ha Hu Hnl Hnl' Hs)].
  destruct Ha as [? ? ? E _|p l1 j1 js Hidle Hq Hq' Hj1 Hheap Hworld Hcode|? ? ? ? E _|h1 h2 ? ? ? ? ? ? ? ? ? ? ? ? Hsame]; try congruence.
  2: { injection Hh as ->. destruct (Hnl h1 eq_refl). congruence. }
  injection Hh as <-. cbn in Hl. subst l1.
  destruct (queued_not_in_hand _ _ _ _ Hp Hq ltac:(by left)) as [Hnh (j & Hj & Hst)].
  destruct Hs as [j' Hj' Hc|js' Hjs' _ Hholds|m t1 h1 Hm Hpm Hl1 _|j' [_ Hj' Hd] _].
  - destruct (Hcan j' Hj' Hc) as (j2 & Hj2 & Hc2). by apply (stage_cancelled _ _ j2).
  - pose proof (lookup_lt_Some _ _ _ Ht). pose proof (lookup_lt_Some _ _ _ Hpn).
    eapply (stage_take (pr_server c)); try done. apply Ho.
  - destruct Hnh. rewrite <-Hl1. apply (list_elem_of_fmap_2 hd_loc). apply list_elem_of_omap.
    exists (Busy h1). split; [by eapply list_elem_of_lookup_2|done].
  - cbn in Hj'. assert (j' = j) as -> by congruence. apply Hfinal in Hd. by rewrite Hst in Hd.
Qed.

Lemma stage_steps fixed live c c' ps :
  rtc (program_step fixed) c c' -> program_inv live c ps -> owned c -> stage c ps ->
  exists ps', program_inv live c' ps' /\ stage c' ps'.
Proof.
  intros H. revert ps. induction H as [c|c1 c2 c3 H1 _ IH]; intros ps Hp Ho Hs; [by exists ps|].
  assert (Hnext : exists ps2, program_inv live c2 ps2 /\ stage c2 ps2 /\ owned c2);
    [|destruct Hnext as (ps2 & Hp2 & Hs2 & Ho2); by eapply IH].
  destruct H1 as [inp s' Hin Hpoll|n e c2 Hact].
  - destruct (poll_inv live _ _ _ _ _ _ Hp Hin Hpoll) as (Hp' & Hev & Hpr). exists ps. split_and!; [done| |].
    + destruct Ho as [_ (j & Hj & _) HF]. destruct c1 as [s ts]. eapply stage_poll; [exact Hpr|exact Hev|by exists j|done..].
    + eapply owned_later; [exact Ho|exact Hev|apply Hpr|apply Hpr].
  - destruct (stage_acts live n e c1 c2 ps Hp Ho Hs Hact) as (ps2 & Hp2 & Hs2). exists ps2. split_and!; [done..|].
    destruct (worker_acts_inv _ _ _ _ _ _ Hp Hact) as (t & t' & p & p' & rest & _ & _ & _ & _ & Ha).
    destruct (ac_kept _ _ _ _ _ _ _ _ Ha) as [Hev Hg _]. eapply owned_later; [exact Ho|done..|].
    by rewrite (worker_acts_table _ _ _ _ Hact).
Qed.

(** A job that ends without being cancelled is done. *)
Lemma stage_result live c ps j :
  program_inv live c ps -> stage c ps -> sv_heap (pr_server c) !! l = Some j ->
  state_is_final (job_st j) = true -> job_cancel_requested j = false -> Done j (sv_world (pr_server c)).
Proof.
  intros Hp [j' Hj' Hc'|js Hjs Hl _|n t h _ _ _ Hw|j' [_ Hj' Hd] _] Hj Hf Hc.
  - congruence.
  - destruct (queued_not_in_hand _ _ _ _ Hp Hjs Hl) as [_ (j' & Hj' & Hst)]. assert (j' = j) as -> by congruence.
    by rewrite Hst in Hf.
  - by apply (wpR_sound _ _ _ _ _ _ Hw).
  - cbn in Hj'. assert (j' = j) as -> by congruence. exact Hd.
Qed.
End stages.

(** ** The uploads of the jobs that wait *)

Definition uploads_owned (g : storage_globals) (v : jobs_view) : Prop :=
  let '(_, h, q, n) := v in
  forall js l j, queue_holds q n js -> l ∈ js -> h !! l = Some j -> own_uploads g j.

Lemma submit_step_owned g held v v' :
  tracked_but held v -> submit_step g v v' -> uploads_owned g v -> uploads_owned g v'.
Proof.
  intros Ht Hs Ho. destruct Hs as [t h q n t' h' q' n' Hh _ Hq|l queued t h q n t' h' q' n' Hl _ Hh _ Hq Hnew];
    destruct Ht as (js0 & Hjs0 & _ & Hlive & _); intros js l' j Hjs Hin Hj.
  - rewrite (queue_holds_fun _ _ _ _ Hjs (Hq _ Hjs0)) in Hin. specialize (Hh l').
    rewrite Hj in Hh. destruct (h !! l') as [j0|] eqn:E; [|done]. apply (inj Some) in Hh.
    eapply own_uploads_body; [exact Hh|]. by eapply Ho.
  - rewrite (queue_holds_fun _ _ _ _ Hjs (Hq _ Hjs0)) in Hin.
    assert (Hcase : l' ∈ js0 \/ queued = true /\ l' = l).
    { destruct queued; [|by left]. apply elem_of_app in Hin as [?|?%list_elem_of_singleton]; auto. }
    destruct Hcase as [Hin0|[Hqd ->]]; [|by apply Hnew]. destruct (Hlive l' Hin0) as [_ [j0 Hj0]].
    specialize (Hh l' ltac:(congruence)). rewrite Hj, Hj0 in Hh. apply (inj Some) in Hh.
    eapply own_uploads_body; [exact Hh|]. by eapply Ho.
Qed.

Lemma submits_owned g held v v' :
  rtc (submit_step g) v v' -> tracked_but held v -> uploads_owned g v -> uploads_owned g v'.
Proof.
  induction 1 as [|v1 v2 v3 H _ IH]; [done|]. intros Ht Ho. apply IH; [by eapply submit_step_tracked|].
  by eapply submit_step_owned.
Qed.

Section uploads.
Context {L : LibPng} {LL : LibPngLaws L}.

Lemma acts_owned g live n e c c' ps :
  program_inv live c ps -> worker_acts n e c = Some c' ->
  uploads_owned g (view_of (pr_server c)) -> uploads_owned g (view_of (pr_server c')).
Proof.
  intros Hp Hact Ho. destruct (worker_acts_inv _ _ _ _ _ _ Hp Hact) as (t & t' & p & p' & rest & _ & Hpn & _ & _ & [_ _ _ _ Ha _ _]).
  intros js l j Hjs Hl Hj.
  destruct Ha as [p p' _ _ E|p l1 j1 js1 _ Hq1 Hq2 _ Hheap _ _|h p' r _ _ E|h h' e1 B op c1 b w k o _ _ _ E _ _ _ [Hs _ _]].
  - rewrite E in Hjs, Hj. by eapply Ho.
  - rewrite Hheap in Hj. rewrite (queue_holds_fun _ _ _ _ Hjs Hq2) in Hl. eapply Ho; [exact Hq1| |exact Hj]. by right.
  - rewrite E in Hjs, Hj. by eapply Ho.
  - rewrite E in Hjs, Hj. pose proof (ws_queue _ _ _ _ _ _ _ Hs) as E1. pose proof (ws_nodes _ _ _ _ _ _ _ Hs) as E2.
    cbn in E1, E2, Hjs, Hj. rewrite E1, E2 in Hjs. eapply Ho; [exact Hjs|exact Hl|].
    rewrite <-Hj. symmetry. apply (ws_other _ _ _ _ _ _ _ Hs).
    destruct (queued_not_in_hand l _ _ _ _ Hp Hjs Hl) as [Hn _]. intros ->. apply Hn, (list_elem_of_fmap_2 hd_loc).
    apply list_elem_of_omap. exists (Busy h). split; [by eapply list_elem_of_lookup_2|done].
Qed.

Lemma steps_owned g fixed live c c' ps :
  rtc (program_step fixed) c c' -> program_inv live c ps -> sv_storage (pr_server c) = g ->
  uploads_owned g (view_of (pr_server c)) -> uploads_owned g (view_of (pr_server c')).
Proof.
  intros H. revert ps. induction H as [c|c1 c2 c3 H1 _ IH]; intros ps Hp Hg Ho; [done|].
  destruct (program_step_inv _ _ _ _ _ Hp H1) as [[ps2 Hp2] Hk].
  apply (IH ps2 Hp2); [by rewrite (pk_storage _ _ Hk)|]. destruct H1 as [inp s' Hin Hpoll|n e c2 Hact].
  - destruct (poll_inv live _ _ _ _ _ _ Hp Hin Hpoll) as (_ & _ & Hpr). cbn. pose proof (pg_submits _ _ Hpr) as Hs.
    rewrite Hg in Hs. exact (submits_owned _ _ _ _ Hs (hi_tracked _ _ _ (pi_hands _ _ _ Hp)) Ho).
  - exact (acts_owned g live n e c1 c2 ps Hp Hact Ho).
Qed.

(** Whatever the interleaving, a job that waits reads its own uploads. *)
Lemma reached_owned fixed w g max allocs clock n workers c :
  inotify_reads_ok (nt_inotify n) -> crc_inv (w_crc w) ->
  rtc (program_step fixed) (program_init (server_init w g max allocs clock n) workers) c ->
  uploads_owned g (view_of (pr_server c)).
Proof.
  intros Hn Hcrc H. pose proof (program_init_inv _ workers (server_init_sys w g max allocs clock n Hn Hcrc)) as H0.
  eapply steps_owned; [exact H|exact H0|done|]. intros js l j _ _ Hj. discriminate Hj.
Qed.
End uploads.

(** ** Jobs that hide and jobs that extract *)

Section results.
Context {L : LibPng} {LL : LibPngLaws L}.

Lemma job_result g live c c' ps fixed js l j j' F (Req : world -> Prop) (Done : job -> world -> Prop) :
  program_inv live c ps -> sv_storage (pr_server c) = g ->
  queue_holds (sv_queue (pr_server c)) (sv_nodes (pr_server c)) js -> l ∈ js ->
  sv_heap (pr_server c) !! l = Some j -> Req (sv_world (pr_server c)) ->
  (forall q, F q -> private (pr_server c) (job_id j) q) ->
  Stable F Req -> (forall j, Stable F (Done j)) ->
  (forall j w, Done j w -> state_is_final (job_st j) = true) ->
  (forall i s, holds l j Req s ->
     wpR F l Done (worker_job g i (Some l)) (fun _ s' => exists j', holds l j' (Done j') s') s) ->
  rtc (program_step fixed) c c' -> sv_heap (pr_server c') !! l = Some j' ->
  state_is_final (job_st j') = true -> job_cancel_requested j' = false ->
  Done j' (sv_world (pr_server c')).
Proof.
  intros Hp Hg Hq Hl Hj HR HF SR SD Hfin Hwork Hrun Hj' Hf Hc.
  assert (Hs : stage l j F Req Done c ps) by (eapply stage_queued; [exact Hq|done|by constructor]).
  destruct (stage_steps g l j F Req Done Hfin Hwork fixed live c c' ps Hrun Hp) as (ps' & Hp' & Hs').
  - constructor; [done|by exists j|done].
  - exact Hs.
  - by eapply (stage_result l j F Req Done live c').
Qed.

(** The identifiers in use are below the next one. *)
Lemma queued_id live c ps l j :
  program_inv live c ps -> sv_heap (pr_server c) !! l = Some j ->
  0 <= job_id j < jt_next_id (sv_jobs (pr_server c)).
Proof.
  intros [_ Hhi] Hj. destruct (si_jobs _ (hi_srv _ _ _ Hhi)) as [(ls & js & Hr) _].
  destruct (table_rep_job _ _ _ _ _ _ Hr Hj) as [? _]. pose proof (tr_next _ _ _ _ Hr). cbn in *. lia.
Qed.

(** A job that waits is well-formed and not over. *)
Lemma queued_wf live c ps js l j :
  program_inv live c ps -> queue_holds (sv_queue (pr_server c)) (sv_nodes (pr_server c)) js -> l ∈ js ->
  sv_heap (pr_server c) !! l = Some j -> job_wf j /\ state_is_final (job_st j) = false.
Proof.
  intros Hp Hq Hl Hj. destruct (queued_not_in_hand _ _ _ _ _ Hp Hq Hl) as [_ (j' & Hj' & Hst)].
  assert (j' = j) as -> by congruence. split; [|by rewrite Hst].
  destruct (si_jobs _ (hi_srv _ _ _ (pi_hands _ _ _ Hp))) as [_ Hwf]. apply (Hwf l j Hj).
Qed.

Lemma hide_result fixed g live c c' ps js l j j' out type data :
  program_inv live c ps -> sv_storage (pr_server c) = g -> rooted g ->
  queue_holds (sv_queue (pr_server c)) (sv_nodes (pr_server c)) js -> l ∈ js ->
  sv_heap (pr_server c) !! l = Some j -> own_uploads g j ->
  hide_request g j out type data (sv_world (pr_server c)) ->
  rtc (program_step fixed) c c' -> sv_heap (pr_server c') !! l = Some j' ->
  state_is_final (job_st j') = true -> job_cancel_requested j' = false ->
  encoded out (extracted type (hidden_name type j) data) j' (sv_world (pr_server c')).
Proof.
  intros Hp Hg Hr Hq Hl Hj Hown HR Hrun Hj' Hf Hc.
  assert (exists x y, job_input_path j = job_path (g_storage_uploads g) (job_id j) (Some x) /\
    job_stored_path j = job_path (g_storage_uploads g) (job_id j) (Some y)) as (x & y & Hx & Hy).
  { unfold own_uploads in Hown. rewrite (hq_kind _ _ _ _ _ _ HR) in Hown. destruct type, Hown; by eexists _, _. }
  set (F := fun q => q = job_input_path j \/ q = job_stored_path j \/ q = out).
  assert (F1 : F (job_input_path j)) by by left. assert (F2 : F (job_stored_path j)) by (right; by left).
  assert (F3 : F out) by (right; by right).
  eapply (job_result g live c c' ps fixed js l j j' F _ (encoded out _)); try done.
  - pose proof (queued_id _ _ _ _ _ Hp Hj). subst g.
    intros q [->|[->| ->]]; [rewrite Hx; by apply upload_private|rewrite Hy; by apply upload_private|].
    rewrite (result_path_own _ _ _ _ _ (hq_out _ _ _ _ _ _ HR)). apply result_private; [done|lia].
  - by apply hide_request_stable.
  - intros j1. by apply encoded_stable.
  - by intros j1 w [-> _].
  - intros i s Hs. by apply (hide_completes g i l F j out).
Qed.

Lemma extract_result fixed g live c c' ps js l j j' out ex :
  program_inv live c ps -> sv_storage (pr_server c) = g -> rooted g ->
  queue_holds (sv_queue (pr_server c)) (sv_nodes (pr_server c)) js -> l ∈ js ->
  sv_heap (pr_server c) !! l = Some j -> own_uploads g j ->
  extract_request g j out ex (sv_world (pr_server c)) ->
  rtc (program_step fixed) c c' -> sv_heap (pr_server c') !! l = Some j' ->
  state_is_final (job_st j') = true -> job_cancel_requested j' = false ->
  decoded out ex j' (sv_world (pr_server c')).
Proof.
  intros Hp Hg Hr Hq Hl Hj Hown HR Hrun Hj' Hf Hc.
  unfold own_uploads in Hown. rewrite (xq_kind _ _ _ _ _ HR) in Hown. destruct Hown as [Hx _].
  set (F := fun q => q = job_input_path j \/ q = out).
  assert (F1 : F (job_input_path j)) by by left. assert (F3 : F out) by by right.
  eapply (job_result g live c c' ps fixed js l j j' F _ (decoded out _)); try done.
  - pose proof (queued_id _ _ _ _ _ Hp Hj). subst g. intros q [->| ->]; [rewrite Hx; by apply upload_private|].
    rewrite (result_path_own _ _ _ _ _ (xq_out _ _ _ _ _ HR)). apply result_private; [done|lia].
  - by apply extract_request_stable.
  - intros j1. by apply decoded_stable.
  - by intros j1 w [-> _].
  - intros i s Hs. by apply (extract_completes g i l F j).
Qed.

(** C3: whatever the number of workers and the interleaving, a job that hides a
    text or a file whose image has room for it, once it is finished and unless
    its cancellation was requested, is DONE, and decoding its output gives the
    payload with its type and name; other requests and other jobs cannot
    spoil it at any point. *)
Theorem threads_hide fixed w g max allocs clock n workers c c' js l j j' out type data :
  inotify_reads_ok (nt_inotify n) -> crc_inv (w_crc w) -> rooted g ->
  rtc (program_step fixed) (program_init (server_init w g max allocs clock n) workers) c ->
  queue_holds (sv_queue (pr_server c)) (sv_nodes (pr_server c)) js -> l ∈ js ->
  sv_heap (pr_server c) !! l = Some j ->
  hide_request g j out type data (sv_world (pr_server c)) ->
  rtc (program_step fixed) c c' -> sv_heap (pr_server c') !! l = Some j' ->
  state_is_final (job_st j') = true -> job_cancel_requested j' = false ->
  job_st j' = JOB_STATE_DONE /\ job_output_path j' = out /\ exists w',
    stego_decode (Some out) (sv_world (pr_server c')) = (inr (extracted type (hidden_name type j) data), w').
Proof.
  intros Hn Hcrc Hr H1 Hq Hl Hj HR H2 Hj' Hf Hc.
  pose proof (reached_owned _ _ _ _ _ _ _ _ _ Hn Hcrc H1 js l j Hq Hl Hj) as Ho.
  pose proof (program_init_inv _ workers (server_init_sys w g max allocs clock n Hn Hcrc)) as H0.
  destruct (program_steps_inv _ _ _ _ _ H1 H0) as [[ps Hp] Hk]. pose proof (pk_storage _ _ Hk) as Hg.
  destruct (hide_result fixed g _ c c' ps js l j j' out type data Hp Hg Hr Hq Hl Hj Ho HR H2 Hj' Hf Hc)
    as (Hst & Hout & _ & _ & bytes & _ & [Hcrc' Hm _] & _ & Hdec).
  split_and!; [done..|]. destruct (stego_decode_run (Some out) _ Hcrc') as (r & w' & Hrun & _ & Hres).
  exists w'. by rewrite Hrun, (Hres Hm), Hdec.
Qed.

(** C4: what one job hid another job finds again, whatever the interleaving: if
    the output of a job that hid a payload is sent back and decoded, the
    second job is DONE and its output has exactly the bytes of the payload,
    its size, and the name of the file. *)
Theorem threads_roundtrip fixed w g max allocs clock n workers c0 c1 c2 c3 js l j j1 out type data
    js' l' j2 j3 out' :
  inotify_reads_ok (nt_inotify n) -> crc_inv (w_crc w) -> rooted g ->
  rtc (program_step fixed) (program_init (server_init w g max allocs clock n) workers) c0 ->
  (* a job hides [data] *)
  queue_holds (sv_queue (pr_server c0)) (sv_nodes (pr_server c0)) js -> l ∈ js ->
  sv_heap (pr_server c0) !! l = Some j ->
  hide_request g j out type data (sv_world (pr_server c0)) ->
  rtc (program_step fixed) c0 c1 -> sv_heap (pr_server c1) !! l = Some j1 ->
  state_is_final (job_st j1) = true -> job_cancel_requested j1 = false ->
  (* another one is to decode the same bytes *)
  rtc (program_step fixed) c1 c2 ->
  queue_holds (sv_queue (pr_server c2)) (sv_nodes (pr_server c2)) js' -> l' ∈ js' ->
  sv_heap (pr_server c2) !! l' = Some j2 ->
  job_kind j2 = JOB_TYPE_DECODE -> job_cancel_requested j2 = false -> calm_world (sv_world (pr_server c2)) ->
  w_fs (sv_world (pr_server c2)) !! job_input_path j2 = w_fs (sv_world (pr_server c1)) !! out ->
  job_input_path j2 ∉ w_denied (sv_world (pr_server c2)) ->
  storage_make_result_path g (job_id j2)
    (Some (match type with STEGO_PAYLOAD_TEXT => "txt" | STEGO_PAYLOAD_FILE => "bin" end)%string) MAX_JOB_PATH
    = Some out' -> out' ∉ w_denied (sv_world (pr_server c2)) ->
  rtc (program_step fixed) c2 c3 -> sv_heap (pr_server c3) !! l' = Some j3 ->
  state_is_final (job_st j3) = true -> job_cancel_requested j3 = false ->
  job_st j3 = JOB_STATE_DONE /\ job_output_path j3 = out' /\
  w_fs (sv_world (pr_server c3)) !! out' = Some data /\ job_result_size j3 = Z.of_nat (length data) /\
  (type = STEGO_PAYLOAD_FILE -> no_nul (stored_filename j) -> job_result_filename j3 = str_take 255 (stored_filename j)).
Proof.
  intros Hn Hcrc Hr H0 Hq Hl Hj HR H1 Hj1 Hf1 Hc1 H2 Hq2 Hl2 Hj2 Hk2 Hc2 Hcalm Hsame Hread Hout' Hwr H3 Hj3 Hf3 Hc3.
  pose proof (reached_owned _ _ _ _ _ _ _ _ _ Hn Hcrc H0 js l j Hq Hl Hj) as Ho.
  pose proof (transitivity H0 (transitivity H1 H2)) as H02.
  pose proof (reached_owned _ _ _ _ _ _ _ _ _ Hn Hcrc H02 js' l' j2 Hq2 Hl2 Hj2) as Ho2.
  pose proof (program_init_inv _ workers (server_init_sys w g max allocs clock n Hn Hcrc)) as Hi.
  destruct (program_steps_inv _ _ _ _ _ H0 Hi) as [[ps0 Hp0] K0]. pose proof (pk_storage _ _ K0) as Hg0.
  destruct (hide_result fixed g _ c0 c1 ps0 js l j j1 out type data Hp0 Hg0 Hr Hq Hl Hj Ho HR H1 Hj1 Hf1 Hc1)
    as (_ & _ & _ & _ & bytes & _ & _ & Hbytes & Hdec).
  destruct (program_steps_inv _ _ _ _ _ (transitivity H1 H2) Hp0) as [[ps2 Hp2] K2].
  destruct (queued_wf _ _ _ _ _ _ Hp2 Hq2 Hl2 Hj2) as [Hwf2 Hst2].
  set (ex := extracted type (hidden_name type j) data) in *.
  assert (Hx : extract_request g j2 out' ex (sv_world (pr_server c2))).
  { constructor; try done.
    - rewrite Hbytes in Hsame. unfold decode_result in *. rewrite (load_readable _ _ _ Hsame Hread).
      unfold png_load_result in Hdec. case_decide; [done|]. by rewrite Hbytes in Hdec.
    - rewrite <-Hout'. by destruct type. }
  destruct (extract_result fixed g _ c2 c3 ps2 js' l' j2 j3 out' ex Hp2 (eq_trans (pk_storage _ _ K2) Hg0) Hr Hq2 Hl2 Hj2 Ho2 Hx H3 Hj3 Hf3 Hc3)
    as (Hst & Hout & _ & Hname & Hsize & _ & Hfile).
  assert (Hex : ex_bytes ex = data) by (unfold ex_bytes, ex, extracted; cbn; by destruct data).
  rewrite Hex in Hfile. split_and!; [done..|]. intros -> Hnul. rewrite Hname. cbn.
  rewrite (cstr_of_name _ Hnul). apply snprintf_s_fits. rewrite str_take_len. unfold MAX_JOB_FILENAME. lia.
Qed.
End results.
