(* ===== verification/ServerSubmit.v ===== *)
(** * A submitted job (src/src/server/server.c)

    The whole of an ENCODE_TEXT request on an undisturbed connection: the line
    is read and parsed, the image and the text are stored, and the job that is
    queued refers to them. *)

From S2P Require Export Exchange.
#[local] Open Scope Z_scope.

(** ** Steps *)

Lemma strlen_print_u n : strlen (print_u n) <= 1 + Z.log2 n.
Proof.
  assert (H : forall fuel n acc, strlen (dec_digits fuel n acc) <= Z.of_nat fuel + strlen acc).
  { induction fuel as [|fuel IH]; intros m acc; cbn [dec_digits]; [lia|].
    destruct (m <? 10); [rewrite strlen_cons; lia|]. etrans; [apply IH|]. rewrite strlen_cons. lia. }
  unfold print_u. etrans; [apply H|]. change (strlen EmptyString) with 0. pose proof (Z.log2_nonneg n). lia.
Qed.

Lemma send_calm fd text k s (Q : Z -> server -> Prop) :
  sv_socks s !! fd = Some k -> calm k -> strlen text < BUFFER_SIZE ->
  (forall k', cn_in k' = cn_in k -> cn_out k' = cn_out k ++ bytes_of_string text -> calm k' ->
     Q 0 (sv_set_socks (<[fd := k']> (sv_socks s)) s)) ->
  wpS (send_responsef fd text) Q s.
Proof.
  intros Hk [Hr Hw] Hlen HQ. eapply wpS_conseq; [by apply (send_spec fd text k)|].
  intros rc s' (k' & (Hin & Hrs & Hout) & Hrc & ->). rewrite Hrc by done.
  destruct (Hout Hw Hlen) as [Ho Hws]. apply HQ; [done|done|]. split; [by rewrite Hrs|done].
Qed.

Lemma upload_step fd path data rest k s (Q : Z -> server -> Prop) :
  sv_socks s !! fd = Some k -> cn_in k = data ++ rest -> calm k ->
  w_io (sv_world s) = [] -> path ∉ w_denied (sv_world s) ->
  (forall k' w', cn_in k' = rest -> cn_out k' = cn_out k -> calm k' ->
     step (<[path := data]> (w_fs (sv_world s))) 0 0 (sv_world s) w' ->
     Q 0 (sv_set_world w' (sv_set_socks (<[fd := k']> (sv_socks s)) s))) ->
  wpS (on_sock_files fd (-1) (fun c => storage_receive_to_file c (Z.of_nat (length data)) (Some path))) Q s.
Proof.
  intros Hk Hin Hc Hio Hden HQ. unfold wpS, on_sock_files. rewrite Hk.
  pose proof (upload_exact path data rest k (sv_world s) Hin Hc Hio Hden) as H. unfold wp in H.
  destruct (storage_receive_to_file _ _ _ _) as [r w']. destruct H as (k' & -> & H1 & H2 & H3 & H4).
  by apply HQ.
Qed.

(** ** The job *)

(** What [enqueue_job] stores. *)
Definition new_job (id fd : Z) (addr : string) (type : job_type) (payload input stored : option string)
    (now : timespec) : job :=
  let j := Job id fd type JOB_STATE_QUEUED false (copy_opt MAX_JOB_PAYLOAD payload)
             (copy_opt MAX_JOB_PATH input) EmptyString EmptyString EmptyString JOB_RESULT_NONE 0 EmptyString
             (copy_opt 64 (Some addr)) now zero_time zero_time in
  match stored with Some p => with_stored_path (snprintf_s MAX_JOB_PATH p) j | None => j end.

(** The state after a job was queued and announced. *)
Record submitted (fd : Z) (l : loc) (j : job) (k : conn) (s s' : server) : Prop := Submitted {
  sb_world : sv_world s' = sv_world s;
  sb_storage : sv_storage s' = sv_storage s;
  sb_clients : sv_clients s' = sv_clients s;
  sb_new : sv_heap s !! l = None;
  sb_heap : sv_heap s' = <[l := j]> (sv_heap s);
  sb_queue : forall js, queue_holds (sv_queue s) (sv_nodes s) js ->
    queue_holds (sv_queue s') (sv_nodes s') (js ++ [l]);
  sb_running : q_stopped (sv_queue s') = false;
  sb_allocs : sv_allocs s' = [];
  sb_sock : exists k', sv_socks s' = <[fd := k']> (sv_socks s) /\ cn_in k' = cn_in k /\
    cn_out k' = cn_out k ++ bytes_of_string ("JOB " +:+ print_u (job_id j) +:+ nl) /\ calm k'
}.

Lemma next_id_small s : srv_inv s -> 1 <= jt_next_id (sv_jobs s) <= MAX_JOBS + 1.
Proof.
  intros Hi. destruct (proj1 (si_jobs _ Hi)) as (ls & js & H). simpl in H.
  pose proof (tr_next _ _ _ _ H). pose proof (tr_count _ _ _ _ H). pose proof (tr_max _ _ _ _ H). lia.
Qed.

Lemma job_line_short id : 1 <= id <= MAX_JOBS + 1 -> strlen ("JOB " +:+ print_u id +:+ nl) < BUFFER_SIZE.
Proof.
  intros Hid. rewrite !strlen_app. change (strlen "JOB ") with 4. change (strlen nl) with 1.
  pose proof (strlen_print_u id) as H. pose proof (Z.log2_le_mono id (MAX_JOBS + 1) ltac:(lia)) as H2.
  change (Z.log2 (MAX_JOBS + 1)) with 10 in H2. unfold BUFFER_SIZE. lia.
Qed.

Lemma enqueue_exact i fd type payload input stored k s (Q : Z -> server -> Prop) :
  srv_inv s -> own i fd s -> sv_socks s !! fd = Some k -> calm k ->
  sv_allocs s = [] -> jt_count (sv_jobs s) < MAX_JOBS -> q_stopped (sv_queue s) = false ->
  (forall l now s', submitted fd l (new_job (jt_next_id (sv_jobs s)) fd (cs_addr_str (session s i)) type
       payload input stored now) k s s' -> Q 0 s') ->
  wpS (enqueue_job i type payload input stored) Q s.
Proof.
  intros Hi [Ha Hfd] Hk Hc Hal Hroom Hrun HQ. unfold enqueue_job, client_at. apply wpS_gets.
  fold (session s i). rewrite Hfd. set (now := hd zero_time (sv_clock s)).
  set (l := fresh (dom (sv_heap s))). set (j0 := new_job (jt_next_id (sv_jobs s)) fd (cs_addr_str (session s i)) type payload input None now).
  set (t := JobTable (<[Z.to_nat (jt_count (sv_jobs s)) := Some l]> (jt_jobs (sv_jobs s)))
              (jt_count (sv_jobs s) + 1) (u64 (jt_next_id (sv_jobs s) + 1))).
  set (s1 := sv_set_jobs t (<[l := j0]> (sv_heap s)) (sv_set_oracles [] (tl (sv_clock s)) s)).
  assert (Hcreate : create_job (session s i) type payload input s = Some (Some l, s1)).
  { unfold create_job, alloc, next_clock, mbind, Srv_bind. cbv beta iota zeta.
    cbn [sv_set_oracles sv_allocs sv_clock sv_heap sv_jobs]. rewrite Hal. cbn [hd tl].
    unfold job_table_create_job. cbn [negb]. destruct (Z.leb_spec MAX_JOBS (jt_count (sv_jobs s))); [lia|].
    rewrite Hfd. reflexivity. }
  apply wpS_bind. unfold wpS at 1. rewrite Hcreate. cbv beta iota.
  set (j := new_job (jt_next_id (sv_jobs s)) fd (cs_addr_str (session s i)) type payload input stored now).
  set (s2 := sv_set_jobs t (<[l := j]> (sv_heap s)) (sv_set_oracles [] (tl (sv_clock s)) s)).
  assert (Hstored : (match stored with
                     | Some _ => job_update_call (job_set_stored_path (Some l) stored)
                     | None => mret tt end : Srv unit) s1 = Some (tt, s2)).
  { destruct stored as [p|]; [|done]. unfold job_update_call, modify, job_set_stored_path, on_job, s1, s2, j.
    cbn [sv_set_jobs sv_heap sv_jobs]. rewrite alter_insert_eq. reflexivity. }
  apply wpS_bind. unfold wpS at 1. rewrite Hstored. cbv beta iota.
  destruct (si_queue _ Hi) as (js & (ql & Hrep & <-) & _).
  set (n := fresh (dom (sv_nodes s))).
  destruct (push_rep _ _ _ n l Hrep) as (q' & nodes' & Hpush & Hst & Hrep'); [apply not_elem_of_dom, is_fresh|].
  rewrite Hrun in Hpush, Hrep', Hst.
  set (s3 := sv_set_queue q' nodes' (sv_set_oracles [] (tl (sv_clock s)) s2)).
  assert (Hqp : queue_push (Some l) s2 = Some (0, s3)).
  { unfold queue_push, alloc, mbind, Srv_bind. cbv beta iota zeta.
    change (sv_allocs s2) with (@nil bool). cbn [hd tl].
    change (job_queue_push (Some n) (sv_queue s) (sv_nodes s) (Some l)) with
      (job_queue_push (Some n) (sv_queue s2) (sv_nodes s2) (Some l)) in Hpush.
    cbn [sv_set_oracles sv_queue sv_nodes]. unfold n in Hpush. change (sv_nodes s) with (sv_nodes s2) in Hpush at 1.
    unfold s2 in Hpush |- *. cbn [sv_set_jobs sv_set_oracles sv_queue sv_nodes] in Hpush |- *. rewrite Hpush. reflexivity. }
  apply wpS_bind. unfold wpS at 1. rewrite Hqp. cbv beta iota. change (0 <? 0) with false. cbv iota.
  apply wpS_gets. assert (Hid : read_job (Some l) 0 job_id (sv_heap s3) = job_id j).
  { unfold read_job, s3, s2. cbn [sv_set_queue sv_set_oracles sv_set_jobs sv_heap]. by rewrite lookup_insert_eq. }
  rewrite Hid. assert (Hjid : job_id j = jt_next_id (sv_jobs s)) by by destruct stored.
  assert (Hshort : strlen ("JOB " +:+ print_u (job_id j) +:+ nl) < BUFFER_SIZE)
    by (rewrite Hjid; by apply job_line_short, next_id_small).
  apply (send_calm _ _ k); [exact Hk|done|exact Hshort|]. intros k' H1 H2 H3. apply (HQ l now). fold j.
  constructor; try done.
  - apply not_elem_of_dom, is_fresh.
  - intros js Hjs. rewrite (queue_holds_fun _ _ _ _ Hjs (ex_intro _ ql (conj Hrep eq_refl))).
    eexists. split; [exact Hrep'|by rewrite fmap_app].
  - exists k'. by split_and!.
Qed.

(** ** The request *)

(** What an ENCODE_TEXT request needs to be accepted. *)
Record ready (i : nat) (fd : Z) (k : conn) (png text : list Z) (p1 p2 : string) (s : server) : Prop := Ready {
  rd_inv : srv_inv s;
  rd_own : own i fd s;
  rd_user : cs_type (session s i) = CLIENT_TYPE_USER;
  rd_sock : sv_socks s !! fd = Some k;
  rd_calm : calm k;
  rd_png : 0 < Z.of_nat (length png) <= sv_max_upload s;
  rd_max : sv_max_upload s < 2 ^ 64;
  rd_text : Z.of_nat (length text) <= MAX_TEXT_BYTES;
  rd_io : w_io (sv_world s) = [];
  rd_allocs : sv_allocs s = [];
  rd_room : jt_count (sv_jobs s) < MAX_JOBS;
  rd_running : q_stopped (sv_queue s) = false;
  rd_p1 : storage_make_upload_path (sv_storage s) (jt_next_id (sv_jobs s)) (Some "png"%string) MAX_JOB_PATH = Some p1;
  rd_p2 : storage_make_upload_path (sv_storage s) (jt_next_id (sv_jobs s)) (Some "txt"%string) MAX_JOB_PATH = Some p2;
  rd_w1 : p1 ∉ w_denied (sv_world s);
  rd_w2 : p2 ∉ w_denied (sv_world s)
}.

Definition encode_text_request (png text : list Z) : protocol_request :=
  Request PROTO_CMD_ENCODE_TEXT 0 (Z.of_nat (length png)) (Z.of_nat (length text)) 0 EmptyString EmptyString.

Lemma create_empty_exact path w :
  w_io w = [] -> path ∉ w_denied w ->
  wp (create_empty path) (fun r w' => r = None /\ step (<[path := []]> (w_fs w)) 0 0 w w') w.
Proof.
  intros Hio Hden. unfold create_empty. apply wp_bind, wp_fopen_wb; [|done].
  intros w1 _ Hs1. cbn [negb]. apply wp_bind, wp_stdio. intros ok w2 Hs2 Hok.
  assert (ok = true) as -> by (apply Hok; destruct Hs1; auto). cbn [negb]. wp_step. wp_step.
  split; [done|]. clear Hok. steps.
Qed.

(** The text is stored, whether it is empty or not. *)
Lemma extra_step i fd text rest k path s (Q : option string -> server -> Prop) :
  Z.of_nat (length text) <= MAX_TEXT_BYTES ->
  sv_socks s !! fd = Some k -> cn_in k = text ++ rest -> calm k -> w_io (sv_world s) = [] ->
  storage_make_upload_path (sv_storage s) i (Some "txt"%string) MAX_JOB_PATH = Some path ->
  path ∉ w_denied (sv_world s) ->
  (forall k' w', cn_in k' = rest -> cn_out k' = cn_out k -> calm k' ->
     step (<[path := text]> (w_fs (sv_world s))) 0 0 (sv_world s) w' ->
     Q (Some path) (sv_set_world w' (sv_set_socks (<[fd := k']> (sv_socks s)) s))) ->
  wpS (receive_extra_to_file fd (Z.of_nat (length text)) MAX_TEXT_BYTES "text" i "txt") Q s.
Proof.
  intros Hlen Hk Hin Hc Hio Hpath Hden HQ. unfold receive_extra_to_file.
  destruct (Z.ltb_spec MAX_TEXT_BYTES (Z.of_nat (length text))); [lia|]. apply wpS_gets. rewrite Hpath.
  destruct (Z.eqb_spec (Z.of_nat (length text)) 0) as [H0|H0].
  - assert (text = []) as -> by (apply nil_length_inv; lia). apply wpS_bind. unfold wpS at 1, files.
    pose proof (create_empty_exact path (sv_world s) Hio Hden) as H1. unfold wp in H1.
    destruct (create_empty path (sv_world s)) as [err w']. destruct H1 as [-> Hst]. apply wpS_ret.
    pose proof (HQ k w' Hin eq_refl Hc Hst) as H2. rewrite insert_id in H2 by done. by destruct s.
  - apply wpS_bind. by apply (upload_step _ _ _ rest k).
Qed.

(** The state after the request: the two uploads and the job. *)
Record accepted_text (i : nat) (fd : Z) (k : conn) (png text rest : list Z) (p1 p2 : string) (s s' : server)
    : Prop := AcceptedText {
  at_inv : srv_inv s';
  at_own : own i fd s';
  at_files : exists w, step (<[p2 := text]> (<[p1 := png]> (w_fs (sv_world s)))) 0 0 (sv_world s) w /\ sv_world s' = w;
  at_job : exists l now, sv_heap s !! l = None /\
    sv_heap s' = <[l := new_job (jt_next_id (sv_jobs s)) fd (cs_addr_str (session s i)) JOB_TYPE_ENCODE_TEXT
                          None (Some p1) (Some p2) now]> (sv_heap s) /\
    (forall js, queue_holds (sv_queue s) (sv_nodes s) js -> queue_holds (sv_queue s') (sv_nodes s') (js ++ [l]));
  at_running : q_stopped (sv_queue s') = false;
  at_storage : sv_storage s' = sv_storage s;
  at_clients : sv_clients s' = sv_clients s;
  at_sock : exists k', sv_socks s' !! fd = Some k' /\ cn_in k' = rest /\
    cn_out k' = cn_out k ++ bytes_of_string ("JOB " +:+ print_u (jt_next_id (sv_jobs s)) +:+ nl) /\ calm k'
}.

Lemma user_encode_text_exact i fd k png text rest p1 p2 s0 s :
  ready i fd k png text p1 p2 s -> cn_in k = png ++ text ++ rest ->
  sv_clients s = sv_clients s0 -> sv_world s = sv_world s0 -> sv_storage s = sv_storage s0 ->
  sv_heap s = sv_heap s0 -> sv_jobs s = sv_jobs s0 -> sv_queue s = sv_queue s0 -> sv_nodes s = sv_nodes s0 ->
  wpS (handle_user_command i (encode_text_request png text)) (fun _ s' =>
    srv_inv s' -> own i fd s' -> accepted_text i fd k png text rest p1 p2 s0 s') s.
Proof.
  intros [Hi [Ha Hfd] Hu Hk Hc Hpng Hmax Htext Hio Hal Hroom Hrun Hp1 Hp2 Hw1 Hw2] Hin Ec Ew Eg Eh Ej Eq En.
  unfold handle_user_command, client_at. apply wpS_gets. fold (session s i). rewrite Hfd.
  cbn [rq_command encode_text_request]. unfold user_encode_text. cbn [rq_size1 rq_size2 encode_text_request].
  apply wpS_bind. unfold receive_png_to_upload, client_at. apply wpS_gets. fold (session s i). rewrite Hfd.
  apply wpS_gets. destruct (Z.eqb_spec (Z.of_nat (length png)) 0); [lia|].
  destruct (Z.ltb_spec (sv_max_upload s) (Z.of_nat (length png))); [lia|]. cbn [orb].
  unfold next_job_id. apply wpS_gets, wpS_gets. rewrite Hp1. apply wpS_bind.
  apply (upload_step _ _ _ (text ++ rest) k); try done. intros k1 w1 Hin1 Hout1 Hc1 Hst1.
  change (0 <? 0) with false. apply wpS_ret. set (s1 := sv_set_world w1 _). apply wpS_gets.
  assert (Hd1 : w_denied w1 = w_denied (sv_world s)) by apply Hst1.
  apply wpS_bind. apply (extra_step _ _ _ rest k1 p2);
    [done|by apply lookup_insert_eq|done|done|by apply Hst1|done|cbn; by rewrite Hd1|].
  intros k2 w2 Hin2 Hout2 Hc2 Hst2. set (s2 := sv_set_world w2 _).
  assert (Hs1 : srv_inv (sv_set_socks (<[fd := k1]> (sv_socks s)) s))
    by (apply inv_socks; [done|by eapply insert_open]).
  assert (Hi2 : srv_inv s2).
  { assert (Hi1 : srv_inv s1) by (destruct Hs1; by constructor).
    assert (Hs2 : srv_inv (sv_set_socks (<[fd := k2]> (sv_socks s1)) s1))
      by (apply inv_socks; [done|eapply insert_open; apply lookup_insert_eq]). destruct Hs2. by constructor. }
  apply (enqueue_exact i fd _ _ _ _ k2); try done; [by apply lookup_insert_eq|].
  intros l now s' [H1 H2 H3 H4 H5 H6 H7 H8 (k' & H9 & H10 & H11 & H12)] Hi' Ho'.
  change (jt_next_id (sv_jobs s2)) with (jt_next_id (sv_jobs s)) in *.
  change (session s2 i) with (session s i) in *.
  assert (Hs : session s i = session s0 i) by (unfold session; by rewrite Ec). rewrite Hs, Ej in *.
  assert (Hfs1 : w_fs w1 = <[p1 := png]> (w_fs (sv_world s))) by apply Hst1.
  change (sv_world s1) with w1 in Hst2. rewrite Hfs1 in Hst2.
  constructor; try done; try congruence.
  - exists w2. split; [|exact H1]. rewrite <-Ew. clear -Hst1 Hst2. steps.
  - exists l, now. split_and!; [by rewrite <-Eh|by rewrite <-Eh|]. intros js Hjs. apply H6.
    change (sv_queue s2) with (sv_queue s). change (sv_nodes s2) with (sv_nodes s). by rewrite Eq, En.
  - by rewrite H2.
  - by rewrite H3.
  - exists k'. split_and!; [by rewrite H9, lookup_insert_eq|congruence| |done].
    rewrite H11, Hout2, Hout1. done.
Qed.

Lemma encode_text_line png text :
  exists body, print_request (encode_text_request png text) = body +:+ nl /\ one_line body.
Proof.
  eexists. split; [reflexivity|]. cbn [encode_text_request rq_command rq_size1 rq_size2].
  repeat apply one_line_app; try (apply one_line_print; lia);
    (eapply bool_decide_unpack; vm_compute; exact I).
Qed.

Lemma encode_text_short png text :
  Z.of_nat (length png) < 2 ^ 64 -> Z.of_nat (length text) <= MAX_TEXT_BYTES ->
  strlen (print_request (encode_text_request png text)) < BUFFER_SIZE.
Proof.
  intros H1 H2. unfold print_request. cbn [encode_text_request rq_command rq_size1 rq_size2].
  rewrite !strlen_app. pose proof (strlen_print_u (Z.of_nat (length png))). pose proof (strlen_print_u (Z.of_nat (length text))).
  pose proof (Z.log2_le_mono (Z.of_nat (length png)) (2 ^ 64) ltac:(lia)) as L1. rewrite Z.log2_pow2 in L1 by lia.
  pose proof (Z.log2_le_mono (Z.of_nat (length text)) (2 ^ 64) ltac:(unfold MAX_TEXT_BYTES in *; lia)) as L2.
  rewrite Z.log2_pow2 in L2 by lia. change (strlen nl) with 1. change (strlen " ") with 1.
  change (strlen "ENCODE_TEXT") with 11. unfold BUFFER_SIZE. lia.
Qed.

(** An ENCODE_TEXT request on an undisturbed connection is carried out
    completely: the server takes exactly the line, the image and the text from
    the stream, stores the two uploads, changes no other file, appends one
    queued job that refers to them, and answers with its identifier. *)
Theorem encode_text_submitted i fd k png text rest p1 p2 s :
  ready i fd k png text p1 p2 s ->
  cn_in k = bytes_of_string (print_request (encode_text_request png text)) ++ png ++ text ++ rest ->
  exists s', handle_client_command i s = Some (tt, s') /\ accepted_text i fd k png text rest p1 p2 s s'.
Proof.
  intros Hr Hin. pose proof Hr as [Hi Ho Hu Hk Hc Hpng Hmax Htext Hio Hal Hroom Hrun Hp1 Hp2 Hw1 Hw2].
  destruct (encode_text_line png text) as (body & Hbody & Hone).
  set (r := encode_text_request png text) in *.
  assert (Hlen : strlen (print_request r) < BUFFER_SIZE) by (apply encode_text_short; lia).
  assert (Hcan : request_canonical r)
    by (split_and!; [unfold bounded; cbn; lia|unfold bounded, MAX_TEXT_BYTES in *; cbn; lia|done]).
  pose proof (parse_printed r Hcan Hlen) as Hparse.
  assert (Hwf : request_wf r) by (destruct (parse_wf (print_request r)) as (r' & Hp & Hw); congruence).
  assert (H : wpS (handle_client_command i) (fun _ s' => accepted_text i fd k png text rest p1 p2 s s') s).
  { eapply (handle_request i fd r body k (png ++ text ++ rest)); try done.
    intros k' Hin' Hout' Hc'. rewrite Hu. cbn -[handle_user_command]. apply wpS_bind.
    set (s1 := sv_set_socks _ s).
    assert (Hi1 : srv_inv s1) by (apply inv_socks; [done|by apply (insert_open _ _ k)]).
    eapply wpS_conseq; [apply wpS_and; [apply (user_encode_text_exact i fd k' png text rest p1 p2 s)|
      apply (safe_user i fd r Hwf); [discriminate|done|done]]|]; try done.
    - constructor; try done. apply lookup_insert_eq.
    - intros rc s' [Hs' (Hi' & Ho' & _)]. apply wpS_ret. destruct (Hs' Hi' Ho') as [A1 A2 A3 A4 A5 A6 A7 A8].
      constructor; try done. by rewrite <-Hout'. }
  unfold wpS in H. destruct (handle_client_command i s) as [[[] s']|]; [|done]. by exists s'.
Qed.
