(* ===== verification/EndToEnd.v ===== *)
(** * From the upload to the download

    A text that a user sends with ENCODE_TEXT, a turn of a worker, and the
    DOWNLOAD of the result: the file that the worker leaves carries the text,
    and its owner gets exactly its bytes. *)

From S2P Require Export System ServerSubmit.
#[local] Open Scope Z_scope.

(** ** A download *)

Definition download_text (data : list Z) : list Z :=
  bytes_of_string ("DATA " +:+ print_d (Z.of_nat (length data)) +:+ nl) ++ data.

Lemma send_file_step fd path data k s (Q : Z -> server -> Prop) :
  sv_socks s !! fd = Some k -> calm k -> w_fs (sv_world s) !! path = Some data ->
  path ∉ w_denied (sv_world s) -> w_io (sv_world s) = [] ->
  (forall k' w', cn_in k' = cn_in k -> cn_out k' = cn_out k ++ data ->
     Q 0 (sv_set_world w' (sv_set_socks (<[fd := k']> (sv_socks s)) s))) ->
  wpS (on_sock_files fd (-1) (fun c => storage_send_file c (Some path))) Q s.
Proof.
  intros Hk [_ Hw] Hdata Hden Hio HQ. unfold wpS, on_sock_files. rewrite Hk.
  assert (H : wp (storage_send_file k (Some path)) (fun r _ => exists k', r = Some (0, k') /\
    cn_in k' = cn_in k /\ cn_out k' = cn_out k ++ data) (sv_world s)).
  { unfold storage_send_file. apply wp_bind, wp_fopen_rb; [|intros [?|?]; congruence].
    intros data' w1 Hd' _ Hs1. assert (data' = data) as -> by congruence.
    eapply wp_conseq; [apply send_loop_spec; lia|]. intros r w' (rc & c' & -> & _ & Hin & Hq).
    destruct Hq as [-> Hout]; [done|by destruct Hs1; auto|]. by exists c'. }
  unfold wp in H. destruct (storage_send_file _ _ _) as [r w']. destruct H as (k' & -> & H1 & H2).
  by apply HQ.
Qed.

(** The sizes of files fit an [off_t]. *)
Lemma data_line_short n : 0 <= n < 2 ^ 63 -> strlen ("DATA " +:+ print_d n +:+ nl) < BUFFER_SIZE.
Proof.
  intros Hn. unfold print_d. destruct (Z.ltb_spec n 0); [lia|].
  rewrite !strlen_app. change (strlen "DATA ") with 5. change (strlen nl) with 1.
  pose proof (strlen_print_u n). pose proof (Z.log2_le_mono n (2 ^ 63) ltac:(lia)) as H2.
  change (Z.log2 (2 ^ 63)) with 63 in H2. unfold BUFFER_SIZE. lia.
Qed.

Lemma download_exact i fd id l j k data s (Q : Z -> server -> Prop) :
  sv_socks s !! fd = Some k -> calm k -> job_table_find (sv_jobs s) (sv_heap s) id = Some l ->
  sv_heap s !! l = Some j -> job_st j = JOB_STATE_DONE ->
  0 < strlen (job_output_path j) < MAX_JOB_PATH ->
  w_fs (sv_world s) !! job_output_path j = Some data -> job_output_path j ∉ w_denied (sv_world s) ->
  w_io (sv_world s) = [] -> Z.of_nat (length data) < 2 ^ 63 ->
  cs_type (session s i) = CLIENT_TYPE_USER -> cs_fd (session s i) = fd ->
  (forall s' k', sv_socks s' !! fd = Some k' -> cn_in k' = cn_in k ->
     cn_out k' = cn_out k ++ download_text data -> Q 0 s') ->
  wpS (handle_user_command i (req_id PROTO_CMD_DOWNLOAD id)) Q s.
Proof.
  intros Hk Hc Hfind Hj Hst Hlen Hdata Hden Hio Hsize Hu Hfd HQ.
  unfold handle_user_command, client_at. apply wpS_gets. fold (session s i). rewrite Hfd.
  cbn [rq_command rq_job_id req_id]. unfold user_download, find_job, job_call. apply wpS_gets.
  rewrite Hfind. apply wpS_gets. unfold job_get_state, read_job. rewrite Hj, Hst.
  cbn [bool_decide negb]. apply wpS_gets. unfold job_get_output_path, get_field, read_job. rewrite Hj.
  change (MAX_JOB_PATH =? 0) with false. cbv iota. rewrite snprintf_s_fits by lia.
  destruct (Z.eqb_spec (strlen (job_output_path j)) 0); [lia|].
  apply wpS_bind. unfold wpS at 1, files, get_file_size_bytes. rewrite Hdata. cbv beta iota.
  assert (Hsame : sv_set_world (sv_world s) s = s) by (by destruct s). rewrite Hsame. cbn [fmap option_fmap option_map].
  apply wpS_bind. apply (send_calm _ _ k); [done|done|apply data_line_short; lia|].
  intros k1 Hin1 Hout1 Hc1. change (0 <? 0) with false. cbv iota.
  apply wpS_bind. apply (send_file_step _ _ data k1); try done; [apply lookup_insert_eq|].
  intros k2 w2 Hin2 Hout2. change (0 <? 0) with false. cbv iota. apply wpS_ret.
  apply (HQ _ k2); [apply lookup_insert_eq|congruence|].
  rewrite Hout2, Hout1, <-app_assoc. done.
Qed.

Section end_to_end.
Context {L : LibPng} {LL : LibPngLaws L}.

(** ** The turn that hides the text *)

Lemma turn_encodes e s l js j out text :
  queue_holds (sv_queue s) (sv_nodes s) (l :: js) -> q_stopped (sv_queue s) = false ->
  ti_cancels e = [] -> sv_heap s !! l = Some j -> hide_request (sv_storage s) j out STEGO_PAYLOAD_TEXT text (sv_world s) ->
  exists j', sv_heap (worker_turn e s) !! l = Some j' /\
    encoded out (extracted STEGO_PAYLOAD_TEXT [] text) j' (sv_world (worker_turn e s)).
Proof.
  intros Hq Hrun He Hj Ht. unfold worker_turn.
  apply (worker_main_once (sv_storage s) (ti_index e) l js (wk_of e s)); [done..|]. intros q nodes _ _.
  eapply wpW_conseq; [by apply (worker_encodes (sv_storage s) (ti_index e) l j out STEGO_PAYLOAD_TEXT text)|].
  done.
Qed.

(** ** The whole exchange *)

(** What, besides [ready], the request needs to succeed: memory, and an image
    with room for the text. *)
Record roomy (png text : list Z) (out : string) (s : server) : Prop := Roomy {
  hb_mallocs : w_mallocs (sv_world s) = [];
  hb_bytes : bytes_ok text;
  hb_image : exists img, png_decode png = inr img /\
    8 * (15 + Z.of_nat (length text)) <= image_data_bit_capacity img;
  hb_out : storage_make_result_path (sv_storage s) (jt_next_id (sv_jobs s)) (Some "png"%string) MAX_JOB_PATH = Some out;
  hb_writable : out ∉ w_denied (sv_world s);
  hb_png : forall img, image_wf img -> png_write_stream (ihdr_of img) (img_rows img) <> None
}.

(** In turns, with an idle queue. *)
Record hideable (png text : list Z) (out : string) (s : server) : Prop := Hideable {
  hb_tracked : tracked s;
  hb_crc : crc_inv (w_crc (sv_world s));
  hb_idle : queue_holds (sv_queue s) (sv_nodes s) [];
  hb_room :> roomy png text out s
}.

Lemma upload_path_fits g id x p : storage_make_upload_path g id (Some x) MAX_JOB_PATH = Some p -> strlen p < MAX_JOB_PATH.
Proof. unfold storage_make_upload_path. intros H. repeat case_match; simplify_eq. lia. Qed.

Lemma result_path_fits g id x p :
  storage_make_result_path g id (Some x) MAX_JOB_PATH = Some p -> 0 < strlen p < MAX_JOB_PATH.
Proof.
  unfold storage_make_result_path, job_path. intros H. repeat case_match; simplify_eq.
  split; [|lia]. rewrite !strlen_app. change (strlen "/job_") with 5.
  pose proof (strlen_nonneg (g_storage_results g)). pose proof (strlen_nonneg (print_u id)).
  pose proof (strlen_nonneg "."). pose proof (strlen_nonneg x). lia.
Qed.

Lemma new_job_request i fd k png text rest p1 p2 out s s1 l now :
  ready i fd k png text p1 p2 s -> roomy png text out s -> crc_inv (w_crc (sv_world s)) ->
  accepted_text i fd k png text rest p1 p2 s s1 ->
  let j := new_job (jt_next_id (sv_jobs s)) fd (cs_addr_str (session s i)) JOB_TYPE_ENCODE_TEXT
             None (Some p1) (Some p2) now in
  sv_heap s1 !! l = Some j -> hide_request (sv_storage s1) j out STEGO_PAYLOAD_TEXT text (sv_world s1).
Proof.
  intros Hr [Hm Hb (img & Himg & Hcap) Hout Hwr Hpng] Hcrc [Hi1 _ (w & Hst & Hw) _ _ Hg _ _] j Hj.
  rewrite Hw. destruct Hst as [Hfs _ _ Hden Hmm Hio Hcc].
  assert (E1 : job_input_path j = p1) by (apply snprintf_s_fits; eapply upload_path_fits, Hr).
  assert (E2 : job_stored_path j = p2) by (apply snprintf_s_fits; eapply upload_path_fits, Hr).
  assert (Hne : p1 <> p2).
  { intros ->. pose proof (next_id_small _ (rd_inv _ _ _ _ _ _ _ _ Hr)) as Hid.
    destruct (upload_paths_distinct _ (jt_next_id (sv_jobs s)) (jt_next_id (sv_jobs s)) _ _ _ _
      ltac:(lia) ltac:(lia) (rd_p1 _ _ _ _ _ _ _ _ Hr) (rd_p2 _ _ _ _ _ _ _ _ Hr)) as [_ H]. done. }
  constructor; rewrite ?E2, ?E1, ?Hden; try done.
  - destruct (si_jobs _ Hi1) as [_ Hall]. apply (Hall l j Hj).
  - constructor; [by apply Hcc|by apply Hmm|apply Hio, Hr].
  - rewrite Hfs. apply lookup_insert_eq.
  - apply Hr.
  - unfold hide_limit. pose proof (rd_text _ _ _ _ _ _ _ _ Hr). lia.
  - rewrite Hg. exact Hout.
  - exists img. split; [|change (length (hidden_name STEGO_PAYLOAD_TEXT j)) with 0%nat; lia].
    erewrite load_readable; [exact Himg| |rewrite Hden; apply Hr].
    rewrite Hfs, lookup_insert_ne by done. apply lookup_insert_eq.
Qed.

(** The request for a download. *)
Lemma download_line id :
  0 <= id -> exists body, print_request (req_id PROTO_CMD_DOWNLOAD id) = body +:+ nl /\ one_line body.
Proof.
  intros Hid. exists ("DOWNLOAD" +:+ " " +:+ print_u id). split; [reflexivity|].
  repeat apply one_line_app; try (by apply one_line_print); (eapply bool_decide_unpack; vm_compute; exact I).
Qed.

Lemma download_short id :
  1 <= id <= MAX_JOBS + 1 -> strlen (print_request (req_id PROTO_CMD_DOWNLOAD id)) < BUFFER_SIZE.
Proof.
  intros Hid. change (print_request (req_id PROTO_CMD_DOWNLOAD id)) with ("DOWNLOAD" +:+ " " +:+ print_u id +:+ nl).
  rewrite !strlen_app. change (strlen "DOWNLOAD") with 8. change (strlen " ") with 1. change (strlen nl) with 1.
  pose proof (strlen_print_u id). pose proof (Z.log2_le_mono id (MAX_JOBS + 1) ltac:(lia)) as H2.
  change (Z.log2 (MAX_JOBS + 1)) with 10 in H2. unfold BUFFER_SIZE. lia.
Qed.

Lemma handle_download i fd id l j k data rest s :
  srv_inv s -> own i fd s -> cs_type (session s i) = CLIENT_TYPE_USER ->
  sv_socks s !! fd = Some k -> calm k -> 1 <= id <= MAX_JOBS + 1 ->
  cn_in k = bytes_of_string (print_request (req_id PROTO_CMD_DOWNLOAD id)) ++ rest ->
  sv_heap s !! l = Some j -> job_id j = id -> job_st j = JOB_STATE_DONE ->
  0 < strlen (job_output_path j) < MAX_JOB_PATH ->
  w_fs (sv_world s) !! job_output_path j = Some data -> job_output_path j ∉ w_denied (sv_world s) ->
  w_io (sv_world s) = [] -> Z.of_nat (length data) < 2 ^ 63 ->
  exists s' k', handle_client_command i s = Some (tt, s') /\ sv_socks s' !! fd = Some k' /\
    cn_in k' = rest /\ cn_out k' = cn_out k ++ download_text data.
Proof.
  intros Hi Ho Hu Hk Hc Hid Hin Hj Hjid Hst Hlen Hdata Hden Hio Hsize.
  destruct (download_line id ltac:(lia)) as (body & Hbody & Hone). set (r := req_id PROTO_CMD_DOWNLOAD id) in *.
  assert (Hshort : strlen (print_request r) < BUFFER_SIZE) by by apply download_short.
  assert (Hcan : request_canonical r) by (split; [unfold bounded, MAX_JOBS in *; cbn; lia|done]).
  pose proof (parse_printed r Hcan Hshort) as Hparse.
  assert (H : wpS (handle_client_command i) (fun _ s' => exists k', sv_socks s' !! fd = Some k' /\
    cn_in k' = rest /\ cn_out k' = cn_out k ++ download_text data) s).
  { eapply (handle_request i fd r body k rest); try done. intros k1 Hin1 Hout1 Hc1. rewrite Hu.
    cbn -[handle_user_command]. apply wpS_bind. set (s1 := sv_set_socks _ s).
    eapply (download_exact i fd id l j k1 data s1); try done; [apply lookup_insert_eq| |exact (proj2 Ho)|].
    - apply find_correct; [apply (si_jobs _ Hi)|]. by exists j.
    - intros s' k' Hk' Hin' Hout'. apply wpS_ret. exists k'. split_and!; [done|congruence|]. by rewrite Hout', Hout1. }
  unfold wpS in H. destruct (handle_client_command i s) as [[[] s']|]; [|done].
  destruct H as (k' & H). by exists s', k'.
Qed.

(** ** The turn of the worker *)

(** A result that its owner can download, and what it carries. *)
Record fetchable (i : nat) (fd id : Z) (l : loc) (j : job) (out : string) (text data : list Z) (s : server)
    : Prop := Fetchable {
  ft_inv : srv_inv s;
  ft_own : own i fd s;
  ft_user : cs_type (session s i) = CLIENT_TYPE_USER;
  ft_job : sv_heap s !! l = Some j;
  ft_id : job_id j = id;
  ft_range : 1 <= id <= MAX_JOBS + 1;
  ft_done : job_st j = JOB_STATE_DONE;
  ft_out : job_output_path j = out;
  ft_len : 0 < strlen out < MAX_JOB_PATH;
  ft_meta : job_res_kind j = JOB_RESULT_PNG /\ job_result_filename j = "stego_result.png"%string /\
              job_result_size j = Z.of_nat (length data);
  ft_data : w_fs (sv_world s) !! out = Some data;
  ft_readable : out ∉ w_denied (sv_world s);
  ft_io : w_io (sv_world s) = [];
  ft_text : exists w, stego_decode (Some out) (sv_world s) = (inr (extracted STEGO_PAYLOAD_TEXT [] text), w)
}.

(** The state after the request, whatever was sent and received since. *)
Lemma turn_fetchable i fd k png text rest p1 p2 out e s s0 socks :
  ready i fd k png text p1 p2 s -> hideable png text out s -> ti_cancels e = [] ->
  handle_client_command i s = Some (tt, s0) -> accepted_text i fd k png text rest p1 p2 s s0 ->
  srv_inv (sv_set_socks socks s0) ->
  let id := jt_next_id (sv_jobs s) in
  exists l j data, sv_socks (worker_turn e (sv_set_socks socks s0)) = socks /\
    fetchable i fd id l j out text data (worker_turn e (sv_set_socks socks s0)).
Proof.
  intros Hr Hh He Hrun0 Hat Hi0 id.
  pose proof Hat as [_ Ho1 (w & Hst & Hw) (l & now & Hnew & Hheap & Hq) Hrun Hg Hc _].
  set (j := new_job _ _ _ _ _ _ _ now) in Hheap. set (s1 := sv_set_socks socks s0) in *.
  assert (Hj : sv_heap s1 !! l = Some j) by (change (sv_heap s1) with (sv_heap s0); rewrite Hheap; apply lookup_insert_eq).
  specialize (Hq [] (hb_idle _ _ _ _ Hh)). simpl in Hq.
  pose proof (handle_client_command_spec i s (rd_inv _ _ _ _ _ _ _ _ Hr) (proj1 (rd_own _ _ _ _ _ _ _ _ Hr))) as Hf.
  unfold wpS in Hf. rewrite Hrun0 in Hf. destruct Hf as [Hi1 Hf].
  assert (Htr : tracked s0) by (apply (submits_tracked s); [apply Hr|done|apply Hf|apply Hh]).
  assert (Hw1 : sv_world s1 = w) by exact Hw.
  assert (Hsys : sys_inv s1) by (constructor; [done|exact Htr|rewrite Hw1; apply Hst, Hh|done]).
  pose proof (new_job_request _ _ _ _ _ _ _ _ _ _ _ l now Hr Hh (hb_crc _ _ _ _ Hh) Hat Hj) as Ht.
  destruct (turn_encodes e s1 l [] j out text Hq Hrun He Hj Ht) as (j2 & Hj2 & Hst2 & Hout2 & Hk2 & Hn2 & data & Hz2 & [Hcrc2 Hm2 _] & Hdata & Hdec).
  pose proof (turn_works e s1 l [] Hsys Hq) as Htu. pose proof (turn_kept_holds e s1) as [Htab Hcl Hso _ _ _].
  destruct (turn_evolves e s1 Hsys) as [[Hi2 _ _ _] _]. set (s2 := worker_turn e s1) in *.
  exists l, j2, data. split; [done|]. constructor; try done.
  - unfold session. rewrite Hcl. change (sv_clients s1) with (sv_clients s0). rewrite Hc. apply Hr.
  - destruct (tu_job _ _ _ _ Htu) as (j0 & j0' & Hj0 & Hj0' & Hsame & _).
    assert (j0 = j) as -> by congruence. assert (j0' = j2) as -> by congruence. apply Hsame.
  - apply next_id_small, Hr.
  - by eapply result_path_fits, Hh.
  - rewrite (tu_denied _ _ _ _ Htu), Hw1, (step_denied _ _ _ _ _ Hst). apply Hh.
  - apply (tu_io _ _ _ _ Htu). rewrite Hw1. apply Hst, Hr.
  - destruct (stego_decode_run (Some out) _ Hcrc2) as (r & w2 & Hrun2 & _ & Hr2). exists w2. by rewrite Hrun2, (Hr2 Hm2), Hdec.
Qed.

Lemma handle_download_fetch i fd id l j out text data k rest s :
  fetchable i fd id l j out text data s -> sv_socks s !! fd = Some k -> calm k ->
  cn_in k = bytes_of_string (print_request (req_id PROTO_CMD_DOWNLOAD id)) ++ rest -> Z.of_nat (length data) < 2 ^ 63 ->
  exists s' k', handle_client_command i s = Some (tt, s') /\ sv_socks s' !! fd = Some k' /\
    cn_in k' = rest /\ cn_out k' = cn_out k ++ download_text data.
Proof. intros [] Hk Hc Hin Hsize. subst out. by eapply (handle_download i fd id l j k data rest). Qed.
End end_to_end.
