(* ===== verification/ThreadsText.v ===== *)
(** * A text that is hidden while everything else goes on

    From the bytes of a request on the socket of a client to the bytes that
    are downloaded: an iteration of the event loop takes the request, any
    interleaving of the workers and of further iterations carries out the job,
    and whoever asks for its result gets an image in which the text is found. *)

From S2P Require Export ThreadsResult EndToEnd.
#[local] Open Scope Z_scope.

(** ** The iteration that takes a request *)

(** [poll] reports events of the client with the descriptor [fd] only. *)
Record only_request (fixed : list Z) (inp : poll_input) (fd : Z) (s : server) : Prop := OnlyRequest {
  or_fixed : length fixed = 5%nat;
  or_stack : length (pi_stack inp) = Z.to_nat MAX_POLL_FDS;
  or_ready : exists ready, pi_ready inp = Some ready /\ 0 < ready;
  or_events : let (pfds, n) := rebuild_pollfds fixed (sv_clients s) (pi_stack inp) in
    let pfds := set_revents (take n (pi_revents inp)) pfds in
    (forall m, (m < 5)%nat -> readable pfds m = false) /\
    forall fd', reported (drop 5 (take n pfds)) fd' = (fd' =? fd)
}.

Lemma by_descriptor_none n j events s :
  (forall m, (j <= m)%nat -> cs_active (session s m) && events (cs_fd (session s m)) = false) ->
  by_descriptor n j events s = Some (tt, s).
Proof.
  revert j. induction n as [|n IH]; intros j H; [done|]. cbn [by_descriptor].
  unfold client_at, mbind, Srv_bind, gets. fold (session s j). rewrite H by done. apply IH. intros m Hm. apply H. lia.
Qed.

Lemma by_descriptor_one n j i fd events s s' :
  srv_inv s -> own i fd s -> (forall fd', events fd' = (fd' =? fd)) -> (j <= i < j + n)%nat ->
  handle_client_command i s = Some (tt, s') -> sv_clients s' = sv_clients s ->
  by_descriptor n j events s = Some (tt, s').
Proof.
  intros Hi [Ha Hfd] Hev Hj Hrun Hc.
  assert (Hother : forall m, m <> i -> cs_active (session s m) && events (cs_fd (session s m)) = false).
  { intros m Hm. rewrite Hev. destruct (cs_active (session s m)) eqn:Hma; [|done].
    destruct (Z.eqb_spec (cs_fd (session s m)) fd); [|done]. destruct Hm. apply (si_distinct _ Hi); congruence. }
  revert j Hj. induction n as [|n IH]; intros j Hj; [lia|]. cbn [by_descriptor].
  unfold client_at, mbind, Srv_bind, gets. fold (session s j). destruct (decide (j = i)) as [->|Hne].
  - rewrite Ha, Hev, Hfd, Z.eqb_refl. cbn [andb]. rewrite Hrun. apply by_descriptor_none.
    intros m Hm. assert (Hs : session s' m = session s m) by (unfold session; by rewrite Hc). rewrite Hs. apply Hother. lia.
  - rewrite Hother by done. apply IH. lia.
Qed.

Lemma kick_loop_none n j s : unmarked s -> kick_loop n j s = Some (tt, s).
Proof.
  intros Hm. revert j. induction n as [|n IH]; intros j; [done|]. cbn [kick_loop].
  unfold client_at, mbind, Srv_bind, gets. fold (session s j) (kicked (session s j)). rewrite Hm. apply IH.
Qed.

Lemma own_slot i fd s : srv_inv s -> own i fd s -> (i < Z.to_nat MAX_CLIENTS)%nat.
Proof.
  intros Hi [Ha _]. rewrite <-(si_clients _ Hi). destruct (decide (i < length (sv_clients s))%nat); [done|].
  unfold session in Ha. rewrite nth_overflow in Ha by lia. discriminate Ha.
Qed.

(** Such an iteration is the command of that client. *)
Lemma poll_one fixed inp i fd s s' :
  srv_inv s -> own i fd s -> unmarked s -> only_request fixed inp fd s ->
  handle_client_command i s = Some (tt, s') -> sv_clients s' = sv_clients s ->
  poll_iteration fixed inp s = Some (LoopContinue, s').
Proof.
  intros Hi Ho Hm [Hf Hs (ready & Hready & Hpos) Hev] Hrun Hc.
  pose proof (loop_by_descriptor fixed s (pi_stack inp) (pi_revents inp) Hi Hf Hs) as Hloop.
  unfold poll_iteration. unfold gets, mbind at 1, Srv_bind at 1.
  destruct (rebuild_pollfds _ _ _) as [pfds n]. cbv zeta in *. destruct Hev as [Hfixed Hev].
  rewrite Hready. destruct (Z.ltb_spec ready 0); [lia|]. destruct (Z.ltb_spec 0 ready); [|lia].
  rewrite !Hfixed by lia. unfold mbind, Srv_bind, mret, Srv_ret. rewrite Hloop.
  pose proof (own_slot i fd s Hi Ho).
  rewrite (by_descriptor_one (Z.to_nat MAX_CLIENTS) 0 i fd _ s s' Hi Ho Hev ltac:(lia) Hrun Hc).
  rewrite kick_loop_none; [done|]. intros m. unfold session. rewrite Hc. apply Hm.
Qed.

(** ** The sessions of the program *)

Section text.
Context {L : LibPng} {LL : LibPngLaws L}.

Lemma acts_sessions n e c c' : worker_acts n e c = Some c' -> sv_clients (pr_server c') = sv_clients (pr_server c).
Proof.
  unfold worker_acts. destruct (pr_threads c !! n) as [[i code]|]; [|done]. cbn. unfold thread_acts. cbn.
  destruct code as [[[]|]|B op k]; cbn; intros H; try discriminate H; try (by injection H as <-).
  destruct (op (seen e (pr_server c))) as [b w]. by injection H as <-.
Qed.

(** Between two iterations no session waits to be closed. *)
Lemma steps_unmarked fixed live c c' ps :
  rtc (program_step fixed) c c' -> program_inv live c ps -> unmarked (pr_server c) -> unmarked (pr_server c').
Proof.
  intros H. revert ps. induction H as [c|c1 c2 c3 H1 _ IH]; intros ps Hp Hm; [done|].
  destruct (program_step_inv _ _ _ _ _ Hp H1) as [[ps2 Hp2] _]. apply (IH ps2 Hp2).
  destruct H1 as [inp s' Hin Hpoll|n e c2 Hact].
  - pose proof (poll_unmarked fixed inp _ (hi_srv _ _ _ (pi_hands _ _ _ Hp)) Hin Hm) as H1.
    unfold wpS in H1. by rewrite Hpoll in H1.
  - intros m. unfold session. rewrite (acts_sessions _ _ _ _ Hact). apply Hm.
Qed.

Lemma init_unmarked w g m al ck n : unmarked (server_init w g m al ck n).
Proof. intros j. by rewrite session_init. Qed.

(** ** The download *)

(** The user at [i] asks for the result of the job [id]. *)
Record asks_result (i : nat) (fd id : Z) (k : conn) (rest : list Z) (s : server) : Prop := AsksResult {
  ar_own : own i fd s;
  ar_user : cs_type (session s i) = CLIENT_TYPE_USER;
  ar_sock : sv_socks s !! fd = Some k;
  ar_calm : calm k;
  ar_request : cn_in k = bytes_of_string (print_request (req_id PROTO_CMD_DOWNLOAD id)) ++ rest
}.

(** What any user gets who asks for the result [data] of the job. *)
Definition served (id : Z) (data : list Z) (s : server) : Prop :=
  forall i fd k rest, asks_result i fd id k rest s -> Z.of_nat (length data) < 2 ^ 63 ->
    exists s' k', handle_client_command i s = Some (tt, s') /\ sv_socks s' !! fd = Some k' /\
      cn_in k' = rest /\ cn_out k' = cn_out k ++ download_text data.

Lemma done_served live c ps l j out ex data :
  program_inv live c ps -> sv_heap (pr_server c) !! l = Some j -> job_st j = JOB_STATE_DONE ->
  job_output_path j = out -> 0 < strlen out < MAX_JOB_PATH -> out ∉ w_denied (sv_world (pr_server c)) ->
  1 <= job_id j <= MAX_JOBS + 1 -> hidden out ex data (sv_world (pr_server c)) ->
  served (job_id j) data (pr_server c).
Proof.
  intros Hp Hj Hst <- Hlen Hden Hid ([_ _ Hio] & Hdata & _) i fd k rest [Ho Hu Hk Hc Hin] Hsize.
  eapply (handle_download i fd (job_id j) l j k data rest); try done. apply (hi_srv _ _ _ (pi_hands _ _ _ Hp)).
Qed.

(** ** The whole exchange *)

(** C2: a user of the running server asks to hide a text in an image with room
    for it, whatever the workers and the other clients are doing.  The
    iteration of the event loop that takes the request reads exactly its bytes
    and answers with the identifier of a new job; then, after any
    interleaving of the actions of any number of workers with any further
    iterations, the job is still there, and when it has ended without being
    cancelled it is DONE, and whoever asks for its result is sent the bytes of
    a file that decodes to exactly the text. *)
Theorem text_hidden_by_threads fixed w g max allocs clock nt workers c inp i fd k png text rest p1 p2 out :
  inotify_reads_ok (nt_inotify nt) -> crc_inv (w_crc w) -> rooted g ->
  rtc (program_step fixed) (program_init (server_init w g max allocs clock nt) workers) c ->
  let s := pr_server c in let id := jt_next_id (sv_jobs s) in
  ready i fd k png text p1 p2 s -> roomy png text out s -> input_ok inp -> only_request fixed inp fd s ->
  cn_in k = bytes_of_string (print_request (encode_text_request png text)) ++ png ++ text ++ rest ->
  exists s1 l, poll_iteration fixed inp s = Some (LoopContinue, s1) /\
    (exists k1, sv_socks s1 !! fd = Some k1 /\ cn_in k1 = rest /\
       cn_out k1 = cn_out k ++ bytes_of_string ("JOB " +:+ print_u id +:+ nl)) /\
    forall c2, rtc (program_step fixed) (Program s1 (pr_threads c)) c2 ->
      exists j, sv_heap (pr_server c2) !! l = Some j /\ job_id j = id /\
        (state_is_final (job_st j) = true -> job_cancel_requested j = false ->
         job_st j = JOB_STATE_DONE /\ exists data,
           hidden out (extracted STEGO_PAYLOAD_TEXT [] text) data (sv_world (pr_server c2)) /\
           served id data (pr_server c2)).
Proof.
  intros Hn Hcrc Hr H1 s id Hready Hroom Hin Honly Hbytes.
  pose proof (program_init_inv _ workers (server_init_sys w g max allocs clock nt Hn Hcrc)) as H0.
  pose proof (steps_unmarked _ _ _ _ _ H1 H0 (init_unmarked _ _ _ _ _ _)) as Hm.
  destruct (program_steps_inv _ _ _ _ _ H1 H0) as [[ps Hp] Hk].
  pose proof (pi_hands _ _ _ Hp) as Hhi. pose proof (pk_storage _ _ Hk) as Hg. fold s in Hm, Hhi, Hg. cbn in Hg.
  destruct (encode_text_submitted i fd k png text rest p1 p2 s Hready Hbytes) as (s1 & Hrun & Hat).
  pose proof Hat as [Hi1 _ (w1 & Hst & Hw) (l & now & Hnew & Hheap & Hq) _ Hg1 Hc1 (k1 & Hk1 & Hin1 & Hout1 & _)].
  set (j0 := new_job _ _ _ _ _ _ _ now) in Hheap.
  assert (Hj0 : sv_heap s1 !! l = Some j0) by (rewrite Hheap; apply lookup_insert_eq).
  pose proof (poll_one fixed inp i fd s s1 (rd_inv _ _ _ _ _ _ _ _ Hready) (rd_own _ _ _ _ _ _ _ _ Hready) Hm Honly Hrun Hc1) as Hpoll.
  exists s1, l. split; [exact Hpoll|]. split; [by exists k1|]. intros c2 H2.
  set (c1 := Program s1 (pr_threads c)) in *.
  assert (Hstep : program_step fixed c c1) by exact (step_server _ _ _ _ Hin Hpoll).
  pose proof (rtc_r _ _ _ H1 Hstep) as H01. destruct (program_step_inv _ _ _ _ _ Hp Hstep) as [[ps1 Hp1] Hk1'].
  destruct (program_steps_inv _ _ _ _ _ H2 Hp1) as [[ps2 Hp2] Hk2].
  destruct (pk_jobs _ _ Hk2 l j0 Hj0) as (j & Hj & [Hid _] & _). exists j. split_and!; [done|by rewrite Hid|].
  intros Hf Hc. destruct (si_queue _ (hi_srv _ _ _ Hhi)) as (js & Hjs & _).
  assert (Hl : l ∈ js ++ [l]) by (apply elem_of_app; right; by apply list_elem_of_singleton).
  pose proof (new_job_request i fd k png text rest p1 p2 out s s1 l now Hready Hroom (hi_crc _ _ _ Hhi) Hat Hj0) as Hreq.
  rewrite Hg1, Hg in Hreq.
  pose proof (reached_owned _ _ _ _ _ _ _ _ _ Hn Hcrc H01 _ l j0 (Hq js Hjs) Hl Hj0) as Hown.
  destruct (hide_result fixed g _ c1 c2 ps1 (js ++ [l]) l j0 j out STEGO_PAYLOAD_TEXT text Hp1
    (eq_trans Hg1 Hg) Hr (Hq js Hjs) Hl Hj0 Hown Hreq H2 Hj Hf Hc) as (Hst2 & Hout & _ & _ & data & _ & Hhid).
  split; [done|]. exists data. split; [exact Hhid|]. change id with (job_id j0). rewrite <-Hid.
  eapply (done_served _ c2 ps2 l j out); try done.
  - by eapply result_path_fits, Hroom.
  - rewrite (pk_denied _ _ Hk2), (pk_denied _ _ Hk1'). apply Hroom.
  - rewrite Hid. apply next_id_small, Hready.
Qed.
End text.
