(* ===== verification/Client.v ===== *)
(** * The command-line client (src/src/client/main.c)

    The client connects to the port of the users, sends one request with the
    files it announces, polls the state of its job and saves the result.  Its
    connection is a [conn] whose incoming bytes are what the server answers
    before it closes (a server that is silent without closing would block the
    client in [read_line] or [read_exact], see Net.v);
    its files are a [world].  The output on the terminal is kept as the list
    of what was printed; messages on the error stream are not modelled. *)

From S2P Require Export Protocol Storage Startup.
#[local] Open Scope Z_scope.

(** ** State *)

Record client := Client {
  cl_conn : conn;
  cl_world : world;
  cl_stdout : list string;
  cl_slept : Z                 (* milliseconds *)
}.

Definition Cl (A : Type) : Type := client -> option (A * client).

#[export] Instance Cl_ret : MRet Cl := fun A a c => Some (a, c).
#[export] Instance Cl_bind : MBind Cl := fun A B f m c =>
  match m c with Some (a, c) => f a c | None => None end.

(** A transfer of net.c, a call on files, and a transfer between both. *)
Definition on_conn {A} (f : conn -> option (A * conn)) : Cl A := fun c =>
  match f (cl_conn c) with
  | Some (a, k) => Some (a, Client k (cl_world c) (cl_stdout c) (cl_slept c))
  | None => None
  end.

Definition on_files {A} (m : M A) : Cl A := fun c =>
  let (a, w) := m (cl_world c) in Some (a, Client (cl_conn c) w (cl_stdout c) (cl_slept c)).

Definition on_both {A} (f : conn -> M (option (A * conn))) : Cl A := fun c =>
  match f (cl_conn c) (cl_world c) with
  | (Some (a, k), w) => Some (a, Client k w (cl_stdout c) (cl_slept c))
  | (None, _) => None
  end.

Definition print (text : string) : Cl unit := fun c =>
  Some (tt, Client (cl_conn c) (cl_world c) (cl_stdout c ++ [text]) (cl_slept c)).

Definition nanosleep (ms : Z) : Cl unit := fun c =>
  Some (tt, Client (cl_conn c) (cl_world c) (cl_stdout c) (cl_slept c + ms)).

(** ** Lines *)

Definition recv_line (buf_size : Z) : Cl (Z * string) :=
  on_conn (fun k =>
    match read_line k buf_size with
    | Some (n, bytes, k) => Some ((n, cstr_of_bytes bytes), k)
    | None => None
    end).

(** [expect_line]: the line, [None] for the result [-1]. *)
Definition expect_line : Cl (option string) :=
  r ← recv_line BUFFER_SIZE;
  if fst r <=? 0 then mret None else
  _ ← print ("<< " +:+ snd r); mret (Some (snd r)).

Definition read_banner : Cl Z :=
  r ← recv_line BUFFER_SIZE;
  if fst r <=? 0 then mret (-1) else
  _ ← print ("<< " +:+ snd r); mret 0.

Definition send_line (line : string) : Cl Z :=
  _ ← print (">> " +:+ line);
  rc ← on_conn (fun k => write_all k (Some (bytes_of_string line)));
  if rc <? 0 then mret (-1) else mret 0.

(** ** Files *)

(** The result and, on the way, the size stored in [*size_out]. *)
Definition send_file_bytes (path : string) : Cl Z :=
  fp ← on_files (fopen_rb path);
  match fp with
  | None => mret (-1)
  | Some data =>
      ok ← on_files stdio;                     (* fseek to the end *)
      if negb ok then _ ← on_files fclose; mret (-1) else
      ok ← on_files stdio;                     (* ftell *)
      if negb ok then _ ← on_files fclose; mret (-1) else
      ok ← on_files stdio;                     (* fseek to the start *)
      if negb ok then _ ← on_files fclose; mret (-1) else
      on_both (send_loop (S (length data)) data)
  end.

(** ** Waiting for a job *)

Fixpoint wait_loop (fuel : nat) (job_id : Z) : Cl Z :=
  match fuel with
  | O => mret (-1)
  | S fuel =>
      rc ← send_line (snprintf_s 64 ("STATUS " +:+ print_u job_id +:+ nl));
      if rc <? 0 then mret (-1) else
      line ← expect_line;
      match line with
      | None => mret (-1)
      | Some buf =>
          if bool_decide (is_Some (strstr buf "DONE")) then mret 0 else
          if bool_decide (is_Some (strstr buf "FAILED")) then mret (-1) else
          if bool_decide (is_Some (strstr buf "CANCELED")) then mret (-1) else
          _ ← nanosleep 250;
          wait_loop fuel job_id
      end
  end.

(** [fuel] is the bound of the loop itself.  What is counted is the sleep between
    the polls, not the time that the server takes to answer. *)
Definition wait_for_done (job_id : Z) : Cl Z := wait_loop 120 job_id.

(** ** Answers *)

Definition parse_job_id (line : string) : Z :=
  match strstr line "JOB " with
  | None => 0
  | Some p => st_value (strtoull (str_drop 4 p))
  end.

Definition parse_data_size (line : string) : Z :=
  match strip_prefix "DATA " line with
  | None => -1
  | Some rest => st_value (strtol rest)
  end.

(** The loop of [download_result]; [acc] was written to the stream.  The
    result of every [fclose] is ignored: when its flush fails, only a beginning
    of what was written is in the file. *)
Fixpoint save_loop (fuel : nat) (remaining : Z) (acc : list Z) (path : string) : Cl (option Z) :=
  match fuel with
  | O => mret None
  | S fuel =>
      if 0 <? remaining then
        let want := if remaining <? CHUNK_SIZE then remaining else CHUNK_SIZE in
        got ← on_conn (fun k => match read_exact k want with
                                | Some (r, bytes, k) => Some ((r, bytes), k)
                                | None => None
                                end);
        if fst got <=? 0 then _ ← on_files (flush path acc); _ ← on_files fclose; mret (Some (-1)) else
        ok ← on_files stdio;
        if negb ok then _ ← on_files (flush path acc); _ ← on_files fclose; mret (Some (-1)) else
        save_loop fuel (remaining - fst got) (acc ++ snd got) path
      else
        _ ← on_files (flush path acc);
        _ ← on_files fclose;
        mret (Some 0)
  end.

(** The iterations of the loop: each consumes a byte of the stream. *)
Definition save_bytes (size : Z) (path : string) : Cl Z := fun c =>
  match save_loop (S (length (cn_in (cl_conn c)))) size [] path c with
  | Some (Some rc, c) => Some (rc, c)
  | _ => None
  end.

Definition download_result (job_id : Z) (out_path : string) : Cl Z :=
  rc ← send_line (snprintf_s 64 ("DOWNLOAD " +:+ print_u job_id +:+ nl));
  if rc <? 0 then mret (-1) else
  line ← expect_line;
  match line with
  | None => mret (-1)
  | Some buf =>
      let size := parse_data_size buf in
      if size <? 0 then mret (-1) else
      ok ← on_files (fopen_wb out_path);
      if negb ok then mret (-1) else
      rc ← save_bytes size out_path;
      if rc <? 0 then mret (-1) else
      _ ← print ("   saved " +:+ print_d size +:+ " bytes to " +:+ out_path +:+ nl);
      mret 0
  end.

(** ** Commands *)

(** The answer to an upload: the identifier of the job, [0] for none. *)
Definition expect_job : Cl Z :=
  line ← expect_line;
  match line with
  | None => mret 0
  | Some buf => mret (parse_job_id buf)
  end.

Definition ask (verb : string) (job_id : Z) : Cl unit :=
  _ ← send_line (snprintf_s 64 (verb +:+ " " +:+ print_u job_id +:+ nl));
  _ ← expect_line; mret tt.

Definition cmd_encode_text (png_in text out_png : string) : Cl Z :=
  st ← on_files (get_file_size_bytes png_in);
  match st with
  | None => mret (-1)
  | Some png_size =>
      rc ← send_line (snprintf_s 256 ("ENCODE_TEXT " +:+ print_d png_size +:+ " " +:+ print_u (strlen text) +:+ nl));
      if rc <? 0 then mret (-1) else
      rc ← send_file_bytes png_in;
      if rc <? 0 then mret (-1) else
      rc ← on_conn (fun k => write_all k (Some (bytes_of_string text)));
      if rc <? 0 then mret (-1) else
      job_id ← expect_job;
      if job_id =? 0 then mret (-1) else
      rc ← wait_for_done job_id;
      if rc <? 0 then
        _ ← send_line ("RESULT 0" +:+ nl);
        _ ← ask "RESULT" job_id;
        mret (-1)
      else
        _ ← ask "META" job_id;
        download_result job_id out_png
  end.

Definition cmd_encode_file (png_in file_in out_png : string) : Cl Z :=
  s1 ← on_files (get_file_size_bytes png_in);
  match s1 with
  | None => mret (-1)
  | Some png_size =>
      s2 ← on_files (get_file_size_bytes file_in);
      match s2 with
      | None => mret (-1)
      | Some file_size =>
          let base := basename file_in in
          rc ← send_line (snprintf_s 256 ("ENCODE_FILE " +:+ print_d png_size +:+ " " +:+
                            print_u (strlen base) +:+ " " +:+ print_d file_size +:+ nl));
          if rc <? 0 then mret (-1) else
          rc ← send_file_bytes png_in;
          if rc <? 0 then mret (-1) else
          rc ← on_conn (fun k => write_all k (Some (bytes_of_string base)));
          if rc <? 0 then mret (-1) else
          rc ← send_file_bytes file_in;
          if rc <? 0 then mret (-1) else
          job_id ← expect_job;
          if job_id =? 0 then mret (-1) else
          rc ← wait_for_done job_id;
          if rc <? 0 then mret (-1) else
          download_result job_id out_png
      end
  end.

(** The requests that announce one image: the line is formatted into 128
    bytes, and the image follows. *)
Definition submit_image (verb png_in : string) : Cl Z :=
  s ← on_files (get_file_size_bytes png_in);
  match s with
  | None => mret 0
  | Some size =>
      rc ← send_line (snprintf_s 128 (verb +:+ " " +:+ print_d size +:+ nl));
      if rc <? 0 then mret 0 else
      rc ← send_file_bytes png_in;
      if rc <? 0 then mret 0 else
      expect_job
  end.

Definition cmd_decode (png_in out_path : string) : Cl Z :=
  job_id ← submit_image "DECODE" png_in;
  if job_id =? 0 then mret (-1) else
  rc ← wait_for_done job_id;
  if rc <? 0 then mret (-1) else
  _ ← ask "META" job_id;
  download_result job_id out_path.

Definition cmd_capacity (png_in : string) : Cl Z :=
  job_id ← submit_image "CAPACITY" png_in;
  if job_id =? 0 then mret (-1) else
  rc ← wait_for_done job_id;
  if rc <? 0 then mret (-1) else
  _ ← ask "RESULT" job_id; mret 0.

Definition cmd_validate (png_in : string) : Cl Z :=
  job_id ← submit_image "VALIDATE" png_in;
  if job_id =? 0 then mret (-1) else
  rc ← wait_for_done job_id;
  if rc <? 0 then mret (-1) else
  _ ← ask "RESULT" job_id; mret 0.

(** ** The program *)

Section connecting.
Context (pick : gset Z -> Z).

(** [inet_pton] and [connect] may fail. *)
Definition connect_to_server : Boot Z :=
  fd ← new_fd pick;
  if fd <? 0 then mret (-1) else
  ok ← sys; if negb ok then _ ← close fd; mret (-1) else
  ok ← sys; if negb ok then _ ← close fd; mret (-1) else
  mret fd.
End connecting.

(** What one command does; [None] prints the usage. *)
Definition client_command (args : list string) : option (Cl Z) :=
  match args with
  | cmd :: rest =>
      if String.eqb cmd "ping" then
        Some (_ ← send_line ("PING" +:+ nl);
              line ← expect_line;
              match line with None => mret (-1) | Some _ => mret 0 end)
      else match rest with
           | [a; b; c] =>
               if String.eqb cmd "encode-text" then Some (cmd_encode_text a b c)
               else if String.eqb cmd "encode-file" then Some (cmd_encode_file a b c) else None
           | [a; b] => if String.eqb cmd "decode" then Some (cmd_decode a b) else None
           | [a] => if String.eqb cmd "capacity" then Some (cmd_capacity a)
                    else if String.eqb cmd "validate" then Some (cmd_validate a) else None
           | _ => None
           end
  | [] => None
  end.

(** [main] with the arguments after the name of the program, and whether
    [connect_to_server] succeeded: the exit status. *)
Definition client_main (args : list string) (connected : bool) : Cl Z :=
  match args with
  | [] => mret 1
  | _ =>
      if negb connected then mret 1 else
      _ ← read_banner;
      match client_command args with
      | None => mret 1
      | Some command =>
          rc ← command;
          _ ← send_line ("QUIT" +:+ nl);
          _ ← expect_line;
          mret (if rc =? 0 then 0 else 1)
      end
  end.
