(* ===== verification/ClientCorrect.v ===== *)
(** * What the command-line client guarantees

    Whatever the network and the files do, a run of the client ends, closes
    its files, writes no file but the one named for the result, and waits at
    most thirty seconds.  On an undisturbed connection it sends exactly the
    requests of the protocol and saves exactly the bytes of the result. *)

From S2P Require Export Client StartupCorrect ServerSubmit.
#[local] Open Scope Z_scope.

(** ** The logic *)

Definition wpC {A} (m : Cl A) (Q : A -> client -> Prop) (c : client) : Prop :=
  match m c with Some (a, c') => Q a c' | None => False end.

Section wpC_rules.
Context {A B : Type}.

Lemma wpC_ret (a : A) (Q : A -> client -> Prop) c : Q a c -> wpC (mret a) Q c.
Proof. done. Qed.

Lemma wpC_bind (m : Cl A) (f : A -> Cl B) (Q : B -> client -> Prop) c :
  wpC m (fun a => wpC (f a) Q) c -> wpC (m ≫= f) Q c.
Proof. unfold wpC, mbind, Cl_bind. by destruct (m c) as [[]|]. Qed.

Lemma wpC_conseq (m : Cl A) (P Q : A -> client -> Prop) c :
  wpC m P c -> (forall a c', P a c' -> Q a c') -> wpC m Q c.
Proof. unfold wpC. destruct (m c) as [[]|]; auto. Qed.

Lemma wpC_run (m : Cl A) (Q : A -> client -> Prop) c :
  wpC m Q c -> exists a c', m c = Some (a, c') /\ Q a c'.
Proof. unfold wpC. destruct (m c) as [[a c']|]; [|done]. by exists a, c'. Qed.
End wpC_rules.

(** ** Every run *)

(** From [c] to [c']: [df] more handles are open, nothing but the file [out] may
    have changed, the client read and wrote, and slept [ms] at most. *)
Record ran (out : option string) (df ms : Z) (c c' : client) : Prop := Ran {
  rn_step : exists fs, step fs 0 df (cl_world c) (cl_world c') /\
              forall q, out <> Some q -> fs !! q = w_fs (cl_world c) !! q;
  rn_in : exists got, cn_in (cl_conn c) = got ++ cn_in (cl_conn c');
  rn_out : exists sent, cn_out (cl_conn c') = cn_out (cl_conn c) ++ sent;
  rn_slept : cl_slept c <= cl_slept c' <= cl_slept c + ms
}.

Lemma ran_refl out c : ran out 0 0 c c.
Proof.
  constructor; [|by exists []|exists []; by rewrite app_nil_r|lia].
  exists (w_fs (cl_world c)). split; [apply step_refl|done].
Qed.

Lemma ran_trans out d1 d2 n1 n2 c1 c2 c3 :
  ran out d1 n1 c1 c2 -> ran out d2 n2 c2 c3 -> ran out (d1 + d2) (n1 + n2) c1 c3.
Proof.
  intros [(fs1 & S1 & F1) (g1 & G1) (o1 & O1) L1] [(fs2 & S2 & F2) (g2 & G2) (o2 & O2) L2]. constructor.
  - exists fs2. split; [exact (step_trans _ _ _ _ _ _ _ _ _ S1 S2)|]. intros q Hq. rewrite F2 by done.
    by rewrite (step_fs _ _ _ _ _ S1), F1.
  - exists (g1 ++ g2). by rewrite G1, G2, app_assoc.
  - exists (o1 ++ o2). by rewrite O2, O1, app_assoc.
  - lia.
Qed.

Lemma ran_weaken out df n1 n2 c c' : n1 <= n2 -> ran out df n1 c c' -> ran out df n2 c c'.
Proof. intros Hn [H1 H2 H3 H4]. constructor; [done..|lia]. Qed.

Definition safeC {A} (out : option string) (df ms : Z) (m : Cl A) : Prop :=
  forall c, wpC m (fun _ c' => ran out df ms c c') c.

Section safe.
Context (out : option string).

Lemma safeC_ret {A} (a : A) : safeC out 0 0 (mret a).
Proof. intros c. apply wpC_ret, ran_refl. Qed.

Lemma safeC_bind {A B} d1 d2 n1 n2 (m : Cl A) (f : A -> Cl B) :
  safeC out d1 n1 m -> (forall a, safeC out d2 n2 (f a)) -> safeC out (d1 + d2) (n1 + n2) (m ≫= f).
Proof.
  intros Hm Hf c. apply wpC_bind. eapply wpC_conseq; [apply Hm|]. intros a c' H1.
  eapply wpC_conseq; [apply Hf|]. intros b c2 H2. exact (ran_trans _ _ _ _ _ _ _ _ H1 H2).
Qed.

Lemma safeC_then {A B} n (m : Cl A) (f : A -> Cl B) :
  safeC out 0 0 m -> (forall a, safeC out 0 n (f a)) -> safeC out 0 n (m ≫= f).
Proof. intros Hm Hf. by apply (safeC_bind 0 0 0 n). Qed.

Lemma safeC_weaken {A} df n1 n2 (m : Cl A) : n1 <= n2 -> safeC out df n1 m -> safeC out df n2 m.
Proof. intros Hn Hm c. eapply wpC_conseq; [apply Hm|]. intros a c'. by apply ran_weaken. Qed.

Lemma safeC_if {A} (b : bool) df n (m1 m2 : Cl A) :
  safeC out df n m1 -> safeC out df n m2 -> safeC out df n (if b then m1 else m2).
Proof. by destruct b. Qed.

Lemma safeC_print text : safeC out 0 0 (print text).
Proof. intros c. destruct (ran_refl out c). by constructor. Qed.

Lemma safeC_sleep ms : 0 <= ms -> safeC out 0 ms (nanosleep ms).
Proof. intros Hms c. destruct (ran_refl out c). constructor; simpl; try done. lia. Qed.

Lemma safeC_conn {A} (f : conn -> option (A * conn)) :
  (forall k, exists a k' got sent, f k = Some (a, k') /\ cn_in k = got ++ cn_in k' /\ cn_out k' = cn_out k ++ sent) ->
  safeC out 0 0 (on_conn f).
Proof.
  intros Hf c. unfold wpC, on_conn. destruct (Hf (cl_conn c)) as (a & k' & got & sent & -> & H1 & H2).
  destruct (ran_refl out c) as [Hs _ _ Hl]. constructor; simpl; [done|by exists got|by exists sent|done].
Qed.

(** A call on files that changes at most [out]. *)
Lemma safeC_files {A} df (m : M A) :
  (forall w, wp m (fun _ w' => exists fs, step fs 0 df w w' /\ forall q, out <> Some q -> fs !! q = w_fs w !! q) w) ->
  safeC out df 0 (on_files m).
Proof.
  intros Hm c. specialize (Hm (cl_world c)). unfold wpC, on_files. unfold wp in Hm.
  destruct (m (cl_world c)) as [a w']. destruct (ran_refl out c) as [_ Hi Ho Hl]. by constructor.
Qed.

Lemma safeC_write data : safeC out 0 0 (on_conn (fun k => write_all k (Some data))).
Proof.
  apply safeC_conn. intros k.
  destruct (write_loop_total (S (length (cn_wsched k) + length data)) data 0 k ltac:(lia))
    as (r & sent & k' & Heq & Ho & _ & _ & _ & Hi & _). exists r, k', [], sent. by rewrite Hi.
Qed.

Lemma safeC_line size : 0 < size -> safeC out 0 0 (recv_line size).
Proof.
  intros Hsize. apply safeC_conn. intros k. unfold read_line. rewrite (proj2 (Z.eqb_neq _ _)) by lia.
  destruct (read_line_loop_total (S (length (cn_rsched k) + Z.to_nat size)) size [] k)
    as (r & got & k' & -> & Hi & Ho & _); simpl length; [lia|lia|].
  eexists _, k', got, []. by rewrite app_nil_r.
Qed.

Lemma safeC_stdio : safeC out 0 0 (on_files stdio).
Proof. apply safeC_files. intros w. wp_step. eauto. Qed.

Lemma safeC_fclose : safeC out (-1) 0 (on_files fclose).
Proof. apply safeC_files. intros w. wp_step. eauto. Qed.

Lemma safeC_send_line line : safeC out 0 0 (send_line line).
Proof.
  apply safeC_then; [apply safeC_print|]. intros _. apply safeC_then; [apply safeC_write|]. intros rc.
  apply safeC_if; apply safeC_ret.
Qed.

Lemma safeC_expect : safeC out 0 0 expect_line.
Proof.
  apply safeC_then; [by apply safeC_line|]. intros r. apply safeC_if; [apply safeC_ret|].
  apply safeC_then; [apply safeC_print|]. intros _. apply safeC_ret.
Qed.

Lemma safeC_ask verb id : safeC out 0 0 (ask verb id).
Proof.
  apply safeC_then; [apply safeC_send_line|]. intros _. apply safeC_then; [apply safeC_expect|]. intros _. apply safeC_ret.
Qed.

Lemma safeC_job : safeC out 0 0 expect_job.
Proof. apply safeC_then; [apply safeC_expect|]. intros [buf|]; apply safeC_ret. Qed.

Lemma safeC_stat path : safeC out 0 0 (on_files (get_file_size_bytes path)).
Proof. apply safeC_files. intros w. unfold wp, get_file_size_bytes. exists (w_fs w). split; [apply step_refl|done]. Qed.

(** Closing on a failed call. *)
Lemma safeC_or_close (k : Cl Z) (Hk : safeC out (-1) 0 k) :
  safeC out (-1) 0 (ok ← on_files stdio; if negb ok then _ ← on_files fclose; mret (-1) else k).
Proof.
  apply (safeC_bind 0 (-1) 0 0); [apply safeC_stdio|]. intros [] ; cbn [negb]; [done|].
  apply (safeC_bind (-1) 0 0 0); [apply safeC_fclose|]. intros _. apply safeC_ret.
Qed.

Lemma safeC_send_loop data : safeC out (-1) 0 (on_both (send_loop (S (length data)) data)).
Proof.
  intros c. unfold wpC, on_both.
  pose proof (send_loop_full (S (length data)) data (cl_conn c) (cl_world c) ltac:(lia)) as H. unfold wp in H.
  destruct (send_loop _ _ _ _) as [r w']. destruct H as (rc & k' & sent & -> & Hst & Hin & _ & Hout & _).
  constructor; simpl; [|exists []; by rewrite Hin|by exists sent|lia]. by exists (w_fs (cl_world c)).
Qed.

Lemma safeC_open {B} path n (f : option (list Z) -> Cl B) :
  safeC out 0 n (f None) -> (forall data, safeC out (-1) n (f (Some data))) ->
  safeC out 0 n (on_files (fopen_rb path) ≫= f).
Proof.
  intros Hn Hs c. apply wpC_bind. unfold wpC at 1, on_files, fopen_rb.
  assert (Hsame : Client (cl_conn c) (cl_world c) (cl_stdout c) (cl_slept c) = c) by (by destruct c).
  case_decide; [rewrite Hsame; apply Hn|]. destruct (w_fs (cl_world c) !! path) as [data|]; [|rewrite Hsame; apply Hn].
  eapply wpC_conseq; [apply Hs|]. intros b c' H'. apply (ran_trans out 1 (-1) 0 n) with (2 := H').
  destruct (ran_refl out c) as [_ Hi Ho Hl]. constructor; try done. exists (w_fs (cl_world c)).
  split; [solve_step|done].
Qed.

Lemma safeC_send_file path : safeC out 0 0 (send_file_bytes path).
Proof.
  apply safeC_open; [apply safeC_ret|]. intros data. repeat apply safeC_or_close. apply safeC_send_loop.
Qed.

Lemma safeC_wait fuel id : safeC out 0 (250 * Z.of_nat fuel) (wait_loop fuel id).
Proof.
  induction fuel as [|fuel IH]; [apply safeC_ret|]. cbn [wait_loop].
  apply safeC_then; [apply safeC_send_line|]. intros rc.
  assert (Hret : forall r : Z, safeC out 0 (250 * Z.of_nat (S fuel)) (mret r))
    by (intros r; apply (safeC_weaken 0 0); [lia|apply safeC_ret]).
  apply safeC_if; [apply Hret|]. apply safeC_then; [apply safeC_expect|]. intros [buf|]; [|apply Hret].
  repeat (apply safeC_if; [apply Hret|]).
  replace (250 * Z.of_nat (S fuel)) with (250 + 250 * Z.of_nat fuel) by lia.
  apply (safeC_bind 0 0); [by apply safeC_sleep|]. by intros _.
Qed.
End safe.

(** ** Saving the result *)

Record saved (size : Z) (acc : list Z) (path : string) (c : client) (rc : Z) (c' : client) : Prop := Saved {
  sd_ran : ran (Some path) (-1) 0 c c';
  sd_rc : rc = 0 \/ rc = -1;
  sd_out : cn_out (cl_conn c') = cn_out (cl_conn c);
  sd_ok : rc = 0 -> exists got, cn_in (cl_conn c) = got ++ cn_in (cl_conn c') /\ Z.of_nat (length got) = size /\
            (w_io (cl_world c) = [] -> w_fs (cl_world c') !! path = Some (acc ++ got));
  sd_calm : calm (cl_conn c) -> w_io (cl_world c) = [] -> size <= Z.of_nat (length (cn_in (cl_conn c))) ->
            rc = 0 /\ calm (cl_conn c')
}.

Lemma read_exact_total k want :
  0 <= want -> exists r got k', read_exact k want = Some (r, got, k') /\ cn_in k = got ++ cn_in k' /\
    cn_out k' = cn_out k /\ (r = -1 \/ r = Z.of_nat (length got)) /\ Z.of_nat (length got) <= want /\
    (calm k -> got = take (Z.to_nat want) (cn_in k) /\ r = Z.of_nat (length got) /\ calm k').
Proof.
  intros Hw. unfold read_exact.
  destruct (read_exact_loop_total (S (length (cn_rsched k) + Z.to_nat want)) want [] k)
    as (r & got & k' & Heq & H1 & H2 & H3 & H4 & H5 & H6); simpl length; [lia|lia|].
  exists r, got, k'. change (Z.of_nat (length [])) with 0 in H6. rewrite Z.sub_0_r in H6. cbn [app] in *.
  split_and!; try done. intros [Hr Hws]. destruct (H6 Hr) as (-> & -> & Hq). split_and!; [done|done|].
  split; [done|]. by rewrite H3.
Qed.

(** A step of the client that changes the connection, and one that changes the
    files. *)
Lemma ran_conn out k got c :
  cn_in (cl_conn c) = got ++ cn_in k -> cn_out k = cn_out (cl_conn c) ->
  ran out 0 0 c (Client k (cl_world c) (cl_stdout c) (cl_slept c)).
Proof.
  intros Hi Ho. constructor; simpl; [|by exists got|exists []; by rewrite app_nil_r|lia].
  exists (w_fs (cl_world c)). split; [apply step_refl|done].
Qed.

Lemma ran_world out fs df w c :
  step fs 0 df (cl_world c) w -> (forall q, out <> Some q -> fs !! q = w_fs (cl_world c) !! q) ->
  ran out df 0 c (Client (cl_conn c) w (cl_stdout c) (cl_slept c)).
Proof. intros Hs Hf. constructor; simpl; [by exists fs|by exists []|exists []; by rewrite app_nil_r|lia]. Qed.

Lemma other_path (fs : gmap string (list Z)) data path q : Some path <> Some q -> <[path := data]> fs !! q = fs !! q.
Proof. intros Hq. apply lookup_insert_ne. congruence. Qed.

(** The [fclose] of the file of the result. *)
Lemma close_step path acc c r (Q : option Z -> client -> Prop) :
  (forall c', ran (Some path) (-1) 0 c c' -> cl_conn c' = cl_conn c ->
     (w_io (cl_world c) = [] -> w_fs (cl_world c') !! path = Some acc) -> Q r c') ->
  wpC (_ ← on_files (flush path acc); _ ← on_files fclose; mret r) Q c.
Proof.
  intros HQ. apply wpC_bind. unfold wpC at 1, on_files.
  assert (H : wp (flush path acc) (fun _ w' => exists kept, step (<[path := kept]> (w_fs (cl_world c))) 0 0 (cl_world c) w' /\
    (w_io (cl_world c) = [] -> kept = acc)) (cl_world c)).
  { apply wp_flush. intros b kept w' Hs _ Hk Hb. exists kept. split; [done|auto]. }
  unfold wp in H. destruct (flush path acc (cl_world c)) as [b w']. destruct H as (kept & Hs & Hk).
  apply wpC_bind. unfold wpC at 1, on_files, fclose. apply wpC_ret. cbn [cl_conn cl_world cl_stdout cl_slept].
  apply HQ; [|done|].
  - apply (ran_world _ (<[path := kept]> (w_fs (cl_world c)))); [|intros q; apply other_path].
    clear -Hs. steps.
  - intros Hio. destruct Hs as [Hfs _ _ _ _ _ _]. cbn [w_fs cl_world set_files].
    by rewrite Hfs, lookup_insert_eq, Hk.
Qed.

(** The branches that give up keep what was saved so far. *)
Lemma save_abandon size acc acc' path c c1 :
  ran (Some path) 0 0 c c1 -> cn_out (cl_conn c1) = cn_out (cl_conn c) ->
  (calm (cl_conn c) -> w_io (cl_world c) = [] -> size <= Z.of_nat (length (cn_in (cl_conn c))) -> False) ->
  wpC (_ ← on_files (flush path acc'); _ ← on_files fclose; mret (Some (-1)))
    (fun r c' => exists rc, r = Some rc /\ saved size acc path c rc c') c1.
Proof.
  intros Hran Hout Hcalm. apply close_step. intros c' Hc' Hk _. exists (-1). split; [done|].
  constructor; [|by right|by rewrite Hk|done|by intros H1 H2 H3; destruct (Hcalm H1 H2 H3)].
  apply (ran_trans _ 0 (-1) 0 0 _ _ _ Hran Hc').
Qed.

(** Any branch on the outcome of a stdio call. *)
Lemma stdio_step out c (f : bool -> Cl (option Z)) (Q : option Z -> client -> Prop) :
  (forall ok c1, ran out 0 0 c c1 -> cl_conn c1 = cl_conn c -> w_fs (cl_world c1) = w_fs (cl_world c) ->
     (w_io (cl_world c) = [] -> ok = true /\ w_io (cl_world c1) = []) -> wpC (f ok) Q c1) ->
  wpC (on_files stdio ≫= f) Q c.
Proof.
  intros HQ. apply wpC_bind. unfold wpC at 1, on_files.
  assert (H : wp stdio (fun ok w' => step (w_fs (cl_world c)) 0 0 (cl_world c) w' /\
    (w_io (cl_world c) = [] -> ok = true)) (cl_world c)) by (wp_step; done).
  unfold wp in H. destruct (stdio (cl_world c)) as [ok w']. destruct H as [Hs Hok]. apply HQ; try done.
  - by apply (ran_world _ _ _ _ _ Hs).
  - apply Hs.
  - intros Hio. split; [by apply Hok|by apply Hs].
Qed.

Lemma save_loop_spec fuel size acc path c :
  0 <= size -> (length (cn_in (cl_conn c)) < fuel)%nat ->
  wpC (save_loop fuel size acc path) (fun r c' => exists rc, r = Some rc /\ saved size acc path c rc c') c.
Proof.
  revert size acc c. induction fuel as [|fuel IH]; intros size acc c Hsize Hf; [lia|]. cbn [save_loop].
  destruct (Z.ltb_spec 0 size) as [Hpos|Hz].
  - set (want := if size <? CHUNK_SIZE then size else CHUNK_SIZE). cbv zeta.
    assert (Hwant : 0 < want <= size) by (subst want; unfold CHUNK_SIZE; destruct (Z.ltb_spec size 65536); lia).
    destruct (read_exact_total (cl_conn c) want) as (r & got & k & Hread & Hin & Hout & Hr & Hlen & Hcalm); [lia|].
    apply wpC_bind. unfold wpC at 1, on_conn. rewrite Hread. cbn [fst snd].
    pose proof (ran_conn (Some path) k got c Hin Hout) as H1. set (c1 := Client k _ _ _) in *.
    destruct (Z.leb_spec r 0) as [Hr0|Hr0].
    { apply save_abandon; [done|done|]. intros Hc _ Hlong. destruct (Hcalm Hc) as (-> & -> & _).
      rewrite length_take in Hr0. lia. }
    assert (r = Z.of_nat (length got)) as -> by lia.
    apply (stdio_step (Some path)). intros ok c2 H2 Hk2 _ Hok. destruct ok; cbn [negb].
    2: { apply save_abandon; [exact (ran_trans _ 0 0 0 0 _ _ _ H1 H2)|by rewrite Hk2|].
         intros _ Hio _. by destruct (Hok Hio). }
    assert (Hc2 : cl_conn c2 = k) by (by rewrite Hk2).
    eapply wpC_conseq; [apply IH; [lia|rewrite Hc2; rewrite Hin, length_app in Hf; lia]|].
    intros r' c' (rc & -> & [S1 S2 S3 S4 S5]). exists rc. split; [done|]. rewrite Hc2 in *. constructor; [|done|..].
    + exact (ran_trans _ 0 (-1) 0 0 _ _ _ H1 (ran_trans _ 0 (-1) 0 0 _ _ _ H2 S1)).
    + congruence.
    + intros Hrc. destruct (S4 Hrc) as (got' & G1 & G2 & G3). exists (got ++ got'). split_and!.
      * by rewrite <-app_assoc, <-G1.
      * rewrite length_app. lia.
      * intros Hio. rewrite G3, <-app_assoc; [done|]. by destruct (Hok Hio).
    + intros Hc Hio Hlong. destruct (Hcalm Hc) as (Hg & _ & Hk). apply S5; [done|by destruct (Hok Hio)|].
      rewrite Hin, length_app in Hlong. lia.
  - apply close_step. intros c' Hc' Hk Hfile. exists 0. split; [done|]. constructor; [done|by left|by rewrite Hk|..].
    + intros _. exists []. rewrite Hk, app_nil_r. split_and!; [done|simpl; lia|done].
    + intros Hc _ _. by rewrite Hk.
Qed.

Lemma save_bytes_spec size path c :
  0 <= size -> wpC (save_bytes size path) (fun rc c' => saved size [] path c rc c') c.
Proof.
  intros Hsize. pose proof (save_loop_spec (S (length (cn_in (cl_conn c)))) size [] path c Hsize ltac:(lia)) as H.
  unfold wpC, save_bytes in *. destruct (save_loop _ _ _ _ c) as [[r c']|]; [|done]. by destruct H as (rc & -> & H).
Qed.

(** ** The commands *)

(** Opening the file of the result. *)
Lemma create_step {B} path (f : bool -> Cl B) (Q : B -> client -> Prop) c :
  (path ∈ w_denied (cl_world c) -> wpC (f false) Q c) ->
  (forall c1, path ∉ w_denied (cl_world c) -> ran (Some path) 1 0 c c1 -> cl_conn c1 = cl_conn c ->
     (w_io (cl_world c) = [] -> w_io (cl_world c1) = []) -> wpC (f true) Q c1) ->
  wpC (on_files (fopen_wb path) ≫= f) Q c.
Proof.
  intros Hn Hs. apply wpC_bind. unfold wpC at 1, on_files, fopen_wb. case_decide.
  - replace (Client _ _ _ _) with c by (by destruct c). by apply Hn.
  - apply Hs; try done. apply (ran_world _ (<[path := []]> (w_fs (cl_world c)))); [solve_step|intros q; apply other_path].
Qed.

Lemma safeC_download id path : safeC (Some path) 0 0 (download_result id path).
Proof.
  apply safeC_then; [apply safeC_send_line|]. intros rc. apply safeC_if; [apply safeC_ret|].
  apply safeC_then; [apply safeC_expect|]. intros [buf|]; [|apply safeC_ret]. cbv zeta.
  destruct (Z.ltb_spec (parse_data_size buf) 0) as [Hn|Hp]; [apply safeC_ret|]. intros c.
  apply create_step; [intros _; apply wpC_ret, ran_refl|]. intros c1 _ H1 _ _. cbn [negb]. apply wpC_bind.
  eapply wpC_conseq; [by apply save_bytes_spec|]. intros rc' c2 [H2 _ _ _ _].
  pose proof (ran_trans _ 1 (-1) 0 0 _ _ _ H1 H2) as H12. destruct (rc' <? 0); [by apply wpC_ret|].
  apply wpC_bind. eapply wpC_conseq; [apply safeC_print|]. intros [] c3 H3. apply wpC_ret.
  exact (ran_trans _ 0 0 0 0 _ _ _ H12 H3).
Qed.

(** The longest wait, in milliseconds. *)
Definition patience : Z := 30000.

Section commands.
Context (out : option string).

Lemma safeC_wait_for_done id : safeC out 0 patience (wait_for_done id).
Proof. apply (safeC_wait out 120). Qed.

Lemma safeC_done {A} (a : A) : safeC out 0 patience (mret a).
Proof. by apply (safeC_weaken out 0 0), safeC_ret. Qed.

Lemma safeC_waiting {A} id (f : Z -> Cl A) :
  (forall rc, safeC out 0 0 (f rc)) -> safeC out 0 patience (wait_for_done id ≫= f).
Proof. intros Hf. by apply (safeC_bind out 0 0 patience 0); [apply safeC_wait_for_done|]. Qed.

Lemma safeC_submit verb png : safeC out 0 0 (submit_image verb png).
Proof.
  apply safeC_then; [apply safeC_stat|]. intros [size|]; [|apply safeC_ret].
  apply safeC_then; [apply safeC_send_line|]. intros rc. apply safeC_if; [apply safeC_ret|].
  apply safeC_then; [apply safeC_send_file|]. intros rc'. apply safeC_if; [apply safeC_ret|]. apply safeC_job.
Qed.
End commands.

(** Follow the structure of a command. *)
Ltac safe_command :=
  repeat lazymatch goal with
    | |- safeC _ _ 0 (mret _) => apply safeC_ret
    | |- safeC _ _ patience (mret _) => apply safeC_done
    | |- safeC _ _ _ (match ?x with _ => _ end) =>
        lazymatch type of x with bool => apply safeC_if | _ => destruct x end
    | |- safeC _ _ 0 (send_line _) => apply safeC_send_line
    | |- safeC _ _ 0 expect_line => apply safeC_expect
    | |- safeC _ _ 0 expect_job => apply safeC_job
    | |- safeC _ _ 0 (ask _ _) => apply safeC_ask
    | |- safeC _ _ 0 (send_file_bytes _) => apply safeC_send_file
    | |- safeC _ _ 0 (submit_image _ _) => apply safeC_submit
    | |- safeC _ _ 0 (on_files (get_file_size_bytes _)) => apply safeC_stat
    | |- safeC _ _ 0 (on_conn _) => apply safeC_write
    | |- safeC _ _ 0 (download_result _ _) => apply safeC_download
    | |- safeC _ _ patience (download_result _ _) =>
        apply (safeC_weaken _ 0 0); [done|apply safeC_download]
    | |- safeC _ _ patience (wait_for_done _ ≫= _) => apply safeC_waiting; intros ?
    | |- safeC _ _ _ (_ ≫= _) => apply safeC_then; [|intros ?]
    end.

Lemma safeC_encode_text png text path : safeC (Some path) 0 patience (cmd_encode_text png text path).
Proof. unfold cmd_encode_text. safe_command. Qed.

Lemma safeC_encode_file png file path : safeC (Some path) 0 patience (cmd_encode_file png file path).
Proof. unfold cmd_encode_file. safe_command. Qed.

Lemma safeC_decode png path : safeC (Some path) 0 patience (cmd_decode png path).
Proof. unfold cmd_decode. safe_command. Qed.

Lemma safeC_capacity out png : safeC out 0 patience (cmd_capacity png).
Proof. unfold cmd_capacity. safe_command. Qed.

Lemma safeC_validate out png : safeC out 0 patience (cmd_validate png).
Proof. unfold cmd_validate. safe_command. Qed.

(** The file a command line names for the result. *)
Definition result_file (args : list string) : option string :=
  match args with
  | [cmd; _; _; path] => if String.eqb cmd "encode-text" || String.eqb cmd "encode-file" then Some path else None
  | [cmd; _; path] => if String.eqb cmd "decode" then Some path else None
  | _ => None
  end.

Lemma safeC_command args command :
  client_command args = Some command -> safeC (result_file args) 0 patience command.
Proof.
  assert (Hping : forall out, safeC out 0 patience (_ ← send_line ("PING" +:+ nl);
    line ← expect_line; match line with None => mret (-1) | Some _ => mret 0 end)) by (intros out; safe_command).
  destruct args as [|cmd rest]; [done|]. cbn [client_command].
  destruct (String.eqb_spec cmd "ping") as [->|_]; [intros [= <-]; apply Hping|].
  destruct rest as [|a [|b [|d [|]]]]; cbn [result_file]; try done.
  - destruct (String.eqb cmd "capacity"); [intros [= <-]; apply safeC_capacity|].
    destruct (String.eqb cmd "validate"); [intros [= <-]; apply safeC_validate|done].
  - destruct (String.eqb cmd "decode"); [intros [= <-]; apply safeC_decode|done].
  - destruct (String.eqb cmd "encode-text"); [intros [= <-]; apply safeC_encode_text|].
    destruct (String.eqb cmd "encode-file"); [intros [= <-]; apply safeC_encode_file|done].
Qed.

Lemma safeC_main args connected : safeC (result_file args) 0 patience (client_main args connected).
Proof.
  unfold client_main. destruct args as [|cmd rest]; [apply safeC_done|].
  destruct connected; cbn [negb]; [|apply safeC_done].
  apply safeC_then.
  { unfold read_banner. apply safeC_then; [by apply safeC_line|]. intros r. apply safeC_if; [apply safeC_ret|].
    apply safeC_then; [apply safeC_print|]. intros ?. apply safeC_ret. }
  intros _. destruct (client_command (cmd :: rest)) as [command|] eqn:E; [|apply safeC_done].
  apply (safeC_bind _ 0 0 patience 0); [by apply safeC_command|]. intros rc. safe_command.
Qed.

(** ** The properties *)

(** C36: against a server that closes the connection after what it sends, a run of
    the client ends, whatever these bytes are and whatever fails on the network
    and the disk: it leaves no file open, changes no file but the one named for
    the result, only appends to what it sends, and sleeps thirty seconds at most
    between its polls.  (A server that stays silent with the connection open
    blocks the client for ever: no read has a timeout.) *)
Theorem client_run_safe args connected c :
  exists status c', client_main args connected c = Some (status, c') /\
    w_files (cl_world c') = w_files (cl_world c) /\
    (forall q, result_file args <> Some q -> w_fs (cl_world c') !! q = w_fs (cl_world c) !! q) /\
    cl_slept c' <= cl_slept c + 30000 /\
    (exists sent, cn_out (cl_conn c') = cn_out (cl_conn c) ++ sent).
Proof.
  destruct (wpC_run _ _ _ (safeC_main args connected c)) as (status & c' & Hrun & [(fs & Hs & Hfs) _ Ho Hl]).
  exists status, c'. split_and!; [done|rewrite (step_files _ _ _ _ _ Hs); lia| |apply Hl|done].
  intros q Hq. by rewrite (step_fs _ _ _ _ _ Hs), Hfs.
Qed.

(** Connecting leaves no descriptor behind when it fails. *)
Lemma connect_releases pick base :
  (forall X, 0 <= pick X /\ pick X ∉ X) ->
  wpB (connect_to_server pick) (fun fd m => (fd < 0 /\ mc_open m = mc_open base) \/
    (0 <= fd /\ fd ∉ mc_open base /\ mc_open m = {[fd]} ∪ mc_open base)) base.
Proof.
  intros Hpick. assert (Hno : forall m, held base None [] [] 0 m ->
    wpB (mret (-1)) (fun fd m => (fd < 0 /\ mc_open m = mc_open base) \/
      (0 <= fd /\ fd ∉ mc_open base /\ mc_open m = {[fd]} ∪ mc_open base)) m).
  { intros m Hm. apply wpB_ret. left. split; [done|]. rewrite (hd_open _ _ _ _ _ _ Hm). set_solver. }
  apply wpB_bind, (step_new_fd pick Hpick base None [] [] 0); [apply held_init|exact Hno|].
  intros fd m1 Hfd H1. destruct (Z.ltb_spec fd 0); [lia|].
  apply (step_or_close pick Hpick base fd None [] [] 0 _ _ _ H1); [exact Hno|]. intros m2 H2.
  apply (step_or_close pick Hpick base fd None [] [] 0 _ _ _ H2); [exact Hno|]. intros m3 H3.
  apply wpB_ret. right. split; [done|]. pose proof (hd_fresh _ _ _ _ _ _ H3) as Hf. apply Forall_cons in Hf as [[_ Hf] _].
  split; [done|]. rewrite (hd_open _ _ _ _ _ _ H3). set_solver.
Qed.

(** ** Undisturbed conversations

    [talked sent taken fs df c c']: the client wrote [sent] and read [taken] on
    a connection without failures, its files became [fs] and [df] more handles
    are open. *)
Record talked (sent taken : list Z) (fs : gmap string (list Z)) (df : Z) (c c' : client) : Prop := Talked {
  tk_in : cn_in (cl_conn c) = taken ++ cn_in (cl_conn c');
  tk_out : cn_out (cl_conn c') = cn_out (cl_conn c) ++ sent;
  tk_calm : calm (cl_conn c');
  tk_step : step fs 0 df (cl_world c) (cl_world c')
}.

Lemma talked_trans sent1 sent2 taken1 taken2 fs1 fs2 d1 d2 c1 c2 c3 :
  talked sent1 taken1 fs1 d1 c1 c2 -> talked sent2 taken2 fs2 d2 c2 c3 ->
  talked (sent1 ++ sent2) (taken1 ++ taken2) fs2 (d1 + d2) c1 c3.
Proof.
  intros [I1 O1 _ S1] [I2 O2 C2 S2]. constructor; [| |done|exact (step_trans _ _ _ _ _ _ _ _ _ S1 S2)].
  - by rewrite I1, I2, app_assoc.
  - by rewrite O2, O1, app_assoc.
Qed.

Lemma talked_refl c : calm (cl_conn c) -> talked [] [] (w_fs (cl_world c)) 0 c c.
Proof. intros Hc. constructor; [done|by rewrite app_nil_r|done|apply step_refl]. Qed.

(** [m] answers [v] after such a conversation, with the files unchanged. *)
Definition says {A} (m : Cl A) (v : A) (sent taken : list Z) (c : client) : Prop :=
  wpC m (fun a c' => a = v /\ talked sent taken (w_fs (cl_world c)) 0 c c') c.

(** One step of a conversation, and the rest of it. *)
Lemma says_step {A B} (m : Cl A) (v : A) sent taken (f : A -> Cl B) (Q : B -> client -> Prop) c :
  says m v sent taken c ->
  (forall c', talked sent taken (w_fs (cl_world c)) 0 c c' -> wpC (f v) Q c') -> wpC (m ≫= f) Q c.
Proof. intros Hm Hf. apply wpC_bind. eapply wpC_conseq; [exact Hm|]. intros a c' [-> H]. by apply Hf. Qed.

Lemma says_bind {A B} (m : Cl A) (v : A) sent1 taken1 (f : A -> Cl B) (v' : B) sent2 taken2 c :
  says m v sent1 taken1 c ->
  (forall c', talked sent1 taken1 (w_fs (cl_world c)) 0 c c' -> says (f v) v' sent2 taken2 c') ->
  says (m ≫= f) v' (sent1 ++ sent2) (taken1 ++ taken2) c.
Proof.
  intros Hm Hf. apply (says_step _ _ _ _ _ _ _ Hm). intros c' H1. eapply wpC_conseq; [by apply Hf|].
  intros b c2 [-> H2]. split; [done|]. rewrite (step_fs _ _ _ _ _ (tk_step _ _ _ _ _ _ H1)) in H2.
  exact (talked_trans _ _ _ _ _ _ 0 0 _ _ _ H1 H2).
Qed.

Lemma says_ret {A} (v : A) c : calm (cl_conn c) -> says (mret v) v [] [] c.
Proof. intros Hc. apply wpC_ret. split; [done|by apply talked_refl]. Qed.

Lemma says_write data c :
  calm (cl_conn c) ->
  says (on_conn (fun k => write_all k (Some data))) (Z.of_nat (length data)) data [] c.
Proof.
  intros [Hr Hw]. unfold says, wpC, on_conn.
  destruct (write_loop_total (S (length (cn_wsched (cl_conn c)) + length data)) data 0 (cl_conn c) ltac:(lia))
    as (r & sent & k' & Heq & Ho & _ & _ & Hq & Hi & Hrs). unfold write_all. rewrite Heq.
  destruct (Hq Hw) as (-> & -> & Hq'). split; [done|].
  constructor; simpl; [done|done|split; [by rewrite Hrs|done]|apply step_refl].
Qed.

Lemma says_print text c : calm (cl_conn c) -> says (print text) tt [] [] c.
Proof. intros Hc. split; [done|]. by destruct (talked_refl c Hc). Qed.

Lemma says_line line c : calm (cl_conn c) -> says (send_line line) 0 (bytes_of_string line) [] c.
Proof.
  intros Hc. unfold send_line. apply (says_step _ tt [] []); [by apply says_print|]. intros c1 [I1 O1 C1 S1].
  eapply says_step; [by apply says_write|]. intros c2 [I2 O2 C2 S2].
  destruct (Z.ltb_spec (Z.of_nat (length (bytes_of_string line))) 0); [lia|]. apply wpC_ret. split; [done|].
  rewrite (step_fs _ _ _ _ _ S1) in S2.
  constructor; [by rewrite I1, I2|by rewrite O2, O1, app_nil_r|done|exact (step_trans _ _ 0 0 0 0 _ _ _ S1 S2)].
Qed.

(** The next line of the server. *)
Lemma says_expect body rest c :
  calm (cl_conn c) -> one_line body -> strlen (body +:+ nl) < BUFFER_SIZE ->
  cn_in (cl_conn c) = bytes_of_string (body +:+ nl) ++ rest ->
  says expect_line (Some (body +:+ nl)) [] (bytes_of_string (body +:+ nl)) c.
Proof.
  intros Hc Hone Hlen Hin. unfold expect_line. apply (wpC_bind (recv_line BUFFER_SIZE)).
  unfold wpC at 1, recv_line, on_conn.
  destruct (read_request body rest (cl_conn c) Hone Hlen Hc Hin) as (k & -> & H1 & H2 & H3).
  cbn [fst snd]. assert (Hpos : 0 < strlen (body +:+ nl)).
  { rewrite strlen_app. change (strlen nl) with 1. pose proof (strlen_nonneg body). lia. }
  destruct (Z.leb_spec (strlen (body +:+ nl)) 0); [lia|]. rewrite one_line_cstr by done.
  split; [done|]. constructor; simpl; [by rewrite H1|by rewrite app_nil_r|done|apply step_refl].
Qed.

(** ** Reading the answers *)

Definition avoids (a : ascii) (s : string) : Prop := Forall (fun z => z <> ord a) (bytes_of_string s).

#[export] Instance avoids_dec a s : Decision (avoids a s).
Proof. unfold avoids. apply _. Defined.

Lemma avoids_app a s t : avoids a s -> avoids a t -> avoids a (s +:+ t).
Proof. unfold avoids. rewrite bytes_of_string_app. intros. by apply Forall_app. Qed.

Lemma print_u_chars (P : Z -> Prop) n :
  0 <= n -> (forall d, 48 <= d <= 57 -> P d) -> Forall P (bytes_of_string (print_u n)).
Proof.
  intros Hn HP. assert (H : forall fuel n acc, 0 <= n -> Forall P (bytes_of_string acc) ->
    Forall P (bytes_of_string (dec_digits fuel n acc))); [|by apply H].
  clear Hn. intros fuel. induction fuel as [|fuel IH]; intros m acc Hm Ha; [done|]. cbn [dec_digits].
  assert (Hd : Forall P (bytes_of_string (String (chr (48 + m mod 10)) acc))).
  { pose proof (Z.mod_pos_bound m 10 ltac:(lia)). cbn [bytes_of_string]. apply Forall_cons. split; [|done].
    rewrite ord_chr by (unfold bounded; pow2; lia). apply HP. lia. }
  destruct (m <? 10); [done|]. apply IH; [apply Z.div_pos; lia|done].
Qed.

Lemma avoids_print a n : 0 <= n -> 57 < ord a -> avoids a (print_u n).
Proof. intros Hn Ha. apply print_u_chars; [done|]. intros d Hd. lia. Qed.

Lemma strstr_skip u a t p : avoids a u -> strstr (u +:+ t) (String a p) = strstr t (String a p).
Proof.
  unfold avoids. induction u as [|b u IH]; [done|]. cbn [bytes_of_string]. intros H. apply Forall_cons in H as [Hb Hu].
  change (String b u +:+ t) with (String b (u +:+ t)). cbn [strstr strip_prefix].
  rewrite decide_False by congruence. by apply IH.
Qed.

(** The answer to an upload and to STATUS. *)
Definition job_reply (id : Z) : string := "JOB " +:+ print_u id +:+ nl.
Definition status_reply (id : Z) (st : job_state) : string :=
  "STATUS " +:+ print_u id +:+ " " +:+ job_state_to_string st +:+ nl.

Lemma parse_job_reply id : bounded 64 id -> parse_job_id (job_reply id) = id.
Proof.
  intros Hid. unfold parse_job_id, job_reply.
  change ("JOB " +:+ print_u id +:+ nl) with (String "J" (String "O" (String "B" (String " " (print_u id +:+ nl))))).
  cbn [strstr strip_prefix]. repeat rewrite decide_True by done.
  assert (Hdrop : str_drop 4 (String "J" (String "O" (String "B" (String " " (print_u id +:+ nl))))) = print_u id +:+ nl).
  { generalize (print_u id +:+ nl). by intros []. }
  rewrite Hdrop, strtoull_print by done. done.
Qed.

Lemma strtol_print n s :
  0 <= n <= LONG_MAX -> head_is_digit s = false -> strtol (print_u n +:+ s) = Strto n s false true.
Proof.
  intros Hn Hs. unfold strtol. pose proof (print_u_head n s ltac:(lia)) as Hh.
  assert (Hp : parse_sign (skip_space (print_u n +:+ s)) = (false, print_u n +:+ s)).
  { revert Hh. destruct (print_u n +:+ s) as [|a t]; simpl; [done|].
    intros Ha. rewrite digit_not_space by done. by apply digit_not_sign. }
  rewrite Hp, Hh, parse_print_u by lia.
  assert (Hr : parse_digits n s = (n, s)) by (destruct s as [|a t]; simpl in *; [done|]; by rewrite Hs).
  rewrite Hr. cbv zeta. destruct (Z.ltb_spec n LONG_MIN); [unfold LONG_MIN in *; lia|].
  destruct (Z.ltb_spec LONG_MAX n); [lia|done].
Qed.

Definition data_reply (n : Z) : string := "DATA " +:+ print_d n +:+ nl.

Lemma parse_data_reply n : 0 <= n < 2 ^ 63 -> parse_data_size (data_reply n) = n.
Proof.
  intros Hn. unfold parse_data_size, data_reply. rewrite strip_prefix_app. unfold print_d.
  destruct (Z.ltb_spec n 0); [lia|]. rewrite strtol_print; [done|unfold LONG_MAX; lia|done].
Qed.

(** What the client finds in the answer to STATUS. *)
Lemma status_word id st word a p :
  0 <= id -> word = String a p -> 57 < ord a -> avoids a "STATUS " ->
  strstr (status_reply id st) word = strstr (job_state_to_string st +:+ nl) word.
Proof.
  intros Hid -> Ha Hs. unfold status_reply.
  rewrite (strstr_skip "STATUS ") by done. rewrite (strstr_skip (print_u id)) by by apply avoids_print.
  apply (strstr_skip " "). apply Forall_singleton. intros Heq. revert Ha. rewrite <-Heq. done.
Qed.

Lemma status_words id st : 0 <= id ->
  bool_decide (is_Some (strstr (status_reply id st) "DONE")) = bool_decide (st = JOB_STATE_DONE) /\
  bool_decide (is_Some (strstr (status_reply id st) "FAILED")) = bool_decide (st = JOB_STATE_FAILED) /\
  bool_decide (is_Some (strstr (status_reply id st) "CANCELED")) = bool_decide (st = JOB_STATE_CANCELED).
Proof.
  intros Hid. rewrite (status_word _ _ "DONE" "D" "ONE"), (status_word _ _ "FAILED" "F" "AILED"),
    (status_word _ _ "CANCELED" "C" "ANCELED") by (try done; eapply bool_decide_unpack; vm_compute; exact I).
  by destruct st.
Qed.

Lemma status_one_line id st : 0 <= id ->
  exists body, status_reply id st = body +:+ nl /\ one_line body.
Proof.
  intros Hid. exists ("STATUS " +:+ print_u id +:+ " " +:+ job_state_to_string st). split.
  - unfold status_reply. by rewrite !append_assoc.
  - repeat apply one_line_app; try (by apply one_line_print); [..|destruct st]; (eapply bool_decide_unpack; vm_compute; exact I).
Qed.

(** ** Requests *)

(** A 64-bit number has at most twenty digits. *)
Lemma strlen_print_u64 n : bounded 64 n -> strlen (print_u n) <= 20.
Proof.
  assert (H : forall fuel k n acc, 0 <= n < 10 ^ Z.of_nat (S k) -> strlen (dec_digits fuel n acc) <= Z.of_nat (S k) + strlen acc).
  { induction fuel as [|fuel IH]; intros k m acc Hm; [cbn [dec_digits]; lia|]. cbn [dec_digits].
    destruct (Z.ltb_spec m 10); [rewrite strlen_cons; lia|].
    destruct k as [|k]; [change (10 ^ Z.of_nat 1) with 10 in Hm; lia|].
    etrans; [apply (IH k)|rewrite strlen_cons; lia].
    rewrite Nat2Z.inj_succ, Z.pow_succ_r in Hm by lia. split; [apply Z.div_pos; lia|].
    apply Z.div_lt_upper_bound; lia. }
  intros [Hn0 Hn1]. unfold print_u. etrans; [apply (H _ 19%nat)|done]. split; [done|].
  etrans; [exact Hn1|done].
Qed.

(** The bytes of a request about a job. *)
Definition id_request_bytes (cmd : protocol_command) (id : Z) : list Z :=
  bytes_of_string (print_request (req_id cmd id)).

Definition replies (id : Z) (sts : list job_state) : list Z :=
  concat ((fun st => bytes_of_string (status_reply id st)) <$> sts).

Definition is_pending (st : job_state) : bool :=
  match st with JOB_STATE_QUEUED | JOB_STATE_RUNNING => true | _ => false end.

Lemma status_line_fits id : bounded 64 id ->
  snprintf_s 64 ("STATUS " +:+ print_u id +:+ nl) = print_request (req_id PROTO_CMD_STATUS id).
Proof.
  intros Hid. pose proof (strlen_print_u64 id Hid). rewrite snprintf_s_fits; [reflexivity|].
  rewrite !strlen_app. change (strlen "STATUS ") with 7. change (strlen nl) with 1. lia.
Qed.

Lemma status_reply_short id st : bounded 64 id -> strlen (status_reply id st) < BUFFER_SIZE.
Proof.
  intros Hid. pose proof (strlen_print_u64 id Hid). unfold status_reply. rewrite !strlen_app.
  change (strlen "STATUS ") with 7. change (strlen nl) with 1. change (strlen " ") with 1.
  assert (strlen (job_state_to_string st) <= 8) by by destruct st. unfold BUFFER_SIZE. lia.
Qed.

(** One poll, and what the client does with the answer. *)
Definition judge (fuel : nat) (id : Z) (buf : string) : Cl Z :=
  if bool_decide (is_Some (strstr buf "DONE")) then mret 0 else
  if bool_decide (is_Some (strstr buf "FAILED")) then mret (-1) else
  if bool_decide (is_Some (strstr buf "CANCELED")) then mret (-1) else
  _ ← nanosleep 250; wait_loop fuel id.

Lemma says_poll fuel id st later v sent taken c :
  bounded 64 id -> calm (cl_conn c) -> cn_in (cl_conn c) = bytes_of_string (status_reply id st) ++ later ->
  (forall c', calm (cl_conn c') -> cn_in (cl_conn c') = later -> says (judge fuel id (status_reply id st)) v sent taken c') ->
  says (wait_loop (S fuel) id) v (id_request_bytes PROTO_CMD_STATUS id ++ sent)
    (bytes_of_string (status_reply id st) ++ taken) c.
Proof.
  intros Hid Hc Hin Hf. destruct (status_one_line id st ltac:(apply Hid)) as (body & Hbody & Hone).
  cbn [wait_loop]. rewrite status_line_fits by done.
  change (id_request_bytes PROTO_CMD_STATUS id ++ sent) with (id_request_bytes PROTO_CMD_STATUS id ++ [] ++ sent).
  change (bytes_of_string (status_reply id st) ++ taken) with ([] ++ bytes_of_string (status_reply id st) ++ taken).
  apply (says_bind _ 0); [by apply says_line|]. intros c1 [I1 O1 C1 S1]. change (0 <? 0) with false. cbv iota.
  apply (says_bind _ (Some (status_reply id st))).
  - rewrite Hbody. apply (says_expect body later); [done|done|rewrite <-Hbody; by apply status_reply_short|].
    rewrite <-Hbody, <-Hin. symmetry. exact I1.
  - intros c2 [I2 O2 C2 S2]. apply Hf; [done|]. cbn [app] in I1. rewrite <-I1, Hin in I2. by apply app_inv_head in I2.
Qed.

(** The loop polls until the job is final: the answer tells whether it is done. *)
Lemma says_wait fuel id sts st rest c :
  bounded 64 id -> calm (cl_conn c) -> Forall (fun s => is_pending s = true) sts -> is_pending st = false ->
  (length sts < fuel)%nat -> cn_in (cl_conn c) = replies id (sts ++ [st]) ++ rest ->
  says (wait_loop fuel id) (if bool_decide (st = JOB_STATE_DONE) then 0 else -1)
    (concat (replicate (S (length sts)) (id_request_bytes PROTO_CMD_STATUS id))) (replies id (sts ++ [st])) c.
Proof.
  intros Hid. revert fuel c. induction sts as [|s1 sts IH]; intros [|fuel] c Hc Hp Hst Hf Hin; simpl in Hf; try lia.
  - change (replies id ([] ++ [st])) with (bytes_of_string (status_reply id st) ++ []) in *.
    rewrite <-app_assoc in Hin. apply (says_poll _ _ _ rest); [done|done|exact Hin|]. intros c' Hc' _. unfold judge.
    destruct (status_words id st ltac:(apply Hid)) as (-> & -> & ->). destruct st; try done; by apply says_ret.
  - apply Forall_cons in Hp as [Hp1 Hp].
    change (replies id ((s1 :: sts) ++ [st])) with (bytes_of_string (status_reply id s1) ++ replies id (sts ++ [st])) in *.
    rewrite <-app_assoc in Hin. change (concat (replicate (S (length (s1 :: sts))) ?x)) with (x ++ concat (replicate (S (length sts)) x)).
    apply (says_poll _ _ _ _ _ _ _ _ Hid Hc Hin). intros c' Hc' Hin'. unfold judge.
    destruct (status_words id s1 ltac:(apply Hid)) as (-> & -> & ->).
    assert (Hsleep : says (_ ← nanosleep 250; wait_loop fuel id) (if bool_decide (st = JOB_STATE_DONE) then 0 else -1)
      ([] ++ concat (replicate (S (length sts)) (id_request_bytes PROTO_CMD_STATUS id))) ([] ++ replies id (sts ++ [st])) c').
    { apply (says_bind _ tt); [split; [done|by destruct (talked_refl c' Hc')]|].
      intros c2 [I2 O2 C2 S2]. apply IH; try done; [lia|]. rewrite <-Hin'. symmetry. exact I2. }
    destruct s1; try done; exact Hsleep.
Qed.

(** ** Files in a conversation *)

(** A file that can be read, on a disk that does not fail. *)
Definition file_readable (path : string) (data : list Z) (w : world) : Prop :=
  w_fs w !! path = Some data /\ path ∉ w_denied w /\ w_io w = [].

Lemma readable_step path data fs df w w' :
  file_readable path data w -> step fs 0 df w w' -> fs !! path = Some data -> file_readable path data w'.
Proof. intros (H1 & H2 & H3) [S1 _ _ S4 _ S6 _] Hfs. split_and!; [by rewrite S1|by rewrite S4|by apply S6]. Qed.

(** The three calls that position the file. *)
Lemma stdio_calm {B} (f : bool -> Cl B) (Q : B -> client -> Prop) c :
  w_io (cl_world c) = [] -> wpC (f true) Q c -> wpC (on_files stdio ≫= f) Q c.
Proof.
  intros Hio HQ. apply wpC_bind. unfold wpC at 1, on_files, stdio. rewrite Hio.
  by replace (Client _ _ _ _) with c by by destruct c.
Qed.

Lemma says_file path data c :
  calm (cl_conn c) -> file_readable path data (cl_world c) -> says (send_file_bytes path) 0 data [] c.
Proof.
  intros [Hcr Hcw] (Hfs & Hden & Hio). unfold says, send_file_bytes. apply wpC_bind. unfold wpC at 1, on_files, fopen_rb.
  rewrite decide_False by done. rewrite Hfs. set (c1 := Client _ _ _ _).
  do 3 (apply stdio_calm; [done|]; cbn [negb]). unfold wpC, on_both.
  pose proof (send_loop_full (S (length data)) data (cl_conn c1) (cl_world c1) ltac:(lia)) as H. unfold wp in H.
  destruct (send_loop _ _ _ _) as [r w']. destruct H as (rc & k' & sent & -> & Hst & Hin & Hrs & Hout & Hq).
  destruct (Hq Hcw Hio) as (-> & -> & Hqw). split; [done|].
  constructor; simpl; [by rewrite Hin|done|split; [by rewrite Hrs|done]|].
  apply (step_trans (w_fs (cl_world c)) _ 0 1 0 (-1) _ (cl_world c1)); [solve_step|exact Hst].
Qed.

Lemma data_line n : 0 <= n -> exists body, data_reply n = body +:+ nl /\ one_line body.
Proof.
  intros Hn. exists ("DATA " +:+ print_d n). split; [unfold data_reply; by rewrite !append_assoc|].
  apply one_line_app; [eapply bool_decide_unpack; vm_compute; exact I|].
  unfold print_d. destruct (Z.ltb_spec n 0); [lia|]. by apply one_line_print.
Qed.

Lemma data_reply_short n : 0 <= n < 2 ^ 63 -> strlen (data_reply n) < BUFFER_SIZE.
Proof.
  intros Hn. unfold data_reply, print_d. destruct (Z.ltb_spec n 0); [lia|]. rewrite !strlen_app.
  pose proof (strlen_print_u64 n ltac:(unfold bounded; lia)). change (strlen "DATA ") with 5. change (strlen nl) with 1.
  unfold BUFFER_SIZE. lia.
Qed.

Lemma download_line_fits id : bounded 64 id ->
  snprintf_s 64 ("DOWNLOAD " +:+ print_u id +:+ nl) = print_request (req_id PROTO_CMD_DOWNLOAD id).
Proof.
  intros Hid. pose proof (strlen_print_u64 id Hid). rewrite snprintf_s_fits; [reflexivity|].
  rewrite !strlen_app. change (strlen "DOWNLOAD ") with 9. change (strlen nl) with 1. lia.
Qed.

(** A result that is sent completely is saved completely. *)
Lemma download_exact_client id path data rest c :
  bounded 64 id -> calm (cl_conn c) -> w_io (cl_world c) = [] -> path ∉ w_denied (cl_world c) ->
  Z.of_nat (length data) < 2 ^ 63 ->
  cn_in (cl_conn c) = bytes_of_string (data_reply (Z.of_nat (length data))) ++ data ++ rest ->
  wpC (download_result id path) (fun rc c' => rc = 0 /\
    talked (id_request_bytes PROTO_CMD_DOWNLOAD id) (bytes_of_string (data_reply (Z.of_nat (length data))) ++ data)
      (<[path := data]> (w_fs (cl_world c))) 0 c c') c.
Proof.
  intros Hid Hc Hio Hden Hlen Hin. unfold download_result. rewrite download_line_fits by done.
  set (n := Z.of_nat (length data)) in *. destruct (data_line n ltac:(lia)) as (body & Hbody & Hone).
  eapply says_step; [by apply says_line|]. intros c1 T1. pose proof T1 as [I1 O1 C1 S1]. change (0 <? 0) with false. cbv iota.
  assert (Hshort : strlen (data_reply n) < BUFFER_SIZE) by (apply data_reply_short; lia).
  assert (Hin1 : cn_in (cl_conn c1) = bytes_of_string (data_reply n) ++ data ++ rest) by by rewrite <-Hin.
  eapply says_step; [eapply (says_expect body (data ++ rest)); rewrite <-?Hbody; done|].
  rewrite <-Hbody. intros c2 T2. pose proof T2 as [I2 O2 C2 S2]. rewrite parse_data_reply by lia. cbv zeta.
  destruct (Z.ltb_spec n 0); [lia|].
  assert (Hin2 : cn_in (cl_conn c2) = data ++ rest) by (rewrite Hin1 in I2; by apply app_inv_head in I2).
  assert (S12 : step (w_fs (cl_world c)) 0 0 (cl_world c) (cl_world c2)).
  { rewrite (step_fs _ _ _ _ _ S1) in S2. exact (step_trans _ _ 0 0 0 0 _ _ _ S1 S2). }
  assert (Hio2 : w_io (cl_world c2) = []) by (by apply S12).
  apply create_step; [intros Hd; by rewrite (step_denied _ _ _ _ _ S12) in Hd|].
  intros c3 _ R3 K3 Hio3. cbn [negb]. apply wpC_bind.
  eapply wpC_conseq; [apply save_bytes_spec; lia|]. intros rc c4 [R4 _ O4 Hok Hcalm].
  destruct Hcalm as [-> C4]; [by rewrite K3|by apply Hio3|rewrite K3, Hin2, length_app; lia|].
  destruct (Hok eq_refl) as (got & G1 & G2 & G3). rewrite K3, Hin2 in G1. apply app_inj_1 in G1 as [<- G1]; [|lia].
  change (0 <? 0) with false. cbv iota. apply wpC_bind. eapply wpC_conseq; [apply says_print, C4|].
  intros [] c5 [_ [I5 O5 C5 S5]]. apply wpC_ret. split; [done|].
  destruct (ran_trans _ _ _ _ _ _ _ _ R3 R4) as [(fs & S & F) _ _ _].
  assert (Hfs : fs = <[path := data]> (w_fs (cl_world c))).
  { apply map_eq. intros q. destruct (decide (q = path)) as [->|Hq].
    - rewrite lookup_insert_eq. rewrite <-(step_fs _ _ _ _ _ S). by apply G3, Hio3.
    - rewrite lookup_insert_ne by done. rewrite F by congruence. by rewrite (step_fs _ _ _ _ _ S12). }
  rewrite <-Hfs. constructor; [| |done|].
  - cbn [app] in I5. rewrite Hin, <-app_assoc, G1, I5. done.
  - rewrite O5, app_nil_r, O4, K3, O2, app_nil_r. done.
  - rewrite (step_fs _ _ _ _ _ S) in S5.
    exact (step_trans _ _ 0 0 0 0 _ _ _ S12 (step_trans _ _ 0 0 (1 + -1) 0 _ _ _ S S5)).
Qed.

(** ** The conversation about a text *)

(** What the client sends when it polls [S n] times, and what it is answered. *)
Definition text_requests (id : Z) (n : nat) (png text : list Z) : list Z :=
  bytes_of_string (print_request (encode_text_request png text)) ++ png ++ text ++
  concat (replicate (S n) (id_request_bytes PROTO_CMD_STATUS id)) ++
  id_request_bytes PROTO_CMD_META id ++ id_request_bytes PROTO_CMD_DOWNLOAD id.

Definition text_replies (id : Z) (sts : list job_state) (meta : string) (data : list Z) : list Z :=
  bytes_of_string (job_reply id) ++ replies id (sts ++ [JOB_STATE_DONE]) ++ bytes_of_string (meta +:+ nl) ++
  bytes_of_string (data_reply (Z.of_nat (length data))) ++ data.

Lemma encode_line_fits png text :
  Z.of_nat (length png) < 2 ^ 63 -> strlen text < 2 ^ 63 ->
  snprintf_s 256 ("ENCODE_TEXT " +:+ print_d (Z.of_nat (length png)) +:+ " " +:+ print_u (strlen text) +:+ nl) =
  print_request (encode_text_request png (bytes_of_string text)).
Proof.
  intros Hp Ht. pose proof (strlen_nonneg text). unfold print_d. destruct (Z.ltb_spec (Z.of_nat (length png)) 0); [lia|].
  pose proof (strlen_print_u64 (Z.of_nat (length png)) ltac:(unfold bounded; lia)).
  pose proof (strlen_print_u64 (strlen text) ltac:(unfold bounded; lia)).
  rewrite snprintf_s_fits.
  - unfold print_request. cbn [rq_command rq_size1 rq_size2 encode_text_request]. rewrite length_bytes_of_string.
    change (Z.of_nat (String.length text)) with (strlen text). by rewrite !append_assoc.
  - rewrite !strlen_app. change (strlen "ENCODE_TEXT ") with 12. change (strlen " ") with 1. change (strlen nl) with 1. lia.
Qed.

Lemma job_reply_line id : bounded 64 id ->
  exists body, job_reply id = body +:+ nl /\ one_line body /\ strlen (job_reply id) < BUFFER_SIZE.
Proof.
  intros Hid. exists ("JOB " +:+ print_u id). pose proof (strlen_print_u64 id Hid). split_and!.
  - unfold job_reply. by rewrite append_assoc.
  - apply one_line_app; [eapply bool_decide_unpack; vm_compute; exact I|]. apply one_line_print, Hid.
  - unfold job_reply. rewrite !strlen_app. change (strlen "JOB ") with 4. change (strlen nl) with 1. unfold BUFFER_SIZE. lia.
Qed.

Lemma says_job id rest c :
  bounded 64 id -> calm (cl_conn c) -> cn_in (cl_conn c) = bytes_of_string (job_reply id) ++ rest ->
  says expect_job id [] (bytes_of_string (job_reply id)) c.
Proof.
  intros Hid Hc Hin. destruct (job_reply_line id Hid) as (body & Hbody & Hone & Hlen).
  unfold expect_job. eapply says_step; [eapply (says_expect body rest); rewrite <-?Hbody; done|].
  rewrite <-Hbody. intros c' H. apply wpC_ret. split; [by apply parse_job_reply|done].
Qed.

Lemma says_ask verb cmd id meta rest c :
  snprintf_s 64 (verb +:+ " " +:+ print_u id +:+ nl) = print_request (req_id cmd id) ->
  calm (cl_conn c) -> one_line meta -> strlen (meta +:+ nl) < BUFFER_SIZE ->
  cn_in (cl_conn c) = bytes_of_string (meta +:+ nl) ++ rest ->
  says (ask verb id) tt (id_request_bytes cmd id) (bytes_of_string (meta +:+ nl)) c.
Proof.
  intros Hfit Hc Hone Hlen Hin. unfold ask. rewrite Hfit.
  rewrite <-(app_nil_r (id_request_bytes cmd id)). change (bytes_of_string (meta +:+ nl)) with ([] ++ bytes_of_string (meta +:+ nl)).
  apply (says_bind _ 0); [by apply says_line|]. intros c1 [I1 O1 C1 S1].
  eapply says_step; [eapply (says_expect meta rest); try done; by rewrite <-Hin|]. intros c2 H2. by apply wpC_ret.
Qed.

Lemma says_stat path data c :
  calm (cl_conn c) -> file_readable path data (cl_world c) ->
  says (on_files (get_file_size_bytes path)) (Some (Z.of_nat (length data))) [] [] c.
Proof.
  intros Hc (Hfs & _). unfold says, wpC, on_files, get_file_size_bytes. rewrite Hfs.
  split; [done|]. replace (Client _ _ _ _) with c by (by destruct c). by apply talked_refl.
Qed.

(** Steps that leave the files alone keep what is said about them. *)
Lemma talked_files sent taken c c' :
  talked sent taken (w_fs (cl_world c)) 0 c c' ->
  w_fs (cl_world c') = w_fs (cl_world c) /\ (forall p d, file_readable p d (cl_world c) -> file_readable p d (cl_world c')) /\
  w_denied (cl_world c') = w_denied (cl_world c).
Proof.
  intros [_ _ _ S]. split_and!; [apply S| |apply S]. intros p d Hr. eapply readable_step; [exact Hr|exact S|apply Hr].
Qed.

Lemma meta_line_fits id : bounded 64 id ->
  snprintf_s 64 ("META" +:+ " " +:+ print_u id +:+ nl) = print_request (req_id PROTO_CMD_META id).
Proof.
  intros Hid. pose proof (strlen_print_u64 id Hid). rewrite snprintf_s_fits; [reflexivity|].
  rewrite !strlen_app. change (strlen "META") with 4. change (strlen " ") with 1. change (strlen nl) with 1. lia.
Qed.

(** What the client needs: an image it can read and a result it can write. *)
Record prepared (png_in out : string) (png : list Z) (text : string) (c : client) : Prop := Prepared {
  pp_calm : calm (cl_conn c);
  pp_png : file_readable png_in png (cl_world c);
  pp_small : Z.of_nat (length png) < 2 ^ 63;
  pp_text : strlen text < 2 ^ 63;
  pp_out : out ∉ w_denied (cl_world c)
}.

Lemma encode_text_conversation png_in out png text id sts meta data rest c :
  prepared png_in out png text c -> bounded 64 id -> id <> 0 ->
  Forall (fun s => is_pending s = true) sts -> (length sts < 120)%nat ->
  one_line meta -> strlen (meta +:+ nl) < BUFFER_SIZE -> Z.of_nat (length data) < 2 ^ 63 ->
  cn_in (cl_conn c) = text_replies id sts meta data ++ rest ->
  wpC (cmd_encode_text png_in text out) (fun rc c' => rc = 0 /\
    talked (text_requests id (length sts) png (bytes_of_string text)) (text_replies id sts meta data)
      (<[out := data]> (w_fs (cl_world c))) 0 c c') c.
Proof.
  intros [Hc Hpng Hp63 Ht63 Hden] Hid Hid0 Hsts Hn Hmeta Hmlen Hd63 Hin. unfold cmd_encode_text.
  eapply says_step; [by eapply says_stat|]. cbv beta iota. intros c1 T1. rewrite encode_line_fits by done.
  destruct (talked_files _ _ _ _ T1) as (F1 & R1 & D1).
  eapply says_step; [apply says_line, T1|]. intros c2 T2. change (0 <? 0) with false. cbv iota.
  destruct (talked_files _ _ _ _ T2) as (F2 & R2 & D2).
  eapply says_step; [eapply says_file; [apply T2|by apply R2, R1]|]. intros c3 T3. change (0 <? 0) with false. cbv iota.
  destruct (talked_files _ _ _ _ T3) as (F3 & R3 & D3).
  eapply says_step; [apply says_write, T3|]. intros c4 T4.
  destruct (Z.ltb_spec (Z.of_nat (length (bytes_of_string text))) 0); [lia|].
  destruct (talked_files _ _ _ _ T4) as (F4 & R4 & D4).
  pose proof (talked_trans _ _ _ _ _ _ 0 0 _ _ _ T1 (talked_trans _ _ _ _ _ _ 0 0 _ _ _ T2 (talked_trans _ _ _ _ _ _ 0 0 _ _ _ T3 T4))) as T14.
  cbn [app] in T14. clear T1 T2 T3 T4.
  assert (Hin4 : cn_in (cl_conn c4) = text_replies id sts meta data ++ rest) by (rewrite <-Hin; symmetry; apply T14).
  unfold text_replies in Hin4. rewrite <-!app_assoc in Hin4.
  eapply says_step; [eapply says_job; [done|apply T14|exact Hin4]|]. intros c5 T5.
  destruct (Z.eqb_spec id 0); [done|]. destruct (talked_files _ _ _ _ T5) as (F5 & R5 & D5).
  pose proof (tk_in _ _ _ _ _ _ T5) as Hin5. rewrite Hin4 in Hin5. apply app_inv_head in Hin5. symmetry in Hin5.
  eapply says_step; [eapply (says_wait 120 id sts JOB_STATE_DONE); [done|apply T5|done|done|done|exact Hin5]|].
  rewrite bool_decide_true by done. intros c6 T6. change (0 <? 0) with false. cbv iota.
  destruct (talked_files _ _ _ _ T6) as (F6 & R6 & D6).
  pose proof (tk_in _ _ _ _ _ _ T6) as Hin6. rewrite Hin5 in Hin6. apply app_inv_head in Hin6. symmetry in Hin6.
  eapply says_step; [eapply says_ask; [by apply meta_line_fits|apply T6|done|done|exact Hin6]|]. intros c7 T7.
  destruct (talked_files _ _ _ _ T7) as (F7 & R7 & D7).
  pose proof (tk_in _ _ _ _ _ _ T7) as Hin7. rewrite Hin6 in Hin7. apply app_inv_head in Hin7. symmetry in Hin7.
  eapply wpC_conseq; [eapply (download_exact_client id out data rest); [done|apply T7| |congruence|done|exact Hin7]|].
  { by eapply R7, R6, R5, R4, R3, R2, R1. }
  intros rc c8 [-> T8]. split; [done|]. rewrite F7, F6, F5, F4, F3, F2, F1 in T8.
  pose proof (talked_trans _ _ _ _ _ _ 0 0 _ _ _ T14 (talked_trans _ _ _ _ _ _ 0 0 _ _ _ T5
    (talked_trans _ _ _ _ _ _ 0 0 _ _ _ T6 (talked_trans _ _ _ _ _ _ 0 0 _ _ _ T7 T8)))) as T.
  unfold text_requests, text_replies. cbn [app] in T. by rewrite <-!app_assoc in T.
Qed.

(** The run of the command on these answers. *)
Lemma client_on_answers png_in out png text id sts meta data later c :
  prepared png_in out png text c -> bounded 64 id -> id <> 0 ->
  Forall (fun s => is_pending s = true) sts -> (length sts < 120)%nat ->
  one_line meta -> strlen (meta +:+ nl) < BUFFER_SIZE -> Z.of_nat (length data) < 2 ^ 63 ->
  cn_in (cl_conn c) = text_replies id sts meta data ++ later ->
  exists c', cmd_encode_text png_in text out c = Some (0, c') /\
    cn_out (cl_conn c') = cn_out (cl_conn c) ++ text_requests id (length sts) png (bytes_of_string text) /\
    cn_in (cl_conn c') = later /\ w_fs (cl_world c') !! out = Some data.
Proof.
  intros Hp Hid Hid0 Hsts Hn Hmeta Hml Hd Hin.
  destruct (wpC_run _ _ _ (encode_text_conversation _ _ _ _ _ _ _ _ _ _ Hp Hid Hid0 Hsts Hn Hmeta Hml Hd Hin))
    as (rc & c' & Hrun & -> & [I O _ S]).
  exists c'. split_and!; [done|exact O| |].
  - rewrite Hin in I. by apply app_inv_head in I.
  - rewrite (step_fs _ _ _ _ _ S). apply lookup_insert_eq.
Qed.
