(* ===== verification/Conversation.v ===== *)
(** * The client and the server together

    What the command-line client sends is what the server takes from the
    connection, and what the server answers is what the client reads: a text
    that a user hides with the client comes back in the file the client saves. *)

From S2P Require Export EndToEnd ClientCorrect.
#[local] Open Scope Z_scope.

(** ** The server reads several lines *)

Fixpoint handle_lines (n i : nat) (s : server) : option server :=
  match n with
  | O => Some s
  | S n => match handle_client_command i s with
           | Some (_, s) => handle_lines n i s
           | None => None
           end
  end.

Lemma handle_lines_step n i s s1 s2 :
  handle_client_command i s = Some (tt, s1) -> handle_lines n i s1 = Some s2 -> handle_lines (S n) i s = Some s2.
Proof. intros H1 H2. simpl. by rewrite H1. Qed.

(** A client whose requests can be read, and a job of the server. *)
Record attentive (i : nat) (fd id : Z) (l : loc) (j : job) (s : server) : Prop := Attentive {
  an_inv : srv_inv s;
  an_own : own i fd s;
  an_user : cs_type (session s i) = CLIENT_TYPE_USER;
  an_job : sv_heap s !! l = Some j;
  an_id : job_id j = id;
  an_range : 1 <= id <= MAX_JOBS + 1
}.

Lemma attentive_socks i fd id l j k k' s :
  attentive i fd id l j s -> sv_socks s !! fd = Some k ->
  attentive i fd id l j (sv_set_socks (<[fd := k']> (sv_socks s)) s).
Proof. intros [] Hk. constructor; try done. apply inv_socks; [done|by apply (insert_open _ _ k)]. Qed.

Lemma attentive_find i fd id l j s : attentive i fd id l j s -> job_table_find (sv_jobs s) (sv_heap s) id = Some l.
Proof. intros []. apply find_correct; [by apply si_jobs|]. by exists j. Qed.

Lemma id_bounded id : 1 <= id <= MAX_JOBS + 1 -> bounded 64 id.
Proof. unfold bounded, MAX_JOBS. lia. Qed.

(** The requests that are answered with one line and change nothing else. *)
Lemma handle_reply i fd cmd id l j body reply k rest s :
  attentive i fd id l j s -> sv_socks s !! fd = Some k -> calm k ->
  print_request (req_id cmd id) = body +:+ nl -> one_line body -> request_canonical (req_id cmd id) ->
  strlen (print_request (req_id cmd id)) < BUFFER_SIZE -> strlen reply < BUFFER_SIZE ->
  cn_in k = id_request_bytes cmd id ++ rest ->
  (forall s1, sv_heap s1 = sv_heap s -> sv_jobs s1 = sv_jobs s -> sv_clients s1 = sv_clients s ->
     forall Q, wpS (send_responsef fd reply) Q s1 -> wpS (handle_user_command i (req_id cmd id)) Q s1) ->
  exists k', handle_client_command i s = Some (tt, sv_set_socks (<[fd := k']> (sv_socks s)) s) /\
    cn_in k' = rest /\ cn_out k' = cn_out k ++ bytes_of_string reply /\ calm k'.
Proof.
  intros Ha Hk Hc Hbody Hone Hcan Hshort Hreply Hin Hcmd.
  assert (H : wpS (handle_client_command i) (fun _ s' => exists k', s' = sv_set_socks (<[fd := k']> (sv_socks s)) s /\
    cn_in k' = rest /\ cn_out k' = cn_out k ++ bytes_of_string reply /\ calm k') s).
  { eapply (handle_request i fd (req_id cmd id) body k rest); try done; [apply Ha| |by apply parse_printed].
    intros k1 Hin1 Hout1 Hc1. rewrite (an_user _ _ _ _ _ _ Ha). cbn -[handle_user_command].
    apply wpS_bind, Hcmd; [done..|]. eapply (send_calm fd reply k1); [apply lookup_insert_eq|done|done|].
    intros k2 Hin2 Hout2 Hc2. apply wpS_ret. exists k2. split_and!; [|congruence|by rewrite Hout2, Hout1|done].
    unfold sv_set_socks. cbn. by rewrite insert_insert_eq. }
  unfold wpS in H. destruct (handle_client_command i s) as [[[] s']|]; [|done].
  destruct H as (k' & -> & H). by exists k'.
Qed.

Lemma id_line cmd name id :
  1 <= id <= MAX_JOBS + 1 -> print_request (req_id cmd id) = name +:+ print_u id +:+ nl ->
  one_line name -> strlen name <= 100 ->
  exists body, print_request (req_id cmd id) = body +:+ nl /\ one_line body /\
    strlen (print_request (req_id cmd id)) < BUFFER_SIZE.
Proof.
  intros Hid Hp Hn Hl. exists (name +:+ print_u id). rewrite Hp. pose proof (strlen_print_u64 id (id_bounded id Hid)).
  split_and!; [by rewrite append_assoc|apply one_line_app; [done|by apply one_line_print; lia]|].
  rewrite !strlen_app. change (strlen nl) with 1. unfold BUFFER_SIZE. lia.
Qed.

(** STATUS *)
Lemma handle_status i fd id l j k rest s :
  attentive i fd id l j s -> sv_socks s !! fd = Some k -> calm k ->
  cn_in k = id_request_bytes PROTO_CMD_STATUS id ++ rest ->
  exists k', handle_client_command i s = Some (tt, sv_set_socks (<[fd := k']> (sv_socks s)) s) /\
    cn_in k' = rest /\ cn_out k' = cn_out k ++ bytes_of_string (status_reply id (job_st j)) /\ calm k'.
Proof.
  intros Ha Hk Hc Hin. pose proof (an_range _ _ _ _ _ _ Ha) as Hid. pose proof (id_bounded id Hid) as H64.
  destruct (id_line PROTO_CMD_STATUS "STATUS " id Hid) as (body & Hbody & Hone & Hshort);
    [reflexivity|eapply bool_decide_unpack; vm_compute; exact I|done|].
  eapply (handle_reply i fd PROTO_CMD_STATUS id l j body); try done; [by apply status_reply_short|].
  intros s1 Eh Ej Ec Q HQ. unfold handle_user_command, client_at. apply wpS_gets.
  assert (Hfd : cs_fd (session s1 i) = fd) by (unfold session; rewrite Ec; apply Ha). unfold session in Hfd. rewrite Hfd.
  cbn [rq_command rq_job_id req_id]. unfold user_status, find_job, job_call. apply wpS_gets.
  rewrite Ej, Eh, (attentive_find _ _ _ _ _ _ Ha). apply wpS_gets. rewrite Eh.
  unfold job_get_state, read_job. by rewrite (an_job _ _ _ _ _ _ Ha).
Qed.

(** META of a hidden text *)
Definition meta_body (id size : Z) : string :=
  "META " +:+ print_u id +:+ " type=PNG size=" +:+ print_u size +:+ " name=stego_result.png".

Lemma meta_body_line id size : 0 <= id -> 0 <= size -> one_line (meta_body id size).
Proof.
  intros H1 H2. unfold meta_body.
  repeat apply one_line_app; try (by apply one_line_print); (eapply bool_decide_unpack; vm_compute; exact I).
Qed.

Lemma meta_body_short id size : bounded 64 id -> bounded 64 size -> strlen (meta_body id size +:+ nl) < BUFFER_SIZE.
Proof.
  intros H1 H2. unfold meta_body. rewrite !strlen_app. pose proof (strlen_print_u64 _ H1). pose proof (strlen_print_u64 _ H2).
  change (strlen "META ") with 5. change (strlen " type=PNG size=") with 15. change (strlen " name=stego_result.png") with 22.
  change (strlen nl) with 1. unfold BUFFER_SIZE. lia.
Qed.

Lemma handle_meta i fd id l j size k rest s :
  attentive i fd id l j s -> sv_socks s !! fd = Some k -> calm k -> job_st j = JOB_STATE_DONE ->
  job_res_kind j = JOB_RESULT_PNG -> job_result_filename j = "stego_result.png"%string -> job_result_size j = size ->
  bounded 64 size -> cn_in k = id_request_bytes PROTO_CMD_META id ++ rest ->
  exists k', handle_client_command i s = Some (tt, sv_set_socks (<[fd := k']> (sv_socks s)) s) /\
    cn_in k' = rest /\ cn_out k' = cn_out k ++ bytes_of_string (meta_body id size +:+ nl) /\ calm k'.
Proof.
  intros Ha Hk Hc Hst Hkind Hname Hsize H64 Hin. pose proof (an_range _ _ _ _ _ _ Ha) as Hid. pose proof (id_bounded id Hid) as Hid64.
  destruct (id_line PROTO_CMD_META "META " id Hid) as (body & Hbody & Hone & Hshort);
    [reflexivity|eapply bool_decide_unpack; vm_compute; exact I|done|].
  eapply (handle_reply i fd PROTO_CMD_META id l j body); try done; [by apply meta_body_short|].
  intros s1 Eh Ej Ec Q HQ. unfold handle_user_command, client_at. apply wpS_gets.
  assert (Hfd : cs_fd (session s1 i) = fd) by (unfold session; rewrite Ec; apply Ha). unfold session in Hfd. rewrite Hfd.
  cbn [rq_command rq_job_id req_id]. unfold user_meta, find_job, job_call. apply wpS_gets.
  rewrite Ej, Eh, (attentive_find _ _ _ _ _ _ Ha). apply wpS_gets. rewrite Eh.
  unfold job_get_state, read_job. rewrite (an_job _ _ _ _ _ _ Ha), Hst. rewrite bool_decide_true by done. cbn [negb].
  apply wpS_gets. rewrite Eh. unfold job_get_result_meta, read_job. rewrite (an_job _ _ _ _ _ _ Ha), Hkind, Hname, Hsize.
  unfold meta_body in HQ. by rewrite !append_assoc in HQ.
Qed.

(** ** Polling *)

Lemma handle_polls n i fd id l j k rest s :
  attentive i fd id l j s -> sv_socks s !! fd = Some k -> calm k ->
  cn_in k = concat (replicate n (id_request_bytes PROTO_CMD_STATUS id)) ++ rest ->
  exists k', handle_lines n i s = Some (sv_set_socks (<[fd := k']> (sv_socks s)) s) /\
    cn_in k' = rest /\ cn_out k' = cn_out k ++ replies id (replicate n (job_st j)) /\ calm k'.
Proof.
  revert k s. induction n as [|n IH]; intros k s Ha Hk Hc Hin.
  - exists k. split_and!; [|done|by rewrite app_nil_r|done]. simpl. f_equal. rewrite insert_id by done. by destruct s.
  - cbn [replicate concat] in Hin. rewrite <-app_assoc in Hin.
    destruct (handle_status i fd id l j k _ s Ha Hk Hc Hin) as (k1 & H1 & Hin1 & Hout1 & Hc1).
    destruct (IH k1 (sv_set_socks (<[fd := k1]> (sv_socks s)) s)) as (k2 & H2 & Hin2 & Hout2 & Hc2);
      [by apply (attentive_socks _ _ _ _ _ k)|apply lookup_insert_eq|done|done|].
    exists k2. split_and!; [|done| |done].
    + rewrite (handle_lines_step _ _ _ _ _ H1 H2). unfold sv_set_socks. cbn. by rewrite insert_insert_eq.
    + rewrite Hout2, Hout1, <-app_assoc. done.
Qed.

Section conversation.
Context {L : LibPng} {LL : LibPngLaws L}.

Lemma fetchable_attentive i fd id l j out text data s :
  fetchable i fd id l j out text data s -> attentive i fd id l j s.
Proof. intros []. by constructor. Qed.

Lemma fetchable_socks i fd id l j out text data k k' s :
  fetchable i fd id l j out text data s -> sv_socks s !! fd = Some k ->
  fetchable i fd id l j out text data (sv_set_socks (<[fd := k']> (sv_socks s)) s).
Proof. intros [] Hk. constructor; try done. apply inv_socks; [done|by apply (insert_open _ _ k)]. Qed.

(** The last three requests: STATUS, META and DOWNLOAD. *)
Lemma handle_fetch i fd id l j out text data k rest s :
  fetchable i fd id l j out text data s -> sv_socks s !! fd = Some k -> calm k ->
  Z.of_nat (length data) < 2 ^ 63 ->
  cn_in k = id_request_bytes PROTO_CMD_STATUS id ++ id_request_bytes PROTO_CMD_META id ++
              id_request_bytes PROTO_CMD_DOWNLOAD id ++ rest ->
  exists s' k', handle_lines 3 i s = Some s' /\ sv_socks s' !! fd = Some k' /\ cn_in k' = rest /\
    cn_out k' = cn_out k ++ bytes_of_string (status_reply id JOB_STATE_DONE) ++
      bytes_of_string (meta_body id (Z.of_nat (length data)) +:+ nl) ++ download_text data.
Proof.
  intros Hf Hk Hc Hsize Hin. pose proof (fetchable_attentive _ _ _ _ _ _ _ _ _ Hf) as Ha.
  destruct (handle_status i fd id l j k _ s Ha Hk Hc Hin) as (k1 & H1 & Hin1 & Hout1 & Hc1).
  pose proof (fetchable_socks _ _ _ _ _ _ _ _ k k1 s Hf Hk) as Hf1. set (s1 := sv_set_socks (<[fd := k1]> _) s) in *.
  assert (Hk1 : sv_socks s1 !! fd = Some k1) by apply lookup_insert_eq.
  destruct (ft_meta _ _ _ _ _ _ _ _ _ Hf) as (M1 & M2 & M3).
  destruct (handle_meta i fd id l j _ k1 _ s1 (fetchable_attentive _ _ _ _ _ _ _ _ _ Hf1) Hk1 Hc1
    (ft_done _ _ _ _ _ _ _ _ _ Hf) M1 M2 M3 ltac:(unfold bounded; lia) Hin1) as (k2 & H2 & Hin2 & Hout2 & Hc2).
  pose proof (fetchable_socks _ _ _ _ _ _ _ _ k1 k2 s1 Hf1 Hk1) as Hf2. set (s2 := sv_set_socks (<[fd := k2]> _) s1) in *.
  destruct (handle_download_fetch i fd id l j out text data k2 rest s2 Hf2) as (s3 & k3 & H3 & Hk3 & Hin3 & Hout3);
    [apply lookup_insert_eq|done|done|done|].
  exists s3, k3. split_and!; [|done|done|].
  - do 3 (eapply handle_lines_step; [eassumption|]). reflexivity.
  - rewrite Hout3, Hout2, Hout1, <-!app_assoc. by rewrite (ft_done _ _ _ _ _ _ _ _ _ Hf).
Qed.

(** C1: what the program is for, with all its parts: a user hides a text in an
    image with the command-line client.  The server takes the request and
    [n] polls of the state, a worker takes its turn, and the server takes the
    last three requests.  On an undisturbed run the server consumes exactly
    the bytes that the client sends, and on the server's answers the client
    succeeds, sends exactly these bytes, and saves a file that decodes to
    exactly the text. *)
Theorem text_hidden_by_client i fd k png text rest p1 p2 out e n s :
  ready i fd k png (bytes_of_string text) p1 p2 s -> hideable png (bytes_of_string text) out s ->
  ti_cancels e = [] -> (n < 120)%nat ->
  let requests := text_requests (jt_next_id (sv_jobs s)) n png (bytes_of_string text) in
  cn_in k = requests ++ rest ->
  exists s1, handle_lines (S n) i s = Some s1 /\ let s2 := worker_turn e s1 in
    exists data w, w_fs (sv_world s2) !! out = Some data /\
      stego_decode (Some out) (sv_world s2) = (inr (extracted STEGO_PAYLOAD_TEXT [] (bytes_of_string text)), w) /\
      (Z.of_nat (length data) < 2 ^ 63 ->
       exists s3 k3 answers, handle_lines 3 i s2 = Some s3 /\ sv_socks s3 !! fd = Some k3 /\ cn_in k3 = rest /\
         cn_out k3 = cn_out k ++ answers /\
         forall png_in result c later, prepared png_in result png text c -> cn_in (cl_conn c) = answers ++ later ->
           exists c', cmd_encode_text png_in text result c = Some (0, c') /\
             cn_out (cl_conn c') = cn_out (cl_conn c) ++ requests /\ cn_in (cl_conn c') = later /\
             w_fs (cl_world c') !! result = Some data).
Proof.
  intros Hr Hh He Hn requests Hin. set (id := jt_next_id (sv_jobs s)) in *.
  unfold requests, text_requests in Hin. rewrite <-!app_assoc in Hin.
  destruct (encode_text_submitted i fd k png _ _ p1 p2 s Hr Hin) as (s0 & Hrun0 & Hat).
  pose proof Hat as [Hi0 Ho0 _ (l0 & now & _ & Hheap & _) _ _ Hcl (k0 & Hk0 & Hin0 & Hout0 & Hc0)].
  set (j0 := new_job _ _ _ _ _ _ _ now) in Hheap.
  assert (Hid : 1 <= id <= MAX_JOBS + 1) by apply next_id_small, Hr.
  assert (Ha0 : attentive i fd id l0 j0 s0).
  { constructor; try done; [unfold session; rewrite Hcl; apply Hr|rewrite Hheap; apply lookup_insert_eq]. }
  assert (Hsplit : concat (replicate (S n) (id_request_bytes PROTO_CMD_STATUS id)) =
    concat (replicate n (id_request_bytes PROTO_CMD_STATUS id)) ++ id_request_bytes PROTO_CMD_STATUS id).
  { rewrite replicate_S_end, concat_app. cbn [concat]. by rewrite app_nil_r. }
  rewrite Hsplit in Hin0. rewrite <-!app_assoc in Hin0.
  destruct (handle_polls n i fd id l0 j0 k0 _ s0 Ha0 Hk0 Hc0 Hin0) as (k1 & H1 & Hin1 & Hout1 & Hc1).
  set (s1 := sv_set_socks (<[fd := k1]> (sv_socks s0)) s0) in *.
  exists s1. split; [by eapply handle_lines_step|]. cbv zeta.
  destruct (turn_fetchable i fd k png _ _ p1 p2 out e s s0 (<[fd := k1]> (sv_socks s0)) Hr Hh He Hrun0 Hat)
    as (l & j & data & Hso & Hft); [apply inv_socks; [done|by apply (insert_open _ _ k0)]|].
  fold s1 in Hso, Hft. pose proof Hft as [_ _ _ _ _ _ _ _ _ _ Hdata _ _ (w & Hdec)].
  exists data, w. split_and!; [done|done|]. intros Hsize.
  destruct (handle_fetch i fd id l j out _ data k1 rest _ Hft) as (s3 & k3 & H3 & Hk3 & Hin3 & Hout3); try done.
  { rewrite Hso. apply lookup_insert_eq. }
  exists s3, k3, (text_replies id (replicate n JOB_STATE_QUEUED) (meta_body id (Z.of_nat (length data))) data).
  split_and!; [done|done|done| |].
  { rewrite Hout3, Hout1, Hout0. unfold text_replies, replies, download_text.
    rewrite fmap_app, concat_app. cbn [fmap list_fmap concat]. rewrite app_nil_r, <-!app_assoc. done. }
  intros png_in result c later Hp Hanswers.
  pose proof (client_on_answers png_in result png text id (replicate n JOB_STATE_QUEUED)
    (meta_body id (Z.of_nat (length data))) data later c Hp (id_bounded id Hid)) as H. rewrite length_replicate in H.
  apply H; try done; [lia|by apply Forall_replicate|apply meta_body_line; lia|].
  apply meta_body_short; [by apply id_bounded|unfold bounded; lia].
Qed.
End conversation.
