(* ===== verification/Admin.v ===== *)
(** * The console of the administrator (src/src/admin/main.c)

    A menu that reads options from the standard input, sends one command of
    the protocol for each and prints one line of the answer.  The connection
    and the terminal are those of [client], with a server that answers or closes;
    the standard input is the list of the bytes not read yet, after which every
    read reports its end. *)

From S2P Require Export Client.
#[local] Open Scope Z_scope.

(** What becomes of the process that archives the logs. *)
Inductive child_outcome :=
  | ForkFails
  | WaitFails (pid : Z)
  | Exited (pid code : Z)
  | Signaled (pid signal : Z)
  | OtherStatus (pid : Z).

Record admin := Admin {
  ad_client : client;
  ad_stdin : list Z;
  ad_children : list child_outcome;   (* [ForkFails] when the list is exhausted *)
  ad_spawned : list (list string)     (* the arguments of the processes started *)
}.

Definition Ad (A : Type) : Type := admin -> option (A * admin).

#[export] Instance Ad_ret : MRet Ad := fun A a s => Some (a, s).
#[export] Instance Ad_bind : MBind Ad := fun A B f m s =>
  match m s with Some (a, s) => f a s | None => None end.

Definition console {A} (m : Cl A) : Ad A := fun s =>
  match m (ad_client s) with
  | Some (a, c) => Some (a, Admin c (ad_stdin s) (ad_children s) (ad_spawned s))
  | None => None
  end.

Definition SERVER_HOST : string := "127.0.0.1".

(** ** The connection *)

(** The same steps as in the client. *)
Definition connect_to_admin (pick : gset Z -> Z) : Boot Z := connect_to_server pick.

Definition send_cmd (cmd : string) : Cl Z :=
  rc ← on_conn (fun k => write_all k (Some (bytes_of_string cmd)));
  if rc <? 0 then mret (-1) else mret 0.

Definition recv_and_print : Cl Z :=
  r ← recv_line (BUFFER_SIZE * 2);
  if fst r <=? 0 then mret (-1) else
  _ ← print (snd r); mret 0.

Definition do_simple (cmd : string) : Cl Z :=
  rc ← send_cmd cmd;
  if rc <? 0 then mret (-1) else recv_and_print.

(** ** The standard input *)

(** [fgets] and the removal of the newline. *)
Definition read_line_stdin (buf_size : Z) : Ad string := fun s =>
  let line := line_of (Z.to_nat (buf_size - 1)) (ad_stdin s) in
  Some (trim_newline (cstr_of_bytes line),
        Admin (ad_client s) (drop (length line) (ad_stdin s)) (ad_children s) (ad_spawned s)).

(** [None] for the result [-1]. *)
Definition prompt_nonempty (label : string) (out_size : Z) : Ad (option string) :=
  _ ← console (print (label +:+ ": "));
  text ← read_line_stdin out_size;
  mret (if strlen text =? 0 then None else Some text).

(** ** Commands *)

Definition do_with_arg (verb label : string) : Ad Z :=
  arg ← prompt_nonempty label 256;
  match arg with
  | None => _ ← console (print ("(anulat - argument gol)" +:+ nl)); mret 0
  | Some arg =>
      rc ← console (send_cmd (snprintf_s 512 (verb +:+ " " +:+ arg +:+ nl)));
      if rc <? 0 then mret (-1) else console recv_and_print
  end.

Definition do_raw : Ad Z :=
  line ← prompt_nonempty "Comanda (ex. STATS)" BUFFER_SIZE;
  match line with
  | None => _ ← console (print ("(anulat)" +:+ nl)); mret 0
  | Some line =>
      rc ← console (send_cmd (snprintf_s (BUFFER_SIZE + 2) (line +:+ nl)));
      if rc <? 0 then mret (-1) else console recv_and_print
  end.

(** [fork], [execl] in the child, [waitpid]. *)
Definition spawn (args : list string) : Ad child_outcome := fun s =>
  let outcome := hd ForkFails (ad_children s) in
  let spawned := match outcome with ForkFails => ad_spawned s | _ => ad_spawned s ++ [args] end in
  Some (outcome, Admin (ad_client s) (ad_stdin s) (tl (ad_children s)) spawned).

Definition do_export_logs : Ad Z :=
  dest ← prompt_nonempty "Arhiva destinatie (ex. logs_backup.tar.gz)" 256;
  match dest with
  | None => _ ← console (print ("(anulat)" +:+ nl)); mret 0
  | Some dest =>
      let waiting pid := console (print ("[parent] child pid=" +:+ print_d pid +:+ ", astept tar..." +:+ nl)) in
      outcome ← spawn ["tar"; "czf"; dest; "logs/"]%string;
      match outcome with
      | ForkFails => mret (-1)
      | WaitFails pid => _ ← waiting pid; mret (-1)
      | Exited pid code =>
          _ ← waiting pid;
          _ ← console (print (if code =? 0 then "OK: logs arhivate in " +:+ dest +:+ " (tar exit=0)" +:+ nl
                              else "ERR: tar a iesit cu cod " +:+ print_d code +:+ nl));
          mret 0
      | Signaled pid signal =>
          _ ← waiting pid;
          _ ← console (print ("ERR: tar ucis de semnalul " +:+ print_d signal +:+ nl));
          mret 0
      | OtherStatus pid => _ ← waiting pid; mret 0
      end
  end.

(** ** The menu *)

Definition print_menu : list string :=
  (fun line => line +:+ nl)%string <$>
  [""; "==============================================="; " STEGAPNG ADMIN CONSOLE";
   "==============================================="; "  1)  STATS         - statistici generale server";
   "  2)  LISTJOBS      - lista job-uri active"; "  3)  HISTORY       - istoric job-uri finalizate";
   "  4)  LISTCLIENTS   - clienti conectati"; "  5)  AVGDURATION   - durata medie job-uri";
   "  6)  CANCEL        - anuleaza job <id>"; "  7)  KICK          - deconecteaza client <fd>";
   "  8)  BLOCKIP       - blocheaza un IP"; "  9)  UNBLOCKIP     - deblocheaza un IP";
   " 10)  PING          - test conexiune"; " 11)  HELP          - comenzile suportate de server";
   " 12)  RAW           - trimite o comanda libera";
   " 13)  EXPORT LOG    - arhiveaza logs/ (fork + execl tar + wait)"; "  0)  QUIT          - iesire";
   "-----------------------------------------------"]%string.

Definition atoi (text : string) : Z := to_int (st_value (strtol text)).

(** The switch: [None] for the branch that continues, otherwise [rc] and
    whether the loop goes on. *)
Definition menu_choose (opt : Z) : Ad (option (Z * bool)) :=
  let simple cmd := (rc ← console (do_simple (cmd +:+ nl)); mret (Some (rc, true)))%string in
  let arg verb label := (rc ← do_with_arg verb label; mret (Some (rc, true))) in
  if opt =? 1 then simple "STATS" else
  if opt =? 2 then simple "LISTJOBS" else
  if opt =? 3 then simple "HISTORY" else
  if opt =? 4 then simple "LISTCLIENTS" else
  if opt =? 5 then simple "AVGDURATION" else
  if opt =? 6 then arg "CANCEL" "job id" else
  if opt =? 7 then arg "KICK" "client fd" else
  if opt =? 8 then arg "BLOCKIP" "ip" else
  if opt =? 9 then arg "UNBLOCKIP" "ip" else
  if opt =? 10 then simple "PING" else
  if opt =? 11 then simple "HELP" else
  if opt =? 12 then rc ← do_raw; mret (Some (rc, true)) else
  if opt =? 13 then rc ← do_export_logs; mret (Some (rc, true)) else
  if opt =? 0 then _ ← console (do_simple ("QUIT" +:+ nl)); mret (Some (0, false)) else
  _ ← console (print ("Optiune invalida." +:+ nl)); mret None.

(** One iteration of the loop of [main]: whether the loop goes on. *)
Definition menu_turn : Ad bool :=
  _ ← console (print (String.concat EmptyString print_menu));
  _ ← console (print "Alege: ");
  input ← read_line_stdin 64;
  if strlen input =? 0 then mret true else
  r ← menu_choose (atoi input);
  match r with
  | None => mret true
  | Some (rc, running) => mret (running && negb (rc <? 0))
  end.

(** The loop; [None] when it has not ended after [fuel] iterations. *)
Fixpoint menu_loop (fuel : nat) : Ad (option unit) :=
  match fuel with
  | O => mret None
  | S fuel =>
      running ← menu_turn;
      if (running : bool) then menu_loop fuel else mret (Some tt)
  end.

(** [main] with the arguments after the name of the program, and whether
    [connect_to_admin] succeeded with the host and the port. *)
Definition admin_main (fuel : nat) (args : list string) (connected : string -> Z -> bool) : Ad (option Z) :=
  let host := default SERVER_HOST (args !! 0%nat) in
  let port := match args !! 1%nat with Some p => u16 (atoi p) | None => ADMIN_PORT end in
  if negb (connected host port) then mret (Some 1) else
  _ ← console (print ("Connected to admin " +:+ host +:+ ":" +:+ print_u port +:+ nl));
  _ ← console recv_and_print;
  r ← menu_loop fuel;
  mret (match r with Some _ => Some 0 | None => None end).
