(* ===== verification/AdminCorrect.v ===== *)
(** * What the administrator's console does

    The console and the parser of the server agree on every command of the
    menu; and the loop of the menu ends or, at the end of its input, repeats
    the menu for ever. *)

From S2P Require Export Admin ClientCorrect.
#[local] Open Scope Z_scope.

(** ** The logic *)

Definition wpA {A} (m : Ad A) (Q : A -> admin -> Prop) (s : admin) : Prop :=
  match m s with Some (a, s') => Q a s' | None => False end.

Section wpA_rules.
Context {A B : Type}.

Lemma wpA_ret (a : A) (Q : A -> admin -> Prop) s : Q a s -> wpA (mret a) Q s.
Proof. done. Qed.

Lemma wpA_bind (m : Ad A) (f : A -> Ad B) (Q : B -> admin -> Prop) s :
  wpA m (fun a => wpA (f a) Q) s -> wpA (m ≫= f) Q s.
Proof. unfold wpA, mbind, Ad_bind. by destruct (m s) as [[]|]. Qed.

Lemma wpA_conseq (m : Ad A) (P Q : A -> admin -> Prop) s :
  wpA m P s -> (forall a s', P a s' -> Q a s') -> wpA m Q s.
Proof. unfold wpA. destruct (m s) as [[]|]; auto. Qed.

Lemma wpA_run (m : Ad A) (Q : A -> admin -> Prop) s : wpA m Q s -> exists a s', m s = Some (a, s') /\ Q a s'.
Proof. unfold wpA. destruct (m s) as [[a s']|]; [|done]. by exists a, s'. Qed.

Lemma wpA_console (m : Cl A) (Q : A -> admin -> Prop) s :
  wpC m (fun a c => Q a (Admin c (ad_stdin s) (ad_children s) (ad_spawned s))) (ad_client s) -> wpA (console m) Q s.
Proof. unfold wpA, wpC, console. by destruct (m (ad_client s)) as [[]|]. Qed.
End wpA_rules.

(** ** The loop *)

(** Every computation is defined and takes what it reads from the front of the
    input. *)
Definition heard (s s' : admin) : Prop := exists line, ad_stdin s = line ++ ad_stdin s'.

#[export] Instance heard_preorder : PreOrder heard.
Proof.
  split; [intros s; by exists []|]. intros s1 s2 s3 [l1 H1] [l2 H2]. exists (l1 ++ l2). by rewrite H1, H2, app_assoc.
Qed.

Definition listens {A} (m : Ad A) : Prop := forall s, wpA m (fun _ s' => heard s s') s.

Lemma listens_ret {A} (a : A) : listens (mret a).
Proof. intros s. by apply wpA_ret. Qed.

Lemma listens_bind {A B} (m : Ad A) (f : A -> Ad B) : listens m -> (forall a, listens (f a)) -> listens (m ≫= f).
Proof.
  intros Hm Hf s. apply wpA_bind. eapply wpA_conseq; [apply Hm|]. intros a s1 H1.
  eapply wpA_conseq; [apply Hf|]. intros b s2 H2. by transitivity s1.
Qed.

Lemma listens_console {A} (m : Cl A) : safeC None 0 0 m -> listens (console m).
Proof. intros Hm s. apply wpA_console. eapply wpC_conseq; [apply Hm|]. intros a c _. by exists []. Qed.

Lemma listens_stdin n : listens (read_line_stdin n).
Proof.
  intros s. unfold wpA, read_line_stdin. set (line := line_of _ _).
  destruct (line_of_prefix (Z.to_nat (n - 1)) (ad_stdin s)) as [rest Hrest]. fold line in Hrest.
  exists line. cbn [ad_stdin]. by rewrite Hrest, drop_app_length.
Qed.

Lemma listens_spawn args : listens (spawn args).
Proof. intros s. by exists []. Qed.

Lemma safeC_send_cmd cmd : safeC None 0 0 (send_cmd cmd).
Proof. apply safeC_then; [apply safeC_write|]. intros rc. apply safeC_if; apply safeC_ret. Qed.

Lemma safeC_recv : safeC None 0 0 recv_and_print.
Proof.
  apply safeC_then; [by apply safeC_line|]. intros r. apply safeC_if; [apply safeC_ret|].
  apply safeC_then; [apply safeC_print|]. intros _. apply safeC_ret.
Qed.

Lemma safeC_simple cmd : safeC None 0 0 (do_simple cmd).
Proof. apply safeC_then; [apply safeC_send_cmd|]. intros rc. apply safeC_if; [apply safeC_ret|apply safeC_recv]. Qed.

(** Follow the structure of a command of the console. *)
Ltac listening :=
  repeat lazymatch goal with
    | |- listens (mret _) => apply listens_ret
    | |- listens (_ ≫= _) => apply listens_bind; [|intros ?]
    | |- listens (console (print _)) => apply listens_console, safeC_print
    | |- listens (console (send_cmd _)) => apply listens_console, safeC_send_cmd
    | |- listens (console recv_and_print) => apply listens_console, safeC_recv
    | |- listens (console (do_simple _)) => apply listens_console, safeC_simple
    | |- listens (read_line_stdin _) => apply listens_stdin
    | |- listens (spawn _) => apply listens_spawn
    | |- listens (match ?x with _ => _ end) => destruct x
    end.

Lemma listens_prompt label n : listens (prompt_nonempty label n).
Proof. unfold prompt_nonempty. listening. Qed.

Lemma listens_arg verb label : listens (do_with_arg verb label).
Proof. unfold do_with_arg. apply listens_bind; [apply listens_prompt|]. intros ?. listening. Qed.

Lemma listens_raw : listens do_raw.
Proof. unfold do_raw. apply listens_bind; [apply listens_prompt|]. intros ?. listening. Qed.

Lemma listens_export : listens do_export_logs.
Proof. unfold do_export_logs. apply listens_bind; [apply listens_prompt|]. intros ?. cbv zeta. listening. Qed.

Lemma listens_menu_choose opt : listens (menu_choose opt).
Proof.
  assert (Hs : forall cmd, listens (rc ← console (do_simple cmd); mret (Some (rc, true)))) by (intros cmd; listening).
  assert (Ha : forall verb label, listens (rc ← do_with_arg verb label; mret (Some (rc, true))))
    by (intros verb label; apply listens_bind; [apply listens_arg|]; intros ?; listening).
  assert (Hr : listens (rc ← do_raw; mret (Some (rc, true))))
    by (apply listens_bind; [apply listens_raw|]; intros ?; listening).
  assert (He : listens (rc ← do_export_logs; mret (Some (rc, true))))
    by (apply listens_bind; [apply listens_export|]; intros ?; listening).
  unfold menu_choose. cbv zeta.
  do 5 (destruct (_ =? _); [apply Hs|]). do 4 (destruct (_ =? _); [apply Ha|]). do 2 (destruct (_ =? _); [apply Hs|]).
  destruct (_ =? _); [apply Hr|]. destruct (_ =? _); [apply He|]. destruct (_ =? _); listening.
Qed.

(** A turn of the menu consumes some input, if there is any. *)
Lemma menu_turn_step s :
  wpA menu_turn (fun running s' => heard s s' /\
    (ad_stdin s <> [] -> (length (ad_stdin s') < length (ad_stdin s))%nat) /\
    (ad_stdin s = [] -> running = true /\ cn_out (cl_conn (ad_client s')) = cn_out (cl_conn (ad_client s)))) s.
Proof.
  unfold menu_turn. apply wpA_bind, wpA_console. unfold wpC at 1, print at 1. cbv beta iota.
  apply wpA_bind, wpA_console. unfold wpC at 1, print at 1. cbn [ad_client ad_stdin ad_children ad_spawned cl_conn].
  set (c := Client _ _ _ _). apply wpA_bind. unfold wpA at 1, read_line_stdin. cbn [ad_client ad_stdin ad_children ad_spawned].
  change (Z.to_nat (64 - 1)) with 63%nat. set (line := line_of 63 (ad_stdin s)).
  destruct (line_of_prefix 63 (ad_stdin s)) as [rest Hrest]. fold line in Hrest.
  rewrite Hrest, drop_app_length. set (s1 := Admin c rest _ _).
  assert (Hh : heard s s1) by (exists line; exact Hrest).
  assert (Hlen : ad_stdin s <> [] -> (length rest < length (line ++ rest))%nat).
  { intros Hne. rewrite length_app. enough (line <> []) by (destruct line; simpl; [done|lia]).
    subst line. destruct (ad_stdin s) as [|ch input]; [done|]. simpl. by destruct (ch =? 10). }
  rewrite Hrest in Hlen. destruct (Z.eqb_spec (strlen (trim_newline (cstr_of_bytes line))) 0) as [H0|H0].
  - apply wpA_ret. split_and!; [done|intros Hne; exact (Hlen Hne)|done].
  - apply wpA_bind. eapply wpA_conseq; [apply listens_menu_choose|]. intros r s2 H2.
    assert (Hs2 : (length (ad_stdin s2) <= length rest)%nat).
    { destruct H2 as [l H2]. change (ad_stdin s1) with rest in H2. rewrite H2, length_app. lia. }
    assert (Hne : line ++ rest <> []).
    { destruct line; [|done]. by destruct H0. }
    assert (Hall : forall running : bool, wpA (mret running) (fun running s' => heard s s' /\
      (line ++ rest <> [] -> (length (ad_stdin s') < length (line ++ rest))%nat) /\
      (line ++ rest = [] -> running = true /\ cn_out (cl_conn (ad_client s')) = cn_out (cl_conn (ad_client s)))) s2).
    { intros running. apply wpA_ret. split_and!; [by transitivity s1|intros _; specialize (Hlen Hne); lia|done]. }
    destruct r as [[rc running]|]; apply Hall.
Qed.

(** ** The commands of the menu *)

(** The request of an option, and of its argument. *)
Definition menu_request (opt : Z) (arg : string) : option protocol_request :=
  if opt =? 1 then Some (req PROTO_CMD_STATS) else
  if opt =? 2 then Some (req PROTO_CMD_LISTJOBS) else
  if opt =? 3 then Some (req PROTO_CMD_HISTORY) else
  if opt =? 4 then Some (req PROTO_CMD_LISTCLIENTS) else
  if opt =? 5 then Some (req PROTO_CMD_AVGDURATION) else
  if opt =? 6 then Some (req_id PROTO_CMD_CANCEL (st_value (strtoull arg))) else
  if opt =? 7 then Some (req_arg PROTO_CMD_KICK arg) else
  if opt =? 8 then Some (req_arg PROTO_CMD_BLOCKIP arg) else
  if opt =? 9 then Some (req_arg PROTO_CMD_UNBLOCKIP arg) else
  if opt =? 10 then Some (req PROTO_CMD_PING) else
  if opt =? 11 then Some (req PROTO_CMD_HELP) else
  if opt =? 0 then Some (req PROTO_CMD_QUIT) else None.

Definition takes_argument (opt : Z) : bool := (6 <=? opt) && (opt <=? 9) || (opt =? 12) || (opt =? 13).

(** What is typed after the option. *)
Definition typed (opt : Z) (arg : string) : list Z :=
  if takes_argument opt then bytes_of_string (arg +:+ nl) else [].

(** The answer is printed, and nothing else is read. *)
Record answered (line reply : string) (later : list Z) (c c' : client) : Prop := Answered {
  as_in : cn_in (cl_conn c') = later;
  as_out : cn_out (cl_conn c') = cn_out (cl_conn c) ++ bytes_of_string line;
  as_calm : calm (cl_conn c');
  as_shown : cl_stdout c' = cl_stdout c ++ [reply +:+ nl]
}.

Lemma simple_exact line reply later c :
  calm (cl_conn c) -> one_line reply -> strlen (reply +:+ nl) < BUFFER_SIZE * 2 ->
  cn_in (cl_conn c) = bytes_of_string (reply +:+ nl) ++ later ->
  wpC (do_simple line) (fun rc c' => rc = 0 /\ answered line reply later c c') c.
Proof.
  intros [Hr Hw] Hone Hlen Hin. unfold do_simple, send_cmd. apply wpC_bind, wpC_bind. unfold wpC at 1, on_conn.
  destruct (write_loop_total (S (length (cn_wsched (cl_conn c)) + length (bytes_of_string line))) (bytes_of_string line) 0 (cl_conn c) ltac:(lia))
    as (r & sent & k & Heq & Hout & _ & _ & Hq & Hi & Hrs). unfold write_all. rewrite Heq.
  destruct (Hq Hw) as (-> & -> & Hqw). destruct (Z.ltb_spec (0 + Z.of_nat (length (bytes_of_string line))) 0); [lia|].
  apply wpC_ret. change (0 <? 0) with false. cbv iota. unfold recv_and_print. apply (wpC_bind (recv_line _)).
  unfold wpC at 1, recv_line, on_conn. cbn [cl_conn].
  destruct (read_line_exact (BUFFER_SIZE * 2) reply later k Hone Hlen) as (k' & -> & H1 & H2 & H3);
    [split; [by rewrite Hrs|done]|by rewrite Hi|].
  cbn [fst snd]. assert (Hpos : 0 < strlen (reply +:+ nl)).
  { rewrite strlen_app. change (strlen nl) with 1. pose proof (strlen_nonneg reply). lia. }
  destruct (Z.leb_spec (strlen (reply +:+ nl)) 0); [lia|]. rewrite one_line_cstr by done.
  split; [done|]. constructor; simpl; [done|congruence|done|done].
Qed.

(** The argument is read from the terminal. *)
Lemma prompt_exact label n arg rest s :
  0 < strlen arg -> strlen arg + 1 < n -> one_line arg -> ad_stdin s = bytes_of_string (arg +:+ nl) ++ rest ->
  wpA (prompt_nonempty label n) (fun r s' => r = Some arg /\ ad_stdin s' = rest /\
    cl_conn (ad_client s') = cl_conn (ad_client s) /\
    cl_stdout (ad_client s') = cl_stdout (ad_client s) ++ [label +:+ ": "] /\
    ad_children s' = ad_children s /\ ad_spawned s' = ad_spawned s) s.
Proof.
  intros Hpos Hlen Hone Hin. unfold prompt_nonempty. apply wpA_bind, wpA_console.
  unfold wpC at 1, print. apply wpA_bind. unfold wpA at 1, read_line_stdin. cbn [ad_stdin ad_client ad_children ad_spawned].
  assert (Hline : line_of (Z.to_nat (n - 1)) (ad_stdin s) = bytes_of_string (arg +:+ nl)).
  { rewrite Hin, bytes_of_string_app. change (bytes_of_string nl) with [10]. rewrite <-app_assoc.
    apply line_of_newline; [eapply Forall_impl; [exact Hone|]; by intros z []|].
    rewrite length_bytes_of_string. unfold strlen in *. lia. }
  rewrite Hline, one_line_cstr by done. rewrite trim_newline_nl. apply wpA_ret.
  rewrite (proj2 (Z.eqb_neq (strlen arg) 0)) by lia. split_and!; [done| |done..].
  cbn [ad_stdin]. by rewrite Hin, drop_app_length.
Qed.

(** What the server reads. *)
Lemma parse_line_text text :
  strlen (text +:+ nl) < BUFFER_SIZE ->
  protocol_parse_line (Some (text +:+ nl)) =
    Some (default (default (req PROTO_CMD_UNKNOWN) (match_prefixed prefixed_commands text)) (match_plain plain_commands text)).
Proof.
  intros Hlen. unfold protocol_parse_line. rewrite snprintf_s_fits, trim_newline_nl by done. cbv zeta.
  destruct (match_plain _ _); [done|]. by destruct (match_prefixed _ _).
Qed.

Definition option_line (opt : Z) (arg : string) : option string :=
  if opt =? 1 then Some "STATS"%string else if opt =? 2 then Some "LISTJOBS"%string else
  if opt =? 3 then Some "HISTORY"%string else if opt =? 4 then Some "LISTCLIENTS"%string else
  if opt =? 5 then Some "AVGDURATION"%string else
  if opt =? 6 then Some ("CANCEL" +:+ " " +:+ arg) else if opt =? 7 then Some ("KICK" +:+ " " +:+ arg) else
  if opt =? 8 then Some ("BLOCKIP" +:+ " " +:+ arg) else if opt =? 9 then Some ("UNBLOCKIP" +:+ " " +:+ arg) else
  if opt =? 10 then Some "PING"%string else if opt =? 11 then Some "HELP"%string else
  if opt =? 0 then Some "QUIT"%string else None.

(** The line of an option is parsed as its request. *)
Lemma option_line_parsed opt arg line :
  strlen arg < 255 -> option_line opt arg = Some line ->
  exists r, menu_request opt arg = Some r /\ protocol_parse_line (Some (line +:+ nl)) = Some r.
Proof.
  intros Harg. unfold option_line, menu_request.
  assert (Hplain : forall name c, strlen (name +:+ nl) < BUFFER_SIZE ->
    match_plain plain_commands name = Some (req c) -> Some name = Some line ->
    exists r, Some (req c) = Some r /\ protocol_parse_line (Some (line +:+ nl)) = Some r).
  { intros name c Hn Hm [= <-]. exists (req c). split; [done|]. rewrite parse_line_text by done. by rewrite Hm. }
  assert (Hfit : forall name, strlen name <= 10 -> strlen ((name +:+ " " +:+ arg) +:+ nl) < BUFFER_SIZE).
  { intros name Hn. rewrite !strlen_app. change (strlen " ") with 1. change (strlen nl) with 1. unfold BUFFER_SIZE. lia. }
  assert (Hprefix : forall name r, strlen name <= 10 -> match_plain plain_commands (name +:+ " " +:+ arg) = None ->
    match_prefixed prefixed_commands (name +:+ " " +:+ arg) = Some r -> Some (name +:+ " " +:+ arg) = Some line ->
    exists r', Some r = Some r' /\ protocol_parse_line (Some (line +:+ nl)) = Some r').
  { intros name r Hn Hm Hp Heq. assert (line = name +:+ " " +:+ arg) as -> by congruence. exists r. split; [done|].
    rewrite parse_line_text by by apply Hfit. by rewrite Hm, Hp. }
  do 5 (destruct (_ =? _); [by apply Hplain|]). do 4 (destruct (_ =? _); [by apply Hprefix|]).
  do 3 (destruct (_ =? _); [by apply Hplain|]). done.
Qed.

(** One exchange with the server, whatever was printed before the answer. *)
Definition exchanged (line reply : string) (later rest : list Z) (s s' : admin) : Prop :=
  cn_out (cl_conn (ad_client s')) = cn_out (cl_conn (ad_client s)) ++ bytes_of_string line /\
  cn_in (cl_conn (ad_client s')) = later /\ ad_stdin s' = rest /\
  exists prompts, cl_stdout (ad_client s') = cl_stdout (ad_client s) ++ prompts ++ [reply +:+ nl].

Section exchanges.
Context (reply : string) (later : list Z) (s : admin).
Context (Hcalm : calm (cl_conn (ad_client s))) (Hone : one_line reply) (Hlen : strlen (reply +:+ nl) < BUFFER_SIZE * 2).
Context (Hin : cn_in (cl_conn (ad_client s)) = bytes_of_string (reply +:+ nl) ++ later).

Lemma console_exchange name rest :
  ad_stdin s = rest ->
  wpA (rc ← console (do_simple (name +:+ nl)); mret (Some (rc, true)))
    (fun r s' => r = Some (0, true) /\ exchanged (name +:+ nl) reply later rest s s') s.
Proof.
  intros Hrest. apply wpA_bind, wpA_console. eapply wpC_conseq; [by apply simple_exact|].
  intros rc c [-> [H1 H2 H3 H4]]. apply wpA_ret. split; [done|]. split_and!; [exact H2|exact H1|exact Hrest|by exists []].
Qed.

Lemma quit_exchange rest :
  ad_stdin s = rest ->
  wpA (_ ← console (do_simple ("QUIT" +:+ nl)); mret (Some (0, false)))
    (fun r s' => r = Some (0, false) /\ exchanged ("QUIT" +:+ nl) reply later rest s s') s.
Proof.
  intros Hrest. apply wpA_bind, wpA_console. eapply wpC_conseq; [by apply simple_exact|].
  intros rc c [-> [H1 H2 H3 H4]]. apply wpA_ret. split; [done|]. split_and!; [exact H2|exact H1|exact Hrest|by exists []].
Qed.

(** A line sent after a prompt. *)
Lemma prompted_exchange line label rest s1 :
  ad_stdin s1 = rest -> cl_conn (ad_client s1) = cl_conn (ad_client s) ->
  cl_stdout (ad_client s1) = cl_stdout (ad_client s) ++ [label] ->
  wpA (rc ← console (send_cmd line); if rc <? 0 then mret (-1) else console recv_and_print)
    (fun rc s' => rc = 0 /\ exchanged line reply later rest s s') s1.
Proof.
  intros Hrest Hconn Hout.
  assert (H : wpC (do_simple line) (fun rc c' => rc = 0 /\ answered line reply later (ad_client s1) c') (ad_client s1))
    by (apply simple_exact; rewrite ?Hconn; done).
  unfold do_simple, wpC, mbind, Cl_bind in H. apply wpA_bind. unfold wpA at 1, console.
  destruct (send_cmd line (ad_client s1)) as [[rc c1]|]; [|done].
  destruct (rc <? 0).
  - apply wpA_ret. destruct H as [? _]. done.
  - apply wpA_console. cbn [ad_client ad_stdin]. unfold wpC. destruct (recv_and_print c1) as [[rc' c2]|]; [|done].
    destruct H as [-> [H1 H2 H3 H4]]. split; [done|]. unfold exchanged. cbn [ad_client ad_stdin].
    split_and!; [by rewrite H2, Hconn|done|done|].
    exists [label]. by rewrite H4, Hout, <-app_assoc.
Qed.

Lemma argument_exchange verb label arg rest :
  strlen verb <= 10 -> 0 < strlen arg < 255 -> one_line arg -> ad_stdin s = bytes_of_string (arg +:+ nl) ++ rest ->
  wpA (rc ← do_with_arg verb label; mret (Some (rc, true)))
    (fun r s' => r = Some (0, true) /\ exchanged ((verb +:+ " " +:+ arg) +:+ nl) reply later rest s s') s.
Proof.
  intros Hverb Harg Hone' Hstdin. apply wpA_bind. unfold do_with_arg. apply wpA_bind.
  eapply wpA_conseq; [apply (prompt_exact label 256 arg rest); try done; lia|].
  intros r s1 (-> & Hrest & Hconn & Hout & _). cbv beta iota. rewrite snprintf_s_fits.
  2: { rewrite !strlen_app. change (strlen " ") with 1. change (strlen nl) with 1. lia. }
  assert (Hassoc : verb +:+ " " +:+ arg +:+ nl = (verb +:+ " " +:+ arg) +:+ nl) by by rewrite !append_assoc.
  rewrite Hassoc. eapply wpA_conseq; [by eapply prompted_exchange|]. intros rc s2 [-> He]. by apply wpA_ret.
Qed.

(** A free command is sent as it was typed. *)
Lemma raw_exchange arg rest :
  0 < strlen arg < 255 -> one_line arg -> ad_stdin s = bytes_of_string (arg +:+ nl) ++ rest ->
  wpA (rc ← do_raw; mret (Some (rc, true)))
    (fun r s' => r = Some (0, true) /\ exchanged (arg +:+ nl) reply later rest s s') s.
Proof.
  intros Harg Hone' Hstdin. apply wpA_bind. unfold do_raw. apply wpA_bind.
  eapply wpA_conseq; [apply (prompt_exact _ BUFFER_SIZE arg rest); try done; unfold BUFFER_SIZE; lia|].
  intros r s1 (-> & Hrest & Hconn & Hout & _). cbv beta iota. rewrite snprintf_s_fits.
  2: { rewrite strlen_app. change (strlen nl) with 1. unfold BUFFER_SIZE. lia. }
  eapply wpA_conseq; [by eapply prompted_exchange|]. intros rc s2 [-> He]. by apply wpA_ret.
Qed.
End exchanges.

(** ** The properties *)

(** At the end of the input the menu is printed again and again. *)
Lemma menu_spins fuel s :
  ad_stdin s = [] -> exists s', menu_loop fuel s = Some (None, s') /\
    cn_out (cl_conn (ad_client s')) = cn_out (cl_conn (ad_client s)).
Proof.
  revert s. induction fuel as [|fuel IH]; intros s Hs; [by exists s|]. cbn [menu_loop].
  destruct (wpA_run _ _ _ (menu_turn_step s)) as (running & s1 & Hrun & [line Hh] & _ & Hspin).
  destruct (Hspin Hs) as [-> Hout]. rewrite Hs in Hh. symmetry in Hh. apply app_eq_nil in Hh as [_ Hs1].
  destruct (IH s1 Hs1) as (s2 & H2 & Hout2). exists s2. unfold mbind, Ad_bind. rewrite Hrun, H2.
  split; [done|congruence].
Qed.

(** C38: the loop of the menu reads at least a byte of its input in each
    iteration, so that it ends after as many, unless the input ends before: the
    console never notices the end of the input and repeats the menu for ever,
    without sending anything.  (The server answers or closes; a silent one blocks
    the console.) *)
Theorem menu_ends_or_spins s :
  exists r s', menu_loop (S (length (ad_stdin s))) s = Some (r, s') /\
    (r = Some tt \/
     r = None /\ ad_stdin s' = [] /\ forall fuel, exists s'', menu_loop fuel s' = Some (None, s'') /\
       cn_out (cl_conn (ad_client s'')) = cn_out (cl_conn (ad_client s'))).
Proof.
  assert (H : forall n s, (length (ad_stdin s) <= n)%nat -> exists r s', menu_loop (S n) s = Some (r, s') /\
    (r = Some tt \/ r = None /\ ad_stdin s' = [])).
  { induction n as [|n IH]; intros s0 Hn.
    - assert (Hs : ad_stdin s0 = []) by (apply nil_length_inv; lia).
      destruct (wpA_run _ _ _ (menu_turn_step s0)) as (running & s1 & Hrun & [line Hh] & _ & Hspin).
      destruct (Hspin Hs) as [-> _]. rewrite Hs in Hh. symmetry in Hh. apply app_eq_nil in Hh as [_ Hs1].
      exists None, s1. split; [|by right]. cbn [menu_loop]. unfold mbind, Ad_bind. by rewrite Hrun.
    - destruct (wpA_run _ _ _ (menu_turn_step s0)) as (running & s1 & Hrun & Hh & Hlt & Hspin).
      assert (Hn1 : (length (ad_stdin s1) <= n)%nat).
      { destruct (decide (ad_stdin s0 = [])) as [E|E]; [|specialize (Hlt E); lia].
        destruct Hh as [line Hh]. rewrite E in Hh. symmetry in Hh. apply app_eq_nil in Hh as [_ ->]. simpl. lia. }
      cbn [menu_loop]. unfold mbind, Ad_bind. rewrite Hrun. destruct running; [by apply IH|].
      exists (Some tt), s1. split; [done|by left]. }
  destruct (H _ s (Nat.le_refl _)) as (r & s' & Hrun & [->|[-> Hs']]).
  - exists (Some tt), s'. split; [exact Hrun|by left].
  - exists None, s'. split; [exact Hrun|right]. split_and!; [done|done|]. intros fuel. by apply menu_spins.
Qed.

(** The next test of the switch. *)
Ltac next_option opt :=
  match goal with |- context [opt =? ?k] => destruct (Z.eqb_spec opt k) as [->|_] end.

(** An archive of the logs: a process, and nothing on the connection. *)
Lemma export_local arg rest s :
  0 < strlen arg < 255 -> one_line arg -> ad_stdin s = bytes_of_string (arg +:+ nl) ++ rest ->
  wpA (rc ← do_export_logs; mret (Some (rc, true)))
    (fun r s' => (exists rc, r = Some (rc, true)) /\ cl_conn (ad_client s') = cl_conn (ad_client s) /\
       ad_stdin s' = rest /\
       ad_spawned s' = ad_spawned s ++
         match hd ForkFails (ad_children s) with ForkFails => [] | _ => [["tar"; "czf"; arg; "logs/"]%string] end) s.
Proof.
  intros Harg Hone Hstdin. apply wpA_bind. unfold do_export_logs. apply wpA_bind.
  eapply wpA_conseq; [apply (prompt_exact _ 256 arg rest); try done; lia|].
  intros r s1 (-> & Hrest & Hconn & _ & Hch & Hsp). cbv beta iota zeta. apply wpA_bind.
  unfold wpA at 1, spawn. rewrite Hch, Hsp. destruct (hd ForkFails (ad_children s)); cbn -[String.append]; rewrite ?Hconn, ?app_nil_r;
    (split; [by eexists|done]).
Qed.

(** C37: the console and the server agree on the commands.  Each of the options 0
    to 12 of the menu sends exactly one line, prints the line that the server
    answers, and the loop goes on, except after option 0.  The line is what the
    server parses as the request of the option, with the argument typed after
    it: QUIT for option 0; for option 12 it is the line that was typed.  Option
    13 sends nothing but starts tar, and any other number does nothing. *)
Theorem menu_speaks_protocol opt arg reply later rest s :
  (takes_argument opt = true -> 0 < strlen arg) -> strlen arg < 255 -> one_line arg ->
  ad_stdin s = typed opt arg ++ rest ->
  calm (cl_conn (ad_client s)) -> one_line reply -> strlen (reply +:+ nl) < BUFFER_SIZE * 2 ->
  cn_in (cl_conn (ad_client s)) = bytes_of_string (reply +:+ nl) ++ later ->
  exists out s', menu_choose opt s = Some (out, s') /\
    if (0 <=? opt) && (opt <=? 12) then
      out = Some (0, negb (opt =? 0)) /\ exists line, exchanged line reply later rest s s' /\
        if opt =? 12 then line = arg +:+ nl
        else exists r, menu_request opt arg = Some r /\ protocol_parse_line (Some line) = Some r
    else
      cl_conn (ad_client s') = cl_conn (ad_client s) /\ ad_stdin s' = rest /\
      if opt =? 13 then
        (exists rc, out = Some (rc, true)) /\
        ad_spawned s' = ad_spawned s ++
          match hd ForkFails (ad_children s) with ForkFails => [] | _ => [["tar"; "czf"; arg; "logs/"]%string] end
      else out = None /\ ad_spawned s' = ad_spawned s.
Proof.
  intros Harg Hshort Hone Hstdin Hc Hrone Hrlen Hin.
  assert (Hopt : (0 <=? opt) && (opt <=? 12) = false \/ opt = 12 \/ exists line, option_line opt arg = Some line /\
    (0 <=? opt) && (opt <=? 12) = true /\ opt <> 12).
  { unfold option_line. do 12 (match goal with |- context [opt =? ?k] => destruct (Z.eqb_spec opt k) as [->|?] end;
      [right; right; eexists; by split_and!|]).
    destruct (decide (opt = 12)); [by right; left|]. left. destruct (Z.leb_spec 0 opt), (Z.leb_spec opt 12); try done. lia. }
  destruct Hopt as [Hout|[->|(line & El & Hrange & H12)]].
  - rewrite Hout. assert (Hne : forall k, 0 <= k <= 12 -> (opt =? k) = false).
    { intros k Hk. apply Z.eqb_neq. intros ->. apply andb_false_iff in Hout as [H|H]; apply Z.leb_gt in H; lia. }
    destruct (Z.eqb_spec opt 13) as [->|Hne13].
    + destruct (wpA_run _ _ _ (export_local arg rest s (conj (Harg eq_refl) Hshort) Hone Hstdin)) as (o & s' & Hrun & H).
      exists o, s'. split; [exact Hrun|]. tauto.
    + unfold menu_choose. cbv zeta. rewrite (proj2 (Z.eqb_neq opt 13)) by done. rewrite !Hne by lia.
      eexists _, _. split; [reflexivity|]. cbn. split_and!; try done. revert Hstdin. unfold typed, takes_argument.
      rewrite (Hne 12), (proj2 (Z.eqb_neq opt 13)), !orb_false_r by lia.
      destruct (Z.leb_spec 6 opt), (Z.leb_spec opt 9); cbn [andb]; try done.
      specialize (Hne opt ltac:(lia)). by rewrite Z.eqb_refl in Hne.
  - destruct (wpA_run _ _ _ (raw_exchange reply later s Hc Hrone Hrlen Hin arg rest (conj (Harg eq_refl) Hshort) Hone Hstdin))
      as (o & s' & Hrun & -> & He).
    exists (Some (0, true)), s'. split; [exact Hrun|]. split; [done|]. by exists (arg +:+ nl).
  - rewrite Hrange, (proj2 (Z.eqb_neq opt 12)) by done.
    destruct (option_line_parsed opt arg line Hshort El) as (r & Hr & Hparse).
    assert (H : wpA (menu_choose opt) (fun o s' => o = Some (0, negb (opt =? 0)) /\ exchanged (line +:+ nl) reply later rest s s') s).
    { revert El Hstdin Harg. clear Hr Hrange H12. unfold option_line, menu_choose, typed, takes_argument. cbv zeta.
      do 5 (next_option opt; [intros [= <-] Hs _; by apply console_exchange|]).
      do 4 (next_option opt; [intros Heq Hs Ha; specialize (Ha eq_refl); apply (inj Some) in Heq; subst line; by apply argument_exchange|]).
      do 2 (next_option opt; [intros [= <-] Hs _; by apply console_exchange|]).
      destruct (Z.eqb_spec opt 0) as [->|_]; [|done]. intros [= <-] Hs _. by apply quit_exchange. }
    destruct (wpA_run _ _ _ H) as (o & s' & Hrun & -> & He). eexists _, s'. split; [exact Hrun|].
    split; [done|]. exists (line +:+ nl). split; [done|]. by exists r.
Qed.

Definition demo_console (stdin answers : string) : admin :=
  Admin (Client (Conn (bytes_of_string answers) [IoSome 2] [] [IoIntr]) (World ∅ ∅ 0 0 [] [] [] crc_global_init) [] 0)
    (bytes_of_string stdin) [] [].

Lemma menu_speaks_protocol_witness :
  let s := demo_console ("12" +:+ nl) ("ERR job not found" +:+ nl) in
  exists out s', menu_choose 6 s = Some (out, s') /\ out = Some (0, true) /\
    exists line, exchanged line "ERR job not found" [] [] s s' /\
      exists r, menu_request 6 "12" = Some r /\ protocol_parse_line (Some line) = Some r.
Proof.
  intros s. apply (menu_speaks_protocol 6 "12" "ERR job not found" [] [] s).
  - intros _. reflexivity.
  - reflexivity.
  - eapply bool_decide_unpack. vm_compute. exact I.
  - reflexivity.
  - split; eapply bool_decide_unpack; vm_compute; exact I.
  - eapply bool_decide_unpack. vm_compute. exact I.
  - reflexivity.
  - reflexivity.
Defined.
