(* ===== verification/Logger.v ===== *)
(** * The log (src/src/server/logger.c)

    The log file with its parent directories, and the lines that are appended
    to it.  The variadic arguments are formatted by the caller; the time is an
    argument, [None] when it cannot be formatted.  The mutex makes each call
    one atomic step. *)

From S2P Require Export Protocol StartupCorrect.
#[local] Open Scope Z_scope.

Inductive log_level := LOG_LEVEL_INFO | LOG_LEVEL_WARN | LOG_LEVEL_ERROR.

Definition level_to_string (level : log_level) : string :=
  match level with
  | LOG_LEVEL_INFO => "INFO"
  | LOG_LEVEL_WARN => "WARN"
  | LOG_LEVEL_ERROR => "ERROR"
  end.

(** ** Directories *)

(** A failing [mkdir] is forgiven when something exists by now, which is the
    second outcome. *)
Definition ensure_dir (path : string) : Boot Z :=
  if strlen path =? 0 then mret (-1) else
  st ← ((fun m => Some (mc_dirs m !! path, m)) : Boot (option bool));
  match st with
  | Some is_dir => mret (if is_dir : bool then 0 else -1)
  | None =>
      ok ← sys;
      if (ok : bool) then _ ← change (fun m => set_dirs (<[path := true]> (mc_dirs m)) m); mret 0 else
      exists_now ← sys;
      mret (if exists_now : bool then 0 else -1)
  end.

(** The loop over the characters: [seen] is the text before the pointer. *)
Fixpoint parents_loop (seen rest : string) : Boot Z :=
  match rest with
  | EmptyString => mret 0
  | String a rest =>
      if decide (a = "/"%char) then
        rc ← ensure_dir seen;
        if rc <? 0 then mret (-1) else parents_loop (seen +:+ String a EmptyString) rest
      else parents_loop (seen +:+ String a EmptyString) rest
  end.

Definition ensure_parent_dirs_for_file (path : string) : Boot Z :=
  if strlen path =? 0 then mret (-1) else
  if BUFFER_SIZE <=? strlen path then mret (-1) else
  match strrchr path "/"%char with
  | None => mret 0
  | Some k =>
      if k =? 0 then mret 0 else
      let temp := str_take k path in
      rc ← parents_loop (str_take 1 temp) (str_drop 1 temp);
      if rc <? 0 then mret (-1) else ensure_dir temp
  end.

(** ** The log *)

(** [g_log_file] names the open file; the lines are those written to it and to
    the error stream. *)
Record log := Log {
  g_log_file : option string;
  lg_lines : list string;
  lg_stderr : list string
}.

Definition log_init : log := Log None [] [].

(** [fopen] in append mode keeps the lines that are there. *)
Definition logger_init (path : option string) (g : log) : Boot (Z * log) :=
  match path with
  | None => mret (-1, g)
  | Some path =>
      rc ← ensure_parent_dirs_for_file path;
      if rc <? 0 then mret (-1, g) else
      ok ← sys;
      if negb ok then mret (-1, Log None (lg_lines g) (lg_stderr g))
      else mret (0, Log (Some path) (lg_lines g) (lg_stderr g))
  end.

Definition logger_close (g : log) : log := Log None (lg_lines g) (lg_stderr g).

Definition logger_log (level : log_level) (now : option string) (message : option string) (g : log) : log :=
  match message, now with
  | Some text, Some time =>
      let line := ("[" +:+ time +:+ "] [" +:+ level_to_string level +:+ "] " +:+ text +:+ nl)%string in
      match g_log_file g with
      | Some _ => Log (g_log_file g) (lg_lines g ++ [line]) (lg_stderr g)
      | None => Log None (lg_lines g) (lg_stderr g ++ [line])
      end
  | _, _ => g
  end.

(** ** Lemmas *)

(** With calls that succeed and no file in the way, a directory is there
    afterwards. *)
Record made (X : gset string) (m m' : machine) : Prop := Made {
  md_calls : mc_calls m' = [];
  md_there : forall p, p ∈ X -> mc_dirs m' !! p = Some true;
  md_kept : forall p, mc_dirs m !! p = Some true -> mc_dirs m' !! p = Some true;
  md_clear : forall p, mc_dirs m' !! p <> Some false
}.

Definition unobstructed (m : machine) : Prop := mc_calls m = [] /\ forall p, mc_dirs m !! p <> Some false.

Lemma made_trans X Y m1 m2 m3 : made X m1 m2 -> made Y m2 m3 -> made (X ∪ Y) m1 m3.
Proof. intros [] []. constructor; try done; [|auto]. intros p [Hp|Hp]%elem_of_union; auto. Qed.

Lemma made_clear X m m' : made X m m' -> unobstructed m'.
Proof. by intros []. Qed.

Lemma ensure_dir_made path m :
  unobstructed m -> 0 < strlen path -> wpB (ensure_dir path) (fun rc m' => rc = 0 /\ made {[path]} m m') m.
Proof.
  intros [Hc Hd] Hlen. unfold ensure_dir. destruct (Z.eqb_spec (strlen path) 0); [lia|].
  apply wpB_bind. unfold wpB at 1. destruct (mc_dirs m !! path) as [[]|] eqn:E.
  - apply wpB_ret. split; [done|]. constructor; try done. by intros p ->%elem_of_singleton.
  - by destruct (Hd path).
  - apply wpB_bind. unfold wpB at 1, sys. rewrite Hc. cbn [hd tl]. apply wpB_bind. unfold wpB at 1, change.
    apply wpB_ret. split; [done|]. constructor; simpl; [done|intros p ->%elem_of_singleton; apply lookup_insert_eq|..].
    + intros p Hp. destruct (decide (p = path)) as [->|Hne]; [apply lookup_insert_eq|by rewrite lookup_insert_ne].
    + intros p. destruct (decide (p = path)) as [->|Hne]; [by rewrite lookup_insert_eq|rewrite lookup_insert_ne by done; apply Hd].
Qed.

(** The proper prefixes of a path that end before a slash. *)
Fixpoint parents (seen rest : string) : gset string :=
  match rest with
  | EmptyString => ∅
  | String a rest =>
      let others := parents (seen +:+ String a EmptyString) rest in
      if decide (a = "/"%char) then {[seen]} ∪ others else others
  end.

Lemma parents_loop_made seen rest m :
  unobstructed m -> 0 < strlen seen -> wpB (parents_loop seen rest) (fun rc m' => rc = 0 /\ made (parents seen rest) m m') m.
Proof.
  revert seen m. induction rest as [|a rest IH]; intros seen m Hm Hs.
  - apply wpB_ret. split; [done|]. destruct Hm. by constructor.
  - cbn [parents_loop parents]. cbv zeta.
    assert (Hs' : 0 < strlen (seen +:+ String a EmptyString)) by (rewrite strlen_app; change (strlen (String a EmptyString)) with 1; lia).
    case_decide; [|by apply IH].
    apply wpB_bind. eapply wpB_conseq; [by apply ensure_dir_made|]. intros rc m1 [-> H1]. change (0 <? 0) with false. cbv iota.
    eapply wpB_conseq; [apply IH; [by eapply made_clear|done]|]. intros rc' m2 [-> H2]. split; [done|by eapply made_trans].
Qed.

(** The directories that a log file needs: every prefix of its path before a
    slash, but the root. *)
Definition log_dirs (path : string) : gset string :=
  match strrchr path "/"%char with
  | None => ∅
  | Some k => if k =? 0 then ∅ else
      let temp := str_take k path in parents (str_take 1 temp) (str_drop 1 temp) ∪ {[temp]}
  end.

Lemma strrchr_bounds s c k : strrchr s c = Some k -> 0 <= k < strlen s.
Proof.
  revert k. induction s as [|a s IH]; intros k; [done|]. cbn [strrchr]. rewrite strlen_cons. pose proof (strlen_nonneg s).
  destruct (strrchr s c) as [k'|]; [intros [= <-]; specialize (IH k' eq_refl); lia|]. case_decide; [intros [= <-]; lia|done].
Qed.

(** The directories are made and the file is opened. *)
Lemma logger_init_makes path g m :
  unobstructed m -> 0 < strlen path < BUFFER_SIZE ->
  wpB (logger_init (Some path) g) (fun r m' => r = (0, Log (Some path) (lg_lines g) (lg_stderr g)) /\
    made (log_dirs path) m m') m.
Proof.
  intros Hm Hlen. unfold logger_init.
  assert (Hopen : forall X m1, made X m m1 -> wpB (ok ← sys; if negb ok then mret (-1, Log None (lg_lines g) (lg_stderr g))
      else mret (0, Log (Some path) (lg_lines g) (lg_stderr g)))
    (fun r m' => r = (0, Log (Some path) (lg_lines g) (lg_stderr g)) /\ made X m m') m1).
  { intros X m1 []. apply wpB_bind. unfold wpB at 1, sys. rewrite md_calls0. cbn [hd tl negb]. apply wpB_ret.
    split; [done|]. by constructor. }
  assert (H : wpB (ensure_parent_dirs_for_file path) (fun rc m' => rc = 0 /\ made (log_dirs path) m m') m).
  { assert (Hnone : made ∅ m m) by (destruct Hm; by constructor).
    unfold ensure_parent_dirs_for_file, log_dirs. destruct (Z.eqb_spec (strlen path) 0); [lia|].
    destruct (Z.leb_spec BUFFER_SIZE (strlen path)); [lia|]. destruct (strrchr path "/") as [k|] eqn:E; [|by apply wpB_ret].
    destruct (Z.eqb_spec k 0); [by apply wpB_ret|]. pose proof (strrchr_bounds _ _ _ E) as Hk. cbv zeta.
    set (temp := str_take k path). assert (Ht : strlen temp = k) by (unfold temp; rewrite str_take_len; lia).
    apply wpB_bind. eapply wpB_conseq; [apply parents_loop_made; [done|rewrite str_take_len; lia]|].
    intros rc m1 [-> H1]. change (0 <? 0) with false. cbv iota.
    eapply wpB_conseq; [apply ensure_dir_made; [by eapply made_clear|lia]|]. intros rc m2 [-> H2].
    split; [done|by eapply made_trans]. }
  apply wpB_bind. eapply wpB_conseq; [exact H|]. intros rc m1 [-> H1]. change (0 <? 0) with false. cbv iota. by apply Hopen.
Qed.

(** What is logged while the file is open is appended to it, in order, and
    nothing goes elsewhere. *)
Lemma logged_in_order (entries : list (log_level * string * string)) path g :
  g_log_file g = Some path ->
  let g' := fold_left (fun g e => logger_log (fst (fst e)) (Some (snd (fst e))) (Some (snd e)) g) entries g in
  g_log_file g' = Some path /\ lg_stderr g' = lg_stderr g /\
  lg_lines g' = lg_lines g ++ ((fun e => "[" +:+ snd (fst e) +:+ "] [" +:+ level_to_string (fst (fst e)) +:+ "] " +:+ snd e +:+ nl)%string <$> entries).
Proof.
  revert g. induction entries as [|e entries IH]; intros g Hg; [simpl; by rewrite app_nil_r|]. cbn [fold_left].
  cbv zeta in *. destruct (IH (logger_log (fst (fst e)) (Some (snd (fst e))) (Some (snd e)) g)) as (H1 & H2 & H3);
    [unfold logger_log; by rewrite Hg|].
  split_and!; [done|rewrite H2; unfold logger_log; by rewrite Hg|].
  rewrite H3. unfold logger_log. rewrite Hg. cbn [lg_lines]. by rewrite <-app_assoc.
Qed.
