(* ===== verification/EntryPoint.v ===== *)
(** * The entry point of the server (src/src/server/main.c)

    From the arguments to the exit status: the configuration of
    RuntimeConfig.v, the log of Logger.v, and the run of ServerMain.v.  The
    lines that [server_run] itself logs are left out. *)

From S2P Require Export RuntimeConfig Logger ServerMain.
#[local] Open Scope Z_scope.

(** What [uname], [getpid], [getuid] and [getpwuid] return. *)
Record host := Host {
  h_uts : option (string * string * string * string);   (* sysname, nodename, release, machine *)
  h_pid : Z;
  h_uid : Z;
  h_user : option string
}.

Section entry.
Context {L : LibPng} (have_libconfig : bool) (config_read_file : string -> option settings) (getenv : string -> option string).
Context (h : host).

(** The texts that [runtime_config_log_environment] logs. *)
Definition environment_lines : list string :=
  match h_uts h with
  | Some (sysname, nodename, release, machine) =>
      ["Env: sys=" +:+ sysname +:+ " node=" +:+ nodename +:+ " rel=" +:+ release +:+ " mach=" +:+ machine]
  | None => []
  end ++
  ["Env: pid=" +:+ print_d (h_pid h) +:+ " uid=" +:+ print_d (h_uid h) +:+ " user=" +:+ default "?" (h_user h);
   "Env: PATH_len=" +:+ print_u (match getenv "PATH" with Some p => strlen p | None => 0 end) +:+
   " LANG=" +:+ default "(unset)" (getenv "LANG")]%string.

(** Lines logged one after the other; each reads the time. *)
Fixpoint log_lines (times : list (option string)) (lines : list string) (g : log) : list (option string) * log :=
  match lines with
  | [] => (times, g)
  | line :: lines => log_lines (tl times) lines (logger_log LOG_LEVEL_INFO (hd None times) (Some line) g)
  end.

Definition runtime_config_log_environment (times : list (option string)) (g : log) : list (option string) * log :=
  log_lines times environment_lines g.

(** The log when the server is about to run. *)
Definition log_start (cfg : runtime_config) (times : list (option string)) (g : log) : log :=
  let (times, g) := runtime_config_log_environment times g in
  logger_log LOG_LEVEL_INFO (hd None times) (Some (runtime_config_log_summary cfg)) g.

(** A run of [main], with the exit status, the state of the server if it was
    started, the log, and the machine. *)
Inductive server_program (pick : gset Z -> Z) (argv : list string) (times : list (option string))
    (st : storage_globals) (i : run_input) (g : log) (m : machine) : Z -> option server -> log -> machine -> Prop :=
  | program_refuses :
      main have_libconfig config_read_file getenv argv = EXIT_FAILURE ->
      server_program pick argv times st i g m EXIT_CODE_FAILURE None g m
  | program_informs :
      main have_libconfig config_read_file getenv argv = EXIT_SUCCESS ->
      server_program pick argv times st i g m EXIT_CODE_SUCCESS None g m
  | program_unlogged cfg rc g1 m1 :
      main have_libconfig config_read_file getenv argv = Start cfg ->
      logger_init (Some (log_path cfg)) g m = Some ((rc, g1), m1) -> rc < 0 ->
      server_program pick argv times st i g m EXIT_CODE_FAILURE None g1 m1
  | program_runs cfg rc g1 m1 code s m2 :
      main have_libconfig config_read_file getenv argv = Start cfg ->
      logger_init (Some (log_path cfg)) g m = Some ((rc, g1), m1) -> 0 <= rc ->
      server_run pick cfg st i m1 code s m2 ->
      server_program pick argv times st i g m code s (logger_close (log_start cfg times g1)) m2.

(** ** The log and the resources *)

(** Opening the log only makes directories. *)
Record same_resources (m m' : machine) : Prop := SameResources {
  sr_open : mc_open m' = mc_open m;
  sr_locks : mc_locks m' = mc_locks m;
  sr_sockets : mc_sockets m' = mc_sockets m;
  sr_threads : mc_threads m' = mc_threads m
}.

#[export] Instance same_resources_preorder : PreOrder same_resources.
Proof. split; [by split|]. intros m1 m2 m3 [] []. split; congruence. Qed.

(** A result of 0 or -1, and no resource touched. *)
Definition only_dirs (b : Boot Z) : Prop :=
  forall m, wpB b (fun rc m' => (rc = 0 \/ rc = -1) /\ same_resources m m') m.

Lemma only_dirs_ret rc : rc = 0 \/ rc = -1 -> only_dirs (mret rc).
Proof. intros Hrc m. by apply wpB_ret. Qed.

Lemma only_dirs_seq b k : only_dirs b -> only_dirs k -> only_dirs (rc ← b; if rc <? 0 then mret (-1) else k).
Proof.
  intros Hb Hk m. apply wpB_bind. eapply wpB_conseq; [apply Hb|]. intros rc m1 [_ H1]. destruct (rc <? 0).
  - apply wpB_ret. split; [by right|done].
  - eapply wpB_conseq; [apply Hk|]. intros rc' m2 [Hrc H2]. split; [done|by etrans].
Qed.

Lemma ensure_dir_only p : only_dirs (ensure_dir p).
Proof.
  intros m. unfold ensure_dir. destruct (strlen p =? 0); [apply wpB_ret; split; [by right|done]|].
  unfold wpB, mbind, Boot_bind. cbv beta iota. destruct (mc_dirs m !! p) as [[]|]; [split; [by left|done]|split; [by right|done]|].
  unfold sys, change, mret, Boot_ret. destruct (hd true (mc_calls m)); cbn; [split; [by left|by split]|].
  destruct (hd true (tl (mc_calls m))); (split; [|by split]); [by left|by right].
Qed.

Lemma parents_loop_only seen rest : only_dirs (parents_loop seen rest).
Proof.
  revert seen. induction rest as [|a rest IH]; intros seen; cbn [parents_loop]; [apply only_dirs_ret; by left|].
  case_decide; [|apply IH]. apply only_dirs_seq; [apply ensure_dir_only|apply IH].
Qed.

Lemma parent_dirs_only path : only_dirs (ensure_parent_dirs_for_file path).
Proof.
  unfold ensure_parent_dirs_for_file.
  destruct (strlen path =? 0); [apply only_dirs_ret; by right|].
  destruct (BUFFER_SIZE <=? strlen path); [apply only_dirs_ret; by right|].
  destruct (strrchr path "/") as [k|]; [|apply only_dirs_ret; by left].
  destruct (k =? 0); [apply only_dirs_ret; by left|]. apply only_dirs_seq; [apply parents_loop_only|apply ensure_dir_only].
Qed.

Lemma logger_init_spec path g m :
  wpB (logger_init (Some path) g) (fun r m' => same_resources m m' /\
    lg_lines r.2 = lg_lines g /\ lg_stderr r.2 = lg_stderr g /\
    (r.1 = 0 /\ g_log_file r.2 = Some path \/ r.1 = -1 /\ (g_log_file g = None -> g_log_file r.2 = None))) m.
Proof.
  unfold logger_init. apply wpB_bind. eapply wpB_conseq; [apply parent_dirs_only|]. intros rc m1 [_ H1].
  destruct (rc <? 0); [apply wpB_ret; split_and!; [done..|by right]|]. apply wpB_bind. unfold wpB at 1, sys.
  destruct (hd true (mc_calls m1)); cbn [negb]; apply wpB_ret; (split_and!; [etrans; [exact H1|by split]|done|done|]); [by left|by right].
Qed.

(** What a line becomes. *)
Definition logged_line (time line : string) : string :=
  "[" +:+ time +:+ "] [INFO] " +:+ line +:+ nl.

Lemma log_lines_appended path ts lines g :
  g_log_file g = Some path -> (length lines <= length ts)%nat ->
  log_lines (Some <$> ts) lines g =
  (Some <$> drop (length lines) ts, Log (Some path) (lg_lines g ++ zip_with logged_line ts lines) (lg_stderr g)).
Proof.
  revert ts g. induction lines as [|line lines IH]; intros ts g Hg Hlen.
  - cbn. rewrite zip_with_nil_r, app_nil_r. destruct g. cbn in *. by subst.
  - destruct ts as [|t ts]; cbn in Hlen; [lia|]. cbn [fmap list_fmap log_lines hd tl].
    rewrite IH; [|unfold logger_log; by rewrite Hg|lia]. unfold logger_log. rewrite Hg. cbn. by rewrite <-app_assoc.
Qed.

Lemma log_lines_snoc times lines line g :
  (log_lines times (lines ++ [line]) g).2 =
  let (times, g) := log_lines times lines g in logger_log LOG_LEVEL_INFO (hd None times) (Some line) g.
Proof. revert times g. induction lines as [|x lines IH]; intros times g; [done|]. apply IH. Qed.

(** ** Every run ends with its resources released *)

Context {LL : LibPngLaws L}.

Lemma log_start_lines cfg ts g path :
  let lines := environment_lines ++ [runtime_config_log_summary cfg] in
  g_log_file g = Some path -> (length lines <= length ts)%nat ->
  lg_lines (logger_close (log_start cfg (Some <$> ts) g)) = lg_lines g ++ zip_with logged_line ts lines.
Proof.
  cbv zeta. intros Hf Hlen. unfold log_start, runtime_config_log_environment.
  pose proof (log_lines_snoc (Some <$> ts) environment_lines (runtime_config_log_summary cfg) g) as Hsnoc.
  destruct (log_lines (Some <$> ts) environment_lines g) as [times2 g2]. rewrite <-Hsnoc.
  by rewrite (log_lines_appended _ _ _ _ Hf Hlen).
Qed.

(** What is released when the program ends, and what is not. *)
Definition program_released (m m' : machine) (g' : log) : Prop :=
  mc_open m' = mc_open m /\ mc_locks m' = mc_locks m /\ mc_sockets m' ⊆ mc_sockets m /\ g_log_file g' = None.

(** C35: the program ends with an exit status whatever the arguments, the
    environment, the files, the clients and the failures of the system are, and
    in whatever order its threads act.  It fails or succeeds at once when the
    configuration says so, without touching anything; otherwise the status is 0
    if the server was started and 1 if it, or the log, could not be.  There is a
    run; every run closes every descriptor, destroys every mutex, removes the
    files of its sockets and closes the log.  After a start every worker was
    joined, no session is left, all jobs and the nodes of the queue are freed, and
    the first lines of the log describe the environment and the configuration
    that the server ran with.  A start that failed may leave threads: those
    created before the one that could not be.  And stopping never hangs: once the
    queue is stopped the workers can only act finitely often, and one of them can
    act until all have returned; that the pipe has room for their last events is
    part of the model (see ServerMain.v). *)
Theorem program_ends pick argv times st i g m :
  (forall p lc, config_read_file p = Some lc -> settings_ok lc) ->
  (forall X, 0 <= pick X /\ pick X ∉ X) -> mc_threads m = [] ->
  inotify_reads_ok (nt_inotify (ri_notif i)) -> crc_inv (w_crc (ri_world i)) -> g_log_file g = None ->
  (exists code s g' m', server_program pick argv times st i g m code s g' m') /\
  (forall code s g' m', server_program pick argv times st i g m code s g' m' ->
     program_released m m' g' /\
     match main have_libconfig config_read_file getenv argv with
     | EXIT_FAILURE => code = EXIT_CODE_FAILURE /\ s = None /\ m' = m /\ g' = g
     | EXIT_SUCCESS => code = EXIT_CODE_SUCCESS /\ s = None /\ m' = m /\ g' = g
     | Start cfg => config_wf cfg /\
         match s with
         | None => code = EXIT_CODE_FAILURE /\
             exists k, 0 <= k /\ (k = 0 \/ k < worker_count cfg) /\ mc_threads m' = seqZ 0 k
         | Some s => code = EXIT_CODE_SUCCESS /\
             mc_threads m' = [] /\ sv_socks s = ∅ /\ sv_heap s = ∅ /\ sv_nodes s = ∅ /\
             (forall k, cs_active (session s k) = false) /\
             let lines := environment_lines ++ [runtime_config_log_summary cfg] in
             forall ts, times = Some <$> ts -> (length lines <= length ts)%nat ->
               lg_lines g' = lg_lines g ++ zip_with logged_line ts lines
         end
     end) /\
  (forall fds cfg g' c, stopping fds cfg g' i c ->
     Acc (fun y x => workers_step x y) c /\ (joined c \/ exists c', workers_step c c')).
Proof.
  intros Hlc Hpick Hth Hn Hc Hg. pose proof (main_wf have_libconfig config_read_file getenv argv Hlc) as Hwf.
  assert (Hlog : forall cfg, exists rc g1 m1, logger_init (Some (log_path cfg)) g m = Some ((rc, g1), m1) /\
    same_resources m m1 /\ lg_lines g1 = lg_lines g /\
    (rc = 0 /\ g_log_file g1 = Some (log_path cfg) \/ rc = -1 /\ g_log_file g1 = None)).
  { intros cfg. pose proof (logger_init_spec (log_path cfg) g m) as Hl. unfold wpB in Hl.
    destruct (logger_init _ g m) as [[[rc g1] m1]|]; [|done]. cbn in Hl. destruct Hl as (Hs & Hl & _ & Ho).
    exists rc, g1, m1. split_and!; try done. destruct Ho as [?|[? ?]]; [by left|right; auto]. }
  split_and!.
  - destruct (main have_libconfig config_read_file getenv argv) as [| |cfg] eqn:Hmain.
    + eexists _, _, _, _. by apply program_refuses.
    + eexists _, _, _, _. by apply program_informs.
    + destruct (Hlog cfg) as (rc & g1 & m1 & Hinit & Hs & _ & Ho). destruct Ho as [[-> _]|[-> _]].
      * destruct (server_run_exists pick cfg st i m1) as (code & s & m2 & Hrun); [done|done| |done|done|].
        { by rewrite (sr_threads _ _ Hs). }
        eexists _, _, _, _. by eapply program_runs.
      * eexists _, _, _, _. by eapply program_unlogged.
  - intros code s g' m' Hrun. destruct Hrun as [Hm|Hm|cfg rc g1 m1 Hm Hinit Hrc|cfg rc g1 m1 code s m2 Hm Hinit Hrc Hrun];
      rewrite Hm in *; [by split_and!|by split_and!|..];
      destruct (Hlog cfg) as (rc' & g1' & m1' & Hinit' & [Ho Hk Hs Ht] & Hlines & Hf);
      rewrite Hinit in Hinit'; injection Hinit' as <- <- <-.
    + destruct Hf as [[-> _]|[-> Hf]]; [lia|]. split; [split_and!; try done; by rewrite Hs|]. split; [done|]. split; [done|].
      exists 0. split_and!; [done|by left|]. by rewrite Ht, Hth.
    + destruct Hf as [[-> Hf]|[-> _]]; [|lia].
      destruct (server_run_releases pick cfg st i m1 Hpick Hwf ltac:(by rewrite Ht) Hn Hc code s m2 Hrun) as [(R1 & R2 & R3 & R4) ->].
      split; [split_and!; [congruence|congruence|by rewrite <-Hs|done]|]. split; [done|].
      destruct s as [s|]; [|done]. destruct R4 as (? & ? & ? & ? & ?). split_and!; try done.
      cbv zeta. intros ts -> Hlen. rewrite (log_start_lines _ _ _ _ Hf Hlen). by rewrite Hlines.
  - intros fds cfg g' c Hs. destruct (stopping_inv fds cfg g' i Hn Hc c Hs) as (live & ps & Hp).
    split; [by eapply stopping_acc|by eapply joined_or_acts].
Qed.
End entry.
