(* ===== verification/ServerCases.v ===== *)
(** * Behaviours of the server (src/src/server/server.c)

    What blocking an address achieves and what it does not, what the events of
    the workers become, and two defects: a long list that is never answered,
    and the bytes of a refused image that are read as commands. *)

From S2P Require Export ServerRun.
#[local] Open Scope Z_scope.

(** ** Blocking an address *)

(** What the computations below leave alone. *)
Definition same_lists (s s' : server) : Prop :=
  sv_clients s' = sv_clients s /\ sv_blocklist s' = sv_blocklist s.

Lemma send_lists fd text s : wpS (send_responsef fd text) (fun _ s' => same_lists s s') s.
Proof.
  destruct (sv_socks s !! fd) as [c|] eqn:Hc.
  - eapply wpS_conseq; [by apply (send_spec fd text c)|]. by intros rc s' (c' & _ & _ & ->).
  - unfold send_responsef. destruct (_ <=? _); [by apply wpS_ret|]. apply wpS_bind.
    unfold wpS at 1, on_sock. rewrite Hc. by apply wpS_ret.
Qed.

Lemma blocklist_index_app bl ip i bl' :
  blocklist_index bl ip = Some i -> blocklist_index (bl ++ bl') ip = Some i.
Proof.
  revert i. induction bl as [|x bl IH]; intros i; simpl; [done|]. destruct (String.eqb x ip); [done|].
  destruct (blocklist_index bl ip) as [k|]; [|done]. by rewrite (IH k).
Qed.

Lemma blocklist_add_contains bl ip :
  strlen ip < 64 -> fst (blocklist_add bl ip) = 0 -> blocklist_contains (snd (blocklist_add bl ip)) ip = true.
Proof.
  intros Hs. unfold blocklist_add, blocklist_contains. destruct (strlen ip =? 0); [done|].
  destruct (blocklist_index bl ip) as [i|] eqn:E; [intros _; cbn [snd]; by rewrite E|].
  destruct (_ <? _); [|done]. intros _. cbn [snd]. rewrite snprintf_s_fits by done.
  pose proof (blocklist_index_spec (bl ++ [ip]) ip) as H. destruct (blocklist_index (bl ++ [ip]) ip); [done|].
  destruct H. apply elem_of_app. right. by apply list_elem_of_singleton.
Qed.

(** A blocked address on the user port, and the local socket. *)
Lemma blocked_refused ip t a single :
  blocklist_contains (sv_blocklist t) ip = true -> (forall X, ac_fd a X ∉ X) ->
  default "unknown"%string (ac_addr a) = ip ->
  accept_new_inet_connection (Some a) CLIENT_TYPE_USER single t = Some (0, t).
Proof.
  intros Hin Ha <-. pose proof (accept_inet_spec a CLIENT_TYPE_USER single t Ha) as H.
  unfold wpS, policy in H. rewrite Hin in H. cbn [bool_decide andb negb] in H.
  destruct (accept_new_inet_connection _ _ _ t) as [[rc t']|]; [|done]. by destruct H as [-> ->].
Qed.

Lemma unix_admitted s a k :
  srv_inv s -> (forall X, ac_fd a X ∉ X) -> free_slot_from 0 (sv_clients s) = Some k ->
  exists s', accept_new_unix_connection (Some a) s = Some (0, s') /\ srv_inv s' /\
    cs_active (session s' k) = true /\ cs_addr_str (session s' k) = "unix-local"%string.
Proof.
  intros Hi Ha Hk. pose proof (accept_unix_spec a s Ha) as H. pose proof (accept_unix_good (Some a) s Hi Ha) as Hg.
  unfold wpS in *. destruct (accept_new_unix_connection _ s) as [[rc s']|]; [|done]. destruct H as [-> Hout].
  exists s'. split; [done|]. split; [apply Hg|]. unfold outcome in Hout. rewrite Hk in Hout.
  destruct Hout as (c' & _ & ->). destruct (free_slot_some _ _ _ Hk) as (j & -> & Hj & _).
  unfold session, with_session. cbn [sv_clients sv_set_clients]. rewrite nth_alter by done.
  by rewrite decide_True.
Qed.

(** C19: when BLOCKIP has room for an address (one that fits an entry of the list),
    then at the end of the iteration no user with it is connected, the list holds
    it, and in this and every other state whose list holds it a connection from
    it to the user port is refused, and leaves no trace.  A connection to the
    local socket is not checked against the list: it is admitted as long as there
    is a free slot, even if its address unix-local is the one that was blocked. *)
Theorem block_effective i fd ip s :
  srv_inv s -> own i fd s -> 0 < strlen ip < 64 -> fst (blocklist_add (sv_blocklist s) ip) = 0 ->
  exists s', (_ ← admin_blockip fd ip; kick_loop (Z.to_nat MAX_CLIENTS) 0) s = Some (tt, s') /\ srv_inv s' /\
    (forall j, cs_active (session s' j) = true -> cs_type (session s' j) = CLIENT_TYPE_USER ->
       cs_addr_str (session s' j) <> ip) /\
    blocklist_contains (sv_blocklist s') ip = true /\
    (forall t a single, blocklist_contains (sv_blocklist t) ip = true -> (forall X, ac_fd a X ∉ X) ->
       default "unknown"%string (ac_addr a) = ip ->
       accept_new_inet_connection (Some a) CLIENT_TYPE_USER single t = Some (0, t)) /\
    (forall a k, (forall X, ac_fd a X ∉ X) -> free_slot_from 0 (sv_clients s') = Some k ->
       exists s'', accept_new_unix_connection (Some a) s' = Some (0, s'') /\ srv_inv s'' /\
         cs_active (session s'' k) = true /\ cs_addr_str (session s'' k) = "unix-local"%string).
Proof.
  intros Hi Ho Hip Hadd. pose proof (safe_admin_blockip i fd ip s Hi Ho) as Hsafe.
  assert (H : wpS (admin_blockip fd ip) (fun _ s1 =>
    sv_blocklist s1 = snd (blocklist_add (sv_blocklist s) ip) /\
    sv_clients s1 = (fun c => if blocked_session ip c then kick c else c) <$> sv_clients s) s).
  { unfold admin_blockip. destruct (Z.eqb_spec (strlen ip) 0); [lia|]. apply wpS_gets.
    destruct (blocklist_add (sv_blocklist s) ip) as [rc bl]. simpl in Hadd. subst rc. apply wpS_bind.
    change (0 <? 0) with false. unfold wpS at 1, modify. apply wpS_gets, wpS_bind.
    unfold wpS at 1, modify. eapply wpS_conseq; [apply send_lists|]. intros rc s1 [-> ->]. done. }
  pose proof (wpS_and _ _ _ _ Hsafe H) as H1. clear Hsafe H. revert H1. unfold wpS, mbind, Srv_bind.
  destruct (admin_blockip fd ip s) as [[rc s1]|]; [|done]. intros [(Hi1 & _ & _) [Hb Hc]].
  pose proof (kick_loop_spec (Z.to_nat MAX_CLIENTS) 0 s1 Hi1 ltac:(lia) ltac:(intros; lia)) as H2.
  pose proof (kick_loop_good (Z.to_nat MAX_CLIENTS) 0 s1 s1 Hi1 ltac:(done)) as H3.
  pose proof (wpS_and _ _ _ _ H2 H3) as H4. clear H2 H3. revert H4. unfold wpS.
  destruct (kick_loop _ _ s1) as [[[] s2]|]; [|done]. intros [[Hb2 H2] [Hi2 _]].
  assert (Hin : blocklist_contains (sv_blocklist s2) ip = true)
    by (rewrite Hb2, Hb; exact (blocklist_add_contains _ _ (proj2 Hip) Hadd)).
  exists s2. split_and!; [done|done| |done|intros t a single; by apply blocked_refused|intros a k; by apply unix_admitted].
  intros j Ha Ht Haddr. specialize (H2 j).
    assert (Hs1 : session s1 j = if blocked_session ip (session s j) then kick (session s j) else session s j).
    { unfold session. rewrite Hc, !nth_lookup, list_lookup_fmap.
      destruct (sv_clients s !! j) as [c|]; simpl; [done|]. unfold blocked_session. done. }
    assert (Hk : kicked (session s1 j) = false) by (destruct (kicked (session s1 j)); [congruence|done]).
    rewrite Hk in H2. rewrite Hs1 in H2, Hk. destruct (blocked_session ip (session s j)) eqn:Eb.
    + rewrite H2 in Ha. unfold kicked in Hk. cbn [kick cs_active cs_kick_requested] in Ha, Hk.
      by rewrite Ha in Hk.
    + rewrite H2 in *. unfold blocked_session in Eb. rewrite Ha, Ht, Haddr, String.eqb_refl in Eb. done.
Qed.

(** ** The events of the workers *)

(** A pipe delivers what [write] put into it in one piece: an event at a time,
    as often interrupted as one likes. *)
Definition whole_reads (sched : list io_event) : Prop :=
  Forall (fun e => e = IoIntr \/ exists k, e = IoSome k /\ (15 <= k)%nat) sched.

Lemma event_bytes_length ev : length (event_bytes ev) = 16%nat.
Proof. unfold event_bytes. by rewrite !length_app, !length_le_field. Qed.

Lemma event_of_event_bytes ev rest :
  bounded 64 (ev_job_id ev) ->
  event_of_bytes (take 16 (event_bytes ev ++ rest)) = LogEvent (ev_job_id ev) (job_state_code (ev_state ev)).
Proof.
  intros Hid. rewrite (take_app_length' (event_bytes ev)) by (by rewrite event_bytes_length).
  unfold event_of_bytes, event_bytes. set (b1 := le_field 8 _). set (b2 := le_field 4 _).
  assert (L1 : length b1 = 8%nat) by apply length_le_field. assert (L2 : length b2 = 4%nat) by apply length_le_field.
  rewrite (take_app_length' b1), (drop_app_length' b1), (take_app_length' b2) by done. subst b1 b2.
  rewrite !from_le_small; [done| |exact Hid]. by destruct (ev_state ev).
Qed.

Definition event_log (ev : worker_event) : log_line := LogEvent (ev_job_id ev) (job_state_code (ev_state ev)).

(** One read of the loop. *)
Lemma drain_step fuel evs sched out wsched n log :
  Forall (fun ev => bounded 64 (ev_job_id ev)) evs -> (16 <= n)%nat ->
  let input := concat (event_bytes <$> evs) in
  let c := Conn (drop (Nat.min n 16) input) sched out wsched in
  let bytes := take (Nat.min n 16) input in
  match bytes with
  | [] => Some (log, c)
  | _ :: _ => if Z.of_nat (length bytes) =? 16 then drain_loop fuel c (log ++ [event_of_bytes bytes])
              else drain_loop fuel c (log ++ [LogPartial])
  end =
  match evs with
  | [] => Some (log, Conn [] sched out wsched)
  | ev :: evs => drain_loop fuel (Conn (concat (event_bytes <$> evs)) sched out wsched) (log ++ [event_log ev])
  end.
Proof.
  intros Hid Hn. cbv zeta. rewrite Nat.min_r by done. destruct Hid as [|ev evs Hev Hid]; [done|].
  rewrite fmap_cons. cbn [concat]. set (rest := concat (event_bytes <$> evs)).
  pose proof (event_of_event_bytes ev rest Hev) as He.
  assert (Ht : length (take 16 (event_bytes ev ++ rest)) = 16%nat)
    by (rewrite length_take, length_app, event_bytes_length; lia).
  rewrite (drop_app_length' (event_bytes ev)) by (by rewrite event_bytes_length).
  rewrite He, Ht. change (Z.of_nat 16 =? 16) with true.
  by destruct (take 16 (event_bytes ev ++ rest)).
Qed.

Lemma drain_events fuel evs sched out wsched log :
  Forall (fun ev => bounded 64 (ev_job_id ev)) evs -> whole_reads sched ->
  (length sched + length (concat (event_bytes <$> evs)) < fuel)%nat ->
  exists c', drain_loop fuel (Conn (concat (event_bytes <$> evs)) sched out wsched) log =
    Some (log ++ (event_log <$> evs), c') /\ cn_in c' = [].
Proof.
  revert evs sched log. induction fuel as [|fuel IH]; intros evs sched log Hid Hs Hf; [lia|].
  assert (Hnext : forall sched', whole_reads sched' -> (length sched' <= length sched)%nat ->
    exists c', match evs with
      | [] => Some (log, Conn [] sched' out wsched)
      | ev :: evs => drain_loop fuel (Conn (concat (event_bytes <$> evs)) sched' out wsched) (log ++ [event_log ev])
      end = Some (log ++ (event_log <$> evs), c') /\ cn_in c' = []).
  { intros sched' Hs' Hl. destruct Hid as [|ev evs Hev Hid]; [simpl; eexists; by rewrite app_nil_r|].
    rewrite fmap_cons in Hf. cbn [concat] in Hf. rewrite length_app, event_bytes_length in Hf.
    destruct (IH evs sched' (log ++ [event_log ev]) Hid Hs') as (c' & Heq & Hc'); [lia|].
    exists c'. by rewrite Heq, <-app_assoc. }
  cbn [drain_loop]. unfold read. cbn [cn_rsched cn_in cn_out cn_wsched].
  destruct sched as [|e sched].
  - pose proof (drain_step fuel evs [] out wsched 16 log Hid ltac:(lia)) as H.
    destruct (Hnext [] Hs ltac:(done)) as (c' & Heq & Hc'). exists c'. split; [|done]. rewrite <-Heq. exact H.
  - apply Forall_cons in Hs as [[-> | (k & -> & Hk)] Hs].
    + apply IH; [done..|]. simpl in Hf. lia.
    + pose proof (drain_step fuel evs sched out wsched (S k) log Hid ltac:(lia)) as H.
      destruct (Hnext sched Hs ltac:(simpl; lia)) as (c' & Heq & Hc'). exists c'. split; [|done].
      rewrite <-Heq. exact H.
Qed.

(** The events that the workers write to the pipe are read back as they
    were: draining the pipe logs each job with its final state, in order, and
    leaves the pipe empty. *)
Theorem events_reported evs c :
  Forall (fun ev => bounded 64 (ev_job_id ev)) evs -> cn_in c = concat (event_bytes <$> evs) ->
  whole_reads (cn_rsched c) ->
  exists c', handle_worker_pipe c =
    Some ((fun ev => LogEvent (ev_job_id ev) (job_state_code (ev_state ev))) <$> evs, c') /\ cn_in c' = [].
Proof.
  intros Hid Hin Hs. destruct c as [input sched out wsched]. simpl in *. subst input.
  unfold handle_worker_pipe. cbn [cn_rsched cn_in].
  apply (drain_events _ evs sched out wsched []); [done|done|lia].
Qed.

(** ** Defects *)

(** C39: a refused image is only answered: nothing of the bytes the client
    announced, and sends, is taken from the connection, so that they are read
    as the next lines. *)
Theorem refused_size_not_discarded i type size c s :
  session s i = c -> size = 0 \/ sv_max_upload s < size ->
  forall k, sv_socks s !! cs_fd c = Some k -> quiet (cn_wsched k) ->
  exists k', submit_png i type size s = Some (0, sv_set_socks (<[cs_fd c := k']> (sv_socks s)) s) /\
    cn_in k' = cn_in k /\ cn_out k' = cn_out k ++ bytes_of_string ("ERR invalid png size" +:+ nl).
Proof.
  intros Hc Hsize k Hk Hquiet.
  assert (H : wpS (submit_png i type size) (fun rc s' => rc = 0 /\ exists k',
    sent ("ERR invalid png size" +:+ nl) k k' /\ s' = sv_set_socks (<[cs_fd c := k']> (sv_socks s)) s) s).
  { unfold submit_png, receive_png_to_upload, client_at. apply wpS_bind, wpS_gets. fold (session s i).
    rewrite Hc. apply wpS_gets. assert ((size =? 0) || (sv_max_upload s <? size) = true) as -> by lia.
    apply wpS_bind. eapply wpS_conseq; [by apply (send_spec _ _ k)|]. intros rc s' (k' & Hs & _ & ->).
    apply wpS_ret, wpS_ret. eauto. }
  unfold wpS in H. destruct (submit_png i type size s) as [[rc s']|]; [|done].
  destruct H as (-> & k' & (Hin & _ & Hout) & ->). exists k'. split_and!; [done|done|]. by apply Hout.
Qed.

(** A list of jobs that does not fit the 4096 bytes of a response, although
    it fits the 8192 bytes of the buffer it is formatted in, is never sent: the
    administrator gets no answer at all. *)
Theorem long_list_unanswered i r s list :
  rq_command r = PROTO_CMD_LISTJOBS ->
  job_table_format_list (sv_jobs s) (sv_heap s) (BUFFER_SIZE * 2) = Some list ->
  BUFFER_SIZE <= strlen list + 6 ->
  handle_admin_command i r s = Some (-1, s).
Proof.
  intros Hr Hl Hlong. unfold handle_admin_command, client_at. rewrite Hr.
  unfold mbind, Srv_bind, gets, admin_listjobs, mbind, Srv_bind, gets. rewrite Hl.
  unfold send_responsef. rewrite !strlen_app. change (strlen "JOBS ") with 5. change (strlen nl) with 1.
  destruct (Z.leb_spec BUFFER_SIZE (5 + (strlen list + 1))); [done|lia].
Qed.
