(* ===== verification/ServerDemo.v ===== *)
(** * Concrete runs of the server

    Two users and a run of the event loop in which a client is served on the
    event of another one; and the theorems about the server applied to the
    states of this run. *)

From S2P Require Export ServerCases Conversation EntryPoint.
#[local] Open Scope Z_scope.

(** ** A server with sessions *)

(** The kernel returns [fd], or another descriptor if it is in use. *)
Definition demo_pick (fd : Z) (X : gset Z) : Z := if decide (fd ∈ X) then fresh X else fd.

Lemma demo_pick_fresh fd X : demo_pick fd X ∉ X.
Proof. unfold demo_pick. case_decide; [apply is_fresh|done]. Qed.

Definition demo_accept (fd : Z) (input : string) (addr : string) : accepted :=
  Accepted (demo_pick fd) (Conn (bytes_of_string input) [] [] []) (Some addr).

Definition demo_stack : list pollfd := replicate (Z.to_nat MAX_POLL_FDS) (Pollfd 0 0 0).
Definition demo_input (revents : list Z) (user admin unix : option accepted) : poll_input :=
  PollInput demo_stack (Some 1) revents user admin unix.
Definition demo_fixed : list Z := [3; 4; 5; 6; 7].

Definition demo_init : server :=
  server_init (demo_world ∅) storage_globals_init 1000 [] []
    (Notifications (Conn [] [] [] []) [] (Watches 1 2 3) []).

(** Three users connect in the slots 0, 1 and 2, and the first one quits. *)
Definition demo_inputs : list poll_input :=
  [demo_input [1; 0; 1] (Some (demo_accept 20 ("QUIT" +:+ nl) "10.0.0.1")) None
     (Some (demo_accept 21 ("PING" +:+ nl) ""));
   demo_input [1; 0; 0] (Some (demo_accept 22 ("PING" +:+ nl) "10.0.0.2")) None None;
   demo_input [0; 0; 0; 0; 0; 1] None None None].

Definition server_of (r : option (loop_outcome * server)) : server :=
  match r with Some (_, s) => s | None => demo_init end.

Definition demo_server : server := server_of (server_loop demo_fixed demo_inputs demo_init).

Lemma demo_inputs_ok : Forall input_ok demo_inputs.
Proof.
  repeat (apply Forall_cons_2; [split_and!; simpl; try exact I; apply demo_pick_fresh|]). apply Forall_nil_2.
Qed.

Lemma demo_init_inv : srv_inv demo_init.
Proof. apply server_init_inv, Forall_nil_2. Qed.

Lemma demo_loop_good inputs s :
  srv_inv s -> Forall input_ok inputs -> good s (server_of (server_loop demo_fixed inputs s)).
Proof.
  intros Hi Hin. pose proof (server_loop_good demo_fixed inputs s Hi Hin) as H.
  unfold wpS in H. destruct (server_loop _ _ _) as [[o s']|]; [|done]. exact H.
Qed.

Lemma demo_server_inv : srv_inv demo_server.
Proof. apply demo_loop_good; [exact demo_init_inv|exact demo_inputs_ok]. Qed.

(** ** Events that go to the wrong client *)

(** The iteration in which a new user connects while the user of descriptor 22
    sends a line: of the clients only descriptor 22, in entry 6, has an event. *)
Definition demo_late : poll_input :=
  demo_input [1; 0; 0; 0; 0; 0; 1] (Some (demo_accept 23 "" "10.0.0.3")) None None.

(** What the user of [fd] sent and the server did not read, and what it was
    answered. *)
Definition stream_of (s : server) (fd : Z) : option (list Z * list Z) :=
  (fun c => (cn_in c, cn_out c)) <$> sv_socks s !! fd.

(** A user is accepted into slot 0, before those of the other clients: [poll]
    reports a line from descriptor 22, but the loop reads and answers descriptor
    21, for which no event was reported, and leaves the line of 22 unread. *)
Example demo_misread :
  let (pfds, n) := rebuild_pollfds demo_fixed (sv_clients demo_server) demo_stack in
  let entries := drop 5 (take n (set_revents (take n (pi_revents demo_late)) pfds)) in
  let s' := server_of (poll_iteration demo_fixed demo_late demo_server) in
  reported entries 22 = true /\ reported entries 21 = false /\
  stream_of demo_server 21 = Some (bytes_of_string ("PING" +:+ nl), bytes_of_string ("OK connected" +:+ nl)) /\
  stream_of s' 21 = Some ([], bytes_of_string ("OK connected" +:+ nl +:+ "PONG" +:+ nl)) /\
  stream_of s' 22 = stream_of demo_server 22 /\
  stream_of s' 22 = Some (bytes_of_string ("PING" +:+ nl), bytes_of_string ("OK connected" +:+ nl)).
Proof. vm_compute. repeat split. Qed.

Lemma events_misattributed_witness :
  let a := demo_accept 23 "" "10.0.0.3" in
  let fd := ac_fd a (dom (sv_socks demo_server)) in
  let (pfds, n) := rebuild_pollfds demo_fixed (sv_clients demo_server) demo_stack in
  let pfds := set_revents (take n (pi_revents demo_late)) pfds in
  exists s', accept_new_inet_connection (Some a) CLIENT_TYPE_USER false demo_server = Some (0, s') /\
    client_loop (Z.to_nat MAX_CLIENTS) 0 5 pfds s' =
    by_descriptor (Z.to_nat MAX_CLIENTS) 0
      (late_events (cs_fd <$> active_clients (take 0 (sv_clients demo_server)))
         (fd :: (cs_fd <$> active_clients (drop 0 (sv_clients demo_server))))
         (reported (drop 5 (take n pfds))) (has_events pfds n)) s'.
Proof.
  intros a fd.
  refine (events_misattributed demo_fixed a CLIENT_TYPE_USER false demo_server demo_stack (pi_revents demo_late) 0
    demo_server_inv eq_refl eq_refl (demo_pick_fresh 23) _ _ _); [discriminate|vm_compute; reflexivity..].
Defined.

(** ** The theorems on these states *)

Lemma server_runs_witness :
  exists o s, server_loop demo_fixed demo_inputs demo_init = Some (o, s) /\ srv_inv s.
Proof.
  destruct (server_runs (demo_world ∅) storage_globals_init 1000 [] []
    (Notifications (Conn [] [] [] []) [] (Watches 1 2 3) []) demo_fixed demo_inputs) as (o & s & H & Hi & _).
  - apply Forall_nil_2.
  - apply demo_inputs_ok.
  - exists o, s. split; [exact H|exact Hi].
Defined.

Lemma command_isolated_witness :
  exists s', handle_client_command 1 demo_server = Some (tt, s') /\ srv_inv s'.
Proof.
  destruct (command_isolated 1 demo_server demo_server_inv) as (s' & H & Hi & _).
  - vm_compute. reflexivity.
  - exists s'. split; [exact H|exact Hi].
Defined.

Lemma connection_admitted_witness :
  exists s', accept_new_inet_connection (Some (demo_accept 30 "" "10.0.0.9")) CLIENT_TYPE_ADMIN true demo_server
    = Some (0, s') /\ srv_inv s'.
Proof.
  destruct (connection_admitted (demo_accept 30 "" "10.0.0.9") CLIENT_TYPE_ADMIN true demo_server)
    as (s' & H & Hi & _).
  - apply demo_server_inv.
  - apply demo_pick_fresh.
  - reflexivity.
  - exists s'. split; [exact H|exact Hi].
Defined.

Lemma pollfds_in_bounds_witness :
  exists n pfds, rebuild_pollfds demo_fixed (sv_clients demo_server) demo_stack = (pfds, n) /\ n = 7%nat.
Proof.
  destruct (pollfds_in_bounds demo_fixed demo_server demo_stack demo_server_inv eq_refl eq_refl)
    as (n & pfds & H & _).
  exists n, pfds. split; [exact H|].
  assert (Hn : snd (rebuild_pollfds demo_fixed (sv_clients demo_server) demo_stack) = 7%nat) by (vm_compute; reflexivity).
  rewrite H in Hn. exact Hn.
Defined.

Lemma events_attributed_witness :
  let (pfds, n) := rebuild_pollfds demo_fixed (sv_clients demo_server) demo_stack in
  let pfds := set_revents (take n [0; 0; 0; 0; 0; 0; 1]) pfds in
  client_loop (Z.to_nat MAX_CLIENTS) 0 5 pfds demo_server =
  by_descriptor (Z.to_nat MAX_CLIENTS) 0 (reported (drop 5 (take n pfds))) demo_server.
Proof. exact (events_attributed demo_fixed demo_server demo_stack [0; 0; 0; 0; 0; 0; 1] demo_server_inv eq_refl eq_refl). Defined.

Lemma cleanup_releases_witness :
  exists s', cleanup_server_state true true true demo_server = Some (tt, s') /\ sv_socks s' = ∅.
Proof.
  destruct (cleanup_releases demo_server true demo_server_inv) as (s' & H & _ & Hs & _).
  exists s'. split; [exact H|exact Hs].
Defined.

(** An administrator on slot 0 of the running server. *)
Definition demo_admin : server :=
  server_of (server_loop demo_fixed
    [demo_input [0; 1; 0] None (Some (demo_accept 40 "" "10.0.0.8")) None] demo_server).

Lemma demo_admin_inv : srv_inv demo_admin.
Proof.
  assert (Hok : Forall input_ok [demo_input [0; 1; 0] None (Some (demo_accept 40 "" "10.0.0.8")) None]).
  { apply Forall_singleton. split_and!; simpl; try exact I. apply demo_pick_fresh. }
  apply demo_loop_good; [exact demo_server_inv|exact Hok].
Qed.

Lemma block_effective_witness :
  exists s', (_ ← admin_blockip 40 "10.0.0.2"; kick_loop (Z.to_nat MAX_CLIENTS) 0) demo_admin = Some (tt, s') /\
    accept_new_inet_connection (Some (demo_accept 50 "" "10.0.0.2")) CLIENT_TYPE_USER false s' = Some (0, s').
Proof.
  destruct (block_effective 0 40 "10.0.0.2" demo_admin demo_admin_inv) as (s' & H & _ & _ & Hin & Hp & _).
  - split; vm_compute; reflexivity.
  - split; vm_compute; reflexivity.
  - vm_compute. reflexivity.
  - exists s'. split; [exact H|]. apply Hp; [exact Hin|apply demo_pick_fresh|reflexivity].
Defined.

Lemma events_reported_witness :
  let evs := [WorkerEvent 1 JOB_STATE_DONE; WorkerEvent 300 JOB_STATE_FAILED] in
  exists c', handle_worker_pipe (Conn (concat (event_bytes <$> evs)) [IoIntr; IoSome 15] [] []) =
    Some ([LogEvent 1 2; LogEvent 300 3], c') /\ cn_in c' = [].
Proof.
  cbv zeta. apply (events_reported [WorkerEvent 1 JOB_STATE_DONE; WorkerEvent 300 JOB_STATE_FAILED]).
  - repeat (apply Forall_cons_2; [by vm_compute|]). apply Forall_nil_2.
  - reflexivity.
  - apply Forall_cons_2; [by left|]. apply Forall_cons_2; [right; by exists 15%nat|apply Forall_nil_2].
Defined.

Lemma refused_size_not_discarded_witness :
  exists k', submit_png 1 JOB_TYPE_DECODE 2000 demo_server =
    Some (0, sv_set_socks (<[21 := k']> (sv_socks demo_server)) demo_server) /\
    cn_in k' = bytes_of_string ("PING" +:+ nl).
Proof.
  destruct (refused_size_not_discarded 1 JOB_TYPE_DECODE 2000 (session demo_server 1) demo_server eq_refl
    ltac:(right; vm_compute; reflexivity)
    (Conn (bytes_of_string ("PING" +:+ nl)) [] (bytes_of_string ("OK connected" +:+ nl)) []))
    as (k' & H & Hin & _).
  - vm_compute. reflexivity.
  - apply Forall_nil_2.
  - exists k'. split; [exact H|exact Hin].
Defined.

(** A hundred and twenty jobs of the user on slot 1. *)
Definition demo_busy : server :=
  match Nat.iter 120 (fun m => _ ← enqueue_job 1 JOB_TYPE_TEXT (Some "hello"%string) None None; m) (mret tt) demo_server with
  | Some (_, s) => s
  | None => demo_server
  end.

Lemma long_list_unanswered_witness :
  handle_admin_command 0 (req_arg PROTO_CMD_LISTJOBS EmptyString) demo_busy = Some (-1, demo_busy).
Proof.
  destruct (job_table_format_list (sv_jobs demo_busy) (sv_heap demo_busy) (BUFFER_SIZE * 2)) as [list|] eqn:E.
  - apply (long_list_unanswered 0 (req_arg PROTO_CMD_LISTJOBS EmptyString) demo_busy list eq_refl E).
    assert (H : (BUFFER_SIZE <=? strlen (default EmptyString
      (job_table_format_list (sv_jobs demo_busy) (sv_heap demo_busy) (BUFFER_SIZE * 2))) + 6) = true)
      by (vm_compute; reflexivity).
    rewrite E in H. apply Z.leb_le in H. exact H.
  - exfalso. assert (H : bool_decide (job_table_format_list (sv_jobs demo_busy) (sv_heap demo_busy) (BUFFER_SIZE * 2) = None) = false)
      by (vm_compute; reflexivity). rewrite E in H. discriminate H.
Defined.

(** ** Hiding a text *)

(** A user whose client sends an image and the text "Hi", and polls twice before
    the worker takes its turn. *)
Definition demo_hide_conn : conn := Conn (text_requests 1 2 (demo_png 7) [72; 105]) [] [] [].

Definition demo_hide_inputs : list poll_input :=
  [demo_input [1; 0; 0] (Some (Accepted (demo_pick 20) demo_hide_conn (Some "10.0.0.1"%string))) None None].

Definition demo_hide : server := server_of (server_loop demo_fixed demo_hide_inputs demo_init).

Lemma demo_hide_inputs_ok : Forall input_ok demo_hide_inputs.
Proof. apply Forall_singleton. split_and!; simpl; try exact I. apply demo_pick_fresh. Qed.

Lemma demo_hide_good : good demo_init demo_hide.
Proof. apply demo_loop_good; [exact demo_init_inv|exact demo_hide_inputs_ok]. Qed.

Lemma demo_init_idle : queue_holds (JobQueue None None false) ∅ [].
Proof. exists []. split; [exact queue_init_rep|reflexivity]. Qed.

Lemma demo_init_tracked : tracked demo_init.
Proof. apply server_init_tracked. Qed.

Definition demo_turn : turn_input := TurnInput 0 [] [] [IoIntr; IoSome 3].

(** The files of the user, and a client on a connection that splits its
    transfers. *)
Definition demo_client (answers : list Z) : client :=
  Client (Conn answers [IoIntr; IoSome 4] [] [IoSome 2; IoIntr]) (World {["in.png"%string := demo_png 7]} ∅ 0 0 [] [] [] crc_global_init)
    [] 0.

(** The bytes of the result. *)
Definition demo_result : list Z := Eval vm_compute in
  match handle_lines 3 0 demo_hide with
  | Some s1 => default [] (w_fs (sv_world (worker_turn demo_turn s1)) !! "storage/results/job_1.png"%string)
  | None => []
  end.

Lemma demo_hide_ready :
  ready 0 20 (Conn (cn_in demo_hide_conn) [] (bytes_of_string ("OK connected" +:+ nl)) []) (demo_png 7) [72; 105]
    "storage/uploads/job_1.png" "storage/uploads/job_1.txt" demo_hide.
Proof.
  constructor; try (vm_compute; reflexivity).
  - apply demo_hide_good.
  - split; vm_compute; reflexivity.
  - split; apply Forall_nil_2.
  - split; [vm_compute; reflexivity|apply Z.leb_le; vm_compute; reflexivity].
  - apply Z.leb_le. vm_compute. reflexivity.
  - eapply bool_decide_unpack. vm_compute. exact I.
  - eapply bool_decide_unpack. vm_compute. exact I.
Qed.

Lemma demo_hide_roomy : roomy (demo_png 7) [72; 105] "storage/results/job_1.png" demo_hide.
Proof.
  constructor.
  - vm_compute. reflexivity.
  - eapply bool_decide_unpack. vm_compute. exact I.
  - eexists. split; [vm_compute; reflexivity|apply Z.leb_le; vm_compute; reflexivity].
  - vm_compute. reflexivity.
  - eapply bool_decide_unpack. vm_compute. exact I.
  - exact toy_writes.
Qed.

Lemma text_hidden_by_client_witness :
  exists s1 w answers c', handle_lines 3 0 demo_hide = Some s1 /\
    stego_decode (Some "storage/results/job_1.png"%string) (sv_world (worker_turn demo_turn s1)) =
      (inr (extracted STEGO_PAYLOAD_TEXT [] [72; 105]), w) /\
    cmd_encode_text "in.png" "Hi" "out.png" (demo_client answers) = Some (0, c') /\
    w_fs (cl_world c') !! "out.png"%string = Some demo_result.
Proof.
  destruct (text_hidden_by_client 0 20
    (Conn (cn_in demo_hide_conn) [] (bytes_of_string ("OK connected" +:+ nl)) []) (demo_png 7) "Hi" []
    "storage/uploads/job_1.png" "storage/uploads/job_1.txt" "storage/results/job_1.png" demo_turn 2 demo_hide)
    as (s1 & H1 & data & w & H2 & H3 & H4).
  - exact demo_hide_ready.
  - apply Hideable.
    + apply (pg_tracked _ _ demo_init_inv (proj1 demo_hide_good) (proj2 demo_hide_good)), demo_init_tracked.
    + apply (pg_crc _ _ (proj2 demo_hide_good)). exact crc_inv_init.
    + assert (E1 : sv_queue demo_hide = JobQueue None None false) by (vm_compute; reflexivity).
      assert (E2 : sv_nodes demo_hide = ∅) by (vm_compute; reflexivity). rewrite E1, E2. exact demo_init_idle.
    + exact demo_hide_roomy.
  - reflexivity.
  - apply Nat.ltb_lt. reflexivity.
  - vm_compute. reflexivity.
  - assert (Hd : match handle_lines 3 0 demo_hide with
                 | Some s => w_fs (sv_world (worker_turn demo_turn s)) !! "storage/results/job_1.png"%string
                 | None => None end = Some demo_result) by (vm_compute; reflexivity).
    rewrite H1, H2 in Hd. injection Hd as ->.
    destruct H4 as (s3 & k3 & answers & _ & _ & _ & _ & Hc); [apply Z.ltb_lt; vm_compute; reflexivity|].
    destruct (Hc "in.png"%string "out.png"%string (demo_client answers) []) as (c' & Hrun & _ & _ & Hsaved).
    + constructor; [split; eapply bool_decide_unpack; vm_compute; exact I|split_and!|..];
        try (apply Z.ltb_lt; vm_compute; reflexivity); try (vm_compute; reflexivity);
        (eapply bool_decide_unpack; vm_compute; exact I).
    + cbn. by rewrite app_nil_r.
    + exists s1, w, answers, c'. split; [exact H1|]. split; [exact H3|]. split; [exact Hrun|exact Hsaved].
Defined.

(** ** The whole program *)

(** The request was carried out: its job is queued. *)
Definition demo_queued_inputs : list poll_input :=
  demo_hide_inputs ++ [demo_input [0; 0; 0; 0; 0; 1] None None None].

Definition demo_queued : server := server_of (server_loop demo_fixed demo_queued_inputs demo_init).

Lemma demo_queued_reached : rtc (sys_step demo_fixed) demo_init demo_queued.
Proof.
  apply (loop_reaches demo_fixed demo_queued_inputs).
  - apply Forall_app. split; [exact demo_hide_inputs_ok|]. apply Forall_singleton. split_and!; exact I.
  - assert (H : fst <$> server_loop demo_fixed demo_queued_inputs demo_init = Some LoopContinue) by (vm_compute; reflexivity).
    unfold demo_queued. destruct (server_loop _ _ _) as [[o s]|]; [|done]. cbn in H |- *. by injection H as ->.
Qed.

Definition demo_node : loc := Eval vm_compute in default 0 (q_head (sv_queue demo_queued)).
Definition demo_job : loc := Eval vm_compute in
  default 0 (node_job <$> sv_nodes demo_queued !! demo_node).

Lemma demo_queued_holds : queue_holds (sv_queue demo_queued) (sv_nodes demo_queued) [demo_job].
Proof.
  assert (E1 : sv_queue demo_queued = JobQueue (Some demo_node) (Some demo_node) false) by (vm_compute; reflexivity).
  assert (E2 : sv_nodes demo_queued = {[demo_node := JobNode demo_job None]}) by (vm_compute; reflexivity).
  rewrite E1, E2. exists [(demo_node, demo_job)]. split; [|done]. constructor.
  - split; [reflexivity|]. exists None. split; [apply lookup_singleton_eq|reflexivity].
  - reflexivity.
  - apply NoDup_singleton.
  - intros n. rewrite lookup_singleton_is_Some. change ([(demo_node, demo_job)].*1) with [demo_node].
    rewrite list_elem_of_singleton. split; intros H; symmetry; exact H.
Qed.

Lemma all_jobs_final_witness :
  exists j j', sv_heap demo_queued !! demo_job = Some j /\ job_st j = JOB_STATE_QUEUED /\
    sv_heap (worker_turn demo_turn demo_queued) !! demo_job = Some j' /\ state_is_final (job_st j') = true.
Proof.
  destruct (sv_heap demo_queued !! demo_job) as [j|] eqn:Hj.
  - destruct (all_jobs_final demo_fixed (demo_world ∅) storage_globals_init 1000 [] []
      (Notifications (Conn [] [] [] []) [] (Watches 1 2 3) []) demo_queued [demo_job] [demo_turn]) as [_ H].
    + apply Forall_nil_2.
    + exact crc_inv_init.
    + exact demo_queued_reached.
    + exact demo_queued_holds.
    + reflexivity.
    + destruct (H demo_job j Hj) as (j' & Hj' & _ & Hf). exists j, j'. split; [reflexivity|].
      split; [|split; [exact Hj'|exact Hf]].
      assert (Hst : job_st <$> sv_heap demo_queued !! demo_job = Some JOB_STATE_QUEUED) by (vm_compute; reflexivity).
      rewrite Hj in Hst. injection Hst as Hst. exact Hst.
  - exfalso. assert (Hst : job_st <$> sv_heap demo_queued !! demo_job = Some JOB_STATE_QUEUED) by (vm_compute; reflexivity).
    rewrite Hj in Hst. discriminate Hst.
Defined.

Lemma system_safe_witness :
  srv_inv (worker_turn demo_turn demo_queued) /\
  is_Some (poll_iteration demo_fixed demo_late (worker_turn demo_turn demo_queued)).
Proof.
  destruct (system_safe demo_fixed (demo_world ∅) storage_globals_init 1000 [] []
    (Notifications (Conn [] [] [] []) [] (Watches 1 2 3) []) demo_queued (worker_turn demo_turn demo_queued))
    as (Hi & _ & Hnext & _).
  - apply Forall_nil_2.
  - exact crc_inv_init.
  - exact demo_queued_reached.
  - apply rtc_once, step_turn.
  - split; [exact Hi|]. apply Hnext. split_and!; simpl; try exact I. apply demo_pick_fresh.
Defined.

Definition demo_host : host := Host (Some ("Linux", "host", "6.1", "x86_64"))%string 7 1000 (Some "stego"%string).

Definition demo_run : run_input :=
  RunInput (demo_world ∅) [] [] (Notifications (Conn [] [] [] []) [] (Watches 1 2 3) []).

Lemma program_ends_witness :
  exists code s g' m', server_program false (fun _ => None) (fun _ => None) demo_host least_free ["server"%string]
    [Some "10:00"%string] storage_globals_init demo_run log_init (demo_machine []) code s g' m' /\
    mc_open m' = mc_open (demo_machine []) /\ g_log_file g' = None.
Proof.
  destruct (program_ends false (fun _ => None) (fun _ => None) demo_host least_free ["server"%string]
    [Some "10:00"%string] storage_globals_init demo_run log_init (demo_machine []))
    as ((code & s & g' & m' & H) & Hall & _).
  - intros p lc H. discriminate H.
  - exact least_free_ok.
  - reflexivity.
  - apply Forall_nil_2.
  - exact crc_inv_init.
  - reflexivity.
  - exists code, s, g', m'. split; [exact H|]. destruct (Hall code s g' m' H) as [(Ho & _ & _ & Hg) _].
    split; [exact Ho|exact Hg].
Defined.
