(* ===== verification/ThreadsDemo.v ===== *)
(** * Concrete runs of the threads

    The theorems about the interleavings of the threads applied to runs with
    two workers. *)

From S2P Require Export ServerDemo Service ThreadsText.
#[local] Open Scope Z_scope.

(** ** The threads *)

(** Two workers; the first takes the job that is queued and is preempted after
    it has set its state to RUNNING, while the second finds the queue empty. *)
Definition demo_program : program := program_init demo_init 2.
Definition demo_ready : program := Program demo_queued (pr_threads demo_program).
Definition demo_schedule : list (nat * act_input) :=
  (fun n => (n, no_input)) <$> [0; 0; 0; 1; 0; 1; 0; 1; 0]%nat.
Definition demo_running : program := default demo_ready (schedule demo_schedule demo_ready).

Lemma demo_ready_reached : rtc (program_step demo_fixed) demo_program demo_ready.
Proof.
  apply (loop_runs demo_fixed demo_queued_inputs).
  - apply Forall_app. split; [exact demo_hide_inputs_ok|]. apply Forall_singleton. split_and!; exact I.
  - assert (H : fst <$> server_loop demo_fixed demo_queued_inputs demo_init = Some LoopContinue) by (vm_compute; reflexivity).
    unfold demo_queued. destruct (server_loop _ _ _) as [[o s]|]; [|done]. cbn in H |- *. by injection H as ->.
Qed.

Lemma demo_running_reached : rtc (program_step demo_fixed) demo_ready demo_running.
Proof.
  apply (schedule_runs _ demo_schedule). unfold demo_running.
  assert (H : match schedule demo_schedule demo_ready with Some _ => true | None => false end = true)
    by (vm_compute; reflexivity).
  destruct (schedule demo_schedule demo_ready); [reflexivity|discriminate H].
Qed.

(** The handlers may meet a running job. *)
Lemma threads_safe_witness :
  job_st <$> sv_heap (pr_server demo_running) !! demo_job = Some JOB_STATE_RUNNING /\
  srv_inv (pr_server demo_running) /\
  is_Some (poll_iteration demo_fixed demo_late (pr_server demo_running)).
Proof.
  destruct (threads_safe demo_fixed (demo_world ∅) storage_globals_init 1000 [] []
    (Notifications (Conn [] [] [] []) [] (Watches 1 2 3) []) 2 demo_ready demo_running)
    as (Hi & Hnext & _).
  - apply Forall_nil_2.
  - exact crc_inv_init.
  - exact demo_ready_reached.
  - exact demo_running_reached.
  - split; [vm_compute; reflexivity|]. split; [exact Hi|]. apply Hnext.
    split_and!; simpl; try exact I. apply demo_pick_fresh.
Defined.

(** The first worker goes on until both wait. *)
Definition waiting (t : thread) : bool :=
  match th_code t with Ret (Some WorkerWaits) => true | _ => false end.

Fixpoint first_works (k : nat) (c : program) : option program :=
  match k with
  | O => Some c
  | S k =>
      if waiting (default (Thread 0 (Ret None)) (pr_threads c !! 0%nat)) then None else
      c' ← worker_acts 0 no_input c; first_works k c'
  end.

Lemma first_works_runs k c c' : first_works k c = Some c' -> rtc works c c'.
Proof.
  revert c. induction k as [|k IH]; intros c H; cbn [first_works] in H; [by injection H as ->|].
  destruct (pr_threads c !! 0%nat) as [t|] eqn:Et; cbn [default from_option id] in H;
    [|unfold worker_acts in H; by rewrite Et in H].
  destruct (waiting t) eqn:Ew; [discriminate H|]. destruct (worker_acts 0 no_input c) as [c1|] eqn:E; [|done].
  eapply rtc_l; [|by apply IH]. exists 0%nat, no_input, t. split; [done|]. split; [|done].
  intros [Hc _]. unfold waiting in Ew. by rewrite Hc in Ew.
Qed.

Definition demo_done : program := default demo_running (first_works 19 demo_running).

Lemma demo_done_reached : rtc works demo_running demo_done.
Proof.
  apply (first_works_runs 19). unfold demo_done.
  assert (H : match first_works 19 demo_running with Some _ => true | None => false end = true)
    by (vm_compute; reflexivity).
  destruct (first_works 19 demo_running); [reflexivity|discriminate H].
Qed.

Lemma demo_done_waits : forallb waiting (pr_threads demo_done) = true.
Proof. vm_compute. reflexivity. Qed.

Lemma waiting_waits t : waiting t = true -> th_code t = Ret (Some WorkerWaits).
Proof.
  unfold waiting. destruct (th_code t) as [[[]|]|]; intros H; try discriminate H. reflexivity.
Qed.

Lemma all_waiting ts n t : forallb waiting ts = true -> ts !! n = Some t -> th_code t = Ret (Some WorkerWaits).
Proof.
  rewrite forallb_forall. intros H Ht. apply waiting_waits, H, list_elem_of_In. by eapply list_elem_of_lookup_2.
Qed.

Lemma demo_rests c : ~ works demo_done c.
Proof.
  intros (n & e & t & Ht & Hns & _). apply Hns. split.
  - exact (all_waiting _ _ _ demo_done_waits Ht).
  - vm_compute. reflexivity.
Qed.

Lemma workers_terminate_witness :
  Acc (fun y x => works x y) demo_running /\
  exists j, sv_heap (pr_server demo_done) !! demo_job = Some j /\ state_is_final (job_st j) = true.
Proof.
  destruct (workers_terminate demo_fixed (demo_world ∅) storage_globals_init 1000 [] []
    (Notifications (Conn [] [] [] []) [] (Watches 1 2 3) []) 2 demo_running) as [Hacc H].
  - apply Forall_nil_2.
  - exact crc_inv_init.
  - etransitivity; [exact demo_ready_reached|exact demo_running_reached].
  - split; [exact Hacc|].
    destruct (H demo_done demo_done_reached demo_rests) as [_ Hf].
    + assert (Hl : match pr_threads demo_done with [] => false | _ :: _ => true end = true) by (vm_compute; reflexivity).
      pose proof demo_done_waits as Hw. destruct (pr_threads demo_done) as [|t ts] eqn:E; [discriminate Hl|].
      exists t. split; [left|]. cbn in Hw. apply andb_prop in Hw as [Hw _]. rewrite (waiting_waits t Hw). discriminate.
    + assert (Hj : match sv_heap (pr_server demo_running) !! demo_job with Some _ => true | None => false end = true)
        by (vm_compute; reflexivity).
      destruct (sv_heap (pr_server demo_running) !! demo_job) as [j|] eqn:E; [|discriminate Hj].
      destruct (Hf demo_job j E) as (j' & Hj' & _ & Hfin). exists j'. split; [exact Hj'|exact Hfin].
Defined.

Lemma threads_refine_service_witness :
  exists a, abstracts demo_running a /\ rtc service_step service_init a.
Proof.
  destruct (threads_refine_service demo_fixed (demo_world ∅) storage_globals_init 1000 [] []
    (Notifications (Conn [] [] [] []) [] (Watches 1 2 3) []) 2 demo_running demo_running service_init) as (_ & _ & H).
  - apply Forall_nil_2.
  - exact crc_inv_init.
  - etransitivity; [exact demo_ready_reached|exact demo_running_reached].
  - exact H.
Defined.

(** Two jobs that wait. *)
Definition demo_two_inputs : list poll_input :=
  [demo_input [1; 0; 0] (Some (demo_accept 20 ("SUBMIT a" +:+ nl +:+ "SUBMIT b" +:+ nl) "10.0.0.1")) None None;
   demo_input [0; 0; 0; 0; 0; 1] None None None; demo_input [0; 0; 0; 0; 0; 1] None None None].
Definition demo_two : server := server_of (server_loop demo_fixed demo_two_inputs demo_init).

Lemma demo_two_reached : rtc (program_step demo_fixed) demo_program (Program demo_two (pr_threads demo_program)).
Proof.
  apply (loop_runs demo_fixed demo_two_inputs).
  - repeat (apply Forall_cons_2; [split_and!; simpl; try exact I; apply demo_pick_fresh|]). apply Forall_nil_2.
  - assert (H : fst <$> server_loop demo_fixed demo_two_inputs demo_init = Some LoopContinue) by (vm_compute; reflexivity).
    unfold demo_two. destruct (server_loop _ _ _) as [[o s]|]; [|done]. cbn in H |- *. by injection H as ->.
Qed.

Lemma demo_two_holds : queue_holds (sv_queue demo_two) (sv_nodes demo_two) [0; 1].
Proof.
  assert (E1 : sv_queue demo_two = JobQueue (Some 0) (Some 1) false) by (vm_compute; reflexivity).
  assert (E2 : sv_nodes demo_two = {[0 := JobNode 0 (Some 1); 1 := JobNode 1 None]}) by (vm_compute; reflexivity).
  rewrite E1, E2. exists [(0, 0); (1, 1)]. split; [|done]. constructor.
  - split; [reflexivity|]. exists (Some 1). split; [reflexivity|]. split; [reflexivity|].
    exists None. split; reflexivity.
  - reflexivity.
  - eapply bool_decide_unpack. vm_compute. exact I.
  - intros n. rewrite lookup_insert_is_Some', lookup_singleton_is_Some.
    change ([(0, 0); (1, 1)].*1) with [0; 1]. rewrite elem_of_cons, list_elem_of_singleton.
    split; (intros [H|H]; [left|right]; symmetry; exact H).
Qed.

Lemma jobs_in_order_witness :
  exists m1 m2 : nat, [0; 1] !! m1 = Some 0 /\ [0; 1] !! m2 = Some 1 /\ (m1 < m2)%nat.
Proof.
  destruct (sv_heap demo_two !! 0) as [j1|] eqn:E1.
  - destruct (sv_heap demo_two !! 1) as [j2|] eqn:E2.
    + destruct (jobs_in_order demo_fixed (demo_world ∅) storage_globals_init 1000 [] []
        (Notifications (Conn [] [] [] []) [] (Watches 1 2 3) []) 2 (Program demo_two (pr_threads demo_program))
        [0; 1] 0 1 j1 j2) as (_ & [H|H]).
      * apply Forall_nil_2.
      * exact crc_inv_init.
      * exact demo_two_reached.
      * exact demo_two_holds.
      * exact E1.
      * exact E2.
      * left.
      * assert (H1 : job_id <$> sv_heap demo_two !! 0 = Some 1) by (vm_compute; reflexivity).
        assert (H2 : job_id <$> sv_heap demo_two !! 1 = Some 2) by (vm_compute; reflexivity).
        rewrite E1 in H1. rewrite E2 in H2. injection H1 as ->. injection H2 as ->. reflexivity.
      * exact H.
      * exfalso. assert (H2 : job_st <$> sv_heap demo_two !! 1 = Some JOB_STATE_QUEUED) by (vm_compute; reflexivity).
        rewrite E2 in H2. injection H2 as H2. rewrite H in H2. discriminate H2.
    + exfalso. assert (H : (fun _ => tt) <$> sv_heap demo_two !! 1 = Some tt) by (vm_compute; reflexivity).
      rewrite E2 in H. discriminate H.
  - exfalso. assert (H : (fun _ => tt) <$> sv_heap demo_two !! 0 = Some tt) by (vm_compute; reflexivity).
    rewrite E1 in H. discriminate H.
Defined.

(** ** Hiding a text and finding it again *)

Definition demo_hide_job : job := Eval vm_compute in default job_zero (sv_heap demo_queued !! demo_job).
Definition demo_hidden_job : job := Eval vm_compute in default job_zero (sv_heap (pr_server demo_done) !! demo_job).

Lemma demo_rooted : rooted storage_globals_init.
Proof. exists "storage"%string. split; reflexivity. Qed.

Lemma reached_crc c : rtc (program_step demo_fixed) demo_program c -> crc_inv (w_crc (sv_world (pr_server c))).
Proof.
  intros H. pose proof (program_init_inv demo_init 2 (server_init_sys (demo_world ∅) storage_globals_init 1000 [] []
    (Notifications (Conn [] [] [] []) [] (Watches 1 2 3) []) (Forall_nil_2 _) crc_inv_init)) as H0.
  destruct (program_steps_inv _ _ _ _ _ H H0) as [[ps Hp] _]. apply (hi_crc _ _ _ (pi_hands _ _ _ Hp)).
Qed.

Ltac concrete := vm_compute; reflexivity.
Ltac decided := eapply bool_decide_unpack; vm_compute; exact I.

Lemma demo_hide_request :
  hide_request storage_globals_init demo_hide_job "storage/results/job_1.png" STEGO_PAYLOAD_TEXT [72; 105]
    (sv_world demo_queued).
Proof.
  constructor.
  - concrete.
  - constructor; apply Z.ltb_lt; concrete.
  - concrete.
  - concrete.
  - constructor; [exact (reached_crc _ demo_ready_reached)|concrete..].
  - concrete.
  - decided.
  - decided.
  - apply Z.ltb_lt. concrete.
  - concrete.
  - decided.
  - eexists. split; [concrete|apply Z.leb_le; concrete].
  - exact toy_writes.
Qed.

Lemma demo_done_runs : rtc (program_step demo_fixed) demo_ready demo_done.
Proof.
  etransitivity; [exact demo_running_reached|]. eapply rtc_subrel; [|exact demo_done_reached].
  intros c c' H. by apply works_step.
Qed.

(** The same from the request on. *)
Definition demo_request_input : poll_input := demo_input [0; 0; 0; 0; 0; 1] None None None.
Definition demo_hide_rest : list Z := Eval vm_compute in
  drop (length (bytes_of_string (print_request (encode_text_request (demo_png 7) [72; 105]))) + length (demo_png 7) + 2)
    (cn_in demo_hide_conn).
Definition demo_asked : program := Program demo_hide (pr_threads demo_program).

Lemma demo_asked_reached : rtc (program_step demo_fixed) demo_program demo_asked.
Proof.
  apply (loop_runs demo_fixed demo_hide_inputs); [exact demo_hide_inputs_ok|].
  assert (H : fst <$> server_loop demo_fixed demo_hide_inputs demo_init = Some LoopContinue) by (vm_compute; reflexivity).
  unfold demo_hide. destruct (server_loop _ _ _) as [[o s]|]; [|done]. cbn in H |- *. by injection H as ->.
Qed.

Lemma demo_only_request : only_request demo_fixed demo_request_input 20 demo_hide.
Proof.
  constructor; [reflexivity|reflexivity|eexists; split; [reflexivity|apply Z.ltb_lt; reflexivity]|].
  set (r := rebuild_pollfds _ _ _).
  assert (E : forall m, (m < 5)%nat -> readable (set_revents (take (snd r) (pi_revents demo_request_input)) (fst r)) m = false).
  { intros m Hm. do 5 (destruct m as [|m]; [vm_compute; reflexivity|]). lia. }
  assert (E' : drop 5 (take (snd r) (set_revents (take (snd r) (pi_revents demo_request_input)) (fst r))) = [Pollfd 20 1 1])
    by concrete.
  clearbody r. destruct r as [pfds n]. cbn [fst snd] in *. split; [exact E|]. intros fd. rewrite E'. unfold reported.
  cbn -[Z.eqb]. by rewrite andb_true_r, orb_false_r, Z.eqb_sym.
Qed.

Lemma snd_of_some {A B} (r : option (A * B)) o x y : r = Some (o, x) -> snd <$> r = Some y -> x = y.
Proof. intros ->. by injection 1. Qed.

Lemma text_hidden_by_threads_witness :
  exists data, hidden "storage/results/job_1.png" (extracted STEGO_PAYLOAD_TEXT [] [72; 105]) data
    (sv_world (pr_server demo_done)) /\ served 1 data (pr_server demo_done).
Proof.
  destruct (text_hidden_by_threads demo_fixed (demo_world ∅) storage_globals_init 1000 [] []
    (Notifications (Conn [] [] [] []) [] (Watches 1 2 3) []) 2 demo_asked demo_request_input 0 20
    (Conn (cn_in demo_hide_conn) [] (bytes_of_string ("OK connected" +:+ nl)) []) (demo_png 7) [72; 105] demo_hide_rest
    "storage/uploads/job_1.png" "storage/uploads/job_1.txt" "storage/results/job_1.png") as (s1 & l & Hpoll & _ & H).
  - apply Forall_nil_2.
  - exact crc_inv_init.
  - exact demo_rooted.
  - exact demo_asked_reached.
  - exact demo_hide_ready.
  - exact demo_hide_roomy.
  - split_and!; exact I.
  - exact demo_only_request.
  - concrete.
  - assert (Hs : snd <$> poll_iteration demo_fixed demo_request_input demo_hide = Some demo_queued) by concrete.
    pose proof (snd_of_some _ _ _ _ Hpoll Hs) as E. clear Hpoll Hs. rewrite E in H. clear E.
    destruct (H demo_done demo_done_runs) as (j & Hj & _ & Hdone).
    assert (Hh : sv_heap (pr_server demo_done) = {[demo_job := demo_hidden_job]}) by concrete.
    rewrite Hh in Hj. apply lookup_singleton_Some in Hj as [_ <-].
    destruct (Hdone eq_refl eq_refl) as (_ & data & H1 & H2). exists data. split; [exact H1|exact H2].
Defined.

(** The result is sent back by a second user, for a second job to decode. *)
Definition demo_back_conn : string :=
  print_request (Request PROTO_CMD_DECODE 0 (Z.of_nat (length demo_result)) 0 0 EmptyString EmptyString).
Definition demo_back_inputs : list poll_input :=
  [demo_input [1; 0; 0] (Some (Accepted (demo_pick 24)
     (Conn (bytes_of_string demo_back_conn ++ demo_result) [] [] []) (Some "10.0.0.2"%string))) None None;
   demo_input [0; 0; 0; 0; 0; 0; 1] None None None].
Definition demo_back : program :=
  Program (server_of (server_loop demo_fixed demo_back_inputs (pr_server demo_done))) (pr_threads demo_done).
Definition demo_found : program := default demo_back (schedule (replicate 16 (1%nat, no_input)) demo_back).

Definition demo_back_job : job := Eval vm_compute in default job_zero (sv_heap (pr_server demo_back) !! 1).
Definition demo_found_job : job := Eval vm_compute in default job_zero (sv_heap (pr_server demo_found) !! 1).

Lemma demo_back_reached : rtc (program_step demo_fixed) demo_done demo_back.
Proof.
  assert (Hin : Forall input_ok demo_back_inputs)
    by (repeat (apply Forall_cons_2; [split_and!; simpl; try exact I; apply demo_pick_fresh|]); apply Forall_nil_2).
  assert (H : fst <$> server_loop demo_fixed demo_back_inputs (pr_server demo_done) = Some LoopContinue)
    by (vm_compute; reflexivity).
  unfold demo_back. destruct demo_done as [s ts]. cbn [pr_server pr_threads] in *.
  apply (loop_runs demo_fixed demo_back_inputs); [exact Hin|].
  destruct (server_loop demo_fixed demo_back_inputs s) as [[o s']|]; [|discriminate H]. cbn in H |- *. by injection H as ->.
Qed.

Lemma demo_found_reached : rtc (program_step demo_fixed) demo_back demo_found.
Proof.
  apply (schedule_runs _ (replicate 16 (1%nat, no_input))). unfold demo_found.
  assert (H : match schedule (replicate 16 (1%nat, no_input)) demo_back with Some _ => true | None => false end = true)
    by (vm_compute; reflexivity).
  destruct (schedule _ demo_back); [reflexivity|discriminate H].
Qed.

Lemma demo_back_holds : queue_holds (sv_queue (pr_server demo_back)) (sv_nodes (pr_server demo_back)) [1].
Proof.
  assert (E1 : sv_queue (pr_server demo_back) = JobQueue (Some 0) (Some 0) false) by concrete.
  assert (E2 : sv_nodes (pr_server demo_back) = {[0 := JobNode 1 None]}) by concrete.
  rewrite E1, E2. exists [(0, 1)]. split; [|done]. constructor.
  - split; [reflexivity|]. exists None. split; [apply lookup_singleton_eq|reflexivity].
  - reflexivity.
  - apply NoDup_singleton.
  - intros n. rewrite lookup_singleton_is_Some. change ([(0, 1)].*1) with [0].
    rewrite list_elem_of_singleton. split; intros H; symmetry; exact H.
Qed.

Lemma threads_hide_witness :
  job_st demo_hidden_job = JOB_STATE_DONE /\ exists w',
    stego_decode (Some "storage/results/job_1.png"%string) (sv_world (pr_server demo_done)) =
      (inr (extracted STEGO_PAYLOAD_TEXT [] [72; 105]), w').
Proof.
  destruct (threads_hide demo_fixed (demo_world ∅) storage_globals_init 1000 [] []
    (Notifications (Conn [] [] [] []) [] (Watches 1 2 3) []) 2 demo_ready demo_done [demo_job] demo_job
    demo_hide_job demo_hidden_job "storage/results/job_1.png" STEGO_PAYLOAD_TEXT [72; 105]) as (Hst & _ & Hdec).
  - apply Forall_nil_2.
  - exact crc_inv_init.
  - exact demo_rooted.
  - exact demo_ready_reached.
  - exact demo_queued_holds.
  - left.
  - concrete.
  - exact demo_hide_request.
  - exact demo_done_runs.
  - concrete.
  - reflexivity.
  - reflexivity.
  - split; [exact Hst|exact Hdec].
Defined.

Lemma threads_roundtrip_witness :
  job_st demo_found_job = JOB_STATE_DONE /\
  w_fs (sv_world (pr_server demo_found)) !! "storage/results/job_2.txt"%string = Some [72; 105].
Proof.
  destruct (threads_roundtrip demo_fixed (demo_world ∅) storage_globals_init 1000 [] []
    (Notifications (Conn [] [] [] []) [] (Watches 1 2 3) []) 2 demo_ready demo_done demo_back demo_found
    [demo_job] demo_job demo_hide_job demo_hidden_job "storage/results/job_1.png" STEGO_PAYLOAD_TEXT [72; 105]
    [1] 1 demo_back_job demo_found_job "storage/results/job_2.txt") as (Hst & _ & Hfile & _).
  - apply Forall_nil_2.
  - exact crc_inv_init.
  - exact demo_rooted.
  - exact demo_ready_reached.
  - exact demo_queued_holds.
  - left.
  - concrete.
  - exact demo_hide_request.
  - exact demo_done_runs.
  - concrete.
  - reflexivity.
  - reflexivity.
  - exact demo_back_reached.
  - exact demo_back_holds.
  - left.
  - concrete.
  - reflexivity.
  - reflexivity.
  - constructor; [|concrete..]. apply reached_crc. etransitivity; [exact demo_ready_reached|].
    etransitivity; [exact demo_done_runs|exact demo_back_reached].
  - concrete.
  - decided.
  - concrete.
  - decided.
  - exact demo_found_reached.
  - concrete.
  - reflexivity.
  - reflexivity.
  - split; [exact Hst|exact Hfile].
Defined.
